(* ===== verification/_CoqProject ===== *)
-Q . S2P
Prelude.v
GoString.v
GoNum.v
Sha256.v
Json.v
ApiTypes.v
KubeTypes.v
KubectlVerb.v
Steps.v
Client.v
Retry.v
Writes.v
Safety.v
Signals.v
Correlator.v
Collectors.v
ControlPlane.v
Diagnosis.v
DiagnosisEngine.v
Executor.v
Ownership.v
Grounding.v
Prose.v
Disclosure.v
Refused.v
Divergence.v
RemediationController.v
Workload.v
Recovery.v
IncidentController.v
HealthCheck.v
Sizing.v
Planner.v
Plan.v
PlanSafety.v
Schema.v
Proposer.v
Sanction.v
Events.v
EventStore.v
EventPipeline.v
PersonaController.v
ClusterDiscovery.v
ClusterController.v
Usage.v
Protocol.v
WebSocket.v
Redact.v
Llm.v
PlanPrompt.v
PrometheusClient.v
ArgoCD.v
Harness.v
Manager.v
Lifecycle.v
Startup.v
Confidence.v
CrdSchema.v
Triples.v
IncidentSchema.v
StatusSchema.v
Admission.v
