(* ===== verification/Prelude.v ===== *)
(** * The Dorgu operator: a verification library

    Dorgu is a Kubernetes operator written in Go (the files under src/).  It
    watches a cluster for trouble, opens an IncidentMemory for what it finds,
    proposes a RemediationAction that a human approves, applies it to an
    ApplicationPersona, verifies the effect and rolls back.  This library models
    the operator's own logic, function by function, and proves what makes it
    safe and correct.  A definition has the name of the Go function it
    translates; where a Go method becomes a function of the same name as
    another, its type is put in front ([ClusterPersona_Reconcile]).

    ** The program's parts and the files that model them

    The health-check loop, one tick of it ([operator_cycle], Manager.v):
    - collect: Collectors.v (pods, nodes, saturation), ControlPlane.v (API
      server, leases), Usage.v (metrics-server) produce signals; Correlator.v
      attributes each to a persona; Signals.v groups them
      (src/internal/detection).
    - diagnose: Diagnosis.v (eight rules, binary64 confidence), DiagnosisEngine.v
      (providers, deduplication, namespace gate, AI rewording), Llm.v and
      Redact.v (the model's clients) (src/internal/diagnosis, internal/llm).
    - record: HealthCheck.v files, updates and closes incidents, Recovery.v says
      what counts as recovered (src/internal/controller/healthcheck_reconciler.go,
      incident_recovery.go, rejection_cooldown.go).
    - propose: Proposer.v runs the gates and picks a path; Sizing.v is the
      rules' path, Planner.v, PlanPrompt.v and Plan.v the model's; Grounding.v,
      Ownership.v, Prose.v, Disclosure.v, Refused.v and KubectlVerb.v shape and
      clean a plan; Safety.v holds the guardrails, Steps.v and Schema.v the rules
      of the plan's type (src/internal/remediation, api/v1).

    The controllers:
    - RemediationController.v, the lifecycle of an action, with Executor.v
      (apply, roll back, verify) and Divergence.v (what a rollback missed);
    - IncidentController.v (labels, conditions, counters), PersonaController.v
      (validation and health of an application), ClusterDiscovery.v and
      ClusterController.v (the cluster's persona and its bootstrap), ArgoCD.v;
    - Events.v, EventStore.v, EventPipeline.v: cluster events, classified,
      deduplicated, recorded, pruned and emitted (src/internal/events).

    Around them: Workload.v finds a persona's Deployment and its owner
    (src/internal/workload); Protocol.v and WebSocket.v are the server the CLI
    listens to (src/internal/websocket); PrometheusClient.v and Harness.v are
    internal/metrics; Manager.v is the configuration of src/cmd and composes all
    of it, Startup.v is [main] itself, from its flags to its exit, and Lifecycle.v
    the loops the process runs until it is cancelled ([Start] of the health check
    and of the event cleaner; that of the event watcher is in EventPipeline.v).

    What the API server checks: CrdSchema.v translates the validation markers of
    api/v1, with Confidence.v (which floats print as the pattern asks) and
    Schema.v (a proposed action); IncidentSchema.v, StatusSchema.v and Admission.v
    prove that what the operator writes meets them, edit by edit, controller by
    controller and for any run of them.

    Below them: this file (results, computations, generic lemmas), GoString.v and
    GoNum.v (the parts of Go's strings, fmt, strconv, time and float64 the code
    uses), Sha256.v, Json.v (documents, merge patches), ApiTypes.v and
    KubeTypes.v (the records), Client.v (the API server), Retry.v and Writes.v
    (retries; invariants of a computation's writes) and Triples.v (what a
    computation returns under an invariant).

    ** How state and effects are modelled

    A Go function that talks to the cluster is a computation [io W A], a function
    of an abstract world [W]: API server, caches, clock and the process's own
    memory.  [result E A] is a value or an error, [let*] stops at an error, [let!]
    goes on.  What is not under src/ is a class over [W], and a theorem names the
    law it needs: [Client] and [ClusterClient] (reads and writes; [ClientReads]:
    a read leaves the world alone), [Retry] and [Backoff] ([RetryLaws],
    [BackoffLaws]), [SortSlice] ([sort.Slice], not stable), [MapRange] (the order
    of a map), [QuantityOps] and [QuantitySum] ([resource.Quantity]), [SpecCodec],
    [PlanCodec], [LLMCodec] and [PromCodec] (encoding/json on typed values),
    [Http], [HttpGet] and [Transport] (requests), [LabelSelectors],
    [Unstructured], [ControlPlaneAPI], [MetricsAPI], [ArgoCDAPI], [OwnerReader],
    [EventClient], [EventRecorder].  Between components of the operator the same
    device is the interface: [LLM] ([client_llm] makes a client one), [Planner]
    ([plan_transport]), [EventSink], [Prometheus] ([prometheus_client]).  In-memory
    instances ([Mem], and extensions of it by [lift_client]) run the witnesses.

    Integers are [Z] with the wrap-around written out, float64 is IEEE binary64,
    text is bytes with the Unicode-aware helpers given on ASCII, times are
    nanoseconds in UTC.  A nil pointer is [None].  A panic is a value ([Panicked],
    or [None] of a validation).  Loops of unknown length are structural where the
    source ranges over a list; the searches over prose and [ReplaceAll] carry the
    length of the text as fuel, shown to be enough; the planner asks at most
    [maxParseRetries + 1] times and the bootstrap five times a cycle, as the code
    does.  The WebSocket server, where goroutines interleave, is a step relation
    with queues of 256; there an invariant holds in every reachable state.  A loop
    around a ticker is a machine too ([loop_step]): its channel holds one tick, a
    [select] with both ready takes either, a cycle is one step, and other writers
    come between two steps.

    ** What the theorems show

    - What may be written: [operator_creates_only_sanctioned] composes the whole
      tick, [Propose_gated], [Check_allowed_iff], [refused_value_offered_nowhere],
      [applyOwnershipShaping_spec], [calculateResourceChange_grounded],
      [cycle_preserves_schema], [sized_change_rolls_back] are its stages, and
      [planner_failure_falls_back] its error path.  [running_operator_sanctioned]
      carries it from one tick to the whole life of the process, and
      [writes_admitted] shows that a server which checks every write against the
      schema has nothing to refuse.
    - Start-up and the loops: [startup_outcome] (what runs, and what stops
      [main]), [loop_lifecycle] (cycles, ticks and the way to the end),
      [negative_interval_never_runs].
    - What may be told: [manager_never_tells], [key_stays_in_the_header],
      [prompt_hides_exclusions], [BuildContext_noninterference].
    - The lifecycle of an action: [dispatch_phase_step] (a state machine),
      [Executor_Apply_ok], [InspectRollback_honest], [transitions_counted],
      [unknown_verification_never_gives_up].
    - The life of an incident: [processDiagnosis_proposes],
      [resolveCleared_sweep], [verifyRecovery_recovered_iff],
      [incident_identity_invariant], [recurrence_stays_resolved].
    - Detection and diagnosis: [GroupSignals_partition], [Correlate_equiv],
      [RuleBased_Diagnose_sound], [usage_collector_life], [control_plane_signals].
    - Statuses: [persona_status_tells], [validate_panics_iff],
      [cluster_status_tells], [argocd_writes_one_status],
      [baseline_of_four_queries].
    - Events and messages: [dedup_exact], [cleanup_drains],
      [generateCRDName_bounds], [websocket_invariant],
      [broadcast_reaches_subscribers], [slow_client_leaks].
    - Progress and termination: [bootstrap_converges], [bootstrap_cycle],
      [searches_terminate]; round trips: [query_escape_roundtrip].

    Some theorems state a defect as it is, so that a repair will show:
    [recurrence_stays_resolved], [unknown_verification_never_gives_up],
    [slow_client_leaks], [validate_panics_iff], [negative_interval_never_runs]
    and the examples beside them, such as [long_names_are_refused],
    [cut_name_is_refused] and [long_owner_is_refused].

    ** Not modelled

    Generated code (api/v1/zz_generated.deepcopy.go: values are immutable here)
    and scheme registration; the parsing of flags and the TLS options, leader
    election and the bodies of SetupWithManager, which only call libraries (that
    each is called, in order, and what its failure does, is in Startup.v); log
    lines; of the schema, the specs people write, the lengths of condition
    messages and the minimum of [occurrenceCount]; the HTTP and socket
    layers, JSON text and label selectors, which are the classes above;
    Kubernetes itself, of which no more is assumed than a law class says.
    Controllers share the API server only, and a reconcile is one computation:
    where a theorem asks for [ClientReads], the write of another controller
    between two calls of the same reconcile is outside it, except as the
    conflict or the error the code has to expect from its own write. *)

From stdpp Require Export base gmap strings list fin_maps pretty sorting.
From Stdlib Require Export ZArith Lia.
From Stdlib Require Import Ascii.

#[export] Set Warnings "-register-all,-clear-no-such-hyp".

(** ** Fallible results

    A Go function that returns [(T, error)] is a [result E T]; one that also
    talks to the cluster is a computation over an abstract world [W]. *)

Inductive result (E T : Type) : Type :=
| Ok (t : T)
| Err (e : E).
Arguments Ok {E T} t.
Arguments Err {E T} e.

#[export] Instance result_ret {E} : MRet (result E) := fun _ => Ok.
#[export] Instance result_bind {E} : MBind (result E) := fun _ _ f m =>
  match m with Ok t => f t | Err e => Err e end.
#[export] Instance result_fmap {E} : FMap (result E) := fun _ _ f m =>
  match m with Ok t => Ok (f t) | Err e => Err e end.

Definition is_ok {E T} (r : result E T) : bool :=
  match r with Ok _ => true | Err _ => false end.

(** [map_err f r] is [fmt.Errorf] wrapping: the value is untouched. *)
Definition map_err {E F T} (f : E -> F) (r : result E T) : result F T :=
  match r with Ok t => Ok t | Err e => Err (f e) end.

(** A world-passing computation. [W] is the cluster as the client sees it. *)
Definition io (W A : Type) : Type := W -> A * W.

#[export] Instance io_ret {W} : MRet (io W) := fun _ a w => (a, w).
#[export] Instance io_bind {W} : MBind (io W) := fun _ _ f m w =>
  let '(a, w') := m w in f a w'.

(** Binding through both layers: stop at the first error, keep the world. *)
Definition iobind {W E A B} (m : io W (result E A)) (f : A -> io W (result E B))
  : io W (result E B) := fun w =>
  match m w with
  | (Ok a, w') => f a w'
  | (Err e, w') => (Err e, w')
  end.

(** [return v, nil] and [return nil, err]. *)
Definition iok {W E A} (a : A) : io W (result E A) := fun w => (Ok a, w).
Definition ierr {W E A} (e : E) : io W (result E A) := fun w => (Err e, w).

Declare Scope go_scope.
Delimit Scope go_scope with go.
Notation "'let*' x := m 'in' k" := (iobind m (fun x => k))
  (at level 10, x pattern, m at level 100, k at level 200) : go_scope.
Notation "'let!' x := m 'in' k" := (mbind (fun x => k) m)
  (at level 10, x pattern, m at level 100, k at level 200) : go_scope.
Open Scope go_scope.

(** ** Automation *)

(** [case_bools] splits on every boolean test of the goal and hypotheses. *)
Ltac case_match_eqn :=
  match goal with
  | H : context [ match ?x with _ => _ end ] |- _ => destruct x eqn:?
  | |- context [ match ?x with _ => _ end ] => destruct x eqn:?
  end.

(** [crush_cases] is the workhorse of the branch lemmas: split, simplify, close. *)
Ltac crush_cases :=
  repeat (simplify_eq/=; try case_match_eqn); simplify_eq/=; try done.

Create HintDb go discriminated.
Create Rewrite HintDb go_rw.
#[export] Hint Constants Transparent : go.

(** ** Booleans *)

Lemma andb_intro_iff (a b : bool) : a && b = true <-> a = true /\ b = true.
Proof. destruct a, b; naive_solver. Qed.

Lemma bool_eq_iff (a b : bool) : (a = true <-> b = true) -> a = b.
Proof. destruct a, b; naive_solver. Qed.

(** ** Lists *)

(** [find_first p l] is the Go idiom "loop, return at the first match". *)
Fixpoint find_first {A} (p : A -> bool) (l : list A) : option A :=
  match l with
  | [] => None
  | x :: l' => if p x then Some x else find_first p l'
  end.

Lemma find_first_Some {A} (p : A -> bool) l x :
  find_first p l = Some x -> x ∈ l /\ p x = true.
Proof.
  induction l as [|y l IH]; simpl; [done|].
  destruct (p y) eqn:Hy; intros; simplify_eq; [by split; [left|]|].
  destruct IH as [? ?]; [done|]. by split; [right|].
Qed.

Lemma find_first_split {A} (p : A -> bool) l x :
  find_first p l = Some x <-> exists before after, l = (before ++ x :: after)%list /\ p x = true /\ forall y, y ∈ before -> p y = false.
Proof.
  induction l as [|a l IH]; cbn [find_first]; [split; [done|by intros ([|? ?] & ? & ? & _)]|]. destruct (p a) eqn:Ha.
  - split; [intros [= ->]; exists [], l; split_and!; [done|done|by intros y ?%not_elem_of_nil]|].
    intros ([|b before] & after & [= -> ->] & Hx & Hb); [done|]. specialize (Hb b). rewrite Hb in Ha; [done|by left].
  - rewrite IH. split.
    + intros (before & after & -> & Hx & Hb). exists (a :: before), after. split_and!; [done|done|]. intros y [->|Hy]%elem_of_cons; auto.
    + intros ([|b before] & after & [= -> ->] & Hx & Hb); [congruence|]. exists before, after. split_and!; [done|done|]. intros y Hy. apply Hb. by right.
Qed.

Lemma find_first_None {A} (p : A -> bool) l :
  find_first p l = None <-> forall x, x ∈ l -> p x = false.
Proof.
  induction l as [|y l IH]; simpl; [split; [by intros _ x ?%not_elem_of_nil|done]|].
  destruct (p y) eqn:Hy; split.
  - done.
  - intros H. specialize (H y (list_elem_of_here _ _)). congruence.
  - intros H x [->|Hx]%elem_of_cons; [done|]. by apply IH.
  - intros H. apply IH. intros x Hx. apply H. by right.
Qed.

Lemma existsb_elem {A} (p : A -> bool) (l : list A) :
  existsb p l = true <-> exists x, x ∈ l /\ p x = true.
Proof.
  rewrite existsb_exists. split; intros (x & Hx & Hp); exists x; split; try done;
    by apply list_elem_of_In.
Qed.

Lemma existsb_not_elem {A} (p : A -> bool) (l : list A) :
  existsb p l = false <-> forall x, x ∈ l -> p x = false.
Proof.
  induction l as [|y l IH]; simpl; [split; [by intros _ x ?%not_elem_of_nil|done]|].
  rewrite orb_false_iff, IH. split.
  - intros [Hy Hl] x [->|Hx]%elem_of_cons; auto.
  - intros H. split; [apply H; by left|intros x Hx; apply H; by right].
Qed.

Lemma bfilter_none {A} (f : A -> bool) l :
  List.filter f l = [] <-> forall x, x ∈ l -> f x = false.
Proof.
  induction l as [|x l IH]; simpl; [split; [by intros _ x ?%not_elem_of_nil|done]|].
  destruct (f x) eqn:Hx; split.
  - done.
  - intros H. specialize (H x (list_elem_of_here _ _)). congruence.
  - intros H y [->|Hy]%elem_of_cons; [done|]. by apply IH.
  - intros H. apply IH. intros y Hy. apply H. by right.
Qed.

(** A filter that keeps one element kept it at one place only. *)
Lemma bfilter_singleton {A} (f : A -> bool) l x :
  List.filter f l = [x] ->
  exists l1 l2, l = l1 ++ x :: l2 /\ f x = true /\ forall y, y ∈ l1 ++ l2 -> f y = false.
Proof.
  induction l as [|y l IH]; simpl; [done|]. destruct (f y) eqn:Hy.
  - intros [= <- Hl]. exists [], l. split_and!; try done. by apply bfilter_none.
  - intros (l1 & l2 & -> & Hx & Hl)%IH. exists (y :: l1), l2. split_and!; try done.
    intros z [->|Hz]%elem_of_cons; auto.
Qed.

Lemma omap_cons {A B} (f : A -> option B) x l :
  omap f (x :: l) = match f x with Some y => y :: omap f l | None => omap f l end.
Proof. done. Qed.

(** ** Insertion sort over a boolean order *)

Section insertion_sort.
Context {A : Type} (leb : A -> A -> bool).

Fixpoint insert_sorted (x : A) (l : list A) : list A :=
  match l with
  | [] => [x]
  | y :: l' => if leb x y then x :: y :: l' else y :: insert_sorted x l'
  end.

Definition insertion_sort (l : list A) : list A := foldr insert_sorted [] l.

Lemma insert_sorted_perm x l : insert_sorted x l ≡ₚ x :: l.
Proof.
  induction l as [|y l IH]; simpl; [done|].
  destruct (leb x y); [done|]. rewrite IH. constructor.
Qed.

Lemma insertion_sort_perm l : insertion_sort l ≡ₚ l.
Proof. induction l as [|x l IH]; simpl; [done|]. by rewrite insert_sorted_perm, IH. Qed.

(** The order need only be an order on the elements at hand. *)
Context (P : A -> Prop).
Context (leb_total : forall x y, P x -> P y -> leb x y = true \/ leb y x = true).
Context (leb_trans : forall x y z, P x -> P y -> P z -> leb x y = true -> leb y z = true -> leb x z = true).

Lemma insert_sorted_sorted_on x l : P x -> Forall P l ->
  StronglySorted (fun a b => leb a b = true) l ->
  StronglySorted (fun a b => leb a b = true) (insert_sorted x l).
Proof.
  intros Hx Hl. induction 1 as [|y l Hs IH Hy]; simpl; [repeat constructor|]. inversion Hl; subst.
  destruct (leb x y) eqn:Hxy; constructor; auto.
  - by constructor.
  - constructor; [done|]. rewrite Forall_forall in *. intros z Hz. eapply (leb_trans x y z); eauto.
  - rewrite insert_sorted_perm. constructor; [|done]. destruct (leb_total x y); auto. congruence.
Qed.

Lemma insertion_sort_sorted_on l : Forall P l ->
  StronglySorted (fun a b => leb a b = true) (insertion_sort l).
Proof.
  induction 1; simpl; [constructor|]. apply insert_sorted_sorted_on; [done| |done].
  by rewrite insertion_sort_perm.
Qed.
End insertion_sort.

Lemma insertion_sort_sorted {A} (leb : A -> A -> bool) l :
  (forall x y, leb x y = true \/ leb y x = true) ->
  (forall x y z, leb x y = true -> leb y z = true -> leb x z = true) ->
  StronglySorted (fun a b => leb a b = true) (insertion_sort leb l).
Proof. intros ??. apply (insertion_sort_sorted_on leb (fun _ => True)); eauto. by apply Forall_true. Qed.

#[export] Hint Resolve insertion_sort_perm : go.

(** ** The order of a range over a map

    Go visits the keys of a map in an order of its own choosing. *)
Class MapRange := range_keys : gset string -> list string.
Class MapRangeSpec `{MapRange} : Prop := range_keys_perm (s : gset string) : range_keys s ≡ₚ elements s.

#[export] Instance range_in_order : MapRange := elements.
#[export] Instance range_in_order_spec : MapRangeSpec.
Proof. by intros s. Qed.
