(* ===== verification/GoString.v ===== *)
(** * Go's [strings], [sort.Strings] and [fmt] verbs, as far as the operator uses them.

    A Go string is a byte string: [String.string].  [len] is the number of
    bytes and [s[a:b]] a byte slice.  The Unicode-aware helpers ([TrimSpace],
    [Fields], [ToLower], [EqualFold], [%q]) are given on ASCII: Kubernetes
    names, label keys, phases and flags are ASCII, and a byte above 127 is left
    unchanged by all of them here. *)

From S2P Require Import Prelude.
From Stdlib Require Import String Ascii.
From stdpp Require Import strings pretty.
Open Scope string_scope.

#[global] Arguments String.append !_ _ : simpl nomatch.

(** ** Bytes *)

Definition byte_in (lo hi c : ascii) : bool :=
  (N_of_ascii lo <=? N_of_ascii c)%N && (N_of_ascii c <=? N_of_ascii hi)%N.
Definition is_lower (c : ascii) : bool := byte_in "a" "z" c.
Definition is_upper (c : ascii) : bool := byte_in "A" "Z" c.
Definition is_digit (c : ascii) : bool := byte_in "0" "9" c.

(** ASCII white space: [\t \n \v \f \r] and the blank. *)
Definition is_space (c : ascii) : bool :=
  let n := N_of_ascii c in ((9 <=? n) && (n <=? 13) || (n =? 32))%N.

Definition to_lower_byte (c : ascii) : ascii :=
  if is_upper c then ascii_of_N (N_of_ascii c + 32) else c.

Fixpoint str_map (f : ascii -> ascii) (s : string) : string :=
  match s with "" => "" | String c s' => String (f c) (str_map f s') end.

Fixpoint str_exists (p : ascii -> bool) (s : string) : bool :=
  match s with "" => false | String c s' => p c || str_exists p s' end.

Definition str_forall (p : ascii -> bool) (s : string) : bool :=
  negb (str_exists (fun c => negb (p c)) s).

(** ** Prefixes, suffixes, searching *)

(** [strings.CutPrefix(s, p)]. *)
Fixpoint cut_prefix (s p : string) : option string :=
  match p, s with
  | "", _ => Some s
  | String a p', String b s' => if Ascii.eqb a b then cut_prefix s' p' else None
  | String _ _, "" => None
  end.

(** [strings.HasPrefix(s, p)]. *)
Definition has_prefix (s p : string) : bool :=
  match cut_prefix s p with Some _ => true | None => false end.

(** [strings.TrimPrefix(s, p)]. *)
Definition trim_prefix (s p : string) : string :=
  match cut_prefix s p with Some r => r | None => s end.

(** [strings.Cut(s, sep)]: text before and after the first [sep]. *)
Fixpoint cut (s sep : string) : option (string * string) :=
  match cut_prefix s sep with
  | Some r => Some ("", r)
  | None => match s with
            | "" => None
            | String c s' => match cut s' sep with
                             | Some (b, a) => Some (String c b, a)
                             | None => None
                             end
            end
  end.

(** [strings.Contains(s, sub)]. *)
Definition contains (s sub : string) : bool :=
  match cut s sub with Some _ => true | None => false end.

(** [strings.HasSuffix(s, p)]. *)
Fixpoint has_suffix (s p : string) : bool :=
  (s =? p)%string ||
  match s with "" => false | String _ s' => has_suffix s' p end.

(** [strings.ContainsAny(s, chars)]. *)
Definition contains_any (s chars : string) : bool :=
  str_exists (fun c => str_exists (Ascii.eqb c) chars) s.

(** Split at the last byte [c]: [strings.LastIndexByte], with both halves. *)
Fixpoint cut_last (c : ascii) (s : string) : option (string * string) :=
  match s with
  | "" => None
  | String d s' => match cut_last c s' with
                   | Some (b, a) => Some (String d b, a)
                   | None => if Ascii.eqb c d then Some ("", s') else None
                   end
  end.

(** [s[:n]] for [n] in range, and [s] itself when it is shorter. *)
Fixpoint str_take (n : nat) (s : string) : string :=
  match n, s with
  | S n', String c s' => String c (str_take n' s')
  | _, _ => ""
  end.

(** ** Case, blanks, fields, joining *)

Definition to_lower (s : string) : string := str_map to_lower_byte s.
Definition equal_fold (s t : string) : bool := (to_lower s =? to_lower t)%string.

Fixpoint trim_left_space (s : string) : string :=
  match s with String c s' => if is_space c then trim_left_space s' else s | "" => "" end.

(** Drop the trailing blanks: a string of blanks becomes empty. *)
Fixpoint trim_right_space (s : string) : string :=
  match s with
  | "" => ""
  | String c s' => match trim_right_space s' with
                   | "" => if is_space c then "" else String c ""
                   | r => String c r
                   end
  end.

(** [strings.TrimSpace]. *)
Definition trim_space (s : string) : string := trim_right_space (trim_left_space s).

Definition nonempty_cons (s : string) (l : list string) : list string :=
  match s with "" => l | _ => s :: l end.

(** [strings.Fields]: the maximal runs of non-blanks. The first component is
    the run being read. *)
Fixpoint fields_aux (s : string) : string * list string :=
  match s with
  | "" => ("", [])
  | String c s' => let '(w, l) := fields_aux s' in
      if is_space c then ("", nonempty_cons w l) else (String c w, l)
  end.
Definition fields (s : string) : list string :=
  let '(w, l) := fields_aux s in nonempty_cons w l.

(** [strings.Join]. *)
Fixpoint strings_join (sep : string) (l : list string) : string :=
  match l with
  | [] => ""
  | [x] => x
  | x :: l' => x ++ sep ++ strings_join sep l'
  end.

(** [strings.Split(s, string(c))] for a one-byte separator. *)
Fixpoint split_byte (c : ascii) (s : string) : list string :=
  match s with
  | "" => [""]
  | String d s' => if Ascii.eqb c d then "" :: split_byte c s'
                   else match split_byte c s' with
                        | [] => [String d ""]
                        | w :: l => String d w :: l
                        end
  end.

(** ** [sort.Strings] *)

Definition sort_strings (l : list string) : list string := insertion_sort String.leb l.

(** ** [fmt] verbs *)

(** [%d]. *)
Definition fmt_d (z : Z) : string := pretty z.

Definition dquote : string := String (ascii_of_N 34) "".

Definition hex_digit (n : N) : ascii :=
  if (n <? 10)%N then ascii_of_N (48 + n) else ascii_of_N (87 + n).

Definition escaped (d : ascii) : string := String "\" (String d "").

(** [%q] on one byte ([strconv.Quote]). *)
Definition quote_byte (c : ascii) : string :=
  let n := N_of_ascii c in
  match n with
  | 7%N => escaped "a" | 8%N => escaped "b" | 12%N => escaped "f" | 10%N => escaped "n"
  | 13%N => escaped "r" | 9%N => escaped "t" | 11%N => escaped "v" | 92%N => escaped "\"
  | 34%N => String "\" dquote
  | _ => if ((n <? 32) || (n =? 127))%N
         then String "\" (String "x" (String (hex_digit (n / 16)) (String (hex_digit (n mod 16)) "")))
         else String c ""
  end.

Fixpoint quote_bytes (s : string) : string :=
  match s with "" => "" | String c s' => quote_byte c ++ quote_bytes s' end.

Definition fmt_q (s : string) : string := dquote ++ quote_bytes s ++ dquote.

(** ** Lemmas *)

Lemma cut_prefix_spec s p r : cut_prefix s p = Some r <-> s = p ++ r.
Proof.
  revert s. induction p as [|a p IH]; intros [|b s]; simpl; try by clear; naive_solver.
  destruct (Ascii.eqb_spec a b) as [->|Hne]; rewrite ?IH; naive_solver.
Qed.

Lemma has_prefix_spec s p : has_prefix s p = true <-> exists r, s = p ++ r.
Proof.
  unfold has_prefix. split.
  - destruct (cut_prefix s p) as [r|] eqn:H; [|done]. apply cut_prefix_spec in H. eauto.
  - intros [r Hr]. apply cut_prefix_spec in Hr. by rewrite Hr.
Qed.

Lemma trim_prefix_app p r : trim_prefix (p ++ r) p = r.
Proof. unfold trim_prefix. by rewrite (proj2 (cut_prefix_spec _ _ _) eq_refl). Qed.

Lemma str_app_nil_r (s : string) : s ++ "" = s.
Proof. induction s; simpl; congruence. Qed.

Lemma str_app_assoc (s t u : string) : (s ++ t) ++ u = s ++ (t ++ u).
Proof. induction s; simpl; congruence. Qed.

Lemma str_app_inv_head (s t u : string) : s ++ t = s ++ u -> t = u.
Proof. induction s; simpl; naive_solver. Qed.

Lemma str_length_app (s t : string) : String.length (s ++ t) = String.length s + String.length t.
Proof. induction s; simpl; auto. Qed.

Lemma str_app_inv_tail (s t u : string) : s ++ u = t ++ u -> s = t.
Proof.
  revert t. induction s as [|a s IH]; intros [|b t] H; simpl in *; simplify_eq; try done.
  - apply (f_equal String.length) in H. simpl in H. rewrite str_length_app in H. lia.
  - apply (f_equal String.length) in H. simpl in H. rewrite str_length_app in H. lia.
  - by rewrite (IH t).
Qed.

Lemma str_take_length n s : (String.length (str_take n s) <= n)%nat.
Proof. revert s. induction n; intros [|c s]; simpl; auto with arith. Qed.

Lemma str_exists_app p s t : str_exists p (s ++ t) = str_exists p s || str_exists p t.
Proof. induction s; simpl; [done|]. by rewrite IHs, orb_assoc. Qed.

Lemma str_exists_take p n s : str_exists p s = false -> str_exists p (str_take n s) = false.
Proof.
  revert s. induction n; intros [|c s]; simpl; try done.
  rewrite !orb_false_iff. naive_solver.
Qed.

(** Two strings split at a byte neither first part contains split the same way. *)
Lemma str_split_inj c s t s' t' :
  str_exists (Ascii.eqb c) s = false -> str_exists (Ascii.eqb c) s' = false ->
  s ++ String c t = s' ++ String c t' -> s = s' /\ t = t'.
Proof.
  revert s'. induction s as [|a s IH]; intros [|b s'] Hs Hs' H; simpl in *.
  - by simplify_eq.
  - injection H as -> _. by rewrite Ascii.eqb_refl in Hs'.
  - injection H as -> _. by rewrite Ascii.eqb_refl in Hs.
  - injection H as -> H. apply orb_false_iff in Hs as [_ Hs], Hs' as [_ Hs'].
    by destruct (IH s' Hs Hs' H) as [-> ->].
Qed.

#[export] Hint Rewrite str_app_nil_r str_app_assoc : go_rw.
#[export] Hint Resolve str_take_length : go.

(** *** The order behind [sort.Strings] *)

Lemma ascii_compare_spec a b :
  CompareSpec (a = b) (N_of_ascii a < N_of_ascii b)%N (N_of_ascii b < N_of_ascii a)%N (Ascii.compare a b).
Proof.
  unfold Ascii.compare. destruct (N.compare_spec (N_of_ascii a) (N_of_ascii b)) as [H|H|H]; constructor; try done.
  by rewrite <- (ascii_N_embedding a), <- (ascii_N_embedding b), H.
Qed.

Lemma str_leb_cons a s b t :
  String.leb (String a s) (String b t) = true <->
  (N_of_ascii a < N_of_ascii b)%N \/ (a = b /\ String.leb s t = true).
Proof.
  unfold String.leb. simpl. destruct (ascii_compare_spec a b) as [->|H|H].
  - destruct (s ?= t)%string; naive_solver lia.
  - naive_solver lia.
  - split; [done|]. intros [?|[-> _]]; lia.
Qed.

Lemma str_leb_trans s t u : String.leb s t = true -> String.leb t u = true -> String.leb s u = true.
Proof.
  revert t u. induction s as [|a s IH]; intros [|b t] [|c u]; try done.
  rewrite !str_leb_cons. naive_solver lia.
Qed.

Lemma sort_strings_perm l : sort_strings l ≡ₚ l.
Proof. apply insertion_sort_perm. Qed.

Lemma sort_strings_sorted l : StronglySorted (fun a b => String.leb a b = true) (sort_strings l).
Proof. apply insertion_sort_sorted; [apply String.leb_total|apply str_leb_trans]. Qed.

(** [sort.Strings] gives the same slice whatever order the map handed out. *)
Lemma sort_strings_proper l l' : l ≡ₚ l' -> sort_strings l = sort_strings l'.
Proof.
  intros H. assert (Hp : sort_strings l ≡ₚ sort_strings l') by by rewrite !sort_strings_perm.
  revert Hp. generalize (sort_strings_sorted l) (sort_strings_sorted l').
  generalize (sort_strings l) (sort_strings l'). clear.
  intros k. induction k as [|x k IH]; intros k' Hk Hk' Hp.
  { by apply Permutation_nil in Hp. }
  destruct k' as [|y k']; [by apply Permutation_sym, Permutation_nil_cons in Hp|].
  inversion Hk as [|?? Hk1 Hx]; inversion Hk' as [|?? Hk1' Hy]; subst.
  assert (x = y) as ->.
  { assert (x ∈ y :: k') as [->|Hin]%elem_of_cons by (rewrite <- Hp; left); [done|].
    assert (y ∈ x :: k) as [->|Hin']%elem_of_cons by (rewrite Hp; left); [done|].
    rewrite Forall_forall in Hx, Hy. apply String.leb_antisym; auto. }
  f_equal. apply IH; try done. by apply Permutation_cons_inv in Hp.
Qed.
