(* ===== verification/GoNum.v ===== *)
(** * Go's numbers and time: [int32], [int64], [float64], [time.Time], [time.Duration].

    Machine integers are [Z] with the wrap-around written out.  [float64] is
    IEEE 754 binary64, computed by Rocq's executable [SpecFloat] model (round to
    nearest even), so thresholds, ratios and confidence scores are the numbers the
    program computes and not idealised reals. *)

From S2P Require Import Prelude GoString.
From Corelib Require Export SpecFloat.
From Stdlib Require Import String Ascii.
From stdpp Require Import strings pretty.
Open Scope string_scope.

(** ** Fixed-width integers *)

Definition wrap (w : Z) (z : Z) : Z := (z + 2 ^ (w - 1)) `mod` 2 ^ w - 2 ^ (w - 1).
Definition wrap32 : Z -> Z := wrap 32.
Definition wrap64 : Z -> Z := wrap 64.
Definition max_int64 : Z := 2 ^ 63 - 1.
Definition min_int64 : Z := - 2 ^ 63.

(** ** binary64 *)

Definition f64 : Type := spec_float.
Definition f_prec : Z := 53.
Definition f_emax : Z := 1024.
Definition fadd : f64 -> f64 -> f64 := SFadd f_prec f_emax.
Definition fsub : f64 -> f64 -> f64 := SFsub f_prec f_emax.
Definition fmul : f64 -> f64 -> f64 := SFmul f_prec f_emax.
Definition fdiv : f64 -> f64 -> f64 := SFdiv f_prec f_emax.
Definition f_lt : f64 -> f64 -> bool := SFltb.
Definition f_le : f64 -> f64 -> bool := SFleb.
Definition f_eq : f64 -> f64 -> bool := SFeqb.

(** [float64(z)], rounded to nearest even. *)
Definition f_of_Z (z : Z) : f64 := binary_normalize f_prec f_emax z 0 false.

(** A decimal literal [n/d]: the correctly rounded quotient of two exact floats. *)
Definition f_lit (n d : Z) : f64 := fdiv (f_of_Z n) (f_of_Z d).

Definition f_zero : f64 := S754_zero false.
Definition f_one : f64 := f_of_Z 1.

Definition f_is_nan (x : f64) : bool := match x with S754_nan => true | _ => false end.

#[export] Instance f64_eq_dec : EqDecision f64.
Proof. solve_decision. Defined.

Definition f_signbit (x : f64) : bool :=
  match x with
  | S754_zero s | S754_infinity s | S754_finite s _ _ => s
  | S754_nan => false
  end.

(** [math.Max] and [math.Min], with Go's cases for infinities, NaN and zeros. *)
Definition f_max (x y : f64) : f64 :=
  match x, y with
  | S754_infinity false, _ | _, S754_infinity false => S754_infinity false
  | S754_nan, _ | _, S754_nan => S754_nan
  | S754_zero sx, S754_zero _ => if sx then y else x
  | _, _ => if f_lt y x then x else y
  end.

Definition f_min (x y : f64) : f64 :=
  match x, y with
  | S754_infinity true, _ | _, S754_infinity true => S754_infinity true
  | S754_nan, _ | _, S754_nan => S754_nan
  | S754_zero sx, S754_zero _ => if sx then x else y
  | _, _ => if f_lt x y then x else y
  end.

(** [int64(x)]: truncation; outside the range, the amd64 result. *)
Definition f_trunc (x : f64) : Z :=
  match x with
  | S754_finite s m e =>
      let z := if (0 <=? e)%Z then (Zpos m * 2 ^ e)%Z else (Zpos m `div` 2 ^ (- e))%Z in
      let z := if s then (- z)%Z else z in
      if ((min_int64 <=? z) && (z <=? max_int64))%Z then z else min_int64
  | S754_zero _ => 0%Z
  | _ => min_int64
  end.

(** [int64(math.Round(x))]: half away from zero. *)
Definition f_round (x : f64) : Z :=
  match x with
  | S754_finite s m e =>
      let z := if (0 <=? e)%Z then (Zpos m * 2 ^ e)%Z else ((Zpos m + 2 ^ (- e - 1)) `div` 2 ^ (- e))%Z in
      let z := if s then (- z)%Z else z in
      if ((min_int64 <=? z) && (z <=? max_int64))%Z then z else min_int64
  | S754_zero _ => 0%Z
  | _ => min_int64
  end.

(** *** [%.nf]: the exact value rounded half to even at [n] decimals. *)

Definition round_half_even (num den : Z) : Z :=
  let q := (num `div` den)%Z in
  let r := (num `mod` den)%Z in
  match Z.compare (2 * r) den with
  | Lt => q
  | Gt => (q + 1)%Z
  | Eq => if Z.even q then q else (q + 1)%Z
  end.

Fixpoint zero_pad (n : nat) : string :=
  match n with O => "" | S n' => String "0" (zero_pad n') end.

(** [n] decimal digits of [z], left-padded. *)
Definition pad_left (n : nat) (z : Z) : string :=
  let s := fmt_d z in zero_pad (n - String.length s) +:+ s.

Definition fmt_fixed (n : nat) (scaled : Z) : string :=
  match n with
  | O => fmt_d scaled
  | _ => fmt_d (scaled `div` 10 ^ Z.of_nat n) +:+ "." +:+ pad_left n (scaled `mod` 10 ^ Z.of_nat n)
  end%Z.

Definition fmt_f (n : nat) (x : f64) : string :=
  match x with
  | S754_nan => "NaN"
  | S754_infinity s => if s then "-Inf" else "+Inf"
  | S754_zero s => (if s then "-" else "") +:+ fmt_fixed n 0
  | S754_finite s m e =>
      let num := (Zpos m * 10 ^ Z.of_nat n)%Z in
      let scaled := if (0 <=? e)%Z then (num * 2 ^ e)%Z else round_half_even num (2 ^ (- e)) in
      (if s then "-" else "") +:+ fmt_fixed n scaled
  end.

(** ** Time *)

(** An instant in nanoseconds since Go's zero time; the zero [time.Time] is [0]. *)
Definition time : Type := Z.
Definition duration : Type := Z.

Definition t_is_zero (t : time) : bool := (t =? 0)%Z.
Definition t_after (t u : time) : bool := (u <? t)%Z.
Definition t_before (t u : time) : bool := (t <? u)%Z.
Definition t_add (t : time) (d : duration) : time := (t + d)%Z.

(** [t.Sub(u)] saturates at the range of a [Duration]. *)
Definition t_sub (t u : time) : duration := Z.max min_int64 (Z.min max_int64 (t - u)).

Definition nanosecond : duration := 1%Z.
Definition microsecond : duration := 1000%Z.
Definition millisecond : duration := 1000000%Z.
Definition second : duration := 1000000000%Z.
Definition minute : duration := (60 * second)%Z.
Definition hour : duration := (60 * minute)%Z.

(** [d.Seconds()] and [d.Minutes()]: integral part plus fractional part. *)
Definition d_seconds (d : duration) : f64 :=
  fadd (f_of_Z (Z.quot d second)) (fdiv (f_of_Z (Z.rem d second)) (f_of_Z 1000000000)).
Definition d_minutes (d : duration) : f64 :=
  fadd (f_of_Z (Z.quot d minute)) (fdiv (f_of_Z (Z.rem d minute)) (f_of_Z (60 * 1000000000))).

(** [d.Round(m)]: to the nearest multiple of [m], halves away from zero. *)
Definition d_round (d m : duration) : duration :=
  if (m <=? 0)%Z then d else
  let r := Z.abs (Z.rem d m) in
  if (d <? 0)%Z
  then if (2 * r <? m)%Z then (d + r)%Z else Z.max min_int64 (d - m + r)
  else if (2 * r <? m)%Z then (d - r)%Z else Z.min max_int64 (d + m - r).

Fixpoint trim_zeros (s : string) : string :=
  match s with
  | "" => ""
  | String c s' => match trim_zeros s' with
                   | "" => if Ascii.eqb c "0" then "" else String c ""
                   | r => String c r
                   end
  end.

(** Integer and fractional digits of [v / 10^n], trailing zeros dropped. *)
Definition fmt_frac (v : Z) (n : nat) : string :=
  let whole := fmt_d (v `div` 10 ^ Z.of_nat n) in
  match trim_zeros (pad_left n (v `mod` 10 ^ Z.of_nat n)) with
  | "" => whole
  | f => whole +:+ "." +:+ f
  end.

Definition micro_sign : string := String (Ascii.ascii_of_N 194) (String (Ascii.ascii_of_N 181) "").

(** [d.String()], the [%s] of a duration. *)
Definition fmt_duration (d : duration) : string :=
  let u := Z.abs d in
  (if (d <? 0)%Z then "-" else "") +:+
  (if (u =? 0)%Z then "0s"
   else if (u <? microsecond)%Z then fmt_d u +:+ "ns"
   else if (u <? millisecond)%Z then fmt_frac u 3 +:+ micro_sign +:+ "s"
   else if (u <? second)%Z then fmt_frac u 6 +:+ "ms"
   else
     let secs := fmt_frac (u `mod` minute) 9 +:+ "s" in
     if (u <? minute)%Z then secs
     else let mins := fmt_d ((u `div` minute) `mod` 60)%Z +:+ "m" +:+ secs in
          if (u <? hour)%Z then mins else fmt_d (u `div` hour)%Z +:+ "h" +:+ mins).

(** *** [strconv.ParseFloat(s, 64)] *)

(** The float nearest to [num / den]: enough quotient bits, and a sticky one. *)
Definition f_of_ratio (num den : Z) : f64 :=
  let k := Z.max 0 (Z.log2 den - Z.log2 num + 66) in
  let n := Z.shiftl num k in
  binary_normalize f_prec f_emax (2 * (n `div` den) + (if (n `mod` den =? 0)%Z then 0 else 1)) (- (k + 1)) false.

(** [m * 10^e]. *)
Definition f_of_decimal (neg : bool) (m e : Z) : f64 :=
  let x := if (m =? 0)%Z then f_zero
           else if (0 <=? e)%Z then f_of_ratio (m * 10 ^ e) 1 else f_of_ratio m (10 ^ (- e)) in
  if neg then SFopp x else x.

Definition digit_val (c : Ascii.ascii) : Z := Z.of_N (Ascii.N_of_ascii c) - 48.

(** The digits of a mantissa: value, digits after the point, whether any was seen. *)
Fixpoint scan_mantissa (s : string) (m frac : Z) (point seen : bool) : (Z * Z * bool) * string :=
  match s with
  | String c s' =>
      if is_digit c then scan_mantissa s' (10 * m + digit_val c) (if point then frac + 1 else frac) point true
      else if Ascii.eqb c "." && negb point then scan_mantissa s' m frac true seen
      else ((m, frac, seen), s)
  | "" => ((m, frac, seen), "")
  end%Z.

(** The exponent digits; the value saturates as in the source of [readFloat]. *)
Fixpoint scan_exponent (s : string) (e : Z) : Z * string :=
  match s with
  | String c s' => if is_digit c then scan_exponent s' (if (e <? 10000)%Z then 10 * e + digit_val c else e)%Z else (e, s)
  | "" => (e, "")
  end.

Definition split_sign (s : string) : bool * string :=
  match s with
  | String c s' => if Ascii.eqb c "-" then (true, s') else if Ascii.eqb c "+" then (false, s') else (false, s)
  | "" => (false, "")
  end.

Definition parse_exponent (s : string) : option Z :=
  match s with
  | "" => Some 0%Z
  | String c s' =>
      if Ascii.eqb c "e" || Ascii.eqb c "E" then
        let '(neg, digits) := split_sign s' in
        match digits with
        | String d _ => if is_digit d then
                          match scan_exponent digits 0 with
                          | (e, "") => Some (if neg then - e else e)%Z
                          | _ => None
                          end
                        else None
        | "" => None
        end
      else None
  end.

(** [None] is a non-nil error: bad syntax, or out of range.  Hexadecimal floats
    are outside the model. *)
Definition ParseFloat (s : string) : option f64 :=
  let '(neg, body) := split_sign s in
  if equal_fold body "inf" || equal_fold body "infinity" then Some (S754_infinity neg)
  else if equal_fold s "nan" then Some S754_nan
  else match scan_mantissa body 0 0 false false with
       | ((m, frac, true), rest) =>
           match parse_exponent rest with
           | None => None
           | Some e => match f_of_decimal neg m (e - frac) with
                       | S754_infinity _ => None
                       | x => Some x
                       end
           end
       | _ => None
       end.

Example ParseFloat_confidence : ParseFloat "0.90" = Some (f_lit 90 100).
Proof. vm_compute. reflexivity. Qed.
Example ParseFloat_tenth : ParseFloat "1e-1" = Some (f_lit 1 10).
Proof. vm_compute. reflexivity. Qed.
Example ParseFloat_max : ParseFloat "1.7976931348623157e308" = Some (S754_finite false 9007199254740991 971).
Proof. vm_compute. reflexivity. Qed.
Example ParseFloat_range : ParseFloat "1e309" = None /\ ParseFloat "" = None /\ ParseFloat "0.9.1" = None.
Proof. vm_compute. split_and!; reflexivity. Qed.

(** ** Lemmas *)

Lemma wrap_small w z : (0 < w)%Z -> (- 2 ^ (w - 1) <= z < 2 ^ (w - 1))%Z -> wrap w z = z.
Proof.
  intros Hw H. unfold wrap.
  assert (2 ^ w = 2 * 2 ^ (w - 1))%Z by (rewrite <- Z.pow_succ_r by lia; f_equal; lia).
  rewrite Z.mod_small; lia.
Qed.

Lemma wrap_range w z : (0 < w)%Z -> (- 2 ^ (w - 1) <= wrap w z < 2 ^ (w - 1))%Z.
Proof.
  intros Hw. unfold wrap.
  assert (2 ^ w = 2 * 2 ^ (w - 1))%Z by (rewrite <- Z.pow_succ_r by lia; f_equal; lia).
  pose proof (Z.pow_pos_nonneg 2 (w - 1)). pose proof (Z.mod_pos_bound (z + 2 ^ (w - 1)) (2 ^ w)). lia.
Qed.

(** Wrapping sums: the intermediate wraps do not matter. *)
Lemma wrap_add_l w a b : (0 < w)%Z -> wrap w (wrap w a + b) = wrap w (a + b).
Proof.
  intros Hw. assert (0 < 2 ^ w)%Z by (apply Z.pow_pos_nonneg; lia). unfold wrap.
  replace ((a + 2 ^ (w - 1)) `mod` 2 ^ w - 2 ^ (w - 1) + b + 2 ^ (w - 1))%Z
    with ((a + 2 ^ (w - 1)) `mod` 2 ^ w + b)%Z by lia.
  rewrite Z.add_mod_idemp_l by lia. do 2 f_equal. lia.
Qed.

Lemma t_sub_exact t u : (min_int64 <= t - u <= max_int64)%Z -> t_sub t u = (t - u)%Z.
Proof. unfold t_sub. lia. Qed.

Lemma t_sub_mono t t' u : (t <= t')%Z -> (t_sub t u <= t_sub t' u)%Z.
Proof. unfold t_sub. lia. Qed.
Lemma t_sub_le a a' b b' : (a <= a')%Z -> (b' <= b)%Z -> (t_sub a b <= t_sub a' b')%Z.
Proof. unfold t_sub. lia. Qed.

(** [f_lt] is a strict order on every float, NaN being related to nothing. *)
Lemma f_lt_irrefl x : f_lt x x = false.
Proof.
  destruct x as [s|s| |s m e]; try done; try by destruct s.
  unfold f_lt, SFltb, SFcompare. rewrite (Z.compare_refl e).
  change (Pos.compare_cont Eq m m) with (m ?= m)%positive. rewrite Pos.compare_refl. by destruct s.
Qed.

Lemma clamp_unit x : f_is_nan x = false ->
  f_le f_zero (f_min f_one (f_max f_zero x)) = true /\ f_le (f_min f_one (f_max f_zero x)) f_one = true.
Proof.
  intros Hx. destruct x as [s|s| |s m e]; try done; try by destruct s.
  destruct s; [done|]. change (f_max f_zero (S754_finite false m e)) with (S754_finite false m e).
  unfold f_min. change f_one with (S754_finite false 4503599627370496 (-52)).
  cbv beta iota. destruct (f_lt _ (S754_finite false m e)) eqn:Hlt; [done|]. split; [done|].
  revert Hlt. unfold f_lt, SFltb, f_le, SFleb, SFcompare.
  rewrite (Z.compare_antisym e (-52)). destruct (Z.compare_spec e (-52)); simpl CompOpp; try done.
  rewrite (Pos.compare_antisym m 4503599627370496 : Pos.compare_cont Eq _ _ = _).
  unfold Pos.compare. by destruct (Pos.compare_cont Eq m 4503599627370496).
Qed.

Lemma f_lt_asym x y : f_lt x y = true -> f_lt y x = false.
Proof.
  destruct x as [|[]| |[] m e], y as [|[]| |[] m' e']; try done;
    unfold f_lt, SFltb, SFcompare; rewrite (Z.compare_antisym e e');
    change (Pos.compare_cont Eq m' m) with (m' ?= m)%positive; change (Pos.compare_cont Eq m m') with (m ?= m')%positive;
    rewrite (Pos.compare_antisym m' m); destruct (Z.compare e e'); try done; by destruct (m' ?= m)%positive.
Qed.

(** On numbers at least zero, [<=] is a total order and [<] its complement. *)
Definition f_nonneg (x : f64) : Prop := f_le f_zero x = true.

Lemma f_le_nonneg_total x y : f_nonneg x -> f_nonneg y -> f_lt x y = negb (f_le y x).
Proof.
  destruct x as [|[]| |[] m e], y as [|[]| |[] m' e']; try done. intros _ _.
  unfold f_lt, SFltb, f_le, SFleb, SFcompare. rewrite (Z.compare_antisym e e').
  destruct (Z.compare_spec e e'); simpl; try done.
  change (Pos.compare_cont Eq m' m) with (m' ?= m)%positive. change (Pos.compare_cont Eq m m') with (m ?= m')%positive.
  rewrite (Pos.compare_antisym m' m). by destruct (m' ?= m)%positive.
Qed.

Lemma f_eq_nonneg x y : f_nonneg x -> f_nonneg y -> f_eq x y = f_le x y && f_le y x.
Proof.
  destruct x as [|[]| |[] m e], y as [|[]| |[] m' e']; try done. intros _ _.
  unfold f_eq, SFeqb, f_le, SFleb, SFcompare. rewrite (Z.compare_antisym e e').
  destruct (Z.compare e e'); simpl; try done.
  change (Pos.compare_cont Eq m' m) with (m' ?= m)%positive. change (Pos.compare_cont Eq m m') with (m ?= m')%positive.
  rewrite (Pos.compare_antisym m' m). by destruct (m' ?= m)%positive.
Qed.

Lemma f_le_nonneg_refl x : f_nonneg x -> f_le x x = true.
Proof. intros Hx. pose proof (f_le_nonneg_total x x Hx Hx) as H. rewrite f_lt_irrefl in H. by destruct (f_le x x). Qed.

Lemma f_le_nonneg_trans x y z : f_nonneg x -> f_nonneg y -> f_nonneg z ->
  f_le x y = true -> f_le y z = true -> f_le x z = true.
Proof.
  destruct x as [|[]| |[] m e], y as [|[]| |[] m' e'], z as [|[]| |[] m'' e'']; try done. intros _ _ _.
  unfold f_le, SFleb, SFcompare.
  change (Pos.compare_cont Eq m m') with (m ?= m')%positive. change (Pos.compare_cont Eq m' m'') with (m' ?= m'')%positive.
  change (Pos.compare_cont Eq m m'') with (m ?= m'')%positive.
  destruct (Z.compare_spec e e'), (Z.compare_spec e' e''), (Z.compare_spec e e''); try done; try lia;
    destruct (Pos.compare_spec m m'), (Pos.compare_spec m' m''), (Pos.compare_spec m m''); done || lia.
Qed.

(** *** No NaN out of sums, products and quotients of ordinary numbers *)

Lemma iter_pos_inv {A} (P : A -> Prop) (f : A -> A) n x :
  (forall y, P y -> P (f y)) -> P x -> P (SpecFloat.iter_pos f n x).
Proof. intros Hf. revert x. induction n; simpl; auto. Qed.

Lemma shr_fexp_nonneg m e l : (0 <= m)%Z -> (0 <= shr_m (shr_fexp f_prec f_emax m e l).1)%Z.
Proof.
  intros Hm. unfold shr_fexp, shr. assert (H0 : (0 <= shr_m (shr_record_of_loc m l))%Z) by by destruct l as [|[]].
  destruct (_ - e)%Z; simpl; [done| |done]. apply iter_pos_inv; [|done].
  intros [[|[]|[]] r s]; simpl; lia.
Qed.

Lemma round_aux_not_nan s m e l : (0 <= m)%Z -> f_is_nan (binary_round_aux f_prec f_emax s m e l) = false.
Proof.
  intros Hm. unfold binary_round_aux. pose proof (shr_fexp_nonneg m e l Hm) as H1.
  destruct (shr_fexp _ _ m e l) as [r1 e1]. simpl in H1.
  assert (Hr : (0 <= round_nearest_even (shr_m r1) (loc_of_shr_record r1))%Z).
  { unfold round_nearest_even. destruct (loc_of_shr_record r1) as [|[]]; try lia. destruct (Z.even (shr_m r1)); lia. }
  pose proof (shr_fexp_nonneg _ e1 loc_Exact Hr) as H2.
  destruct (shr_fexp _ _ _ e1 loc_Exact) as [r2 e2]. simpl in H2.
  destruct (shr_m r2); [done| |lia]. by destruct (_ <=? _)%Z.
Qed.

Lemma normalize_not_nan m e : f_is_nan (binary_normalize f_prec f_emax m e false) = false.
Proof.
  destruct m; simpl; [done|..]; unfold binary_round; destruct (shl_align _ _ _); by apply round_aux_not_nan.
Qed.

(** Adding a finite number never makes a NaN. *)
Lemma fadd_not_nan x s m e : f_is_nan x = false -> f_is_nan (fadd x (S754_finite s m e)) = false.
Proof. destruct x; try done. intros _. apply normalize_not_nan. Qed.

(** Neither does multiplying or dividing by one. *)
Lemma fmul_not_nan x s m e : f_is_nan x = false -> f_is_nan (fmul x (S754_finite s m e)) = false.
Proof. destruct x; try done. intros _. by apply round_aux_not_nan. Qed.

Lemma fmul_not_nan_l x s m e : f_is_nan x = false -> f_is_nan (fmul (S754_finite s m e) x) = false.
Proof. destruct x; try done. intros _. by apply round_aux_not_nan. Qed.

Lemma fdiv_not_nan x s m e : f_is_nan x = false -> f_is_nan (fdiv x (S754_finite s m e)) = false.
Proof.
  destruct x as [| | |s' m' e']; try done. intros _. unfold fdiv, SFdiv, SFdiv_core_binary.
  set (z := match _ with Z0 => _ | Zpos _ => _ | Zneg _ => _ end).
  assert (Hz : (0 <= z)%Z) by (unfold z; destruct (_ - _ - _)%Z; try lia; apply Z.shiftl_nonneg; lia).
  pose proof (Z_div_mod z (Zpos m) ltac:(lia)) as Hd. destruct (Z.div_eucl z (Zpos m)) as [q r].
  apply round_aux_not_nan. nia.
Qed.

Lemma digits2_shift m d : digits2_pos (Pos.iter xO m d) = (digits2_pos m + d)%positive.
Proof.
  induction d as [|d IH] using Pos.peano_ind; [simpl; lia|]. rewrite Pos.iter_succ. simpl. rewrite IH. lia.
Qed.

Lemma digits2_lower m : (2 ^ (Zpos (digits2_pos m) - 1) <= Zpos m)%Z.
Proof.
  induction m as [m IH|m IH|]; simpl digits2_pos; [..|done];
    rewrite Pos2Z.inj_succ; replace (Z.succ (Zpos (digits2_pos m)) - 1)%Z with (1 + (Zpos (digits2_pos m) - 1))%Z by lia;
    rewrite Z.pow_add_r by lia; lia.
Qed.

(** [float64(z)] of a count below 2^53 is a finite positive number. *)
Lemma f_of_Z_finite z : (0 < z < 2 ^ 53)%Z -> exists m e, f_of_Z z = S754_finite false m e.
Proof.
  intros Hz. destruct z as [|p|p]; try lia. unfold f_of_Z, binary_normalize, binary_round.
  assert (Hd : (Zpos (digits2_pos p) <= 53)%Z).
  { pose proof (digits2_lower p) as Hl. destruct (Z.le_gt_cases (Zpos (digits2_pos p)) 53) as [|Hgt]; [done|].
    assert (2 ^ 53 <= 2 ^ (Zpos (digits2_pos p) - 1))%Z by (apply Z.pow_le_mono_r; lia). lia. }
  assert (Hexact : forall m e, Zpos (digits2_pos m) = 53%Z -> (- 1074 <= e <= 971)%Z ->
    binary_round_aux f_prec f_emax false (Zpos m) e loc_Exact = S754_finite false m e).
  { intros m e Hm He. unfold binary_round_aux, shr_fexp, fexp, emin, f_prec, f_emax. cbn [Zdigits2 shr_record_of_loc].
    rewrite Hm. replace (Z.max (53 + e - 53) (3 - 1024 - 53) - e)%Z with 0%Z by lia. cbn [shr shr_m loc_of_shr_record round_nearest_even].
    cbn [Zdigits2 shr_record_of_loc]. rewrite Hm. replace (Z.max (53 + e - 53) (3 - 1024 - 53) - e)%Z with 0%Z by lia.
    cbn [shr shr_m]. destruct (Z.leb_spec e (1024 - 53)); [done|lia]. }
  unfold shl_align, fexp, emin, f_prec, f_emax.
  replace (Z.max (Zpos (digits2_pos p) + 0 - 53) (3 - 1024 - 53) - 0)%Z with (Zpos (digits2_pos p) - 53)%Z by lia.
  destruct (Zpos (digits2_pos p) - 53)%Z as [|d|d] eqn:Hsub; [|lia|].
  - rewrite Hexact by lia. eauto.
  - replace (Z.max (Zpos (digits2_pos p) + 0 - 53) (3 - 1024 - 53)) with (Zneg d) by lia.
    rewrite Hexact; [eauto|rewrite digits2_shift; lia|lia].
Qed.

#[export] Hint Resolve f_lt_irrefl clamp_unit wrap_range : go.

Example fmt_f_85 : fmt_f 2 (f_lit 85 100) = "0.85". Proof. reflexivity. Qed.
Example fmt_f_1 : fmt_f 1 (fmul (f_lit 95 100) (f_of_Z 100)) = "95.0". Proof. reflexivity. Qed.
Example fmt_duration_30m : fmt_duration (30 * minute)%Z = "30m0s". Proof. reflexivity. Qed.
Example fmt_duration_1h : fmt_duration hour = "1h0m0s". Proof. reflexivity. Qed.
Example fmt_duration_ms : fmt_duration 1500000000%Z = "1.5s". Proof. reflexivity. Qed.
