(* ===== verification/Sha256.v ===== *)
(** * SHA-256 ([crypto/sha256] of the Go standard library, FIPS 180-4).

    The incident names carry six bytes of it; it is executable, so a name can be
    computed and compared. *)

From S2P Require Import Prelude GoString.
From Stdlib Require Import String Ascii.
From stdpp Require Import strings.
Open Scope Z_scope.

(** Words are 32-bit, kept in [0, 2^32). *)
Definition word (x : Z) : Z := x `mod` 2 ^ 32.
Definition rotr (n x : Z) : Z := Z.lor (Z.shiftr x n) (word (Z.shiftl x (32 - n))).
Definition Ch (x y z : Z) : Z := Z.lxor (Z.land x y) (Z.land (2 ^ 32 - 1 - x) z).
Definition Maj (x y z : Z) : Z := Z.lxor (Z.lxor (Z.land x y) (Z.land x z)) (Z.land y z).
Definition Sigma0 (x : Z) : Z := Z.lxor (Z.lxor (rotr 2 x) (rotr 13 x)) (rotr 22 x).
Definition Sigma1 (x : Z) : Z := Z.lxor (Z.lxor (rotr 6 x) (rotr 11 x)) (rotr 25 x).
Definition sigma0 (x : Z) : Z := Z.lxor (Z.lxor (rotr 7 x) (rotr 18 x)) (Z.shiftr x 3).
Definition sigma1 (x : Z) : Z := Z.lxor (Z.lxor (rotr 17 x) (rotr 19 x)) (Z.shiftr x 10).

Definition round_constants : list Z :=
  [1116352408; 1899447441; 3049323471; 3921009573; 961987163; 1508970993; 2453635748; 2870763221;
   3624381080; 310598401; 607225278; 1426881987; 1925078388; 2162078206; 2614888103; 3248222580;
   3835390401; 4022224774; 264347078; 604807628; 770255983; 1249150122; 1555081692; 1996064986;
   2554220882; 2821834349; 2952996808; 3210313671; 3336571891; 3584528711; 113926993; 338241895;
   666307205; 773529912; 1294757372; 1396182291; 1695183700; 1986661051; 2177026350; 2456956037;
   2730485921; 2820302411; 3259730800; 3345764771; 3516065817; 3600352804; 4094571909; 275423344;
   430227734; 506948616; 659060556; 883997877; 958139571; 1322822218; 1537002063; 1747873779;
   1955562222; 2024104815; 2227730452; 2361852424; 2428436474; 2756734187; 3204031479; 3329325298].
Definition initial_hash : list Z :=
  [1779033703; 3144134277; 1013904242; 2773480762; 1359893119; 2600822924; 528734635; 1541459225].

(** Big-endian bytes to words, and the 64-word schedule of a block, newest first. *)
Fixpoint be_words (bytes : list Z) : list Z :=
  match bytes with
  | a :: b :: c :: d :: rest => (a * 2 ^ 24 + b * 2 ^ 16 + c * 2 ^ 8 + d) :: be_words rest
  | _ => []
  end.
Definition schedule_step (w : list Z) : list Z :=
  word (sigma1 (nth 1 w 0) + nth 6 w 0 + sigma0 (nth 14 w 0) + nth 15 w 0) :: w.
Definition schedule (block : list Z) : list Z := rev (Nat.iter 48 schedule_step (rev (be_words block))).

Definition compress_round (st : list Z) (kw : Z * Z) : list Z :=
  match st with
  | [a; b; c; d; e; f; g; h] =>
      let t1 := h + Sigma1 e + Ch e f g + kw.1 + kw.2 in
      let t2 := Sigma0 a + Maj a b c in
      [word (t1 + t2); a; b; c; word (d + t1); e; f; g]
  | _ => st
  end.
Definition compress (hash : list Z) (block : list Z) : list Z :=
  let st := foldl compress_round hash (combine round_constants (schedule block)) in
  map (fun p => word (p.1 + p.2)) (combine hash st).

Fixpoint blocks (fuel : nat) (bytes : list Z) : list (list Z) :=
  match fuel, bytes with
  | S fuel', _ :: _ => firstn 64 bytes :: blocks fuel' (skipn 64 bytes)
  | _, _ => []
  end.

Definition be_bytes (n : nat) (z : Z) : list Z :=
  map (fun i => Z.land (Z.shiftr z (8 * Z.of_nat i)) 255) (rev (seq 0 n)).
Definition padded (bytes : list Z) : list Z :=
  let l := length bytes in
  (bytes ++ [128] ++ replicate (Nat.modulo (119 - Nat.modulo l 64) 64) 0 ++ be_bytes 8 (8 * Z.of_nat l))%list.

Definition bytes_of (s : string) : list Z := map (fun c => Z.of_N (N_of_ascii c)) (list_ascii_of_string s).

(** [sha256.Sum256]: the 32 bytes of the digest. *)
Definition Sum256 (s : string) : list Z :=
  let bytes := padded (bytes_of s) in
  concat (map (be_bytes 4) (foldl compress initial_hash (blocks (length bytes) bytes))).

(** [%x] of a byte slice. *)
Definition hex_byte (b : Z) : string :=
  String (hex_digit (Z.to_N (b `div` 16))) (String (hex_digit (Z.to_N (b `mod` 16))) "").
Definition fmt_x (bytes : list Z) : string := foldr (fun b acc => hex_byte b +:+ acc) ""%string bytes.

Example sha256_empty : fmt_x (Sum256 "") = "e3b0c44298fc1c149afbf4c8996fb92427ae41e4649b934ca495991b7852b855"%string.
Proof. vm_compute. reflexivity. Qed.
Example sha256_abc : fmt_x (Sum256 "abc") = "ba7816bf8f01cfea414140de5dae2223b00361a396177a9cb410ff61f20015ad"%string.
Proof. vm_compute. reflexivity. Qed.
(** Two blocks. *)
Example sha256_two_blocks :
  fmt_x (Sum256 "abcdbcdecdefdefgefghfghighijhijkijkljklmklmnlmnomnopnopq")
  = "248d6a61d20638b8e5c026930c3e6039a33ce45964ff2167f6ecedd419db06c1"%string.
Proof. vm_compute. reflexivity. Qed.

Lemma hex_digit_length n c s : String.length (String (hex_digit n) (String c s)) = S (S (String.length s)).
Proof. done. Qed.
Lemma fmt_x_length l : String.length (fmt_x l) = (2 * length l)%nat.
Proof. induction l as [|b l IH]; [done|]. simpl. rewrite IH. lia. Qed.

(** The digest is 32 bytes, whatever the input. *)
Lemma compress_round_length st kw : length st = 8%nat -> length (compress_round st kw) = 8%nat.
Proof. destruct st as [|? [|? [|? [|? [|? [|? [|? [|? [|? ?]]]]]]]]]; try done. Qed.
Lemma compress_rounds_length l st : length st = 8%nat -> length (foldl compress_round st l) = 8%nat.
Proof. revert st. induction l as [|kw l IH]; intros st Hst; [done|]. by apply IH, compress_round_length. Qed.
Lemma compress_length hash block : length hash = 8%nat -> length (compress hash block) = 8%nat.
Proof. intros Hh. unfold compress. by rewrite length_map, length_combine, compress_rounds_length, Hh. Qed.
Lemma digest_length l hash : length hash = 8%nat -> length (foldl compress hash l) = 8%nat.
Proof. revert hash. induction l as [|b l IH]; intros hash Hh; [done|]. by apply IH, compress_length. Qed.
Lemma be_bytes_shape n l :
  length (concat (map (be_bytes n) l)) = (n * length l)%nat /\
  Forall (fun b => 0 <= b < 256) (concat (map (be_bytes n) l)).
Proof.
  induction l as [|z l [IHl IHb]]; cbn [map concat]; [by rewrite Nat.mul_0_r|].
  rewrite length_app, IHl. unfold be_bytes at 1 3. rewrite length_map, length_rev, length_seq.
  split; [cbn [length]; lia|]. apply Forall_app; split; [|done]. apply Forall_map, Forall_true. intros i. cbn beta.
  change 255 with (Z.ones 8). rewrite Z.land_ones by lia. apply Z.mod_pos_bound. lia.
Qed.
Lemma Sum256_shape s : length (Sum256 s) = 32%nat /\ Forall (fun b => 0 <= b < 256) (Sum256 s).
Proof.
  unfold Sum256. destruct (be_bytes_shape 4 (foldl compress initial_hash (blocks (length (padded (bytes_of s))) (padded (bytes_of s)))))
    as [Hl Hb]. split; [|done]. by rewrite Hl, digest_length.
Qed.
