(* ===== verification/Json.v ===== *)
(** * JSON documents, merge patches and patch paths.

    Models [jsonMergePatch] and [mergeMaps] of internal/remediation/executor.go,
    [patchLeafPaths] and [buildNestedMap] of internal/remediation/proposer.go,
    and [mergeNestedPath] and [deleteNestedPath] of proposer_grounding.go.

    A Go [map[string]any] is a [gmap string json]: keys are unique and iteration
    order is irrelevant, which [mergeMaps_any_order] proves rather than assumes.
    The raw bytes of an [apiextensionsv1.JSON] are kept up to [encoding/json]:
    empty, not JSON, or a document. *)

From S2P Require Import Prelude GoString GoNum.
From stdpp Require Import strings.
Open Scope string_scope.

Inductive json :=
| JNull
| JBool (b : bool)
| JNum (f : f64)
| JStr (s : string)
| JArr (l : list json)
| JObj (m : gmap string json).

(** [Raw []byte]: [len(Raw) == 0], bytes [json.Unmarshal] rejects, a document. *)
Inductive raw_json :=
| RawEmpty
| RawMalformed (why : string)
| RawDoc (v : json).

Definition raw_len0 (r : raw_json) : bool := match r with RawEmpty => true | _ => false end.

Definition json_kind (v : json) : string :=
  match v with
  | JNull => "null" | JBool _ => "bool" | JNum _ => "number" | JStr _ => "string"
  | JArr _ => "array" | JObj _ => "object"
  end.

(** [json.Unmarshal(raw, &m)] with [m map[string]any]: [null] leaves a nil map. *)
Definition unmarshal_map (r : raw_json) : result string (gmap string json) :=
  match r with
  | RawEmpty => Err "unexpected end of JSON input"
  | RawMalformed why => Err why
  | RawDoc (JObj m) => Ok m
  | RawDoc JNull => Ok ∅
  | RawDoc v => Err ("json: cannot unmarshal " ++ json_kind v ++ " into Go value of type map[string]interface {}")
  end.

(** ** Size and induction *)

Fixpoint json_size (v : json) : nat :=
  match v with
  | JObj m => S (map_fold (fun _ v acc => json_size v + acc) 0 m)
  | JArr l => S (list_sum (map json_size l))
  | _ => 1
  end.

Lemma json_size_lookup m k v : m !! k = Some v -> json_size v < json_size (JObj m).
Proof.
  intros H. simpl. rewrite <- (insert_delete_id m k v H).
  rewrite map_fold_insert_L; [lia|intros; lia|apply lookup_delete_eq].
Qed.

(** Structural induction that also descends into objects (arrays are leaves). *)
Lemma json_obj_ind (P : json -> Prop) :
  (forall v, (forall m, v <> JObj m) -> P v) ->
  (forall m, (forall k v, m !! k = Some v -> P v) -> P (JObj m)) ->
  forall v, P v.
Proof.
  intros Hleaf Hobj v. remember (json_size v) as n eqn:Hn. revert v Hn.
  induction (lt_wf n) as [n _ IH]. intros v ->.
  destruct v as [| | | | |m]; try (apply Hleaf; done).
  apply Hobj. intros k v Hk. eapply IH; [|done]. by eapply json_size_lookup.
Qed.

(** ** [mergeMaps] *)

(** The body of the range loop, [rec] being the recursive call on [patchVal]. *)
Definition merge_step (rec : gmap string json -> json -> gmap string json)
    (k : string) (patchVal : json) (res : gmap string json) : gmap string json :=
  match patchVal with
  | JNull => delete k res
  | JObj _ => match res !! k with
              | Some (JObj targetMap) => <[k := JObj (rec targetMap patchVal)]> res
              | _ => <[k := patchVal]> res
              end
  | _ => <[k := patchVal]> res
  end.

Fixpoint merge_into (target : gmap string json) (patch : json) {struct patch} : gmap string json :=
  match patch with
  | JObj pm => map_fold (fun k v res =>
      match v with
      | JNull => delete k res
      | JObj _ => match res !! k with
                  | Some (JObj targetMap) => <[k := JObj (merge_into targetMap v)]> res
                  | _ => <[k := v]> res
                  end
      | _ => <[k := v]> res
      end) target pm
  | _ => target
  end.

Definition mergeMaps (target patch : gmap string json) : gmap string json :=
  merge_into target (JObj patch).

Definition jsonMergePatch (target patch : raw_json) : result string raw_json :=
  match unmarshal_map target with
  | Err e => Err ("unmarshalling target: " ++ e)
  | Ok t => match unmarshal_map patch with
            | Err e => Err ("unmarshalling patch: " ++ e)
            | Ok p => Ok (RawDoc (JObj (mergeMaps t p)))
            end
  end.

(** What one key of the result is, from that key of the target and of the patch. *)
Definition merge_key (tv pv : option json) : option json :=
  match pv with
  | None => tv
  | Some JNull => None
  | Some (JObj p) => match tv with
                     | Some (JObj t) => Some (JObj (mergeMaps t p))
                     | _ => Some (JObj p)
                     end
  | Some v => Some v
  end.

Lemma merge_step_lookup k v res i :
  merge_step merge_into k v res !! i =
  if decide (k = i) then merge_key (res !! i) (Some v) else res !! i.
Proof.
  unfold merge_step, merge_key, mergeMaps.
  case_decide as Hd; [subst i|]; destruct v; try destruct (res !! k) as [[]|] eqn:Hk;
    rewrite ?lookup_delete_eq, ?lookup_insert_eq, ?lookup_delete_ne, ?lookup_insert_ne by done; done.
Qed.

Lemma mergeMaps_fold target patch :
  mergeMaps target patch = map_fold (merge_step merge_into) target patch.
Proof. done. Qed.

Lemma mergeMaps_lookup target patch i :
  mergeMaps target patch !! i = merge_key (target !! i) (patch !! i).
Proof.
  rewrite mergeMaps_fold. revert i.
  apply (map_fold_weak_ind (fun res pm => forall i, res !! i = merge_key (target !! i) (pm !! i)));
    [intros i; by rewrite lookup_empty|].
  intros k v pm res Hk IH i. rewrite merge_step_lookup. case_decide as Hd; [subst i|].
  - by rewrite IH, Hk, lookup_insert_eq.
  - by rewrite IH, lookup_insert_ne.
Qed.

(** Whatever order Go's [range] visits the patch in, the result is the same. *)
Lemma mergeMaps_any_order target patch order :
  order ≡ₚ map_to_list patch ->
  foldr (fun kv res => merge_step merge_into kv.1 kv.2 res) target order = mergeMaps target patch.
Proof.
  intros Hperm. apply map_eq. intros i. rewrite mergeMaps_lookup.
  assert (Hnd : NoDup order.*1) by (rewrite Hperm; apply NoDup_fst_map_to_list).
  rewrite <- (list_to_map_to_list patch), <- (list_to_map_proper _ _ Hnd Hperm).
  clear Hperm. induction order as [|[k v] order IH]; [done|].
  simpl in *. apply NoDup_cons in Hnd as [Hk Hnd].
  rewrite merge_step_lookup. case_decide as Hd; [subst i|].
  - rewrite IH, lookup_insert_eq, not_elem_of_list_to_map_1 by done. done.
  - by rewrite IH, lookup_insert_ne.
Qed.

Lemma mergeMaps_empty target : mergeMaps target ∅ = target.
Proof. apply map_eq. intros i. by rewrite mergeMaps_lookup, lookup_empty. Qed.

(** ** Patches without [null] *)

Fixpoint null_free (v : json) : bool :=
  match v with
  | JNull => false
  | JObj m => map_fold (fun _ v acc => null_free v && acc) true m
  | _ => true
  end.

Lemma null_free_obj m : null_free (JObj m) = true <-> forall k v, m !! k = Some v -> null_free v = true.
Proof.
  simpl. apply (map_fold_weak_ind (fun acc m => acc = true <-> forall k v, m !! k = Some v -> null_free v = true)).
  - split; [|done]. intros _ k v. by rewrite lookup_empty.
  - intros k v m' acc Hk IH. rewrite andb_true_iff, IH. split.
    + intros [Hv Hm] i w. rewrite lookup_insert. case_decide; naive_solver.
    + intros H. split; [apply (H k); apply lookup_insert_eq|].
      intros i w Hi. apply (H i). rewrite lookup_insert_ne; congruence.
Qed.

(** ** Paths *)

(** [buildNestedMap(keys..., value)]. *)
Fixpoint nested (keys : list string) (v : json) : json :=
  match keys with [] => v | k :: ks => JObj {[k := nested ks v]} end.

Definition buildNestedMap (keys : list string) : option (gmap string json) :=
  match reverse keys with
  | value :: last :: rest =>
      match nested (reverse (last :: rest)) (JStr value) with JObj m => Some m | _ => None end
  | _ => None
  end.

(** The value at a path of object keys. *)
Fixpoint json_at (path : list string) (v : json) : option json :=
  match path with
  | [] => Some v
  | k :: ks => match v with JObj m => m !! k ≫= json_at ks | _ => None end
  end.

(** [walk] of [patchLeafPaths]: the dot-joined path of every non-object value. *)
Definition path_join (prefix key : string) : string :=
  if (prefix =? "") then key else prefix ++ "." ++ key.

Fixpoint walk (prefix : string) (node : json) : list string :=
  match node with
  | JObj m => map_fold (fun key val acc =>
      match val with
      | JObj _ => walk (path_join prefix key) val ++ acc
      | _ => path_join prefix key :: acc
      end)%list [] m
  | _ => []
  end.

Definition patchLeafPaths (raw : raw_json) : list string :=
  if raw_len0 raw then [] else
  match unmarshal_map raw with
  | Err _ => []
  | Ok root => walk "" (JObj root)
  end.

Definition patchTouchesPath (raw : raw_json) (target : string) : bool :=
  existsb (String.eqb target) (patchLeafPaths raw).

(** [mergeNestedPath(root, segments, value)]: intermediate maps are created,
    and a non-map in the way is replaced. *)
Fixpoint mergeNestedPath (root : gmap string json) (segments : list string) (value : string)
  : gmap string json :=
  match segments with
  | [] => root
  | [k] => <[k := JStr value]> root
  | k :: rest =>
      let child := match root !! k with Some (JObj c) => c | _ => ∅ end in
      <[k := JObj (mergeNestedPath child rest value)]> root
  end.

(** [deleteNestedPath(node, segments)], with the maps it empties pruned. *)
Fixpoint deleteNestedPath (node : gmap string json) (segments : list string) : gmap string json :=
  match segments with
  | [] => node
  | [k] => delete k node
  | k :: rest =>
      match node !! k with
      | Some (JObj child) =>
          let child' := deleteNestedPath child rest in
          if decide (child' = ∅) then delete k node else <[k := JObj child']> node
      | _ => node
      end
  end.

(** ** Merge patches: idempotence and rollback *)

Lemma merge_key_self (p : gmap string json) :
  null_free (JObj p) = true -> mergeMaps p p = p.
Proof.
  enough (forall v, null_free v = true -> forall m, v = JObj m -> mergeMaps m m = m) by eauto.
  intros v. induction v as [v Hv|m IH] using json_obj_ind; intros Hnf m' Hm'; [by destruct (Hv m')|].
  injection Hm' as <-. rewrite null_free_obj in Hnf. apply map_eq. intros i. rewrite mergeMaps_lookup.
  destruct (m !! i) as [w|] eqn:Hi; [|done]. pose proof (Hnf _ _ Hi) as Hw.
  destruct w; try done. simpl. by erewrite (IH _ _ Hi).
Qed.

(** Applying a [null]-free patch twice is applying it once, so a retried
    reconcile that re-applies the same patch changes nothing more. *)
Lemma mergeMaps_idempotent_aux v : null_free v = true ->
  forall p, v = JObj p -> forall t, mergeMaps (mergeMaps t p) p = mergeMaps t p.
Proof.
  induction v as [v Hv|m IH] using json_obj_ind; intros Hnf p Hp t; [by destruct (Hv p)|].
  injection Hp as <-. rewrite null_free_obj in Hnf. apply map_eq. intros i. rewrite !mergeMaps_lookup.
  destruct (m !! i) as [w|] eqn:Hi; [|done]. pose proof (Hnf _ _ Hi) as Hw.
  destruct w as [| | | | |p']; try done.
  destruct (t !! i) as [[| | | | |t']|]; simpl; try by rewrite merge_key_self.
  by erewrite (IH _ _ Hi).
Qed.

(** A value that [mergeMaps] stores as it is: neither [null] nor an object. *)
Definition json_leaf (v : json) : bool := match v with JNull | JObj _ => false | _ => true end.

Lemma merge_key_leaf tv v : json_leaf v = true -> merge_key tv (Some v) = Some v.
Proof. by destruct v. Qed.

Lemma mergeMaps_singleton_other t k v i : i <> k -> mergeMaps t {[k := v]} !! i = t !! i.
Proof. intros H. by rewrite mergeMaps_lookup, lookup_singleton_ne. Qed.

Lemma json_at_nested ks v : json_at ks (nested ks v) = Some v.
Proof. induction ks as [|k ks IH]; cbn [json_at nested]; [done|]. by rewrite lookup_singleton_eq. Qed.

(** A one-path patch sets that path... *)
Lemma mergeMaps_nested_at ks k t v :
  json_leaf v = true -> json_at (k :: ks) (JObj (mergeMaps t {[k := nested ks v]})) = Some v.
Proof.
  intros Hv. revert k t. induction ks as [|k' ks IH]; intros k t; cbn [json_at];
    rewrite mergeMaps_lookup, lookup_singleton_eq; cbn [nested].
  - by rewrite merge_key_leaf.
  - destruct (t !! k) as [[| | | | |c]|]; try exact (json_at_nested (k' :: ks) v). apply (IH k' c).
Qed.

(** ... and merging the prior value back at the same path undoes it exactly. *)
Lemma mergeMaps_nested_rollback ks k t new old :
  json_at (k :: ks) (JObj t) = Some old -> json_leaf old = true -> json_leaf new = true ->
  mergeMaps (mergeMaps t {[k := nested ks new]}) {[k := nested ks old]} = t.
Proof.
  intros Hat Hold Hnew. revert k t Hat. induction ks as [|k' ks IH]; intros k t Hat; apply map_eq; intros i;
    (destruct (decide (i = k)) as [->|Hne]; [|by rewrite !mergeMaps_singleton_other]);
    rewrite !mergeMaps_lookup, !lookup_singleton_eq; cbn [json_at nested] in *;
    destruct (t !! k) as [v|] eqn:Hk; try done; cbn [mbind option_bind] in Hat.
  - simplify_eq. by rewrite !merge_key_leaf.
  - destruct v as [| | | | |c]; try done. cbn [merge_key]. by rewrite IH.
Qed.

(** Merging does not depend on the order Go's [range] visits the patch's keys
    in: every permutation of the patch gives the same document. *)
Theorem mergeMaps_order_independent (target patch : gmap string json) (order : list (string * json)) :
  order ≡ₚ map_to_list patch ->
  foldr (fun kv res => merge_step merge_into kv.1 kv.2 res) target order = mergeMaps target patch.
Proof. apply mergeMaps_any_order. Qed.

(** A patch without [null] is idempotent: re-applying it on a retried
    reconcile gives byte-for-byte the document the first application gave. *)
Theorem jsonMergePatch_idempotent (target patch once : raw_json) (p : gmap string json) :
  unmarshal_map patch = Ok p -> null_free (JObj p) = true ->
  jsonMergePatch target patch = Ok once -> jsonMergePatch once patch = Ok once.
Proof.
  unfold jsonMergePatch. intros Hp Hnf. destruct (unmarshal_map target) as [t|]; [|done]. rewrite Hp.
  intros [= <-]. cbn [unmarshal_map]. do 3 f_equal. by apply (mergeMaps_idempotent_aux (JObj p)).
Qed.

(** RFC 7396 drops the [null]s of a patch object stored where the target has
    none; [mergeMaps] stores them, so a second application is not a no-op. *)
Example mergeMaps_keeps_nested_null :
  mergeMaps ∅ {["a" := JObj {["b" := JNull]}]} = {["a" := JObj {["b" := JNull]}]} /\
  mergeMaps {["a" := JObj {["b" := JNull]}]} {["a" := JObj {["b" := JNull]}]} = {["a" := JObj ∅]}.
Proof. split; vm_compute; reflexivity. Qed.

(** ** Witnesses *)

Lemma jsonMergePatch_idempotent_witness :
  let patch := RawDoc (JObj {["a" := JStr "2"; "b" := JObj {["c" := JStr "3"]}]}) in
  let once := RawDoc (JObj (mergeMaps {["a" := JStr "1"; "d" := JNull]} {["a" := JStr "2"; "b" := JObj {["c" := JStr "3"]}]})) in
  jsonMergePatch once patch = Ok once.
Proof.
  intros patch once. apply (jsonMergePatch_idempotent (RawDoc (JObj {["a" := JStr "1"; "d" := JNull]})) patch once
    {["a" := JStr "2"; "b" := JObj {["c" := JStr "3"]}]}); vm_compute; reflexivity.
Defined.

Lemma mergeMaps_order_independent_witness :
  foldr (fun kv res => merge_step merge_into kv.1 kv.2 res) {["x" := JStr "1"]} [("b", JStr "2"); ("a", JNull)]
  = mergeMaps {["x" := JStr "1"]} {["a" := JNull; "b" := JStr "2"]}.
Proof.
  apply (mergeMaps_order_independent {["x" := JStr "1"]} {["a" := JNull; "b" := JStr "2"]}).
  vm_compute. apply perm_swap || reflexivity.
Defined.
