(* ===== verification/ApiTypes.v ===== *)
(** * API types of the operator (api/v1) and the error values its code passes around.

    One [Record] per Go struct, one field per Go field, in order; a pointer is an
    [option], a slice a [list], a map a [gmap], [metav1.Time] a [time]
    ([*metav1.Time] an [option time]).  Field names carry a struct prefix.
    [ObjectMeta] keeps the fields the operator reads or writes. *)

From S2P Require Import Prelude GoString GoNum Json.
From stdpp Require Import strings.
Open Scope string_scope.

(** ** Errors *)

(** The API errors the code tells apart ([apierrors.IsNotFound] and friends). *)
Inductive api_error := NotFound | Conflict | AlreadyExists | OtherAPIError.

(** A Go [error]: a sentinel text, the executor's [*PreconditionError], an API
    error, or [fmt.Errorf("prefix: %w", err)]. *)
Inductive error :=
| ErrText (msg : string)
| ErrPrecondition (reason : string)
| ErrAPI (kind : api_error) (msg : string)
| ErrWrap (prefix : string) (inner : error).

Fixpoint err_string (e : error) : string :=
  match e with
  | ErrText msg => msg
  | ErrPrecondition reason => "precondition failed: " ++ reason
  | ErrAPI _ msg => msg
  | ErrWrap prefix inner => prefix ++ ": " ++ err_string inner
  end.

(** [errors.As(err, &precondition)]. *)
Fixpoint as_precondition (e : error) : option string :=
  match e with
  | ErrPrecondition reason => Some reason
  | ErrWrap _ inner => as_precondition inner
  | _ => None
  end.

(** The API error behind a chain of wraps, as [apierrors] looks it up. *)
Fixpoint api_reason (e : error) : option api_error :=
  match e with
  | ErrAPI k _ => Some k
  | ErrWrap _ inner => api_reason inner
  | _ => None
  end.

#[export] Instance api_error_eq_dec : EqDecision api_error.
Proof. solve_decision. Defined.

Definition is_not_found (e : error) : bool := bool_decide (api_reason e = Some NotFound).
Definition is_conflict (e : error) : bool := bool_decide (api_reason e = Some Conflict).
Definition is_already_exists (e : error) : bool := bool_decide (api_reason e = Some AlreadyExists).

Definition wrap_err {T} (prefix : string) (r : result error T) : result error T :=
  map_err (ErrWrap prefix) r.

(** [fmt.Errorf("prefix: %w", err)] around an API call. *)
Definition wrap_io {W T} (prefix : string) (m : io W (result error T)) : io W (result error T) :=
  fun w => let '(r, w') := m w in (wrap_err prefix r, w').

(** ** Metadata *)

Record ObjectKey := mkKey { key_Name : string; key_Namespace : string }.
#[export] Instance ObjectKey_eq_dec : EqDecision ObjectKey.
Proof. solve_decision. Defined.
#[export] Instance ObjectKey_countable : Countable ObjectKey.
Proof.
  refine (inj_countable' (fun k => (key_Name k, key_Namespace k)) (fun p => mkKey p.1 p.2) _). by intros [].
Defined.

Record ObjectMeta := mkMeta {
  m_Name : string;
  m_Namespace : string;
  m_Labels : gmap string string;
  m_CreationTimestamp : time;
  m_DeletionTimestamp : option time;
  m_ResourceVersion : N;
}.

(** [m[k]] on a Go [map[string]string]: the empty string when absent. *)
Definition mget (m : gmap string string) (k : string) : string := default "" (m !! k).

Record Condition := mkCondition {
  c_Type : string;
  c_Status : string;
  c_Reason : string;
  c_Message : string;
  c_LastTransitionTime : time;
}.

Definition ConditionTrue : string := "True".
Definition ConditionFalse : string := "False".
Definition ConditionUnknown : string := "Unknown".

(** ** References (incidentmemory_types.go, dorguevent_types.go) *)

Record PersonaReference := mkPersonaRef { pr_Kind : string; pr_Name : string; pr_Namespace : string }.
#[export] Instance PersonaReference_eq_dec : EqDecision PersonaReference.
Proof. solve_decision. Defined.

Record ResourceReference := mkResourceRef {
  rr_Kind : string; rr_Name : string; rr_Namespace : string; rr_Role : string }.
#[export] Instance ResourceReference_eq_dec : EqDecision ResourceReference.
Proof. solve_decision. Defined.

Record RemediationReference := mkRemediationRef { rmr_Name : string; rmr_Namespace : string }.
Record IncidentReference := mkIncidentRef { ir_Name : string; ir_Namespace : string }.

(** ** RemediationAction (remediationaction_types.go) *)

Record ResourceValues := mkResourceValues { rv_CPU : string; rv_Memory : string }.

Record ObservedResources := mkObserved {
  or_Requests : option ResourceValues;
  or_Limits : option ResourceValues;
}.

Definition ManagedByHelm : string := "helm".
Definition ManagedByArgoCD : string := "argocd".
Definition ManagedByFlux : string := "flux".
Definition ManagedByKustomize : string := "kustomize".
Definition ManagedByUnmanaged : string := "unmanaged".
Definition ManagedByUnknown : string := "unknown".

Record WorkloadRef := mkWorkloadRef {
  wr_Kind : string;
  wr_Name : string;
  wr_Namespace : string;
  wr_Container : string;
  wr_ManagedBy : string;
  wr_ManagedByDetail : string;
  wr_ObservedResources : option ObservedResources;
  wr_ObservedImage : string;
  wr_ObservedAt : option time;
}.

(** [(w *WorkloadRef) IsOwned]: a nil reference is owned. *)
Definition WorkloadRef_IsOwned (w : option WorkloadRef) : bool :=
  match w with None => true | Some w => negb (wr_ManagedBy w =? ManagedByUnmanaged) end.

Record RemediationActionDetail := mkActionDetail {
  ad_Type : string;
  ad_Patch : option raw_json;
  ad_PrePatchState : option raw_json;
}.

Record StepSafety := mkStepSafety {
  ss_Rule : string;
  ss_Verdict : string;
  ss_Field : string;
  ss_Baseline : string;
  ss_Requested : string;
  ss_Permitted : string;
  ss_Ratio : string;
  ss_MaxRatio : string;
  ss_Message : string;
}.

Record RemediationStep := mkStep {
  st_Order : Z;
  st_ID : string;
  st_Type : string;
  st_Description : string;
  st_Rationale : string;
  st_Risk : string;
  st_AutoExecutable : bool;
  st_Command : string;
  st_Patch : option raw_json;
  st_PrePatchState : option raw_json;
  st_Safety : list StepSafety;
}.

Record AutoApproveRule := mkAutoApprove { aar_Enabled : bool; aar_AfterSuccessfulOccurrences : Z }.

Record ApprovalSpec := mkApproval {
  ap_Required : bool;
  ap_Deadline : option time;
  ap_AutoApproveRule : option AutoApproveRule;
}.

Record RemediationRollbackSpec := mkRollbackSpec {
  rb_Enabled : bool;
  rb_HealthCheckAfter : option duration;
  rb_MaxRetries : Z;
}.

Record RemediationActionSpec := mkRASpec {
  ra_IncidentRef : IncidentReference;
  ra_PersonaRef : PersonaReference;
  ra_TrustLevel : Z;
  ra_Action : RemediationActionDetail;
  ra_Steps : list RemediationStep;
  ra_PlanSource : string;
  ra_PlanSummary : string;
  ra_Explanation : string;
  ra_Confidence : string;
  ra_WorkloadRef : option WorkloadRef;
  ra_Approval : option ApprovalSpec;
  ra_Rollback : option RemediationRollbackSpec;
}.

Record StepStatus := mkStepStatus {
  sst_Order : Z;
  sst_Phase : string;
  sst_AppliedAt : option time;
  sst_VerificationResult : string;
}.

Record RemediationActionStatus := mkRAStatus {
  ras_Phase : string;
  ras_ApprovedBy : string;
  ras_ApprovedAt : option time;
  ras_AppliedAt : option time;
  ras_VerificationResult : string;
  ras_Conditions : list Condition;
  ras_CurrentStep : Z;
  ras_StepStatuses : list StepStatus;
}.

Record RemediationAction := mkRA {
  ra_Meta : ObjectMeta;
  ra_Spec : RemediationActionSpec;
  ra_Status : RemediationActionStatus;
}.

Definition ra_Name (r : RemediationAction) : string := m_Name (ra_Meta r).
Definition ra_Namespace (r : RemediationAction) : string := m_Namespace (ra_Meta r).
Definition ra_Phase (r : RemediationAction) : string := ras_Phase (ra_Status r).
Definition ra_Conditions (r : RemediationAction) : list Condition := ras_Conditions (ra_Status r).
Definition ra_AppliedAt (r : RemediationAction) : option time := ras_AppliedAt (ra_Status r).

(** Field updates of a status, used by the handlers. *)
Definition set_status (r : RemediationAction) (s : RemediationActionStatus) : RemediationAction :=
  mkRA (ra_Meta r) (ra_Spec r) s.
Definition set_phase (p : string) (r : RemediationAction) : RemediationAction :=
  let s := ra_Status r in set_status r (mkRAStatus p (ras_ApprovedBy s) (ras_ApprovedAt s) (ras_AppliedAt s)
    (ras_VerificationResult s) (ras_Conditions s) (ras_CurrentStep s) (ras_StepStatuses s)).
Definition set_applied_at (t : option time) (r : RemediationAction) : RemediationAction :=
  let s := ra_Status r in set_status r (mkRAStatus (ras_Phase s) (ras_ApprovedBy s) (ras_ApprovedAt s) t
    (ras_VerificationResult s) (ras_Conditions s) (ras_CurrentStep s) (ras_StepStatuses s)).
Definition set_verification (v : string) (r : RemediationAction) : RemediationAction :=
  let s := ra_Status r in set_status r (mkRAStatus (ras_Phase s) (ras_ApprovedBy s) (ras_ApprovedAt s)
    (ras_AppliedAt s) v (ras_Conditions s) (ras_CurrentStep s) (ras_StepStatuses s)).
Definition set_conditions (c : list Condition) (r : RemediationAction) : RemediationAction :=
  let s := ra_Status r in set_status r (mkRAStatus (ras_Phase s) (ras_ApprovedBy s) (ras_ApprovedAt s)
    (ras_AppliedAt s) (ras_VerificationResult s) c (ras_CurrentStep s) (ras_StepStatuses s)).

(** ** IncidentMemory (incidentmemory_types.go) *)

Record DetectionInfo := mkDetectionInfo {
  di_Signal : string;
  di_Source : string;
  di_FirstSeen : time;
  di_LastSeen : time;
  di_AffectedResources : list ResourceReference;
}.

Record ContributingSignalInfo := mkContributingInfo { csi_Signal : string; csi_Detail : string }.

Record RootCauseInfo := mkRootCause {
  rc_Summary : string;
  rc_Confidence : string;
  rc_Provider : string;
  rc_Contributing : list ContributingSignalInfo;
}.

Record ResolutionInfo := mkResolution {
  rs_Action : string;
  rs_RemediationRef : option RemediationReference;
  rs_AppliedAt : option time;
  rs_Outcome : string;
  rs_Duration : option duration;
}.

Record IncidentMemorySpec := mkIMSpec {
  im_PersonaRef : PersonaReference;
  im_Attribution : string;
  im_Category : string;
  im_Severity : string;
  im_Detection : DetectionInfo;
  im_RootCause : option RootCauseInfo;
  im_RelatedResources : list ResourceReference;
  im_Resolution : option ResolutionInfo;
}.

Record IncidentMemoryStatus := mkIMStatus {
  ims_Phase : string;
  ims_OccurrenceCount : Z;
  ims_LastOccurrence : option time;
  ims_Conditions : list Condition;
}.

Record IncidentMemory := mkIM {
  im_Meta : ObjectMeta;
  im_Spec : IncidentMemorySpec;
  im_Status : IncidentMemoryStatus;
}.

Definition im_Name (im : IncidentMemory) : string := m_Name (im_Meta im).
Definition im_Namespace (im : IncidentMemory) : string := m_Namespace (im_Meta im).
Definition im_Phase (im : IncidentMemory) : string := ims_Phase (im_Status im).

Definition set_label (k v : string) (m : ObjectMeta) : ObjectMeta :=
  mkMeta (m_Name m) (m_Namespace m) (<[k := v]> (m_Labels m)) (m_CreationTimestamp m)
    (m_DeletionTimestamp m) (m_ResourceVersion m).
Definition im_set_label (k v : string) (im : IncidentMemory) : IncidentMemory :=
  mkIM (set_label k v (im_Meta im)) (im_Spec im) (im_Status im).
Definition im_set_spec (s : IncidentMemorySpec) (im : IncidentMemory) : IncidentMemory :=
  mkIM (im_Meta im) s (im_Status im).
Definition im_set_resolution (r : option ResolutionInfo) (im : IncidentMemory) : IncidentMemory :=
  let s := im_Spec im in im_set_spec (mkIMSpec (im_PersonaRef s) (im_Attribution s) (im_Category s)
    (im_Severity s) (im_Detection s) (im_RootCause s) (im_RelatedResources s) r) im.
Definition im_set_phase (p : string) (im : IncidentMemory) : IncidentMemory :=
  let s := im_Status im in mkIM (im_Meta im) (im_Spec im)
    (mkIMStatus p (ims_OccurrenceCount s) (ims_LastOccurrence s) (ims_Conditions s)).
