(* ===== verification/KubeTypes.v ===== *)
(** * Cluster objects the operator reads, and its own persona types.

    The [k8s.io/api] structs (Pod, Node, Deployment) keep the fields the code
    under src/ reads.  [resource.Quantity] is not under src/: it is the class
    [QuantityOps], an argument of every definition that parses, compares or
    prints a quantity.  The persona records are api/v1/applicationpersona_types.go
    and clusterpersona_types.go. *)

From S2P Require Import Prelude GoString GoNum Json ApiTypes.
From stdpp Require Import strings.
Open Scope string_scope.

(** ** [resource.Quantity] *)

Class QuantityOps := {
  Quantity : Type;
  ParseQuantity : string -> option Quantity;
  q_IsZero : Quantity -> bool;
  q_Float : Quantity -> f64;            (* AsApproximateFloat64 *)
  q_String : Quantity -> string;
  q_MilliValue : Quantity -> Z;         (* int64 *)
  q_Value : Quantity -> Z;              (* int64 *)
  q_Cmp : Quantity -> Quantity -> comparison;
  q_BinaryString : Z -> string;         (* NewQuantity(v, BinarySI).String() *)
  q_MilliString : Z -> string;          (* NewMilliQuantity(v, DecimalSI).String() *)
}.
(** Sums of quantities, for the discovery and usage code. *)
Class QuantitySum `{QuantityOps} := { q_zero : Quantity; q_Add : Quantity -> Quantity -> Quantity }.

(** ** Pods, nodes, deployments *)

Definition PodPending : string := "Pending".
Definition PodSucceeded : string := "Succeeded".
Definition PodFailed : string := "Failed".
Definition PodReady : string := "Ready".
Definition ResourceCPU : string := "cpu".
Definition ResourceMemory : string := "memory".

(** [ResourceList.Cpu()] and the like: an absent entry reads as zero. *)
Definition rl_get `{QuantitySum} (rl : gmap string Quantity) (name : string) : Quantity := default q_zero (rl !! name).

Section objects.
Context `{QuantityOps}.

(** A probe, by the path of its HTTP check if that is what it is. *)
Record Probe := mkProbe { pb_HTTPGet : option string }.
Record SecurityContext := mkSecurityContext {
  sctx_ReadOnlyRootFilesystem : option bool; sctx_AllowPrivilegeEscalation : option bool }.
Record Container := mkContainer {
  ct_Name : string;
  ct_Image : string;
  ct_Limits : gmap string Quantity;
  ct_Requests : gmap string Quantity;
  ct_LivenessProbe : option Probe;
  ct_ReadinessProbe : option Probe;
  ct_SecurityContext : option SecurityContext;
}.

Record Terminated := mkTerminated { tm_Reason : string; tm_FinishedAt : time; tm_ExitCode : Z; tm_Message : string }.
Record Waiting := mkWaiting { wt_Reason : string; wt_Message : string }.

(** [ContainerState]: at most one member is set. *)
Record ContainerState := mkState {
  cst_Waiting : option Waiting;
  cst_Running : bool;
  cst_Terminated : option Terminated;
}.

Record ContainerStatus := mkContainerStatus {
  cs_Name : string;
  cs_Image : string;
  cs_Ready : bool;
  cs_RestartCount : Z;
  cs_State : ContainerState;
  cs_LastTerminationState : ContainerState;
}.

Record PodCondition := mkPodCondition { pc_Type : string; pc_Status : string; pc_LastTransitionTime : time }.
Record OwnerReference := mkOwner { ow_Kind : string; ow_Name : string }.

Record Pod := mkPod {
  pod_Meta : ObjectMeta;
  pod_OwnerReferences : list OwnerReference;
  pod_NodeName : string;
  pod_Containers : list Container;
  pod_InitContainers : list Container;
  pod_Phase : string;
  pod_Reason : string;
  pod_Message : string;
  pod_Conditions : list PodCondition;
  pod_ContainerStatuses : list ContainerStatus;
  pod_InitContainerStatuses : list ContainerStatus;
  pod_Hostname : string;
}.
Definition pod_Name (p : Pod) : string := m_Name (pod_Meta p).
Definition pod_Namespace (p : Pod) : string := m_Namespace (pod_Meta p).

Record NodeCondition := mkNodeCondition { nc_Type : string; nc_Status : string; nc_LastTransitionTime : time }.
Record Taint := mkTaint { tnt_Key : string; tnt_Value : string; tnt_Effect : string }.
Record Node := mkNode {
  node_Meta : ObjectMeta;
  node_Conditions : list NodeCondition;
  node_Allocatable : gmap string Quantity;
  node_Capacity : gmap string Quantity;
  node_KubeletVersion : string;
  node_ContainerRuntimeVersion : string;
  node_Taints : list Taint;
  node_ProviderID : string;
}.
Definition node_Name (n : Node) : string := m_Name (node_Meta n).

Inductive FieldsOperation := OpApply | OpUpdate | OpOther.
Record ManagedFieldsEntry := mkManagedFields {
  mf_Manager : string;
  mf_Operation : FieldsOperation;
  mf_FieldsV1 : option raw_json;
}.

Record DeploymentCondition := mkDeploymentCondition { dcn_Type : string; dcn_Status : string }.
Record LabelSelectorRequirement := mkRequirement { lsr_Key : string; lsr_Operator : string; lsr_Values : list string }.
Record Deployment := mkDeployment {
  dp_Meta : ObjectMeta;
  dp_Annotations : gmap string string;
  dp_ManagedFields : list ManagedFieldsEntry;
  dp_Replicas : option Z;
  dp_MatchLabels : option (gmap string string);   (* spec.selector *)
  dp_Containers : list Container;
  dp_ReadyReplicas : Z;                           (* status.readyReplicas *)
  dp_StatusReplicas : Z;
  dp_Conditions : list DeploymentCondition;
  dp_MatchExpressions : list LabelSelectorRequirement;
  dp_PodRunAsNonRoot : option (option bool);      (* the template's securityContext.runAsNonRoot *)
}.
Definition dp_Name (d : Deployment) : string := m_Name (dp_Meta d).
Definition dp_Namespace (d : Deployment) : string := m_Namespace (dp_Meta d).
Definition dp_Labels (d : Deployment) : gmap string string := m_Labels (dp_Meta d).
End objects.

(** ** ApplicationPersona *)

Record TechnicalProfile := mkTechnical { tp_Language : string; tp_Framework : string; tp_Description : string }.
Record ResourceConstraints := mkResources {
  rsc_Requests : option ResourceValues; rsc_Limits : option ResourceValues; rsc_Profile : string }.
Record ScalingSpec := mkScaling {
  sc_MinReplicas : option Z; sc_MaxReplicas : option Z; sc_TargetCPU : option Z;
  sc_TargetMemory : option Z; sc_Behavior : string }.
Record HealthSpec := mkHealth {
  hs_LivenessPath : string; hs_ReadinessPath : string; hs_Port : option Z; hs_StartupGracePeriod : string }.
Record DependencySpec := mkDependency {
  dep_Name : string; dep_Type : string; dep_Required : option bool; dep_HealthCheck : string }.
Record PortSpec := mkPort { port_Port : Z; port_Protocol : string; port_Purpose : string }.
Record IngressSpec := mkIngress {
  ing_Enabled : bool; ing_Host : string; ing_Paths : list string; ing_TLSEnabled : bool }.
Record NetworkingSpec := mkNetworking { net_Ports : list PortSpec; net_Ingress : option IngressSpec }.
Record OwnershipSpec := mkOwnership {
  own_Team : string; own_Owner : string; own_Repository : string; own_OnCall : string; own_Runbook : string }.
Record SecurityPolicy := mkSecurity {
  sec_RunAsNonRoot : option bool; sec_ReadOnlyRootFilesystem : option bool;
  sec_AllowPrivilegeEscalation : option bool; sec_ImageRunsAsRoot : option bool; sec_RunAsUser : option Z }.
Record DeploymentPolicy := mkDeployPolicy {
  dpp_Strategy : string; dpp_MaxSurge : string; dpp_MaxUnavailable : string }.
Record MaintenancePolicy := mkMaintenance { mp_Window : string; mp_AutoRestart : option bool }.
Record PoliciesSpec := mkPolicies {
  pol_Security : option SecurityPolicy; pol_Deployment : option DeploymentPolicy;
  pol_Maintenance : option MaintenancePolicy }.

Record ApplicationPersonaSpec := mkAPSpec {
  aps_Name : string;
  aps_Version : string;
  aps_Type : string;
  aps_Tier : string;
  aps_Technical : option TechnicalProfile;
  aps_Resources : option ResourceConstraints;
  aps_Scaling : option ScalingSpec;
  aps_Health : option HealthSpec;
  aps_Dependencies : list DependencySpec;
  aps_Networking : option NetworkingSpec;
  aps_Ownership : option OwnershipSpec;
  aps_Policies : option PoliciesSpec;
}.

Record DeploymentTracking := mkDeployTracking { dt_Current : string; dt_LastSuccessful : string; dt_LastFailed : string }.

Record PodFailure := mkPodFailure { pf_PodName : string; pf_Container : string; pf_Reason : string; pf_Message : string }.
Record HealthStatus := mkHealthStatus {
  hst_Status : string; hst_LastCheck : option time; hst_Message : string; hst_PodFailures : list PodFailure }.
Record ValidationIssue := mkIssue { vi_Severity : string; vi_Field : string; vi_Message : string; vi_Suggestion : string }.
Record ValidationStatus := mkValidation { vs_Passed : bool; vs_LastChecked : option time; vs_Issues : list ValidationIssue }.
Record ResourceBaseline := mkBaseline { rb_AvgCPU : string; rb_AvgMemory : string; rb_PeakCPU : string; rb_PeakMemory : string }.
Record Pattern := mkPattern { pn_Type : string; pn_Description : string; pn_Confidence : string }.
Record LearnedPatterns := mkLearned {
  lp_ResourceBaseline : option ResourceBaseline; lp_IncidentCount : Z; lp_LastIncident : string; lp_Patterns : list Pattern }.
Record ArgoCDStatus := mkArgoCDStatus {
  acd_SyncStatus : string; acd_HealthStatus : string; acd_LastSyncTime : option time; acd_Revision : string;
  acd_ApplicationName : string; acd_ApplicationNamespace : string }.

(** The status, but for the recommendations, which nothing writes. *)
Record ApplicationPersonaStatus := mkAPStatus {
  apst_Deployments : option DeploymentTracking;
  apst_ActiveIncidents : Z;
  apst_LastIncidentTime : option time;
  apst_Phase : string;
  apst_LastUpdated : option time;
  apst_Health : option HealthStatus;
  apst_Validation : option ValidationStatus;
  apst_Learned : option LearnedPatterns;
  apst_ArgoCD : option ArgoCDStatus;
  apst_Conditions : list Condition;
}.
Definition empty_status : ApplicationPersonaStatus := mkAPStatus None 0 None "" None None None None None [].

Record ApplicationPersona := mkAP {
  ap_Meta : ObjectMeta;
  ap_Spec : ApplicationPersonaSpec;
  ap_Status : ApplicationPersonaStatus;
  ap_Annotations : gmap string string;
}.
Definition ap_Name (p : ApplicationPersona) : string := m_Name (ap_Meta p).
Definition ap_Namespace (p : ApplicationPersona) : string := m_Namespace (ap_Meta p).
Definition ap_set_spec (s : ApplicationPersonaSpec) (p : ApplicationPersona) : ApplicationPersona :=
  mkAP (ap_Meta p) s (ap_Status p) (ap_Annotations p).

(** ** ClusterPersona: the self-healing policy *)

Definition SelfHealingModeObserve : string := "observe".
Definition SelfHealingModePropose : string := "propose".
Definition SelfHealingModeAutoApprove : string := "auto-approve".

Record RollbackPolicy := mkRollbackPolicy {
  rbp_Enabled : bool; rbp_HealthCheckAfter : option duration; rbp_MaxRetries : Z }.

Record SelfHealingPolicy := mkSelfHealing {
  shp_Enabled : bool;
  shp_Mode : string;
  shp_TrustLevel : Z;
  shp_MaxRemediationsPerHour : Z;
  shp_ExcludeNamespaces : list string;
  shp_Rollback : option RollbackPolicy;
}.

Record NodeResources := mkNodeResources { nr_CPU : string; nr_Memory : string; nr_Pods : string; nr_EphemeralStorage : string }.
Record NodeInfo := mkNodeInfo {
  ni_Name : string;
  ni_Role : string;
  ni_Ready : bool;
  ni_Capacity : option NodeResources;
  ni_Allocatable : option NodeResources;
  ni_Taints : list string;
  ni_Labels : gmap string string;
  ni_KubeletVersion : string;
  ni_ContainerRuntime : string;
}.
Record ClusterResourceSummary := mkSummary {
  rs_TotalCPU : string;
  rs_TotalMemory : string;
  rs_AllocatableCPU : string;
  rs_AllocatableMemory : string;
  rs_UsedCPU : string;
  rs_UsedMemory : string;
  rs_CPUUtilization : string;
  rs_MemoryUtilization : string;
  rs_TotalPods : Z;
  rs_RunningPods : Z;
  rs_NodeCount : Z;
}.
Record AddonInfo := mkAddon {
  ad_Name : string; ad_AddonType : string; ad_Installed : bool; ad_Version : string; ad_Namespace : string; ad_Healthy : option bool }.
Record NamespaceSummary := mkNamespaces { nss_Total : Z; nss_Active : Z; nss_WithPersonas : Z }.
Record ClusterPersonaStatus := mkCPStatus {
  cps_Phase : string;
  cps_LastDiscovery : option time;
  cps_Nodes : list NodeInfo;
  cps_ResourceSummary : option ClusterResourceSummary;
  cps_Addons : list AddonInfo;
  cps_Namespaces : option NamespaceSummary;
  cps_KubernetesVersion : string;
  cps_Platform : string;
  cps_ApplicationCount : Z;
  cps_Conditions : list Condition;
}.
Definition empty_cluster_status : ClusterPersonaStatus := mkCPStatus "" None [] None [] None "" "" 0 [].

(** Of the spec, what the code reads or writes; [Spec.Policies.SelfHealing] with
    both pointers. *)
Record ClusterPersona := mkCP {
  cp_Meta : ObjectMeta;
  cp_Policies : option (option SelfHealingPolicy);
  cp_Annotations : gmap string string;
  cp_SpecName : string;
  cp_Description : string;
  cp_Environment : string;
  cp_Status : ClusterPersonaStatus;
}.
Definition cp_SelfHealing (cp : ClusterPersona) : option SelfHealingPolicy := mjoin (cp_Policies cp).
