(* ===== verification/KubectlVerb.v ===== *)
(** * Reading a suggested kubectl command: read or write?

    Models internal/remediation/kubectl_verb.go: the verb is found positionally,
    global flags being skipped with their values.  [readsOnly_iff] characterises
    the classifier by a grammar of command lines. *)

From S2P Require Import Prelude GoString.
From stdpp Require Import strings.
Open Scope string_scope.

Definition table (keys : list string) (k : string) : bool := existsb (String.eqb k) keys.

Definition mutatingKubectlVerbs : string -> bool := table
  ["annotate"; "apply"; "autoscale"; "cordon"; "create"; "delete"; "drain"; "edit"; "expose";
   "label"; "patch"; "replace"; "run"; "scale"; "set"; "taint"; "uncordon"].

Definition readOnlyKubectlVerbs : string -> bool := table
  ["api-resources"; "api-versions"; "cluster-info"; "describe"; "diff"; "events"; "explain";
   "get"; "logs"; "top"; "version"].

Definition readOnlyRolloutSubcommands : string -> bool := table ["history"; "status"].
Definition readOnlyAuthSubcommands : string -> bool := table ["can-i"; "whoami"].

Definition verbsWithSubcommands (verb : string) : option (string -> bool) :=
  if (verb =? "auth") then Some readOnlyAuthSubcommands
  else if (verb =? "rollout") then Some readOnlyRolloutSubcommands
  else None.

Definition valueTakingGlobalFlags : string -> bool := table
  ["-n"; "--namespace"; "-o"; "--output"; "-s"; "--server"; "--context"; "--cluster"; "--user";
   "--kubeconfig"; "--token"; "--as"; "--as-group"; "--as-uid"; "--cache-dir";
   "--certificate-authority"; "--client-certificate"; "--client-key"; "--request-timeout";
   "--tls-server-name"; "--username"; "--password"; "--profile"; "--profile-output";
   "--log-flush-frequency"; "-v"; "--v"; "--vmodule"].

Definition booleanGlobalFlags : string -> bool := table
  ["--insecure-skip-tls-verify"; "--match-server-version"; "--warnings-as-errors";
   "--disable-compression"].

Definition isKubectlInvocation (command : string) : bool :=
  match fields command with
  | f0 :: _ :: _ => (f0 =? "kubectl")
  | _ => false
  end.

(** The loop of [kubectlVerb] over the tokens after [kubectl]. *)
Fixpoint scan_verb (tokens : list string) : option (string * list string) :=
  match tokens with
  | [] => None
  | token :: rest =>
      if negb (has_prefix token "-") then Some (token, rest)
      else match cut token "=" with
           | Some (name, _) =>
               if negb (valueTakingGlobalFlags name) && negb (booleanGlobalFlags name) then None
               else scan_verb rest
           | None =>
               if booleanGlobalFlags token then scan_verb rest
               else if valueTakingGlobalFlags token
                    then match rest with [] => None | _ :: rest' => scan_verb rest' end
                    else None
           end
  end.

Definition kubectlVerb (command : string) : option (string * list string) :=
  match fields command with
  | f0 :: ((_ :: _) as rest) => if (f0 =? "kubectl") then scan_verb rest else None
  | _ => None
  end.

Definition subcommandReadsOnly (arguments : list string) (readOnlySubcommands : string -> bool) : bool :=
  match arguments with
  | [] => false
  | a :: _ => if has_prefix a "-" then false else readOnlySubcommands a
  end.

Definition readsOnly (command : string) : bool :=
  match kubectlVerb command with
  | None => false
  | Some (verb, arguments) =>
      match verbsWithSubcommands verb with
      | Some readOnlySubcommands => subcommandReadsOnly arguments readOnlySubcommands
      | None => if mutatingKubectlVerbs verb then false else readOnlyKubectlVerbs verb
      end
  end.

Definition writesWorkload (command : string) : bool :=
  isKubectlInvocation command && negb (readsOnly command).

(** ** The grammar of what is accepted *)

(** A sequence of known global flags, each value-taking one with its value. *)
Inductive global_flags : list string -> Prop :=
| gf_nil : global_flags []
| gf_inline token name v rest :
    has_prefix token "-" = true -> cut token "=" = Some (name, v) ->
    valueTakingGlobalFlags name || booleanGlobalFlags name = true ->
    global_flags rest -> global_flags (token :: rest)
| gf_bool token rest :
    has_prefix token "-" = true -> cut token "=" = None -> booleanGlobalFlags token = true ->
    global_flags rest -> global_flags (token :: rest)
| gf_value token value rest :
    has_prefix token "-" = true -> cut token "=" = None -> booleanGlobalFlags token = false ->
    valueTakingGlobalFlags token = true ->
    global_flags rest -> global_flags (token :: value :: rest).
#[export] Hint Constructors global_flags : go.

(** The verb (and, for auth and rollout, its subcommand) only reads. *)
Definition read_only_verb (verb : string) (args : list string) : Prop :=
  (readOnlyKubectlVerbs verb = true) \/
  (verb = "auth" /\ exists sub rest, args = sub :: rest /\ readOnlyAuthSubcommands sub = true) \/
  (verb = "rollout" /\ exists sub rest, args = sub :: rest /\ readOnlyRolloutSubcommands sub = true).

(** ** Lemmas *)

Lemma table_spec keys k : table keys k = true <-> k ∈ keys.
Proof.
  unfold table. rewrite existsb_elem. split.
  - by intros (x & Hx & ->%String.eqb_eq).
  - intros Hk. exists k. by rewrite String.eqb_refl.
Qed.

Lemma scan_verb_complete flags verb args :
  global_flags flags -> has_prefix verb "-" = false -> scan_verb (flags ++ verb :: args) = Some (verb, args).
Proof.
  intros Hf Hv. induction Hf as [|t n v r Hp Hc Hk Hr IH|t r Hp Hc Hb Hr IH|t v r Hp Hc Hb Hk Hr IH]; simpl.
  - by rewrite Hv.
  - rewrite Hp, Hc; simpl. destruct (valueTakingGlobalFlags n), (booleanGlobalFlags n); done.
  - by rewrite Hp, Hc, Hb.
  - by rewrite Hp, Hc, Hb, Hk.
Qed.


Lemma scan_verb_sound n : forall tokens verb args, (length tokens <= n)%nat ->
  scan_verb tokens = Some (verb, args) ->
  exists flags, tokens = (flags ++ verb :: args)%list /\ global_flags flags /\ has_prefix verb "-" = false.
Proof.
  induction n as [|n IH]; intros [|t rest] verb args Hlen H; simpl in *; try done; try lia.
  destruct (has_prefix t "-") eqn:Hp; simpl in H; [|simplify_eq; exists []; by split_and!; [|constructor|]].
  destruct (cut t "=") as [[name v]|] eqn:Hc.
  - destruct (negb _ && negb _) eqn:Hk in H; [done|].
    apply IH in H as (fl & -> & Hfl & Hv); [|lia]. exists (t :: fl). split_and!; [done| |done].
    eapply gf_inline; eauto. revert Hk. by destruct (valueTakingGlobalFlags name), (booleanGlobalFlags name).
  - destruct (booleanGlobalFlags t) eqn:Hb.
    + apply IH in H as (fl & -> & Hfl & Hv); [|lia]. exists (t :: fl). split_and!; [done| |done]. eauto with go.
    + destruct (valueTakingGlobalFlags t) eqn:Hk; [|done]. destruct rest as [|v rest]; [done|]. simpl in *.
      apply IH in H as (fl & -> & Hfl & Hv); [|lia]. exists (t :: v :: fl). split_and!; [done| |done]. eauto with go.
Qed.

Lemma kubectlVerb_iff command verb args :
  kubectlVerb command = Some (verb, args) <->
  exists flags, fields command = "kubectl" :: (flags ++ verb :: args)%list /\
    global_flags flags /\ has_prefix verb "-" = false.
Proof.
  unfold kubectlVerb. split.
  - destruct (fields command) as [|f0 [|f1 fs]]; try done.
    destruct (String.eqb_spec f0 "kubectl") as [->|]; [|done].
    intros (fl & Heq & ? & ?)%(scan_verb_sound _ _ _ _ (le_n _)). exists fl. rewrite Heq. by split_and!.
  - intros (fl & -> & Hfl & Hv). destruct (fl ++ verb :: args)%list as [|f fs] eqn:Hl; [by destruct fl|].
    rewrite String.eqb_refl, <- Hl. by apply scan_verb_complete.
Qed.

Lemma read_only_not_mutating verb : readOnlyKubectlVerbs verb = true -> mutatingKubectlVerbs verb = false.
Proof.
  intros H. apply table_spec in H. revert H.
  rewrite !elem_of_cons, elem_of_nil. intros H. destruct_or!; subst; done.
Qed.

Lemma subcommand_cases args (t : string -> bool) :
  (forall a, t a = true -> has_prefix a "-" = false) ->
  subcommandReadsOnly args t = true <-> exists sub rest, args = sub :: rest /\ t sub = true.
Proof.
  intros Ht. destruct args as [|a rest]; simpl; [naive_solver|].
  destruct (has_prefix a "-") eqn:Hp.
  - split; [done|]. intros (? & ? & ? & Hs). simplify_eq. rewrite (Ht _ Hs) in Hp. done.
  - naive_solver.
Qed.

Lemma auth_sub_no_dash a : readOnlyAuthSubcommands a = true -> has_prefix a "-" = false.
Proof. intros H%table_spec. revert H. rewrite !elem_of_cons, elem_of_nil. intros H. by destruct_or!; subst. Qed.
Lemma rollout_sub_no_dash a : readOnlyRolloutSubcommands a = true -> has_prefix a "-" = false.
Proof. intros H%table_spec. revert H. rewrite !elem_of_cons, elem_of_nil. intros H. by destruct_or!; subst. Qed.

(** [readsOnly] accepts exactly the command lines [kubectl FLAGS VERB ARGS]
    where FLAGS is a well-formed sequence of known global flags (each value-taking
    flag followed by its value) and VERB is one of the read-only verbs, or auth or
    rollout with a read-only subcommand as the very next token.  In particular a
    flag VALUE never decides: [kubectl -n logs delete ...] is not read-only. *)
Theorem readsOnly_iff (command : string) :
  readsOnly command = true <->
  exists (flags : list string) (verb : string) (args : list string), fields command = "kubectl" :: (flags ++ verb :: args)%list /\ global_flags flags /\ has_prefix verb "-" = false /\ read_only_verb verb args.
Proof.
  unfold readsOnly. split.
  - destruct (kubectlVerb command) as [[verb args]|] eqn:Hk; [|done].
    apply kubectlVerb_iff in Hk as (fl & Hf & Hfl & Hv). intros H. exists fl, verb, args.
    split_and!; try done. unfold verbsWithSubcommands in H. unfold read_only_verb.
    destruct (String.eqb_spec verb "auth") as [->|Ha]; [right; left|
      destruct (String.eqb_spec verb "rollout") as [->|Hr]; [right; right|left]].
    + split; [done|]. revert H. apply subcommand_cases. intros a. apply auth_sub_no_dash.
    + split; [done|]. revert H. apply subcommand_cases. intros a. apply rollout_sub_no_dash.
    + by destruct (mutatingKubectlVerbs verb).
  - intros (fl & verb & args & Hf & Hfl & Hv & Hro).
    rewrite (proj2 (kubectlVerb_iff command verb args)) by eauto.
    destruct Hro as [Hro|[[-> Hsub]|[-> Hsub]]].
    + assert (verbsWithSubcommands verb = None) as ->
        by (apply table_spec in Hro; revert Hro; rewrite !elem_of_cons, elem_of_nil;
            intros Hro; by destruct_or!; subst).
      by rewrite read_only_not_mutating.
    + change (verbsWithSubcommands "auth") with (Some readOnlyAuthSubcommands). cbv iota.
      apply subcommand_cases; [apply auth_sub_no_dash|done].
    + change (verbsWithSubcommands "rollout") with (Some readOnlyRolloutSubcommands). cbv iota.
      apply subcommand_cases; [apply rollout_sub_no_dash|done].
Qed.

(** A namespace called [logs] does not hide the verb behind it. *)
Example delete_in_logs : writesWorkload "kubectl -n logs delete deployment/foo" = true.
Proof. reflexivity. Qed.
Example get_in_delete : writesWorkload "kubectl --namespace=delete get pods" = false.
Proof. reflexivity. Qed.
