(* ===== verification/Steps.v ===== *)
(** * The step-safety rules of a plan (api/v1/remediationaction_steps.go).

    Which plans the operator may apply itself, how the legacy single Action and
    the [Steps[]] plan read as one shape, and which suggested commands may be
    printed. *)

From S2P Require Import Prelude GoString GoNum Json ApiTypes.
From Stdlib Require Import String Ascii.
From stdpp Require Import strings.
Open Scope string_scope.

Definition StepTypePersonaUpdate : string := "persona-update".
Definition StepTypeWorkloadApply : string := "workload-apply".
Definition StepTypeRestart : string := "restart".
Definition StepTypeScale : string := "scale".
Definition StepTypeConfigChange : string := "config-change".
Definition StepTypeManual : string := "manual".

Definition ActionTypePersonaUpdate : string := StepTypePersonaUpdate.
Definition ActionTypeNotification : string := "notification".
Definition ActionTypeGitPR : string := "git-pr".

Definition ReasonAdvisoryOnly : string := "AdvisoryOnly".
Definition ReasonPreconditionRejected : string := "PreconditionRejected".

Definition hasPatch (patch : option raw_json) : bool :=
  match patch with Some r => negb (raw_len0 r) | None => false end.

(** An auto-executable persona-update step that carries a patch. *)
Definition auto_applicable (s : RemediationStep) : bool :=
  st_AutoExecutable s && (st_Type s =? StepTypePersonaUpdate) && hasPatch (st_Patch s).

(** [(r *RemediationAction) HasAutoApplicableChange]; [None] is the nil receiver. *)
Definition HasAutoApplicableChange (r : option RemediationAction) : bool :=
  match r with
  | None => false
  | Some r =>
      if existsb auto_applicable (ra_Steps (ra_Spec r)) then true
      else match ra_Steps (ra_Spec r) with
           | _ :: _ => false
           | [] => (ad_Type (ra_Action (ra_Spec r)) =? ActionTypePersonaUpdate)
                   && hasPatch (ad_Patch (ra_Action (ra_Spec r)))
           end
  end.

Definition legacyActionStepType (actionType : string) : string :=
  if (actionType =? ActionTypePersonaUpdate) then StepTypePersonaUpdate else StepTypeManual.

(** [EffectiveSteps]. The deep copies are the values themselves. *)
Definition EffectiveSteps (r : option RemediationAction) : list RemediationStep :=
  match r with
  | None => []
  | Some r =>
      match ra_Steps (ra_Spec r) with
      | _ :: _ => ra_Steps (ra_Spec r)
      | [] =>
          let legacy := ra_Action (ra_Spec r) in
          if (ad_Type legacy =? "") then [] else
          [ mkStep 1 "legacy-action" (legacyActionStepType (ad_Type legacy))
              (ra_Explanation (ra_Spec r)) "" "" (ad_Type legacy =? ActionTypePersonaUpdate) ""
              (ad_Patch legacy) (ad_PrePatchState legacy) [] ]
      end
  end.

Definition MaxStepCommandLength : nat := 1024.
Definition stepCommandPrefix : string := "kubectl ".

(** The forbidden characters [;&|<>`$] and the two line breaks. *)
Definition stepCommandForbidden : string :=
  ";&|<>`$" ++ String (ascii_of_N 10) (String (ascii_of_N 13) "").

Definition SanitizeStepCommand (cmd : string) : string :=
  let trimmed := trim_space cmd in
  if (trimmed =? "") then ""
  else if (MaxStepCommandLength <? String.length trimmed)%nat then ""
  else if negb (has_prefix trimmed stepCommandPrefix) then ""
  else if contains_any trimmed stepCommandForbidden then ""
  else trimmed.

Definition auto_exec_error (s : RemediationStep) : string :=
  "step " ++ fmt_d (st_Order s) ++ " (id=" ++ fmt_q (st_ID s) ++ ", type=" ++ fmt_q (st_Type s)
  ++ ") is autoExecutable but only " ++ fmt_q StepTypePersonaUpdate ++ " steps may be auto-executed".

Definition violates_auto_exec (s : RemediationStep) : bool :=
  st_AutoExecutable s && negb (st_Type s =? StepTypePersonaUpdate).

(** [ValidateAutoExecutable]: the errors [errors.Join] joins; none is nil. *)
Definition ValidateAutoExecutable (r : option RemediationAction) : list string :=
  match r with
  | None => []
  | Some r => map auto_exec_error (List.filter violates_auto_exec (ra_Steps (ra_Spec r)))
  end.

(** ** Properties *)

Lemma ValidateAutoExecutable_nil r :
  ValidateAutoExecutable (Some r) = [] <->
  forall s, s ∈ ra_Steps (ra_Spec r) -> st_AutoExecutable s = true -> st_Type s = StepTypePersonaUpdate.
Proof.
  rewrite <- (Forall_forall (fun s => st_AutoExecutable s = true -> st_Type s = StepTypePersonaUpdate)).
  simpl. induction (ra_Steps (ra_Spec r)) as [|x l IH]; [by split; [constructor|]|].
  rewrite Forall_cons. simpl. unfold violates_auto_exec at 1.
  destruct (st_AutoExecutable x); simpl; [|rewrite IH; naive_solver].
  destruct (String.eqb_spec (st_Type x) StepTypePersonaUpdate); simpl; [rewrite IH|]; naive_solver.
Qed.

(** A plan that passes [ValidateAutoExecutable] reads, through
    [EffectiveSteps], as steps of which only a persona-update may be
    auto-executed: the legacy Action is covered as well, whatever its type. *)
Theorem EffectiveSteps_auto_only_persona (r : option RemediationAction) (s : RemediationStep) :
  ValidateAutoExecutable r = [] -> s ∈ EffectiveSteps r -> st_AutoExecutable s = true ->
  st_Type s = StepTypePersonaUpdate.
Proof.
  destruct r as [r|]; [|by intros _ ?%not_elem_of_nil]. rewrite ValidateAutoExecutable_nil.
  simpl. destruct (ra_Steps (ra_Spec r)) as [|x l] eqn:Hs; [|by intros H ?; apply H].
  intros _. destruct (String.eqb_spec (ad_Type (ra_Action (ra_Spec r))) ""); [by intros ?%not_elem_of_nil|].
  intros ->%list_elem_of_singleton. simpl. intros Ht. unfold legacyActionStepType. by rewrite Ht.
Qed.

(** [HasAutoApplicableChange] decides exactly whether some effective step is
    an auto-executable persona-update carrying a patch: the two readings of a
    plan, field by field and through [EffectiveSteps], agree. *)
Theorem HasAutoApplicableChange_effective (r : option RemediationAction) :
  HasAutoApplicableChange r = existsb auto_applicable (EffectiveSteps r).
Proof.
  destruct r as [r|]; [|done]. simpl. destruct (ra_Steps (ra_Spec r)) as [|x l]; simpl.
  - destruct (String.eqb_spec (ad_Type (ra_Action (ra_Spec r))) "") as [->|]; [done|]. simpl.
    unfold auto_applicable, legacyActionStepType; simpl.
    destruct (String.eqb_spec (ad_Type (ra_Action (ra_Spec r))) ActionTypePersonaUpdate); simpl;
      [by rewrite orb_false_r|done].
  - by destruct (_ || _).
Qed.

(** *** Trimming is idempotent *)

Lemma trim_right_cons c s : trim_right_space s <> "" -> trim_right_space (String c s) = String c (trim_right_space s).
Proof. simpl. by destruct (trim_right_space s). Qed.

Lemma trim_right_idem s : trim_right_space (trim_right_space s) = trim_right_space s.
Proof.
  induction s as [|c s IH]; [done|]. simpl. destruct (trim_right_space s) as [|d r] eqn:Hr.
  - destruct (is_space c) eqn:Hc; [done|]. simpl. by rewrite Hc.
  - rewrite trim_right_cons, IH; [done|by rewrite IH].
Qed.

Lemma trim_left_nonspace s : match trim_left_space s with "" => True | String c _ => is_space c = false end.
Proof. induction s as [|c s IH]; simpl; [done|]. by destruct (is_space c) eqn:?. Qed.

Lemma trim_right_head c s : is_space c = false -> exists r, trim_right_space (String c s) = String c r.
Proof. intros Hc. simpl. destruct (trim_right_space s); rewrite ?Hc; eauto. Qed.

Lemma trim_space_idem s : trim_space (trim_space s) = trim_space s.
Proof.
  unfold trim_space. pose proof (trim_left_nonspace s) as H.
  destruct (trim_left_space s) as [|c t]; [done|]. destruct (trim_right_head c t H) as [r Hr].
  rewrite Hr. simpl trim_left_space. rewrite H, <- Hr. apply trim_right_idem.
Qed.

(** What [SanitizeStepCommand] lets through is one trimmed kubectl
    invocation, within the CRD bound and free of every shell metacharacter and
    line break; sanitising again changes nothing; anything else is dropped whole. *)
Theorem SanitizeStepCommand_spec (cmd : string) :
  let out := SanitizeStepCommand cmd in
  SanitizeStepCommand out = out /\
  (out = "" \/
   out = trim_space cmd /\ (String.length out <= MaxStepCommandLength)%nat /\
   (exists rest, out = stepCommandPrefix ++ rest) /\
   forall c, str_exists (Ascii.eqb c) stepCommandForbidden = true -> str_exists (Ascii.eqb c) out = false).
Proof.
  unfold SanitizeStepCommand.
  destruct (String.eqb_spec (trim_space cmd) ""); [by split; [|left]|].
  destruct (Nat.ltb_spec MaxStepCommandLength (String.length (trim_space cmd))); [by split; [|left]|].
  destruct (has_prefix (trim_space cmd) stepCommandPrefix) eqn:Hp; cbn [negb]; [|by split; [|left]].
  destruct (contains_any (trim_space cmd) stepCommandForbidden) eqn:Hc; [by split; [|left]|].
  split; [|right; split_and!; try done].
  - rewrite trim_space_idem. destruct (String.eqb_spec (trim_space cmd) ""); [done|].
    destruct (Nat.ltb_spec MaxStepCommandLength (String.length (trim_space cmd))); [lia|].
    by rewrite Hp, Hc.
  - apply has_prefix_spec in Hp as [r Hr]. by exists r.
  - intros c. revert Hc. unfold contains_any. generalize (trim_space cmd) stepCommandForbidden. clear.
    intros s f Hc Hf. revert Hc. induction s as [|d s IH]; cbn [str_exists]; [done|]. rewrite !orb_false_iff. intros [Hd Hs]. split; [|auto].
    destruct (Ascii.eqb_spec c d) as [->|]; [|done]. congruence.
Qed.

Example sanitize_get : SanitizeStepCommand "  kubectl get pods -n api " = "kubectl get pods -n api".
Proof. reflexivity. Qed.
Example sanitize_pipe : SanitizeStepCommand "kubectl get pods | sh" = "".
Proof. reflexivity. Qed.

(** ** Witnesses *)

(** A legacy, single-action remediation. *)
Definition ex_legacy : RemediationAction :=
  mkRA (mkMeta "ra-1" "shop" ∅ 0%Z None 0)
    (mkRASpec (mkIncidentRef "inc-1" "shop") (mkPersonaRef "ApplicationPersona" "api" "shop") 2
      (mkActionDetail "persona-update" (Some (RawDoc (JObj {["spec" := JObj ∅]}))) None) [] "" "" "raise memory" "0.90"
      None None None)
    (mkRAStatus "Pending" "" None None "" [] 0 []).

Lemma EffectiveSteps_auto_only_persona_witness :
  exists s, EffectiveSteps (Some ex_legacy) = [s] /\ st_AutoExecutable s = true /\ st_Type s = StepTypePersonaUpdate.
Proof.
  eexists. split; [reflexivity|]. split; [reflexivity|].
  apply (EffectiveSteps_auto_only_persona (Some ex_legacy)); [reflexivity|left|reflexivity].
Defined.
