(* ===== verification/Client.v ===== *)
(** * The Kubernetes client as an interface, with an in-memory instance.

    [sigs.k8s.io/controller-runtime/pkg/client] is not under src/: the class
    [Client W] lists the calls the operator makes, over an abstract world [W]
    (API server, informer cache and clock together).  A read may fail and may
    return a stale object; nothing is assumed unless a theorem asks for one of
    the law classes below, which state the documented behaviour of the client.
    [mem_client] is a concrete cluster with scripted faults, used by the
    witnesses. *)

From S2P Require Import Prelude GoString GoNum Json ApiTypes KubeTypes.
From stdpp Require Import strings.
Open Scope string_scope.

(** [client.InNamespace] and [client.MatchingLabels]. *)
Record ListOptions := mkListOptions { lo_Namespace : option string; lo_Labels : list (string * string) }.

Class Client `{QuantityOps} (W : Type) := {
  clock : io W time;                                            (* time.Now *)
  getRA : ObjectKey -> io W (result error RemediationAction);
  listRA : ListOptions -> io W (result error (list RemediationAction));
  createRA : RemediationAction -> io W (result error RemediationAction);
  updateStatusRA : RemediationAction -> io W (result error RemediationAction);
  getPersona : ObjectKey -> io W (result error ApplicationPersona);
  listPersonas : ListOptions -> io W (result error (list ApplicationPersona));
  updatePersona : ApplicationPersona -> io W (result error ApplicationPersona);
  updateStatusPersona : ApplicationPersona -> io W (result error ApplicationPersona);
  getIncident : ObjectKey -> io W (result error IncidentMemory);
  listIncidents : ListOptions -> io W (result error (list IncidentMemory));
  createIncident : IncidentMemory -> io W (result error IncidentMemory);
  updateIncident : IncidentMemory -> io W (result error IncidentMemory);
  updateStatusIncident : IncidentMemory -> io W (result error IncidentMemory);
  listClusterPersonas : io W (result error (list ClusterPersona));
  getDeployment : ObjectKey -> io W (result error Deployment);
  listDeployments : ListOptions -> io W (result error (list Deployment));
  listPods : ListOptions -> io W (result error (list Pod));
  listPodsOnNode : string -> io W (result error (list Pod));     (* field index spec.nodeName *)
  listNodes : io W (result error (list Node));
}.

(** Reads leave the cluster as it is. *)
Class ClientReads `{Client W} : Prop := {
  clock_reads w : (clock w).2 = w;
  getRA_reads k w : (getRA k w).2 = w;
  listRA_reads o w : (listRA o w).2 = w;
  getPersona_reads k w : (getPersona k w).2 = w;
  listPersonas_reads o w : (listPersonas o w).2 = w;
  getIncident_reads k w : (getIncident k w).2 = w;
  listIncidents_reads o w : (listIncidents o w).2 = w;
  listClusterPersonas_reads w : (listClusterPersonas w).2 = w;
  getDeployment_reads k w : (getDeployment k w).2 = w;
  listDeployments_reads o w : (listDeployments o w).2 = w;
  listPods_reads o w : (listPods o w).2 = w;
}.

Create Rewrite HintDb reads.
#[export] Hint Rewrite @clock_reads @getRA_reads @listRA_reads @getPersona_reads @listPersonas_reads
  @getIncident_reads @listIncidents_reads @listClusterPersonas_reads @getDeployment_reads
  @listDeployments_reads @listPods_reads using apply _ : reads.

(** A pure read [m w = (r, w)], in the form the proofs destruct. *)
Lemma read_pair {W A} (m : io W A) w : (m w).2 = w -> m w = ((m w).1, w).
Proof. destruct (m w); simpl. by intros ->. Qed.

(** Stepping over a computation that leaves the world alone. *)
Lemma bind_read {W A B} (m : io W A) (f : A -> io W B) w r : m w = (r, w) -> (mbind f m) w = f r w.
Proof. unfold mbind, io_bind. by intros ->. Qed.

(** A client seen through a larger world. *)
Definition lifted {V W A} (get : W -> V) (set : V -> W -> W) (m : io V A) : io W A := fun w => let '(a, v) := m (get w) in (a, set v w).
Definition lift_client `{Client V} {W} (get : W -> V) (set : V -> W -> W) : Client W := {|
  clock := lifted get set clock;
  getRA k := lifted get set (getRA k); listRA o := lifted get set (listRA o);
  createRA a := lifted get set (createRA a); updateStatusRA a := lifted get set (updateStatusRA a);
  getPersona k := lifted get set (getPersona k); listPersonas o := lifted get set (listPersonas o);
  updatePersona p := lifted get set (updatePersona p); updateStatusPersona p := lifted get set (updateStatusPersona p);
  getIncident k := lifted get set (getIncident k); listIncidents o := lifted get set (listIncidents o);
  createIncident i := lifted get set (createIncident i); updateIncident i := lifted get set (updateIncident i);
  updateStatusIncident i := lifted get set (updateStatusIncident i);
  listClusterPersonas := lifted get set listClusterPersonas; getDeployment k := lifted get set (getDeployment k);
  listDeployments o := lifted get set (listDeployments o); listPods o := lifted get set (listPods o);
  listPodsOnNode n := lifted get set (listPodsOnNode n); listNodes := lifted get set listNodes;
|}.

Lemma lifted_reads {V W A} (get : W -> V) (set : V -> W -> W) (m : io V A) w :
  set (get w) w = w -> (m (get w)).2 = get w -> (lifted get set m w).2 = w.
Proof. intros Hs Hm. unfold lifted. destruct (m (get w)) as [a v]. cbn in Hm |- *. by subst v. Qed.
Lemma lift_client_reads `{ClientReads V} {W} (get : W -> V) (set : V -> W -> W) :
  (forall w, set (get w) w = w) -> @ClientReads _ W (lift_client get set).
Proof.
  intros Hs. constructor; intros; (apply lifted_reads; [apply Hs|]).
  - apply clock_reads.
  - apply getRA_reads.
  - apply listRA_reads.
  - apply getPersona_reads.
  - apply listPersonas_reads.
  - apply getIncident_reads.
  - apply listIncidents_reads.
  - apply listClusterPersonas_reads.
  - apply getDeployment_reads.
  - apply listDeployments_reads.
  - apply listPods_reads.
Qed.

(** ** An in-memory cluster *)

Record Mem `{QuantityOps} := mkMem {
  mem_now : time;
  mem_ra : gmap ObjectKey RemediationAction;
  mem_personas : gmap ObjectKey ApplicationPersona;
  mem_incidents : gmap ObjectKey IncidentMemory;
  mem_clusterPersonas : list ClusterPersona;
  mem_deployments : gmap ObjectKey Deployment;
  mem_pods : list Pod;
  mem_nodes : list Node;
  mem_faults : list (option api_error);   (* one entry per write call; missing entries succeed *)
  mem_cp_error : option error;        (* the ClusterPersona list fails *)
}.

Section mem.
Context `{QuantityOps}.

Definition meta_key (m : ObjectMeta) : ObjectKey := mkKey (m_Name m) (m_Namespace m).

Definition selects (o : ListOptions) (m : ObjectMeta) : bool :=
  match lo_Namespace o with Some ns => (m_Namespace m =? ns) | None => true end
  && forallb (fun kv => bool_decide (m_Labels m !! kv.1 = Some kv.2)) (lo_Labels o).

Definition not_found {A} : result error A := Err (ErrAPI NotFound "not found").

Definition mem_get {A} (proj : Mem -> gmap ObjectKey A) (k : ObjectKey) : io Mem (result error A) := fun w =>
  (match proj w !! k with Some a => Ok a | None => not_found end, w).
Definition mem_list {A} (proj : Mem -> gmap ObjectKey A) (meta : A -> ObjectMeta) (o : ListOptions)
  : io Mem (result error (list A)) := fun w =>
  (Ok (List.filter (fun a => selects o (meta a)) (map snd (map_to_list (proj w)))), w).

Definition pop_fault (w : Mem) : option error * Mem :=
  match mem_faults w with
  | [] => (None, w)
  | f :: fs => ((fun k => ErrAPI k "the write was refused") <$> f, mkMem _ (mem_now w) (mem_ra w) (mem_personas w) (mem_incidents w) (mem_clusterPersonas w)
                     (mem_deployments w) (mem_pods w) (mem_nodes w) fs (mem_cp_error w))
  end.
Definition mem_write {A} (f : Mem -> Mem) (a : A) : io Mem (result error A) := fun w =>
  match pop_fault w with (Some e, w') => (Err e, w') | (None, w') => (Ok a, f w') end.

Definition put_ra (a : RemediationAction) (w : Mem) : Mem :=
  mkMem _ (mem_now w) (<[meta_key (ra_Meta a) := a]> (mem_ra w)) (mem_personas w) (mem_incidents w)
    (mem_clusterPersonas w) (mem_deployments w) (mem_pods w) (mem_nodes w) (mem_faults w) (mem_cp_error w).
Definition put_persona (a : ApplicationPersona) (w : Mem) : Mem :=
  mkMem _ (mem_now w) (mem_ra w) (<[meta_key (ap_Meta a) := a]> (mem_personas w)) (mem_incidents w)
    (mem_clusterPersonas w) (mem_deployments w) (mem_pods w) (mem_nodes w) (mem_faults w) (mem_cp_error w).
Definition put_incident (a : IncidentMemory) (w : Mem) : Mem :=
  mkMem _ (mem_now w) (mem_ra w) (mem_personas w) (<[meta_key (im_Meta a) := a]> (mem_incidents w))
    (mem_clusterPersonas w) (mem_deployments w) (mem_pods w) (mem_nodes w) (mem_faults w) (mem_cp_error w).

(** The status subresource: only the status of the stored object changes. *)
Definition status_ra (a : RemediationAction) (w : Mem) : Mem :=
  match mem_ra w !! meta_key (ra_Meta a) with
  | Some old => put_ra (mkRA (ra_Meta old) (ra_Spec old) (ra_Status a)) w
  | None => w
  end.
Definition status_incident (a : IncidentMemory) (w : Mem) : Mem :=
  match mem_incidents w !! meta_key (im_Meta a) with
  | Some old => put_incident (mkIM (im_Meta old) (im_Spec old) (im_Status a)) w
  | None => w
  end.
(** A plain update of an object with a status subresource keeps the status. *)
Definition spec_incident (a : IncidentMemory) (w : Mem) : Mem :=
  match mem_incidents w !! meta_key (im_Meta a) with
  | Some old => put_incident (mkIM (im_Meta a) (im_Spec a) (im_Status old)) w
  | None => w
  end.

Definition no_action_status : RemediationActionStatus := mkRAStatus "" "" None None "" [] 0 [].
Definition no_status : IncidentMemoryStatus := mkIMStatus "" 0 None [].

#[export] Instance mem_client : Client Mem := {
  clock w := (mem_now w, w);
  getRA := mem_get mem_ra;
  listRA := mem_list mem_ra ra_Meta;
  createRA a w := match mem_ra w !! meta_key (ra_Meta a) with
                  | Some _ => (Err (ErrAPI AlreadyExists "already exists"), w)
                  | None => mem_write (put_ra (mkRA (ra_Meta a) (ra_Spec a) no_action_status)) a w
                  end;
  updateStatusRA a := mem_write (status_ra a) a;
  getPersona := mem_get mem_personas;
  listPersonas := mem_list mem_personas ap_Meta;
  updatePersona a := mem_write (put_persona a) a;
  updateStatusPersona a := mem_write (put_persona a) a;
  getIncident := mem_get mem_incidents;
  listIncidents := mem_list mem_incidents im_Meta;
  createIncident a w := match mem_incidents w !! meta_key (im_Meta a) with
                        | Some _ => (Err (ErrAPI AlreadyExists "already exists"), w)
                        | None => mem_write (put_incident (mkIM (im_Meta a) (im_Spec a) no_status)) a w
                        end;
  updateIncident a := mem_write (spec_incident a) a;
  updateStatusIncident a := mem_write (status_incident a) a;
  listClusterPersonas w := (match mem_cp_error w with Some e => Err e | None => Ok (mem_clusterPersonas w) end, w);
  getDeployment := mem_get mem_deployments;
  listDeployments := mem_list mem_deployments dp_Meta;
  listPods o w := (Ok (List.filter (fun p => selects o (pod_Meta p)) (mem_pods w)), w);
  listPodsOnNode n w := (Ok (List.filter (fun p => (pod_NodeName p =? n)) (mem_pods w)), w);
  listNodes w := (Ok (mem_nodes w), w);
}.

#[export] Instance mem_reads : ClientReads.
Proof. by constructor. Qed.

Definition empty_mem (t : time) : Mem := mkMem _ t ∅ ∅ ∅ [] ∅ [] [] [] None.
End mem.

(** ** A quantity implementation for the witnesses: plain integers, in bytes or cores. *)

Fixpoint parse_digits (acc : Z) (s : string) : option Z :=
  match s with
  | "" => Some acc
  | String c s' => if is_digit c then parse_digits (10 * acc + digit_val c) s' else None
  end.

Definition int_quantity : QuantityOps := {|
  Quantity := Z;
  ParseQuantity s := if (s =? "") then None else parse_digits 0 s;
  q_IsZero z := (z =? 0)%Z;
  q_Float := f_of_Z;
  q_String := fmt_d;
  q_MilliValue z := (1000 * z)%Z;
  q_Value z := z;
  q_Cmp := Z.compare;
  q_BinaryString := fmt_d;
  q_MilliString z := fmt_d (z `div` 1000);
|}.
