(* ===== verification/Retry.v ===== *)
(** * Retried writes: [retry.OnError] and [retry.RetryOnConflict].

    [k8s.io/client-go/util/retry] is not under src/.  [Retry W] is the call, with
    its documented behaviour as the law [RetryLaws]: the function is run, and run
    again only after a retriable error; the last outcome is returned.
    [bounded_retry] is a concrete instance. *)

From S2P Require Import Prelude GoString GoNum Json ApiTypes.
From stdpp Require Import strings.

(** [OnError steps retriable f]: [f] receives the attempt number. *)
Class Retry (W : Type) :=
  OnError : forall {A}, nat -> (error -> bool) -> (nat -> io W (result error A)) -> io W (result error A).

(** How a retried call may go, from the given attempt. *)
Inductive retried {W A} (retriable : error -> bool) (f : nat -> io W (result error A))
  : nat -> W -> result error A * W -> Prop :=
| retried_last n w : retried retriable f n w (f n w)
| retried_again n w e w' out :
    f n w = (Err e, w') -> retriable e = true -> retried retriable f (S n) w' out ->
    retried retriable f n w out.

Class RetryLaws `{Retry W} : Prop := {
  OnError_retried {A} steps retriable (f : nat -> io W (result error A)) w :
    retried retriable f 0 w (OnError steps retriable f w);
  (** It stops at once on success or on an error that is not retriable. *)
  OnError_stops {A} steps retriable (f : nat -> io W (result error A)) w r w' :
    (0 < steps)%nat -> f 0%nat w = (r, w') -> (forall e, r = Err e -> retriable e = false) ->
    OnError steps retriable f w = (r, w');
}.

Fixpoint bounded {W A} (steps : nat) (n : nat) (retriable : error -> bool) (f : nat -> io W (result error A))
  : io W (result error A) := fun w =>
  match steps with
  | 0 | 1 => f n w
  | S steps' =>
      match f n w with
      | (Ok a, w') => (Ok a, w')
      | (Err e, w') => if retriable e then bounded steps' (S n) retriable f w' else (Err e, w')
      end
  end.

#[export] Instance bounded_retry {W} : Retry W := fun A steps retriable f => bounded steps 0 retriable f.

#[export] Instance bounded_retry_laws {W} : RetryLaws (W := W).
Proof.
  split.
  - intros A steps retriable f w. unfold OnError, bounded_retry.
    enough (Hn : forall n w, retried retriable f n w (bounded steps n retriable f w)) by apply Hn. clear w.
    induction steps as [|[|steps] IH]; intros n w; [apply (retried_last retriable f)..|].
    cbn [bounded]. destruct (f n w) as [[a|e] w'] eqn:Hf; [rewrite <- Hf; apply (retried_last retriable f)|].
    destruct (retriable e) eqn:He; [eapply retried_again; eauto|rewrite <- Hf; apply (retried_last retriable f)].
  - intros A [|[|steps]] retriable f w r w' Hs Hf Hr; [lia|done|]. unfold OnError, bounded_retry. cbn [bounded].
    rewrite Hf. destruct r as [a|e]; [done|]. by rewrite Hr.
Qed.

(** [retry.RetryOnConflict(retry.DefaultRetry, f)]: five steps. *)
Definition RetryOnConflict `{Retry W} {A} (f : io W (result error A)) : io W (result error A) :=
  OnError 5 is_conflict (fun _ => f).

(** The incident writes of internal/controller/incident_write.go: six steps, and
    a cached read that lags behind is retried as well. *)
Definition retriableIncidentWriteError (e : error) : bool := is_conflict e || is_not_found e.
Definition retryIncidentWrite `{Retry W} {A} (write : nat -> io W (result error A)) : io W (result error A) :=
  OnError 6 retriableIncidentWriteError write.

(** An invariant of every attempt is an invariant of the whole. *)
Lemma retried_invariant {W A} (I : W -> Prop) (Q : result error A * W -> Prop) retriable
    (f : nat -> io W (result error A)) n w out :
  (forall n w, I w -> I (f n w).2) -> (forall n w, I w -> Q (f n w)) ->
  I w -> retried retriable f n w out -> Q out.
Proof.
  intros HI HQ Hw Hr. induction Hr as [n w|n w e w' out Hf He Hr IH]; [by apply HQ|].
  apply IH. specialize (HI n w Hw). by rewrite Hf in HI.
Qed.
