(* ===== verification/Writes.v ===== *)
(** * Invariants of a computation's writes.

    [preserves I m]: whatever [m] does to the cluster, the invariant [I] of the
    cluster survives it.  The rules follow the structure of a computation, so a
    component's proof is the list of its writes; every read of the client
    preserves every invariant. *)

From S2P Require Import Prelude GoString GoNum Json ApiTypes KubeTypes Client Retry.
From stdpp Require Import strings.

Definition preserves {W A} (I : W -> Prop) (m : io W A) : Prop := forall w, I w -> I (m w).2.

Create HintDb preserve discriminated.
#[export] Hint Constants Opaque : preserve.

Section rules.
Context {W : Type} (I : W -> Prop).

Lemma preserves_ret {A} (a : A) : preserves I (mret a).
Proof. by intros w. Qed.
Lemma preserves_iok {E A} (a : A) : preserves I (iok (E := E) a).
Proof. by intros w. Qed.
Lemma preserves_ierr {E A} (e : E) : preserves I (ierr (A := A) e).
Proof. by intros w. Qed.
Lemma preserves_bind {A B} (m : io W A) (f : A -> io W B) :
  preserves I m -> (forall a, preserves I (f a)) -> preserves I (let! x := m in f x).
Proof.
  intros Hm Hf w Hw. unfold mbind, io_bind. specialize (Hm w Hw). destruct (m w) as [a w']. by apply Hf.
Qed.
Lemma preserves_iobind {E A B} (m : io W (result E A)) (f : A -> io W (result E B)) :
  preserves I m -> (forall a, preserves I (f a)) -> preserves I (iobind m f).
Proof.
  intros Hm Hf w Hw. unfold iobind. specialize (Hm w Hw). destruct (m w) as [[a|e] w']; [by apply Hf|done].
Qed.
Lemma preserves_wrap {A} s (m : io W (result error A)) : preserves I m -> preserves I (wrap_io s m).
Proof. intros Hm w Hw. unfold wrap_io. specialize (Hm w Hw). by destruct (m w). Qed.
Lemma preserves_read {A} (m : io W A) : (forall w, (m w).2 = w) -> preserves I m.
Proof. intros Hm w Hw. by rewrite Hm. Qed.

(** A retried call preserves what each of its attempts does. *)
Lemma preserves_retry `{RetryLaws W} {A} steps retriable (f : nat -> io W (result error A)) :
  (forall n, preserves I (f n)) -> preserves I (OnError steps retriable f).
Proof.
  intros Hf w Hw. pose proof (OnError_retried steps retriable f w) as Hr.
  by apply (retried_invariant I (fun out => I out.2) retriable f 0 w (OnError steps retriable f w)); [intros; apply Hf|intros; by apply Hf|..].
Qed.
Lemma preserves_conflict `{RetryLaws W} {A} (f : io W (result error A)) : preserves I f -> preserves I (RetryOnConflict f).
Proof. intros Hf. apply preserves_retry. by intros _. Qed.
Lemma preserves_incident_retry `{RetryLaws W} {A} (f : nat -> io W (result error A)) :
  (forall n, preserves I (f n)) -> preserves I (retryIncidentWrite f).
Proof. apply preserves_retry. Qed.
End rules.

(** What a fallible computation returns when it returns. *)
Definition returns {W E A} (P : A -> Prop) (m : io W (result E A)) : Prop :=
  forall w, match (m w).1 with Ok a => P a | Err _ => True end.

Lemma returns_iok {W E A} (P : A -> Prop) (a : A) : P a -> returns P (@iok W E A a).
Proof. by intros Ha w. Qed.
Lemma returns_iobind {W E A B} (Q : A -> Prop) (P : B -> Prop) (m : io W (result E A)) (f : A -> io W (result E B)) :
  returns Q m -> (forall a, Q a -> returns P (f a)) -> returns P (iobind m f).
Proof.
  intros Hm Hf w. unfold iobind. specialize (Hm w). destruct (m w) as [[a|e] w']; [|done]. by apply Hf.
Qed.
Lemma returns_wrap {W A} (P : A -> Prop) s (m : io W (result error A)) : returns P m -> returns P (wrap_io s m).
Proof. intros Hm w. unfold wrap_io. specialize (Hm w). by destruct (m w) as [[]]. Qed.
Lemma returns_any {W E A} (m : io W (result E A)) : returns (fun _ => True) m.
Proof. intros w. by destruct (m w).1. Qed.

Lemma preserves_iobind_with {W E A B} (I : W -> Prop) (P : A -> Prop) (m : io W (result E A)) (f : A -> io W (result E B)) :
  preserves I m -> returns P m -> (forall a, P a -> preserves I (f a)) -> preserves I (iobind m f).
Proof.
  intros Hm Hp Hf w Hw. unfold iobind. specialize (Hm w Hw). specialize (Hp w). destruct (m w) as [[a|e] w']; [by apply Hf|done].
Qed.

Section reads.
Context `{ClientReads W} (I : W -> Prop).

Lemma preserves_clock : preserves I clock. Proof. apply preserves_read, clock_reads. Qed.
Lemma preserves_getRA k : preserves I (getRA k). Proof. apply preserves_read, getRA_reads. Qed.
Lemma preserves_listRA o : preserves I (listRA o). Proof. apply preserves_read, listRA_reads. Qed.
Lemma preserves_getPersona k : preserves I (getPersona k). Proof. apply preserves_read, getPersona_reads. Qed.
Lemma preserves_listPersonas o : preserves I (listPersonas o). Proof. apply preserves_read, listPersonas_reads. Qed.
Lemma preserves_getIncident k : preserves I (getIncident k). Proof. apply preserves_read, getIncident_reads. Qed.
Lemma preserves_listIncidents o : preserves I (listIncidents o). Proof. apply preserves_read, listIncidents_reads. Qed.
Lemma preserves_listClusterPersonas : preserves I listClusterPersonas. Proof. apply preserves_read, listClusterPersonas_reads. Qed.
Lemma preserves_getDeployment k : preserves I (getDeployment k). Proof. apply preserves_read, getDeployment_reads. Qed.
Lemma preserves_listDeployments o : preserves I (listDeployments o). Proof. apply preserves_read, listDeployments_reads. Qed.
Lemma preserves_listPods o : preserves I (listPods o). Proof. apply preserves_read, listPods_reads. Qed.
End reads.

#[export] Hint Resolve preserves_ret preserves_iok preserves_ierr preserves_clock preserves_getRA preserves_listRA
  preserves_getPersona preserves_listPersonas preserves_getIncident preserves_listIncidents
  preserves_listClusterPersonas preserves_getDeployment preserves_listDeployments preserves_listPods : preserve.

(** Follow the computation: binds, matches and tests; close with a known call. *)
Ltac preserve_step :=
  match goal with
  | |- forall _, _ => intros
  | |- preserves _ (iobind _ _) => apply preserves_iobind
  | |- preserves _ (mbind _ _) => apply preserves_bind
  | |- preserves _ (wrap_io _ _) => apply preserves_wrap
  | |- preserves _ (let '(_, _) := ?x in _) => destruct x
  | |- preserves _ (match ?x with _ => _ end) => destruct x
  | |- preserves _ _ => solve [eauto with preserve]
  end.
Ltac preserve := repeat (cbv beta zeta; preserve_step).
