(* ===== verification/Safety.v ===== *)
(** * The safety guardrails S1-S4 (internal/remediation/safety.go).

    Rate limit, one remediation at a time, cooldown after a failure, blast
    radius and the namespace deny list, and the checker that combines them. *)

From S2P Require Import Prelude GoString GoNum Json ApiTypes KubeTypes Steps Client.
From Stdlib Require Import String Ascii.
From stdpp Require Import strings.
Open Scope string_scope.

Definition DefaultMaxRemediationsPerHour : Z := 5.
Definition FailedCooldown : duration := (30 * minute)%Z.
Definition MaxBlastRadiusMultiplier : f64 := f_of_Z 2.
Definition MaxResourceDecrease : f64 := f_lit 5 10.
Definition RuleDenyList : string := "deny-list".
Definition defaultDenyKubeSystem : string := "kube-system".
Definition phaseApproved : string := "Approved".
Definition phaseApplying : string := "Applying".
Definition phaseVerifying : string := "Verifying".
Definition phaseFailed : string := "Failed".
Definition phasePending : string := "Pending".
Definition conditionApplied : string := "Applied".

(** ** Results (internal/remediation/types.go) *)

Record BlastRadiusViolation := mkBlastRadius {
  br_Field : string;
  br_Baseline : string;
  br_Requested : string;
  br_Ratio : f64;
  br_MaxRatio : f64;
}.

Record SafetyViolation := mkViolation {
  sv_Rule : string;
  sv_Message : string;
  sv_BlastRadius : option BlastRadiusViolation;
}.

Record SafetyResult := mkSafetyResult { sr_Allowed : bool; sr_Violations : list SafetyViolation }.

(** ** The checker *)

Record SafetyCheckerImpl := mkChecker { sc_protected : list string }.

Definition list_contains (l : list string) (x : string) : bool := existsb (String.eqb x) l.

(** The body of the [SafetyOption] loop. *)
Definition WithProtectedNamespaces (namespaces : list string) (s : SafetyCheckerImpl) : SafetyCheckerImpl :=
  foldl (fun s ns => if negb (ns =? "") && negb (list_contains (sc_protected s) ns)
                     then mkChecker (sc_protected s ++ [ns])%list else s) s namespaces.

(** A [SafetyOption] is a function on the checker. *)
Definition NewSafetyChecker (opts : list (SafetyCheckerImpl -> SafetyCheckerImpl)) : SafetyCheckerImpl :=
  foldl (fun s opt => opt s) (mkChecker [defaultDenyKubeSystem]) opts.

(** [rejectedBeforeApply]: refused by the executor, nothing written. *)
Definition rejectedBeforeApply (action : RemediationAction) : bool :=
  match ra_AppliedAt action with
  | Some _ => false
  | None => existsb (fun c => (c_Type c =? conditionApplied) && (c_Reason c =? ReasonPreconditionRejected))
              (ra_Conditions action)
  end.

Definition running_phase (phase : string) : bool :=
  (phase =? phaseApproved) || (phase =? phaseApplying) || (phase =? phaseVerifying).

(** When a failed action failed: at its apply, or else at its creation. *)
Definition failed_at (action : RemediationAction) : time :=
  match ra_AppliedAt action with Some t => t | None => m_CreationTimestamp (ra_Meta action) end.

Definition in_failed_cooldown (now : time) (action : RemediationAction) : bool :=
  (ra_Phase action =? phaseFailed) && negb (rejectedBeforeApply action)
  && (t_sub now (failed_at action) <? FailedCooldown)%Z.

Section quantities.
Context `{QuantityOps}.

(** [extractResources]. Go ranges over each object in an unspecified order;
    two paths collide only when a key itself contains a dot. *)
Fixpoint extractResources (obj : json) (prefix : string) (res : gmap string Quantity) : gmap string Quantity :=
  match obj with
  | JObj m => map_fold (fun key val res =>
      match val with
      | JObj _ => extractResources val (path_join prefix key) res
      | JStr v => match ParseQuantity v with
                  | Some qty => <[path_join prefix key := qty]> res
                  | None => res
                  end
      | _ => res
      end) res m
  | _ => res
  end.

Definition parseResourcePatch (raw : raw_json) : result string (gmap string Quantity) :=
  match unmarshal_map raw with
  | Err e => Err ("unmarshalling patch: " ++ e)
  | Ok patch => Ok (extractResources (JObj patch) "" ∅)
  end.

(** One iteration of the loop over the sorted fields. *)
Definition blast_field (field : string) (newVal oldVal : Quantity) : option SafetyViolation :=
  if q_IsZero oldVal then None else
  let newQty := q_Float newVal in
  let oldQty := q_Float oldVal in
  if f_le oldQty f_zero then None else
  let ratio := fdiv newQty oldQty in
  let detail := mkBlastRadius field (q_String oldVal) (q_String newVal) ratio MaxBlastRadiusMultiplier in
  if f_lt MaxBlastRadiusMultiplier ratio then
    Some (mkViolation "blast-radius"
      ("resource change for " ++ field ++ " exceeds maximum: " ++ fmt_f 1 ratio ++ "x increase (max "
       ++ fmt_f 1 MaxBlastRadiusMultiplier ++ "x)") (Some detail))
  else if f_lt ratio MaxResourceDecrease then
    Some (mkViolation "blast-radius"
      ("resource change for " ++ field ++ " exceeds maximum: " ++ fmt_f 0 (fmul (fsub f_one ratio) (f_of_Z 100))
       ++ "% decrease (max " ++ fmt_f 0 (f_of_Z 50) ++ "%)") (Some detail))
  else if f_le newQty f_zero then
    Some (mkViolation "blast-radius"
      ("resource value for " ++ field ++ " must be positive, got " ++ q_String newVal) (Some detail))
  else None.

Definition blast_fields (patchValues prePatchValues : gmap string Quantity) : list SafetyViolation :=
  omap (fun field => newVal ← patchValues !! field; oldVal ← prePatchValues !! field;
                     blast_field field newVal oldVal)
    (sort_strings (map fst (map_to_list patchValues))).

Definition checkBlastRadius (action : RemediationAction) : list SafetyViolation :=
  let detail := ra_Action (ra_Spec action) in
  if negb (ad_Type detail =? "persona-update") then [] else
  match ad_Patch detail, ad_PrePatchState detail with
  | Some patch, Some pre =>
      match parseResourcePatch patch, parseResourcePatch pre with
      | Ok patchValues, Ok prePatchValues => blast_fields patchValues prePatchValues
      | _, _ => []
      end
  | _, _ => []
  end.
End quantities.

(** ** The checks that read the cluster *)

Section checks.
Context `{Client W}.

Definition persona_text (action : RemediationAction) : string :=
  pr_Namespace (ra_PersonaRef (ra_Spec action)) ++ "/" ++ pr_Name (ra_PersonaRef (ra_Spec action)).

(** The options of [listPersonaActions]. *)
Definition personaActions_opts (action : RemediationAction) : ListOptions :=
  let ref := ra_PersonaRef (ra_Spec action) in
  mkListOptions (if (pr_Namespace ref =? "") then None else Some (pr_Namespace ref))
    [("dorgu.io/persona-kind", pr_Kind ref); ("dorgu.io/persona-name", pr_Name ref)].

Definition listPersonaActions (action : RemediationAction) : io W (result error (list RemediationAction)) :=
  wrap_io "listing RemediationActions" (listRA (personaActions_opts action)).

(** Created after the cutoff. *)
Definition created_within (now : time) (window : duration) (action : RemediationAction) : bool :=
  t_after (m_CreationTimestamp (ra_Meta action)) (t_add now (- window)%Z).

Definition listRecentActions (action : RemediationAction) (window : duration)
  : io W (result error (list RemediationAction)) :=
  let* allActions := listPersonaActions action in
  let! now := clock in
  iok (List.filter (created_within now window) allActions).

Definition cp_rate_limit (cp : ClusterPersona) : option Z :=
  match cp_SelfHealing cp with
  | Some sh => if (0 <? shp_MaxRemediationsPerHour sh)%Z then Some (shp_MaxRemediationsPerHour sh) else None
  | None => None
  end.

Definition getMaxRemediationsPerHour : io W Z :=
  let! r := listClusterPersonas in
  mret match r with
       | Err _ => DefaultMaxRemediationsPerHour
       | Ok cps => default DefaultMaxRemediationsPerHour (head (omap cp_rate_limit cps))
       end.

Definition cp_excluded (cp : ClusterPersona) : list string :=
  match cp_SelfHealing cp with Some sh => shp_ExcludeNamespaces sh | None => [] end.

Definition getExcludedNamespaces : io W (result error (list string)) :=
  let* cps := wrap_io "listing ClusterPersonas" listClusterPersonas in
  iok (concat (map cp_excluded cps)).

Definition checkRateLimit (action : RemediationAction) : io W (result error (option SafetyViolation)) :=
  let! maxPerHour := getMaxRemediationsPerHour in
  let* existing := listRecentActions action hour in
  iok (if (maxPerHour <=? Z.of_nat (length existing))%Z
       then Some (mkViolation "rate-limit"
              ("rate limit exceeded: " ++ fmt_d (Z.of_nat (length existing)) ++ " remediations for persona "
               ++ persona_text action ++ " in last hour (max " ++ fmt_d maxPerHour ++ ")") None)
       else None).

Definition checkConcurrent (action : RemediationAction) : io W (result error (option SafetyViolation)) :=
  let* actionList := listPersonaActions action in
  iok (match find_first (fun a => running_phase (ra_Phase a)) actionList with
       | Some a => Some (mkViolation "concurrent"
              ("concurrent remediation " ++ ra_Name a ++ " is in phase " ++ ra_Phase a ++ " for persona "
               ++ persona_text action) None)
       | None => None
       end).

Definition checkFailedCooldown (action : RemediationAction) : io W (result error (option SafetyViolation)) :=
  let* actionList := listPersonaActions action in
  let! now := clock in
  iok (match find_first (in_failed_cooldown now) actionList with
       | Some a => Some (mkViolation "rate-limit"
              ("failed remediation " ++ ra_Name a ++ " within " ++ fmt_duration FailedCooldown
               ++ " cooldown period for persona " ++ persona_text action) None)
       | None => None
       end).

Definition deny (msg : string) : option SafetyViolation := Some (mkViolation RuleDenyList msg None).

(** [NamespaceDenied]; [None] is the typed nil checker. *)
Definition NamespaceDenied (s : option SafetyCheckerImpl) (namespace : string) : io W (option SafetyViolation) :=
  match s with
  | None => mret (deny "no deny list is configured, so the namespace cannot be cleared")
  | Some s =>
      if (namespace =? "") then
        mret (deny "namespace could not be determined, so the deny list cannot clear it")
      else if list_contains (sc_protected s) namespace then
        mret (deny ("namespace " ++ namespace ++ " is in the protected deny list"))
      else
        let! r := getExcludedNamespaces in
        match r with
        | Err _ => mret (deny ("namespace " ++ namespace
                     ++ ": deny-list could not be read, treating namespace as protected"))
        | Ok excluded =>
            if list_contains excluded namespace
            then mret (deny ("namespace " ++ namespace ++ " is excluded by ClusterPersona policy"))
            else mret None
        end
  end.

Definition NamespaceProtected (s : option SafetyCheckerImpl) (namespace : string) : io W bool :=
  let! v := NamespaceDenied s namespace in mret (match v with Some _ => true | None => false end).

Definition target_namespace (action : RemediationAction) : string :=
  if (pr_Namespace (ra_PersonaRef (ra_Spec action)) =? "") then ra_Namespace action
  else pr_Namespace (ra_PersonaRef (ra_Spec action)).

Definition checkDenyList (s : SafetyCheckerImpl) (action : RemediationAction) : io W (option SafetyViolation) :=
  NamespaceDenied (Some s) (target_namespace action).

(** [Check]: every guardrail runs, the violations accumulate in this order. *)
Definition Check (s : SafetyCheckerImpl) (action : RemediationAction) : io W (result error SafetyResult) :=
  let* v1 := wrap_io "checking rate limit" (checkRateLimit action) in
  let* v2 := wrap_io "checking concurrent" (checkConcurrent action) in
  let* v3 := wrap_io "checking failed cooldown" (checkFailedCooldown action) in
  let v4 := checkBlastRadius action in
  let! v5 := checkDenyList s action in
  let violations := (option_list v1 ++ option_list v2 ++ option_list v3 ++ v4 ++ option_list v5)%list in
  iok (mkSafetyResult (bool_decide (length violations = 0)) violations).
End checks.

(** ** Properties *)

Lemma list_contains_true l x : list_contains l x = true <-> x ∈ l.
Proof.
  unfold list_contains. rewrite existsb_elem. split.
  - intros (y & Hy & Hxy). by apply String.eqb_eq in Hxy as <-.
  - intros Hx. exists x. by rewrite String.eqb_refl.
Qed.
Lemma list_contains_false l x : list_contains l x = false <-> x ∉ l.
Proof. rewrite <- list_contains_true. by destruct (list_contains l x). Qed.

Lemma WithProtectedNamespaces_elem namespaces s x :
  x ∈ sc_protected (WithProtectedNamespaces namespaces s) <->
  x ∈ sc_protected s \/ (x ∈ namespaces /\ x <> "").
Proof.
  revert s. induction namespaces as [|ns l IH]; intros s; simpl.
  { split; [by left|]. by intros [?|[?%not_elem_of_nil _]]. }
  rewrite IH, elem_of_cons. destruct (String.eqb_spec ns "") as [->|Hne]; simpl; [naive_solver|].
  destruct (list_contains (sc_protected s) ns) eqn:Hc; simpl.
  - apply list_contains_true in Hc. naive_solver.
  - rewrite elem_of_app, list_elem_of_singleton. naive_solver.
Qed.

(** The namespaces a checker refuses outright: kube-system and every configured one. *)
Lemma NewSafetyChecker_protected nss x :
  x ∈ sc_protected (NewSafetyChecker (map WithProtectedNamespaces nss)) <->
  x = defaultDenyKubeSystem \/ (exists ns, (ns ∈ nss) /\ (x ∈ ns) /\ x <> "").
Proof.
  unfold NewSafetyChecker. assert (Hall : forall s,
    x ∈ sc_protected (foldl (fun s opt => opt s) s (map WithProtectedNamespaces nss)) <->
    x ∈ sc_protected s \/ (exists ns, ns ∈ nss /\ x ∈ ns /\ x <> "")).
  { induction nss as [|ns nss IH]; intros s; simpl.
    { split; [by left|]. by intros [?|(? & ?%not_elem_of_nil & _)]. }
    rewrite IH, WithProtectedNamespaces_elem. setoid_rewrite elem_of_cons. naive_solver. }
  rewrite Hall. cbn [sc_protected]. by rewrite list_elem_of_singleton.
Qed.

Section deny_props.
Context `{Client W}.

Lemma getExcludedNamespaces_spec w :
  (getExcludedNamespaces w).1 =
  match (listClusterPersonas w).1 with
  | Ok cps => Ok (concat (map cp_excluded cps))
  | Err e => Err (ErrWrap "listing ClusterPersonas" e)
  end.
Proof.
  unfold getExcludedNamespaces, iobind, wrap_io, iok. by destruct (listClusterPersonas w) as [[cps|e] w'].
Qed.

(** The deny list fails closed: a namespace is cleared only when a checker
    exists, the namespace is known, it is not protected, the ClusterPersonas
    could be read, and none of them excludes it. *)
Theorem NamespaceDenied_fails_closed (s : option SafetyCheckerImpl) (ns : string) (w : W) :
  (NamespaceDenied s ns w).1 = None <->
  exists sc cps, s = Some sc /\ ns <> "" /\ (ns ∉ sc_protected sc) /\
    (listClusterPersonas w).1 = Ok cps /\ forall cp, cp ∈ cps -> ns ∉ cp_excluded cp.
Proof.
  destruct s as [sc|]; simpl; [|naive_solver].
  destruct (String.eqb_spec ns "") as [->|Hne]; [naive_solver|].
  destruct (list_contains (sc_protected sc) ns) eqn:Hp.
  { apply list_contains_true in Hp. naive_solver. }
  apply list_contains_false in Hp. unfold mbind, io_bind.
  generalize (getExcludedNamespaces_spec w).
  destruct (getExcludedNamespaces w) as [r w']; simpl. intros ->.
  destruct (listClusterPersonas w).1 as [cps|e]; simpl; [|naive_solver].
  assert (Hin : ns ∈ concat (map cp_excluded cps) <-> exists cp, (cp ∈ cps) /\ (ns ∈ cp_excluded cp)).
  { rewrite list_elem_of_In, in_concat; split.
    - intros (l & Hl & Hns). apply in_map_iff in Hl as (cp & <- & Hcp). exists cp. by rewrite !list_elem_of_In.
    - intros (cp & Hcp & Hns). exists (cp_excluded cp). rewrite <- !list_elem_of_In. split; [|done].
      apply list_elem_of_fmap. eauto. }
  destruct (list_contains (concat (map cp_excluded cps)) ns) eqn:Hc; simpl.
  - apply list_contains_true, Hin in Hc. naive_solver.
  - apply list_contains_false in Hc. rewrite Hin in Hc. naive_solver.
Qed.
End deny_props.

Section blast_props.
Context `{QuantityOps}.

(** What S2 asks of one field, on the floats the code computes. *)
Definition within_caps (n o : Quantity) : Prop :=
  q_IsZero o = false -> f_le (q_Float o) f_zero = false ->
  f_lt (f_of_Z 2) (fdiv (q_Float n) (q_Float o)) = false /\
  f_lt (fdiv (q_Float n) (q_Float o)) (f_lit 5 10) = false /\
  f_le (q_Float n) f_zero = false.

(** ... and of a whole action. *)
Definition caps_hold (action : RemediationAction) : Prop :=
  forall patch pre pv ov, ad_Type (ra_Action (ra_Spec action)) = "persona-update" ->
    ad_Patch (ra_Action (ra_Spec action)) = Some patch ->
    ad_PrePatchState (ra_Action (ra_Spec action)) = Some pre ->
    parseResourcePatch patch = Ok pv -> parseResourcePatch pre = Ok ov ->
    forall field n o, pv !! field = Some n -> ov !! field = Some o -> within_caps n o.

Lemma blast_field_None field n o : blast_field field n o = None <-> within_caps n o.
Proof.
  unfold blast_field, within_caps, MaxBlastRadiusMultiplier, MaxResourceDecrease.
  destruct (q_IsZero o); [naive_solver|]. destruct (f_le (q_Float o) f_zero); [naive_solver|].
  destruct (f_lt (f_of_Z 2) _); [naive_solver|]. destruct (f_lt _ (f_lit 5 10)); [naive_solver|].
  destruct (f_le (q_Float n) f_zero); naive_solver.
Qed.

Lemma blast_field_named field n o v : blast_field field n o = Some v -> br_Field <$> sv_BlastRadius v = Some field.
Proof.
  unfold blast_field. destruct (q_IsZero o); [done|]. destruct (f_le (q_Float o) f_zero); [done|].
  destruct (f_lt _ (fdiv _ _)); [by intros [= <-]|]. destruct (f_lt _ _); [by intros [= <-]|].
  destruct (f_le _ _); [by intros [= <-]|done].
Qed.

Lemma blast_fields_nil pv ov :
  blast_fields pv ov = [] <->
  forall field n o, pv !! field = Some n -> ov !! field = Some o -> within_caps n o.
Proof.
  unfold blast_fields.
  assert (Hom : forall {A B} (f : A -> option B) l, omap f l = [] <-> forall x, x ∈ l -> f x = None).
  { intros A B f l. induction l as [|x l IH]; simpl; [split; [by intros _ x ?%not_elem_of_nil|done]|].
    setoid_rewrite elem_of_cons. destruct (f x) eqn:Hx; rewrite ?IH; naive_solver. }
  rewrite Hom. split.
  - intros Hall field n o Hn Ho. rewrite <- (blast_field_None field).
    assert (Hf : field ∈ sort_strings (map fst (map_to_list pv))).
    { rewrite sort_strings_perm. apply list_elem_of_fmap. exists (field, n). by rewrite elem_of_map_to_list. }
    specialize (Hall _ Hf). simpl in Hall. by rewrite Hn, Ho in Hall.
  - intros Hall field _. simpl. destruct (pv !! field) as [n|] eqn:Hn; [|done]. simpl.
    destruct (ov !! field) as [o|] eqn:Ho; [|done]. simpl. apply blast_field_None. eauto.
Qed.

Lemma checkBlastRadius_nil action : checkBlastRadius action = [] <-> caps_hold action.
Proof.
  unfold checkBlastRadius, caps_hold.
  destruct (String.eqb_spec (ad_Type (ra_Action (ra_Spec action))) "persona-update"); cbn [negb]; [|naive_solver].
  destruct (ad_Patch _) as [patch|]; [|naive_solver]. destruct (ad_PrePatchState _) as [pre|]; [|naive_solver].
  destruct (parseResourcePatch patch) as [pv|] eqn:Hp; [|split; [intros; simplify_eq; congruence|done]].
  destruct (parseResourcePatch pre) as [ov|] eqn:Ho; [|split; [intros; simplify_eq; congruence|done]].
  rewrite blast_fields_nil. split; [|naive_solver]. intros Hall ???? _ Hpa Hpr Hpv Hov. simplify_eq. rewrite Hp in Hpv. rewrite Ho in Hov. by simplify_eq.
Qed.

(** The field a violation names. *)
Definition named_field (v : SafetyViolation) : option string := br_Field <$> sv_BlastRadius v.
Definition breaches (pv ov : gmap string Quantity) (field : string) : bool :=
  match pv !! field, ov !! field with
  | Some n, Some o => match blast_field field n o with Some _ => true | None => false end
  | _, _ => false
  end.

(** S2 names every breaching field exactly once, and in sorted order
    whatever order the patch's map handed its keys out. *)
Theorem blast_fields_complete (pv ov : gmap string Quantity) (keys : list string) :
  keys ≡ₚ map fst (map_to_list pv) ->
  map named_field (blast_fields pv ov) = map Some (List.filter (breaches pv ov) (sort_strings keys)) /\
  StronglySorted (fun a b => String.leb a b = true) (List.filter (breaches pv ov) (sort_strings keys)).
Proof.
  intros Hk. unfold blast_fields. rewrite <- (sort_strings_proper _ _ Hk). split.
  - induction (sort_strings keys) as [|f l IH]; [done|]. cbn [omap list_omap List.filter]. unfold breaches at 1.
    destruct (pv !! f) as [n|]; simpl; [|done]. destruct (ov !! f) as [o|]; simpl; [|done].
    destruct (blast_field f n o) as [v|] eqn:Hv; simpl; [|done]. rewrite IH. f_equal.
    by apply blast_field_named in Hv.
  - generalize (sort_strings_sorted keys). induction 1 as [|f l Hl IH Hf]; simpl; [constructor|].
    destruct (breaches pv ov f); [|done]. constructor; [done|].
    rewrite Forall_forall in *. intros x [Hx _]%list_elem_of_In%filter_In. apply Hf. by apply list_elem_of_In.
Qed.
End blast_props.

Section check_props.
Context `{ClientReads W}.

(** Under [ClientReads] each guardrail is a pure function of the snapshot. *)
Lemma listPersonaActions_run action w :
  listPersonaActions action w = (wrap_err "listing RemediationActions" (listRA (personaActions_opts action) w).1, w).
Proof.
  unfold listPersonaActions, wrap_io.
  by rewrite (read_pair (listRA (personaActions_opts action)) w (listRA_reads _ _)).
Qed.

Lemma getMax_run w : getMaxRemediationsPerHour w = ((getMaxRemediationsPerHour w).1, w).
Proof.
  unfold getMaxRemediationsPerHour, mbind, io_bind.
  by rewrite (read_pair listClusterPersonas w (listClusterPersonas_reads _)).
Qed.

Lemma NamespaceDenied_run s ns w : NamespaceDenied s ns w = ((NamespaceDenied s ns w).1, w).
Proof.
  apply read_pair. destruct s as [s|]; [|done]. simpl. destruct (ns =? ""); [done|].
  destruct (list_contains (sc_protected s) ns); [done|].
  unfold mbind, io_bind, getExcludedNamespaces, iobind, wrap_io, iok.
  rewrite (read_pair listClusterPersonas w (listClusterPersonas_reads _)).
  destruct (listClusterPersonas w).1; simpl; [|done]. by destruct (list_contains _ ns).
Qed.

(** The three cluster-reading guardrails on the listed actions. *)
Lemma rate_run action w actions :
  (listRA (personaActions_opts action) w).1 = Ok actions ->
  exists v, checkRateLimit action w = (Ok v, w) /\
    (v = None <-> (Z.of_nat (length (List.filter (created_within (clock w).1 hour) actions))
                     < (getMaxRemediationsPerHour w).1)%Z).
Proof.
  intros Hl. unfold checkRateLimit, listRecentActions, mbind, io_bind, iobind, iok.
  rewrite getMax_run, listPersonaActions_run, Hl. simpl.
  rewrite (read_pair clock w (clock_reads _)). eexists; split; [done|]. simpl.
  case_match eqn:Hle; [apply Z.leb_le in Hle|apply Z.leb_gt in Hle]; split; done || lia.
Qed.

Lemma find_violation {A B} (p : A -> bool) (f : A -> B) l :
  match find_first p l with Some a => Some (f a) | None => None end = None <->
  forall a, a ∈ l -> p a = false.
Proof. rewrite <- find_first_None. by destruct (find_first p l). Qed.

Lemma concurrent_run action w actions :
  (listRA (personaActions_opts action) w).1 = Ok actions ->
  exists v, checkConcurrent action w = (Ok v, w) /\
    (v = None <-> forall a, a ∈ actions -> running_phase (ra_Phase a) = false).
Proof.
  intros Hl. unfold checkConcurrent, iobind, iok. rewrite listPersonaActions_run, Hl. simpl.
  eexists; split; [done|]. apply find_violation.
Qed.

Lemma cooldown_run action w actions :
  (listRA (personaActions_opts action) w).1 = Ok actions ->
  exists v, checkFailedCooldown action w = (Ok v, w) /\
    (v = None <-> forall a, a ∈ actions -> in_failed_cooldown (clock w).1 a = false).
Proof.
  intros Hl. unfold checkFailedCooldown, mbind, io_bind, iobind, iok. rewrite listPersonaActions_run, Hl. simpl.
  rewrite (read_pair clock w (clock_reads _)). eexists; split; [done|]. apply find_violation.
Qed.

(** C3. The safety check is exactly its guardrails: on one snapshot of the
    cluster an action is allowed iff its persona's actions can be listed, fewer
    than the limit were created in the last hour, none is approved or running,
    none that really failed is inside the cooldown, every resource change is
    within the caps, and the deny list clears the namespace. The check itself
    writes nothing. *)
Theorem Check_allowed_iff (sc : SafetyCheckerImpl) (action : RemediationAction) (w : W) :
  (Check sc action w).2 = w /\
  ((exists r, (Check sc action w).1 = Ok r /\ sr_Allowed r = true) <->
   exists actions, (listRA (personaActions_opts action) w).1 = Ok actions /\
     (Z.of_nat (length (List.filter (created_within (clock w).1 hour) actions))
        < (getMaxRemediationsPerHour w).1)%Z /\
     (forall a, a ∈ actions -> running_phase (ra_Phase a) = false) /\
     (forall a, a ∈ actions -> in_failed_cooldown (clock w).1 a = false) /\
     caps_hold action /\
     (NamespaceDenied (Some sc) (target_namespace action) w).1 = None).
Proof.
  destruct (listRA (personaActions_opts action) w).1 as [actions|e] eqn:Hl.
  - destruct (rate_run _ _ _ Hl) as (v1 & R1 & E1), (concurrent_run _ _ _ Hl) as (v2 & R2 & E2),
      (cooldown_run _ _ _ Hl) as (v3 & R3 & E3).
    pose proof (checkBlastRadius_nil action) as Hb.
    unfold Check, checkDenyList, iobind, wrap_io. rewrite R1. cbn [wrap_err map_err]. rewrite R2. cbn [wrap_err map_err].
    rewrite R3. cbn [wrap_err map_err].
    unfold mbind, io_bind. rewrite NamespaceDenied_run. generalize (NamespaceDenied (Some sc) (target_namespace action) w).1.
    intros v5. unfold iok. cbn [fst snd]. split; [done|].
    assert (Hiff : bool_decide (length (option_list v1 ++ option_list v2 ++ option_list v3 ++ checkBlastRadius action
              ++ option_list v5) = 0) = true <-> v1 = None /\ v2 = None /\ v3 = None /\ checkBlastRadius action = [] /\ v5 = None).
    { rewrite bool_decide_eq_true, !length_app. destruct v1, v2, v3, v5, (checkBlastRadius action); simpl; naive_solver lia. }
    split.
    + intros (r & [= <-] & Hr). apply Hiff in Hr. exists actions. naive_solver.
    + intros (actions' & [= <-] & ?). eexists; split; [done|]. apply Hiff. naive_solver.
  - unfold Check, checkRateLimit, listRecentActions, mbind, io_bind, iobind, wrap_io.
    rewrite getMax_run, listPersonaActions_run, Hl. simpl. naive_solver.
Qed.
End check_props.

(** A plan the executor refused before writing anything never triggers the
    failure cooldown, and every other failed action triggers it for exactly
    thirty minutes after it failed. *)
Theorem in_failed_cooldown_spec (now : time) (a : RemediationAction) :
  (min_int64 <= now - failed_at a <= max_int64)%Z ->
  in_failed_cooldown now a = true <->
  ra_Phase a = "Failed" /\ (now < failed_at a + 30 * 60 * 1000000000)%Z /\
  ~ (ra_AppliedAt a = None /\
     exists c, c ∈ ra_Conditions a /\ c_Type c = "Applied" /\ c_Reason c = ReasonPreconditionRejected).
Proof.
  intros Hr. unfold in_failed_cooldown. rewrite !andb_true_iff, String.eqb_eq, negb_true_iff, Z.ltb_lt, t_sub_exact by done.
  assert (Hrej : rejectedBeforeApply a = true <-> ra_AppliedAt a = None /\
     exists c, c ∈ ra_Conditions a /\ c_Type c = "Applied" /\ c_Reason c = ReasonPreconditionRejected).
  { unfold rejectedBeforeApply. destruct (ra_AppliedAt a); [naive_solver|]. rewrite existsb_elem.
    setoid_rewrite andb_true_iff. setoid_rewrite String.eqb_eq. naive_solver. }
  rewrite <- Hrej, not_true_iff_false. unfold phaseFailed, FailedCooldown, minute, second. naive_solver lia.
Qed.

(** ** Witnesses *)

#[local] Existing Instance int_quantity.

(** A patch that triples memory and keeps the CPU: only memory is named. *)
Definition ex_patchValues : gmap string Quantity := ({["spec.resources.limits.memory" := 300; "spec.resources.limits.cpu" := 2]}%Z : gmap string Z).
Definition ex_preValues : gmap string Quantity := ({["spec.resources.limits.memory" := 100; "spec.resources.limits.cpu" := 2]}%Z : gmap string Z).

Lemma blast_fields_complete_witness :
  map named_field (blast_fields ex_patchValues ex_preValues)
    = [Some "spec.resources.limits.memory"] /\
  StronglySorted (fun a b => String.leb a b = true)
    (List.filter (breaches ex_patchValues ex_preValues)
       (sort_strings (map fst (map_to_list ex_patchValues)))).
Proof.
  split; [|exact (proj2 (blast_fields_complete ex_patchValues ex_preValues _ (reflexivity _)))].
  rewrite (proj1 (blast_fields_complete ex_patchValues ex_preValues _ (reflexivity _))).
  vm_compute. reflexivity.
Defined.

Definition ex_meta (ns name : string) (t : time) : ObjectMeta := mkMeta name ns ∅ t None 0.
Definition ex_ra (name phase : string) (patch pre : option raw_json) (applied : option time)
    (conds : list Condition) : RemediationAction :=
  mkRA (mkMeta name "shop" {["dorgu.io/persona-kind" := "ApplicationPersona"; "dorgu.io/persona-name" := "api"]}
          (1000 * second)%Z None 0)
    (mkRASpec (mkIncidentRef "inc-1" "shop") (mkPersonaRef "ApplicationPersona" "api" "shop") 2
      (mkActionDetail "persona-update" patch pre) [] "" "" "raise memory" "0.90" None None
      (Some (mkRollbackSpec true (Some (5 * minute)%Z) 2)))
    (mkRAStatus phase "" None applied "" conds 0 []).

Lemma in_failed_cooldown_spec_witness :
  let a := ex_ra "ra-1" "Failed" None None None
             [mkCondition "Applied" "False" "PatchFailed" "boom" (1000 * second)%Z] in
  ra_Phase a = "Failed" /\ (1010 * second < failed_at a + 30 * 60 * 1000000000)%Z /\
  ~ (ra_AppliedAt a = None /\
     exists c, c ∈ ra_Conditions a /\ c_Type c = "Applied" /\ c_Reason c = ReasonPreconditionRejected).
Proof. apply (in_failed_cooldown_spec (1010 * second)%Z); vm_compute; [split; discriminate|reflexivity]. Defined.

(** On a cluster with one healed remediation, a modest patch is allowed. *)
Definition ex_world : Mem :=
  mkMem _ (2000 * second)%Z
    {[mkKey "ra-0" "shop" := ex_ra "ra-0" "Healthy" None None None []]} ∅ ∅
    [mkCP (ex_meta "" "cluster" 0%Z) (Some (Some (mkSelfHealing true "propose" 2 3 ["monitoring"] None))) ∅ "cluster" "" "" empty_cluster_status] ∅ [] [] [] None.

Lemma Check_allowed_iff_witness :
  let mem v := Some (RawDoc (nested ["spec"; "resources"; "limits"; "memory"] (JStr v))) in
  let action := ex_ra "ra-1" "Pending" (mem "150") (mem "100") None [] in
  exists actions, (listRA (personaActions_opts action) ex_world).1 = Ok actions /\
       (Z.of_nat (length (List.filter (created_within (2000 * second)%Z hour) actions)) < 3)%Z /\
       (forall a, a ∈ actions -> running_phase (ra_Phase a) = false) /\
       (forall a, a ∈ actions -> in_failed_cooldown (2000 * second)%Z a = false) /\
       caps_hold action /\
       (NamespaceDenied (Some (mkChecker ["kube-system"])) "shop" ex_world).1 = None.
Proof.
  intros mem action.
  refine (proj1 (proj2 (Check_allowed_iff (mkChecker ["kube-system"]) action ex_world)) _).
  eexists. split; vm_compute; reflexivity.
Defined.
