(* ===== verification/Signals.v ===== *)
(** * Health signals and their grouping (internal/detection/signals.go, grouping.go).

    A signal is one raw observation; [GroupSignals] partitions a batch so that a
    diagnosis only ever sees one application's signals. *)

From S2P Require Import Prelude GoString GoNum Json ApiTypes KubeTypes.
From Stdlib Require Import String Ascii.
From stdpp Require Import strings.
Open Scope string_scope.

Record Signal := mkSignal {
  sig_Type : string;
  sig_Severity : string;
  sig_Category : string;
  sig_Source : string;
  sig_Message : string;
  sig_Resource : ResourceReference;
  sig_PersonaRef : option PersonaReference;
  sig_Value : option f64;
  sig_Threshold : option f64;
  sig_DetectedAt : time;
  sig_Metadata : gmap string string;
}.

Definition set_persona (ref : option PersonaReference) (s : Signal) : Signal :=
  mkSignal (sig_Type s) (sig_Severity s) (sig_Category s) (sig_Source s) (sig_Message s) (sig_Resource s)
    ref (sig_Value s) (sig_Threshold s) (sig_DetectedAt s) (sig_Metadata s).

(** ** Signal types *)

Definition SignalNodeNotReady : string := "NodeNotReady".
Definition SignalNodeMemoryPressure : string := "NodeMemoryPressure".
Definition SignalNodeDiskPressure : string := "NodeDiskPressure".
Definition SignalNodePIDPressure : string := "NodePIDPressure".
Definition SignalNodeNetworkDown : string := "NodeNetworkUnavailable".
Definition SignalOOMKilled : string := "OOMKilled".
Definition SignalCrashLoopBackOff : string := "CrashLoopBackOff".
Definition SignalImagePullBackOff : string := "ImagePullBackOff".
Definition SignalPodEvicted : string := "PodEvicted".
Definition SignalPodPendingLong : string := "PodPendingLong".
Definition SignalProbeFailure : string := "ProbeFailure".
Definition SignalContainerRestart : string := "ContainerHighRestarts".
Definition SignalCPUSaturationHigh : string := "CPUSaturationHigh".
Definition SignalMemorySaturationHigh : string := "MemorySaturationHigh".
Definition SignalCPUSaturationCritical : string := "CPUSaturationCritical".
Definition SignalMemorySaturationCrit : string := "MemorySaturationCritical".
Definition SignalCPUUsageHigh : string := "CPUUsageHigh".
Definition SignalMemoryUsageHigh : string := "MemoryUsageHigh".
Definition SignalAPIServerUnhealthy : string := "APIServerUnhealthy".
Definition SignalETCDUnhealthy : string := "ETCDUnhealthy".
Definition SignalSchedulerUnhealthy : string := "SchedulerUnhealthy".
Definition SignalControllerMgrUnhealth : string := "ControllerManagerUnhealthy".
Definition SignalComponentUnhealthy : string := "ComponentUnhealthy".

Definition SeverityInfo : string := "info".
Definition SeverityWarning : string := "warning".
Definition SeverityCritical : string := "critical".

Definition CategoryResource : string := "resource".
Definition CategoryHealth : string := "health".
Definition CategoryNode : string := "node".
Definition CategoryControlPlane : string := "controlplane".
Definition CategoryDeployment : string := "deployment".
Definition CategoryDependency : string := "dependency".
Definition CategoryScaling : string := "scaling".
Definition CategorySecurity : string := "security".

(** An unrecognised severity ranks below info. *)
Definition SeverityRank (s : string) : Z :=
  (if (s =? SeverityCritical)%string then 2
   else if (s =? SeverityWarning)%string then 1
   else if (s =? SeverityInfo)%string then 0
   else -1)%Z.

(** ** Grouping *)

Definition MetadataKeyDeployment : string := "deployment".
Definition clusterGroupKey : string := "cluster".
Definition ScopePersona : string := "persona".
Definition ScopeUnattributed : string := "unattributed".
Definition ScopeCluster : string := "cluster".

Record SignalGroup := mkGroup {
  sg_Scope : string;
  sg_Key : string;
  sg_Namespace : string;
  sg_PersonaRef : option PersonaReference;
  sg_Workload : string;
  sg_Signals : list Signal;
}.

Definition WorkloadName (sig : Signal) : string :=
  let deployment := mget (sig_Metadata sig) MetadataKeyDeployment in
  if negb (deployment =? "") then deployment else rr_Name (sig_Resource sig).

Definition groupFor (sig : Signal) : SignalGroup :=
  match sig_PersonaRef sig with
  | Some ref =>
      mkGroup ScopePersona ("persona/" ++ pr_Kind ref ++ "/" ++ pr_Namespace ref ++ "/" ++ pr_Name ref)
        (pr_Namespace ref) (Some ref) "" []
  | None =>
      let namespace := rr_Namespace (sig_Resource sig) in
      if (namespace =? "") then mkGroup ScopeCluster clusterGroupKey "" None "" []
      else
        let workload := WorkloadName sig in
        mkGroup ScopeUnattributed ("unattributed/" ++ namespace ++ "/" ++ workload) namespace None workload []
  end.

(** [existing.Signals = append(existing.Signals, sig)]. *)
Definition add_signal (sig : Signal) (g : SignalGroup) : SignalGroup :=
  mkGroup (sg_Scope g) (sg_Key g) (sg_Namespace g) (sg_PersonaRef g) (sg_Workload g) (sg_Signals g ++ [sig])%list.

(** One iteration: the map of groups and the keys in order of appearance. *)
Definition group_step (st : gmap string SignalGroup * list string) (sig : Signal)
  : gmap string SignalGroup * list string :=
  let '(groups, keys) := st in
  let group := groupFor sig in
  match groups !! sg_Key group with
  | None => (<[sg_Key group := add_signal sig group]> groups, keys ++ [sg_Key group])%list
  | Some existing => (<[sg_Key group := add_signal sig existing]> groups, keys)
  end.

Definition GroupSignals (signals : list Signal) : list SignalGroup :=
  let '(groups, keys) := foldl group_step (∅, []) signals in
  omap (fun key => groups !! key) (sort_strings keys).

(** ** Properties *)

Definition key_of (s : Signal) : string := sg_Key (groupFor s).
Definition with_key (k : string) (l : list Signal) : list Signal :=
  List.filter (fun s => (key_of s =? k)%string) l.

(** The group of key [k]: the header of the first such signal, and all of them in order. *)
Definition expected_group (k : string) (l : list Signal) : option SignalGroup :=
  match with_key k l with
  | [] => None
  | s :: _ => let g := groupFor s in
      Some (mkGroup (sg_Scope g) k (sg_Namespace g) (sg_PersonaRef g) (sg_Workload g) (with_key k l))
  end.

Lemma with_key_snoc k l s :
  with_key k (l ++ [s]) = if (key_of s =? k)%string then (with_key k l ++ [s])%list else with_key k l.
Proof.
  unfold with_key. rewrite List.filter_app. simpl. destruct (key_of s =? k)%string; [done|]. by rewrite app_nil_r.
Qed.

Lemma with_key_elem k l s : s ∈ with_key k l <-> s ∈ l /\ key_of s = k.
Proof. unfold with_key. rewrite !list_elem_of_In, filter_In, String.eqb_eq. done. Qed.

Lemma with_key_nil k l : with_key k l = [] <-> forall s, s ∈ l -> key_of s <> k.
Proof.
  split.
  - intros H s Hs Hk. assert (s ∈ with_key k l) as Hin by by apply with_key_elem. rewrite H in Hin.
    by apply not_elem_of_nil in Hin.
  - intros H. destruct (with_key k l) as [|s t] eqn:E; [done|].
    assert (s ∈ with_key k l) as Hin by (rewrite E; left). apply with_key_elem in Hin as [Hs Hk]. by destruct (H s Hs).
Qed.

Lemma group_step_invariant l :
  let '(groups, keys) := foldl group_step (∅, []) l in
  (forall k, groups !! k = expected_group k l) /\ NoDup keys /\
  (forall k, k ∈ keys <-> exists s, s ∈ l /\ key_of s = k).
Proof.
  induction l as [|s l IH] using rev_ind.
  { simpl. split_and!; [done|constructor|]. intros k. split; [by intros ?%not_elem_of_nil|].
    by intros (s & ?%not_elem_of_nil & _). }
  rewrite foldl_snoc. destruct (foldl group_step (∅, []) l) as [groups keys]. destruct IH as (Hg & Hnd & Hk).
  unfold group_step. fold (key_of s). rewrite Hg.
  assert (Hgroup : forall k, k <> key_of s -> expected_group k (l ++ [s]) = expected_group k l).
  { intros k Hne. unfold expected_group. rewrite with_key_snoc.
    by destruct (String.eqb_spec (key_of s) k); [congruence|]. }
  assert (Hself : expected_group (key_of s) (l ++ [s])
      = Some (add_signal s (default (groupFor s) (expected_group (key_of s) l)))).
  { unfold expected_group. rewrite with_key_snoc, String.eqb_refl. destruct (with_key (key_of s) l) eqn:Hw; simpl; [|done].
    unfold add_signal, key_of. assert (sg_Signals (groupFor s) = []) as ->; [|done].
    unfold groupFor. destruct (sig_PersonaRef s); [done|]. by destruct (_ =? _). }
  destruct (expected_group (key_of s) l) as [g|] eqn:He; simpl in Hself.
  - split_and!; [|done|].
    + intros k. rewrite lookup_insert. case_decide as Hd; [by subst|]. rewrite Hg. by rewrite Hgroup.
    + intros k. rewrite Hk. setoid_rewrite elem_of_app. setoid_rewrite list_elem_of_singleton. split; [naive_solver|].
      intros (x & [Hx| ->] & <-); [eauto|]. unfold expected_group in He.
      destruct (with_key (key_of s) l) as [|y t] eqn:Hw; [done|]. exists y. apply with_key_elem. rewrite Hw. left.
  - split_and!.
    + intros k. rewrite lookup_insert. case_decide as Hd; [by subst|]. rewrite Hg. by rewrite Hgroup.
    + apply NoDup_app. split_and!; [done| |apply NoDup_singleton]. intros k Hin ->%list_elem_of_singleton.
      apply Hk in Hin as (x & Hx & Hkx). unfold expected_group in He.
      destruct (with_key (key_of s) l) eqn:Hw; [|done]. destruct (proj1 (with_key_nil _ _) Hw x Hx Hkx).
    + intros k. rewrite elem_of_app, list_elem_of_singleton, Hk. setoid_rewrite elem_of_app.
      setoid_rewrite list_elem_of_singleton. naive_solver.
Qed.

(** What the loop and the final sort add up to. *)
Lemma GroupSignals_keys l :
  exists keys, NoDup keys /\ (forall k, k ∈ keys <-> exists s, s ∈ l /\ key_of s = k) /\
    GroupSignals l = omap (fun k => expected_group k l) (sort_strings keys).
Proof.
  unfold GroupSignals. pose proof (group_step_invariant l) as Hinv.
  destruct (foldl group_step (∅, []) l) as [groups keys]. destruct Hinv as (Hg & Hnd & Hk).
  exists keys. split_and!; try done. apply list_omap_ext. by apply Forall_Forall2_diag, Forall_true.
Qed.

Lemma GroupSignals_elem l g :
  g ∈ GroupSignals l <-> (exists s, s ∈ l /\ key_of s = sg_Key g) /\ expected_group (sg_Key g) l = Some g.
Proof.
  destruct (GroupSignals_keys l) as (keys & _ & Hk & ->). rewrite list_elem_of_omap. split.
  - intros (k & Hin & He). rewrite sort_strings_perm in Hin. apply Hk in Hin.
    assert (sg_Key g = k) as ->; [|done]. revert He. unfold expected_group. destruct (with_key k l); naive_solver.
  - intros [Hs He]. exists (sg_Key g). by rewrite sort_strings_perm, Hk.
Qed.

Lemma with_key_partition ks l :
  NoDup ks -> (forall s, s ∈ l -> key_of s ∈ ks) -> concat (map (fun k => with_key k l) ks) ≡ₚ l.
Proof.
  intros Hnd. induction l as [|s l IH]; intros Hin.
  { clear. induction ks; simpl; [done|]. by rewrite IHks. }
  transitivity (s :: concat (map (fun k => with_key k l) ks)); [|rewrite IH; [done|intros; apply Hin; by right]].
  assert (Hs : key_of s ∈ ks) by (apply Hin; left). clear IH Hin.
  assert (Hcons : forall k, with_key k (s :: l) = if (key_of s =? k)%string then s :: with_key k l else with_key k l) by done.
  revert Hs. induction Hnd as [|k ks Hk Hnd IH]; [by intros ?%not_elem_of_nil|]. cbn [map concat]. rewrite Hcons.
  intros [Heq|Hs]%elem_of_cons.
  - rewrite Heq, String.eqb_refl. cbn [app]. rewrite (map_ext_in _ (fun k => with_key k l)); [done|].
    intros k' Hk'%list_elem_of_In. rewrite Hcons, Heq. by destruct (String.eqb_spec k k'); [subst|].
  - rewrite (IH Hs). destruct (String.eqb_spec (key_of s) k); [by subst|]. by rewrite Permutation_middle.
Qed.

Lemma expected_group_Some k l : (exists s, s ∈ l /\ key_of s = k) ->
  exists g, expected_group k l = Some g /\ sg_Key g = k /\ sg_Signals g = with_key k l.
Proof.
  intros (s & Hs & Hk). unfold expected_group. destruct (with_key k l) eqn:Hw; [|by eexists].
  destruct (proj1 (with_key_nil _ _) Hw s Hs Hk).
Qed.

(** C29. [GroupSignals] is a partition: nothing is lost or duplicated, each group
    holds exactly the signals of its key in collection order, and the groups
    come out in strictly increasing key order. *)
Theorem GroupSignals_partition (l : list Signal) :
  concat (map sg_Signals (GroupSignals l)) ≡ₚ l /\
  NoDup (map sg_Key (GroupSignals l)) /\
  StronglySorted (fun a b => String.leb a b = true) (map sg_Key (GroupSignals l)) /\
  forall g, g ∈ GroupSignals l -> sg_Signals g <> [] /\ sg_Signals g = with_key (sg_Key g) l.
Proof.
  destruct (GroupSignals_keys l) as (keys & Hnd & Hk & ->).
  assert (Hks : forall ks, (forall k, k ∈ ks -> k ∈ keys) ->
    map sg_Key (omap (fun k => expected_group k l) ks) = ks /\
    map sg_Signals (omap (fun k => expected_group k l) ks) = map (fun k => with_key k l) ks).
  { induction ks as [|k ks IH]; intros Hsub; [done|].
    destruct (expected_group_Some k l) as (g & Hg & Hgk & Hgs); [apply Hk, Hsub; left|].
    rewrite omap_cons, Hg. cbn [map].
    destruct IH as [-> ->]; [intros; apply Hsub; by right|]. by rewrite Hgk, Hgs. }
  destruct (Hks (sort_strings keys)) as [-> ->]; [intros k; by rewrite sort_strings_perm|]. split_and!.
  - apply with_key_partition; [by rewrite sort_strings_perm|]. intros s Hs. rewrite sort_strings_perm, Hk. eauto.
  - by rewrite sort_strings_perm.
  - apply sort_strings_sorted.
  - intros g (k & Hin & He)%list_elem_of_omap. rewrite sort_strings_perm in Hin. apply Hk in Hin.
    destruct (expected_group_Some k l Hin) as (g' & Hg' & Hgk & Hgs). rewrite He in Hg'. simplify_eq.
    rewrite Hgs. split; [|done]. destruct Hin as (s & Hs & Hkey). intros Hnil.
    destruct (proj1 (with_key_nil _ _) Hnil s Hs Hkey).
Qed.

(** Kubernetes names, namespaces and kinds contain no slash. *)
Definition slash_free (s : string) : Prop := str_exists (Ascii.eqb "/") s = false.
Definition well_named (s : Signal) : Prop :=
  match sig_PersonaRef s with
  | Some ref => slash_free (pr_Kind ref) /\ slash_free (pr_Namespace ref)
  | None => slash_free (rr_Namespace (sig_Resource s))
  end.

Lemma slash_split a b a' b' : slash_free a -> slash_free a' -> a ++ "/" ++ b = a' ++ "/" ++ b' -> a = a' /\ b = b'.
Proof. intros Ha Ha'. apply str_split_inj; done. Qed.

Lemma groupFor_key_inj s t : well_named s -> well_named t -> key_of s = key_of t -> groupFor s = groupFor t.
Proof.
  unfold key_of, well_named, groupFor.
  destruct (sig_PersonaRef s) as [r|], (sig_PersonaRef t) as [r'|]; cbn [sg_Key].
  - destruct r as [k n m], r' as [k' n' m']. cbn [pr_Kind pr_Namespace pr_Name].
    intros [Hk Hn] [Hk' Hn'] H. apply str_app_inv_head in H.
    apply slash_split in H as [-> H]; [|done..]. by apply slash_split in H as [-> ->].
  - intros _ _. by destruct (_ =? "").
  - intros _ _. by destruct (_ =? "").
  - destruct (String.eqb_spec (rr_Namespace (sig_Resource s)) ""), (String.eqb_spec (rr_Namespace (sig_Resource t)) "");
      cbn [sg_Key]; try done. intros Hs Ht H. apply str_app_inv_head in H.
    by apply slash_split in H as [-> ->].
Qed.

Lemma group_header (l : list Signal) (g : SignalGroup) (s : Signal) :
  (forall t, t ∈ l -> well_named t) -> g ∈ GroupSignals l -> s ∈ sg_Signals g ->
  groupFor s = mkGroup (sg_Scope g) (sg_Key g) (sg_Namespace g) (sg_PersonaRef g) (sg_Workload g) [].
Proof.
  intros Hwn Hg Hs. apply GroupSignals_elem in Hg as [_ He]. unfold expected_group in He.
  destruct (with_key (sg_Key g) l) as [|t rest] eqn:Hw; [done|].
  assert (Ht : t ∈ with_key (sg_Key g) l) by (rewrite Hw; left). apply with_key_elem in Ht as [Ht Hkt].
  assert (Hin : s ∈ with_key (sg_Key g) l) by (rewrite Hw; injection He as He; by rewrite <- He in Hs). clear Hw.
  apply with_key_elem in Hin as [Hin Hks].
  assert (Hgf : groupFor t = groupFor s) by (apply groupFor_key_inj; eauto; congruence).
  rewrite Hgf in He. injection He as He. rewrite <- He. cbn [sg_Scope sg_Key sg_Namespace sg_PersonaRef sg_Workload].
  rewrite <- Hks. unfold key_of, groupFor. destruct (sig_PersonaRef s); [done|]. by destruct (_ =? "").
Qed.

(** The persona and, without one, the namespace of a group's signals. *)
Lemma group_isolated (l : list Signal) (g : SignalGroup) (s : Signal) :
  (forall t, t ∈ l -> well_named t) -> g ∈ GroupSignals l -> s ∈ sg_Signals g ->
  sig_PersonaRef s = sg_PersonaRef g /\ (sg_PersonaRef g = None -> rr_Namespace (sig_Resource s) = sg_Namespace g).
Proof.
  intros Hwn Hg Hs. pose proof (group_header l g s Hwn Hg Hs) as Hh. revert Hh. unfold groupFor.
  destruct (sig_PersonaRef s); [intros Hh; by injection Hh as _ _ _ <- _|].
  destruct (String.eqb_spec (rr_Namespace (sig_Resource s)) ""); intros Hh; by injection Hh as _ _ <- <- _.
Qed.

(** No group ever spans two applications, two namespaces or two workloads:
    every signal of a group carries the group's own persona and, when it has
    none, the group's own namespace and workload. *)
Theorem GroupSignals_isolates (l : list Signal) (g : SignalGroup) (s : Signal) :
  (forall t, t ∈ l -> well_named t) -> g ∈ GroupSignals l -> s ∈ sg_Signals g ->
  sig_PersonaRef s = sg_PersonaRef g /\
  match sg_PersonaRef g with
  | Some ref => pr_Namespace ref = sg_Namespace g
  | None => rr_Namespace (sig_Resource s) = sg_Namespace g /\
            (sg_Namespace g <> "" -> WorkloadName s = sg_Workload g)
  end.
Proof.
  intros Hwn Hg Hs. pose proof (group_header l g s Hwn Hg Hs) as Hh. revert Hh. unfold groupFor.
  destruct (sig_PersonaRef s); [intros Hh; by injection Hh as _ _ <- <- _|].
  destruct (String.eqb_spec (rr_Namespace (sig_Resource s)) ""); intros Hh; injection Hh as _ _ <- <- <-; by split_and!.
Qed.

(** ** Witnesses *)

(** A critical signal about one pod. *)
Definition ex_signal (type pod ns deploy : string) (t : time) : Signal :=
  mkSignal type SeverityCritical CategoryHealth "pod-failure-detector" "a message"
    (mkResourceRef "Pod" pod ns "") None None None t {[MetadataKeyDeployment := deploy]}.

Definition ex_api : Signal := ex_signal SignalOOMKilled "api-1" "shop" "api" 0%Z.
Definition ex_web : Signal := ex_signal SignalOOMKilled "web-1" "shop" "web" 0%Z.
Definition ex_api_group : SignalGroup := mkGroup ScopeUnattributed "unattributed/shop/api" "shop" None "api" [ex_api].
Lemma ex_grouped : GroupSignals [ex_api; ex_web] !! 0 = Some ex_api_group.
Proof. vm_compute. reflexivity. Qed.
Lemma ex_well_named t : t ∈ [ex_api; ex_web] -> well_named t.
Proof. intros [->|[->|[]%not_elem_of_nil]%elem_of_cons]%elem_of_cons; reflexivity. Qed.

Lemma GroupSignals_isolates_witness :
  ex_api_group ∈ GroupSignals [ex_api; ex_web] /\ WorkloadName ex_api = "api" /\ rr_Namespace (sig_Resource ex_api) = "shop".
Proof.
  assert (Hg : ex_api_group ∈ GroupSignals [ex_api; ex_web]) by exact (list_elem_of_lookup_2 _ _ _ ex_grouped).
  split; [exact Hg|]. destruct (GroupSignals_isolates [ex_api; ex_web] ex_api_group ex_api ex_well_named Hg (list_elem_of_here _ _))
    as [_ [Hns Hwl]]. split; [apply Hwl; discriminate|exact Hns].
Defined.
