(* ===== verification/Correlator.v ===== *)
(** * Attribution of signals to personas, and the detection engine
    (internal/detection/persona_correlator.go, engine.go). *)

From S2P Require Import Prelude GoString GoNum Json ApiTypes KubeTypes Client Signals.
From Stdlib Require Import String Ascii.
From stdpp Require Import strings.
Open Scope string_scope.

(** ** Claims *)

Definition name_claims (resourceName name : string) : bool :=
  (resourceName =? name) || has_prefix resourceName (name ++ "-").

Definition claimLength (resourceName : string) (persona : ApplicationPersona) : nat :=
  if (resourceName =? "") then 0 else
  foldl (fun best name =>
      if (name =? "") || (String.length name <=? best)%nat then best
      else if name_claims resourceName name then String.length name else best)
    0 [ap_Name persona; aps_Name (ap_Spec persona)].

Definition claim_step (resourceName : string) (st : nat * list ApplicationPersona) (persona : ApplicationPersona)
  : nat * list ApplicationPersona :=
  let '(best, matched) := st in
  let length := claimLength resourceName persona in
  if (length =? 0)%nat || (length <? best)%nat then (best, matched)
  else if (best <? length)%nat then (length, [persona])
  else (best, matched ++ [persona])%list.

Definition personasClaiming (sig : Signal) (personas : list ApplicationPersona) : list ApplicationPersona :=
  (foldl (claim_step (rr_Name (sig_Resource sig))) (0, []) personas).2.

Definition matchesPersona (sig : Signal) (persona : ApplicationPersona) : bool :=
  (0 <? claimLength (rr_Name (sig_Resource sig)) persona)%nat.

Definition NameClaimedByPersona (resourceName personaName : string) : bool :=
  if (resourceName =? "") || (personaName =? "") then false else name_claims resourceName personaName.

(** The persona a signal is handed to: exactly one claimant, or none. *)
Definition attribute (sig : Signal) (personas : list ApplicationPersona) : Signal :=
  match personasClaiming sig personas with
  | [p] => set_persona (Some (mkPersonaRef "ApplicationPersona" (ap_Name p) (ap_Namespace p))) sig
  | _ => sig
  end.

(** ** [sort.Slice]

    Go's standard library documents a sort that is not stable: any permutation
    in which no later element is [less] than an earlier one. *)

Class SortSlice := sort_slice : forall {A : Type}, (A -> A -> bool) -> list A -> list A.

(** [less] orders the elements satisfying [P], up to ties. *)
Definition weak_order {A} (P : A -> Prop) (less : A -> A -> bool) : Prop :=
  (forall x y, P x -> P y -> less x y = true -> less y x = false) /\
  forall x y z, P x -> P y -> P z -> less y x = false -> less z y = false -> less z x = false.

Class SortSliceSpec `{SortSlice} : Prop := {
  sort_slice_perm {A} (less : A -> A -> bool) l : sort_slice less l ≡ₚ l;
  sort_slice_sorted {A} P (less : A -> A -> bool) l :
    weak_order P less -> Forall P l -> StronglySorted (fun a b => less b a = false) (sort_slice less l);
}.

#[export] Instance insertion_slice : SortSlice := fun A less l => insertion_sort (fun a b => negb (less b a)) l.

#[export] Instance insertion_slice_spec : SortSliceSpec.
Proof.
  split.
  - intros A less l. apply insertion_sort_perm.
  - intros A P less l [Hasym Htr] Hl.
    assert (Hs : StronglySorted (fun a b => negb (less b a) = true) (insertion_sort (fun a b => negb (less b a)) l)).
    { apply (insertion_sort_sorted_on _ P); [| |done].
      - intros x y Hx Hy. rewrite !negb_true_iff. destruct (less y x) eqn:Hyx; [right; by apply Hasym|by left].
      - intros x y z Hx Hy Hz. rewrite !negb_true_iff. by apply Htr. }
    unfold sort_slice, insertion_slice. induction Hs as [|x k Hk IH Hx]; constructor; [done|].
    eapply Forall_impl; [done|]. intros y. simpl. by rewrite negb_true_iff.
Qed.

(** The order of [CollectAll]: critical first, then newest first. *)
Definition signal_less (a b : Signal) : bool :=
  let ri := SeverityRank (sig_Severity a) in
  let rj := SeverityRank (sig_Severity b) in
  if negb (ri =? rj)%Z then (rj <? ri)%Z else t_after (sig_DetectedAt a) (sig_DetectedAt b).

Section correlate.
Context `{Client W}.

(** One iteration: the per-namespace cache, and the signal as it is left. *)
Definition correlate_step (cache : gmap string (list ApplicationPersona)) (sig : Signal)
  : io W (gmap string (list ApplicationPersona) * Signal) :=
  match sig_PersonaRef sig with
  | Some _ => mret (cache, sig)
  | None =>
      let ns := rr_Namespace (sig_Resource sig) in
      if (ns =? "") then mret (cache, sig) else
      match cache !! ns with
      | Some personas => mret (cache, attribute sig personas)
      | None =>
          let! r := listPersonas (mkListOptions (Some ns) []) in
          match r with
          | Err _ => mret (<[ns := []]> cache, sig)
          | Ok personas => mret (<[ns := personas]> cache, attribute sig personas)
          end
      end
  end.

Fixpoint correlate_loop (cache : gmap string (list ApplicationPersona)) (signals : list Signal)
  : io W (list Signal) :=
  match signals with
  | [] => mret []
  | sig :: rest =>
      let! st := correlate_step cache sig in
      let! rest' := correlate_loop st.1 rest in
      mret (st.2 :: rest')
  end.

Definition Correlate (signals : list Signal) : io W (list Signal) := correlate_loop ∅ signals.

(** ** The engine: a [SignalCollector] is a computation. *)

Record Engine := mkEngine {
  eng_collectors : list (io W (result error (list Signal)));
  eng_correlator : option (list Signal -> io W (list Signal));
}.

Fixpoint run_collectors (cs : list (io W (result error (list Signal)))) : io W (list Signal) :=
  match cs with
  | [] => mret []
  | c :: rest =>
      let! r := c in
      let! more := run_collectors rest in
      mret (match r with Err _ => more | Ok signals => signals ++ more end)%list
  end.

Definition CollectAll `{SortSlice} (e : Engine) : io W (result error (list Signal)) :=
  let! allSignals := run_collectors (eng_collectors e) in
  let! correlated := match eng_correlator e with Some c => c allSignals | None => mret allSignals end in
  iok (sort_slice signal_less correlated).
End correlate.

(** ** Properties *)

Definition claims (resourceName : string) (p : ApplicationPersona) : nat := claimLength resourceName p.

(** A claim is the longest of the persona's two names that is the resource's
    name or a hyphen-delimited prefix of it. *)
Definition claim_of (r name : string) : nat := if name_claims r name then String.length name else 0.

Lemma claimLength_spec r p : r <> "" ->
  claimLength r p = Nat.max (claim_of r (ap_Name p)) (claim_of r (aps_Name (ap_Spec p))).
Proof.
  intros Hr. unfold claimLength, claim_of. destruct (String.eqb_spec r "") as [|_]; [done|]. cbn [foldl].
  generalize (ap_Name p) (aps_Name (ap_Spec p)). intros a b.
  assert (Hz : forall s k, (s =? "") || (String.length s <=? k)%nat = (String.length s <=? k)%nat) by by intros [].
  rewrite !Hz. destruct (name_claims r a), (name_claims r b), (Nat.leb_spec (String.length a) 0);
    repeat case_match; repeat match goal with H : (_ <=? _)%nat = true |- _ => apply Nat.leb_le in H
      | H : (_ <=? _)%nat = false |- _ => apply Nat.leb_gt in H end; lia.
Qed.

(** The longest claim on a resource. *)
Definition best_claim (r : string) (ps : list ApplicationPersona) : nat :=
  foldr (fun p acc => Nat.max (claims r p) acc) 0 ps.
Definition best_claimants (r : string) (ps : list ApplicationPersona) : list ApplicationPersona :=
  List.filter (fun p => (0 <? claims r p)%nat && (claims r p =? best_claim r ps)%nat) ps.

Lemma best_claim_snoc r ps p : best_claim r (ps ++ [p]) = Nat.max (best_claim r ps) (claims r p).
Proof. induction ps; simpl; lia. Qed.

Lemma best_claim_elem r ps p : p ∈ ps -> (claims r p <= best_claim r ps)%nat.
Proof.
  induction ps as [|q ps IH]; [by intros ?%not_elem_of_nil|]. intros [->|H]%elem_of_cons; simpl; [lia|].
  specialize (IH H). lia.
Qed.

Lemma claim_step_spec r ps :
  foldl (claim_step r) (0, []) ps = (best_claim r ps, best_claimants r ps).
Proof.
  induction ps as [|p ps IH] using rev_ind; [done|]. rewrite foldl_snoc, IH. unfold claim_step, best_claimants.
  rewrite best_claim_snoc, List.filter_app. cbn [List.filter]. fold (claims r p).
  destruct (Nat.eqb_spec (claims r p) 0) as [Hz|Hz]; simpl.
  { rewrite Hz, Nat.max_0_r. by rewrite app_nil_r. }
  destruct (Nat.ltb_spec (claims r p) (best_claim r ps)) as [Hlt|Hge].
  { replace (Nat.max _ _) with (best_claim r ps) by lia. destruct (Nat.eqb_spec (claims r p) (best_claim r ps)); [lia|].
    rewrite andb_false_r. by rewrite app_nil_r. }
  assert ((0 <? claims r p)%nat = true) as Hpos by (apply Nat.ltb_lt; lia). rewrite Hpos. simpl.
  replace (Nat.max (best_claim r ps) (claims r p)) with (claims r p) by lia. rewrite Nat.eqb_refl.
  destruct (Nat.ltb_spec (best_claim r ps) (claims r p)) as [Hlt|Hle].
  - f_equal. rewrite (proj2 (bfilter_none _ ps)); [done|]. intros q Hq. pose proof (best_claim_elem r ps q Hq).
    destruct (Nat.eqb_spec (claims r q) (claims r p)); [lia|]. apply andb_false_r.
  - by assert (claims r p = best_claim r ps) as -> by lia.
Qed.

(** Attribution keeps only the most specific claim: the personas that claim a
    resource are exactly those whose claim is the longest one, in list order, so
    a tie returns every tied persona and a lone longest name wins. *)
Theorem personasClaiming_spec (sig : Signal) (ps : list ApplicationPersona) :
  personasClaiming sig ps = best_claimants (rr_Name (sig_Resource sig)) ps.
Proof. unfold personasClaiming. by rewrite claim_step_spec. Qed.

Section correlate_props.
Context `{ClientReads W}.

(** The personas of a namespace as the snapshot lists them; none when the list fails. *)
Definition personas_in (w : W) (ns : string) : list ApplicationPersona :=
  match (listPersonas (mkListOptions (Some ns) []) w).1 with Ok ps => ps | Err _ => [] end.

(** Attribution without the cache. *)
Definition correlate_spec (w : W) (sig : Signal) : Signal :=
  match sig_PersonaRef sig with
  | Some _ => sig
  | None => if (rr_Namespace (sig_Resource sig) =? "") then sig
            else attribute sig (personas_in w (rr_Namespace (sig_Resource sig)))
  end.

Lemma attribute_nil sig : attribute sig [] = sig.
Proof. done. Qed.

Lemma correlate_step_run cache sig w :
  (forall ns ps, cache !! ns = Some ps -> ps = personas_in w ns) ->
  exists cache', correlate_step cache sig w = ((cache', correlate_spec w sig), w) /\
    forall ns ps, cache' !! ns = Some ps -> ps = personas_in w ns.
Proof.
  intros Hc. unfold correlate_step, correlate_spec.
  destruct (sig_PersonaRef sig); [by exists cache|]. destruct (rr_Namespace (sig_Resource sig) =? ""); [by exists cache|].
  set (ns := rr_Namespace (sig_Resource sig)). destruct (cache !! ns) as [ps|] eqn:Hns.
  { exists cache. split; [|done]. by rewrite <- (Hc _ _ Hns). }
  assert (Hp : personas_in w ns = match (listPersonas (mkListOptions (Some ns) []) w).1 with Ok ps => ps | Err _ => [] end)
    by done.
  unfold mbind, io_bind. rewrite (read_pair (listPersonas _) w (listPersonas_reads _ _)).
  destruct (listPersonas _ w).1 as [ps|e]; rewrite Hp; eexists; (split; [done|]);
    intros ns' ps'; rewrite lookup_insert; case_decide as Hd; naive_solver.
Qed.

(** C31. The namespace cache of [Correlate] is invisible: under reads that leave
    the cluster alone, one batch attributes every signal exactly as if the
    personas of its own namespace were listed afresh for it. *)
Theorem Correlate_equiv (signals : list Signal) (w : W) :
  Correlate signals w = (map (correlate_spec w) signals, w).
Proof.
  unfold Correlate. assert (Hc : forall ns ps, (∅ : gmap string (list ApplicationPersona)) !! ns = Some ps ->
    ps = personas_in w ns) by (intros ns ps; by rewrite lookup_empty).
  revert Hc. generalize (∅ : gmap string (list ApplicationPersona)).
  induction signals as [|sig rest IH]; intros cache Hc; [done|]. cbn [correlate_loop map].
  destruct (correlate_step_run cache sig w Hc) as (cache' & Hs & Hc').
  unfold mbind, io_bind. rewrite Hs. cbn [fst snd]. by rewrite (IH cache' Hc').
Qed.

(** Exactly one owner: attribution never overwrites a persona, changes
    nothing but the persona, and names a persona only when it is listed in the
    signal's own namespace and its claim is strictly longer than that of every
    other persona listed there. *)
Theorem Correlate_exactly_one_owner (w : W) (sig : Signal) :
  let sig' := correlate_spec w sig in
  set_persona None sig' = set_persona None sig /\
  (sig_PersonaRef sig <> None -> sig_PersonaRef sig' = sig_PersonaRef sig) /\
  forall ref, sig_PersonaRef sig = None -> sig_PersonaRef sig' = Some ref ->
    exists before p after,
      personas_in w (rr_Namespace (sig_Resource sig)) = (before ++ p :: after)%list /\
      ref = mkPersonaRef "ApplicationPersona" (ap_Name p) (ap_Namespace p) /\
      (0 < claimLength (rr_Name (sig_Resource sig)) p)%nat /\
      forall q, q ∈ (before ++ after)%list ->
        (claimLength (rr_Name (sig_Resource sig)) q < claimLength (rr_Name (sig_Resource sig)) p)%nat.
Proof.
  cbv zeta. unfold correlate_spec. destruct (sig_PersonaRef sig) as [r|] eqn:Hr; [by rewrite Hr|].
  destruct (String.eqb_spec (rr_Namespace (sig_Resource sig)) "") as [Hns|Hns].
  { rewrite Hr. by split_and!. }
  generalize (personas_in w (rr_Namespace (sig_Resource sig))). intros ps.
  unfold attribute. rewrite personasClaiming_spec.
  destruct (best_claimants (rr_Name (sig_Resource sig)) ps) as [|p [|q l]] eqn:Hb; try by rewrite Hr.
  split_and!; [done..|]. intros ref _ [= <-].
  pose proof (best_claim_elem (rr_Name (sig_Resource sig)) ps) as Hmax.
  apply bfilter_singleton in Hb as (l1 & l2 & Hps & Hp & Hothers). unfold claims in *.
  apply andb_true_iff in Hp as [Hpos%Nat.ltb_lt Hpb%Nat.eqb_eq]. exists l1, p, l2. split_and!; try done.
  intros q Hq. specialize (Hothers q Hq). assert (Hin : q ∈ ps).
  { rewrite Hps, elem_of_app, elem_of_cons. rewrite elem_of_app in Hq. tauto. }
  specialize (Hmax q Hin). apply andb_false_iff in Hothers as [Hz%Nat.ltb_ge|Hz%Nat.eqb_neq]; lia.
Qed.
End correlate_props.

(** ** The engine *)

Lemma signal_less_weak : weak_order (fun _ => True) signal_less.
Proof.
  unfold signal_less, t_after. split.
  - intros x y _ _. generalize (SeverityRank (sig_Severity x)) (SeverityRank (sig_Severity y)).
    intros a b. destruct (Z.eqb_spec a b), (Z.eqb_spec b a); simpl; rewrite ?Z.ltb_lt, ?Z.ltb_ge; lia.
  - intros x y z _ _ _.
    generalize (SeverityRank (sig_Severity x)) (SeverityRank (sig_Severity y)) (SeverityRank (sig_Severity z)).
    intros a b c. destruct (Z.eqb_spec a b), (Z.eqb_spec b c), (Z.eqb_spec a c), (Z.eqb_spec b a), (Z.eqb_spec c b),
      (Z.eqb_spec c a); simpl; rewrite ?Z.ltb_ge; lia.
Qed.

(** Collection always succeeds, loses no signal of a collector that answered
    and adds none, and lists the most severe signals first and, at one severity,
    the newest first. *)
Theorem CollectAll_sorted `{Client W, SortSlice, !SortSliceSpec} (cs : list (io W (result error (list Signal)))) (w : W) :
  exists signals, (CollectAll (mkEngine cs None) w).1 = Ok signals /\
    signals ≡ₚ (run_collectors cs w).1 /\
    StronglySorted (fun a b => (SeverityRank (sig_Severity b) < SeverityRank (sig_Severity a))%Z \/
      SeverityRank (sig_Severity a) = SeverityRank (sig_Severity b) /\ (sig_DetectedAt b <= sig_DetectedAt a)%Z) signals.
Proof.
  unfold CollectAll, mbind, io_bind. cbn [eng_collectors eng_correlator].
  destruct (run_collectors cs w) as [l w']. cbn. eexists. split; [done|]. split; [apply sort_slice_perm|].
  generalize (sort_slice_sorted (fun _ => True) signal_less l signal_less_weak ltac:(by apply Forall_true)).
  induction 1 as [|x k Hk IH Hx]; constructor; [done|]. eapply Forall_impl; [done|]. intros y. simpl.
  unfold signal_less, t_after. destruct (Z.eqb_spec (SeverityRank (sig_Severity y)) (SeverityRank (sig_Severity x)));
    simpl; rewrite Z.ltb_ge; lia.
Qed.

(** ** Witnesses *)

#[local] Existing Instance int_quantity.

Definition ex_spec (name : string) : ApplicationPersonaSpec :=
  mkAPSpec name "1" "api" "standard" None None None None [] None None None.
Definition ex_persona (name ns : string) : ApplicationPersona :=
  mkAP (mkMeta name ns ∅ 0%Z None 0) (ex_spec name) empty_status ∅.
(** The personas [api] and [api-server] both claim the pods of [api-server]. *)
Definition ex_cluster : Mem :=
  mkMem _ 0%Z ∅ {[mkKey "api" "shop" := ex_persona "api" "shop"; mkKey "api-server" "shop" := ex_persona "api-server" "shop"]}
    ∅ [] ∅ [] [] [] None.

Lemma Correlate_equiv_witness :
  let s := ex_signal SignalOOMKilled "api-server-1" "shop" "api-server" 0%Z in
  Correlate [s; s] ex_cluster = (map (correlate_spec ex_cluster) [s; s], ex_cluster) /\
  map sig_PersonaRef (map (correlate_spec ex_cluster) [s; s])
    = replicate 2 (Some (mkPersonaRef "ApplicationPersona" "api-server" "shop")).
Proof. intros s. split; [apply (Correlate_equiv (W := Mem))|vm_compute; reflexivity]. Defined.

Lemma Correlate_exactly_one_owner_witness :
  let s := ex_signal SignalOOMKilled "api-server-1" "shop" "api-server" 0%Z in
  exists before p after,
    personas_in ex_cluster "shop" = (before ++ p :: after)%list /\ ap_Name p = "api-server" /\
    forall q, q ∈ (before ++ after)%list -> (claimLength "api-server-1" q < claimLength "api-server-1" p)%nat.
Proof.
  intros s. destruct (proj2 (proj2 (Correlate_exactly_one_owner ex_cluster s))
    (mkPersonaRef "ApplicationPersona" "api-server" "shop")) as (before & p & after & Hp & Href & _ & Hq);
    [reflexivity|vm_compute; reflexivity|].
  exists before, p, after. split; [exact Hp|]. split; [by injection Href|exact Hq].
Defined.

Lemma CollectAll_sorted_witness :
  exists signals, (CollectAll (mkEngine [iok [ex_signal SignalOOMKilled "a" "shop" "" 1%Z;
      ex_signal SignalOOMKilled "b" "shop" "" 2%Z]] None) ex_cluster).1 = Ok signals /\
    map sig_DetectedAt signals = [2; 1]%Z.
Proof.
  destruct (CollectAll_sorted [iok [ex_signal SignalOOMKilled "a" "shop" "" 1%Z;
      ex_signal SignalOOMKilled "b" "shop" "" 2%Z]] ex_cluster) as (signals & Hs & _ & _).
  exists signals. split; [exact Hs|]. vm_compute in Hs. injection Hs as <-. reflexivity.
Defined.
