(* ===== verification/Collectors.v ===== *)
(** * The signal collectors (internal/detection/pod.go, node.go, resource.go).

    Each collector reads the cluster and turns one kind of trouble into signals. *)

From S2P Require Import Prelude GoString GoNum Json ApiTypes KubeTypes Client Signals.
From Stdlib Require Import String Ascii.
From stdpp Require Import strings.
Open Scope string_scope.

(** ** pod.go *)

Definition podCollectorName : string := "pod-failure-detector".
Definition defaultPendingTimeout : duration := (5 * minute)%Z.
Definition defaultRestartThreshold : Z := 5.

Record PodCollector := mkPodCollector {
  pc_pendingTimeout : duration;
  pc_restartThreshold : Z;
  pc_excludeNS : gmap string bool;
}.
Definition NewPodCollector : PodCollector :=
  mkPodCollector defaultPendingTimeout defaultRestartThreshold {["kube-system" := true]}.

Section pod.
Context `{QuantityOps}.

Definition podResource (pod : Pod) : ResourceReference :=
  mkResourceRef "Pod" (pod_Name pod) (pod_Namespace pod) "".

(** Pod -> ReplicaSet -> Deployment, by the naming convention. *)
Definition replicaset_owner (name : string) : string :=
  match cut_last "-"%char name with
  | Some (b, _) => if (b =? "") then name else b      (* lastDash > 0 *)
  | None => name
  end.

Definition ownerDeployment (pod : Pod) : string :=
  match find_first (fun ref => (ow_Kind ref =? "ReplicaSet")) (pod_OwnerReferences pod) with
  | Some ref => replicaset_owner (ow_Name ref)
  | None => ""
  end.

Definition podMetadata (pod : Pod) : gmap string string :=
  let meta := {["namespace" := pod_Namespace pod; "nodeName" := pod_NodeName pod]} in
  let deploy := ownerDeployment pod in
  if negb (deploy =? "") then <[MetadataKeyDeployment := deploy]> meta else meta.

Definition containerMetadata (pod : Pod) (cs : ContainerStatus) : gmap string string :=
  <["restartCount" := fmt_d (cs_RestartCount cs)]> (<["image" := cs_Image cs]>
    (<["container" := cs_Name cs]> (podMetadata pod))).

Definition pod_signal (pod : Pod) (type severity msg : string) (value threshold : option f64)
    (at_ : time) (meta : gmap string string) : Signal :=
  mkSignal type severity CategoryHealth podCollectorName msg (podResource pod) None value threshold at_ meta.

Definition pod_text (pod : Pod) : string := pod_Namespace pod ++ "/" ++ pod_Name pod.
Definition container_text (pod : Pod) (cs : ContainerStatus) : string :=
  "Container " ++ cs_Name cs ++ " in pod " ++ pod_text pod.

Definition checkEviction (pod : Pod) (now : time) : option Signal :=
  if negb (pod_Phase pod =? PodFailed) || negb (pod_Reason pod =? "Evicted") then None else
  Some (pod_signal pod SignalPodEvicted SeverityCritical
    ("Pod " ++ pod_text pod ++ " was evicted: " ++ pod_Message pod) None None now (podMetadata pod)).

Definition checkPendingLong (p : PodCollector) (pod : Pod) (now : time) : option Signal :=
  if negb (pod_Phase pod =? PodPending) then None else
  let created := m_CreationTimestamp (pod_Meta pod) in
  if t_is_zero created then None else
  let age := t_sub now created in
  if (age <? pc_pendingTimeout p)%Z then None else
  Some (pod_signal pod SignalPodPendingLong SeverityWarning
    ("Pod " ++ pod_text pod ++ " has been pending for " ++ fmt_f 0 (d_minutes age) ++ " minutes")
    (Some (d_minutes age)) (Some (d_minutes (pc_pendingTimeout p))) created (podMetadata pod)).

Definition checkWaiting (pod : Pod) (cs : ContainerStatus) (waiting : Waiting) (now : time) : option Signal :=
  let reason := wt_Reason waiting in
  if (reason =? "CrashLoopBackOff") then
    Some (pod_signal pod SignalCrashLoopBackOff SeverityCritical
      (container_text pod cs ++ " is in CrashLoopBackOff") None None now (containerMetadata pod cs))
  else if (reason =? "ImagePullBackOff") || (reason =? "ErrImagePull") then
    Some (pod_signal pod SignalImagePullBackOff SeverityWarning
      (container_text pod cs ++ " cannot pull image: " ++ wt_Message waiting) None None now
      (containerMetadata pod cs))
  else None.

Definition oom_terminated (st : ContainerState) : option Terminated :=
  match cst_Terminated st with
  | Some t => if (tm_Reason t =? SignalOOMKilled) then Some t else None
  | None => None
  end.

(** The current termination first, then the last one. *)
Definition oom_termination (cs : ContainerStatus) : option Terminated :=
  match oom_terminated (cs_State cs) with
  | Some t => Some t
  | None => oom_terminated (cs_LastTerminationState cs)
  end.

Definition memory_limit (pod : Pod) (cs : ContainerStatus) : option Quantity :=
  match find_first (fun c => (ct_Name c =? cs_Name cs)) (pod_Containers pod) with
  | Some c => ct_Limits c !! ResourceMemory
  | None => None
  end.

Definition checkOOMKilled (pod : Pod) (cs : ContainerStatus) (now : time) : option Signal :=
  match oom_termination cs with
  | None => None
  | Some terminated =>
      let detectedAt := if t_is_zero (tm_FinishedAt terminated) then now else tm_FinishedAt terminated in
      let meta := <["lastTerminationReason" := SignalOOMKilled]> (containerMetadata pod cs) in
      let meta := match memory_limit pod cs with
                  | Some memLimit => <["memoryLimit" := q_String memLimit]> meta
                  | None => meta
                  end in
      Some (pod_signal pod SignalOOMKilled SeverityCritical (container_text pod cs ++ " was OOMKilled")
        None None detectedAt meta)
  end.

Definition checkProbeFailure (pod : Pod) (cs : ContainerStatus) (now : time) : option Signal :=
  if negb (cst_Running (cs_State cs)) || cs_Ready cs || (cs_RestartCount cs =? 0)%Z then None else
  match oom_terminated (cs_LastTerminationState cs) with
  | Some _ => None
  | None => Some (pod_signal pod SignalProbeFailure SeverityWarning
      (container_text pod cs ++ " is failing probes (restarts: " ++ fmt_d (cs_RestartCount cs) ++ ")")
      None None now (containerMetadata pod cs))
  end.

Definition checkHighRestarts (p : PodCollector) (pod : Pod) (cs : ContainerStatus) (now : time) : option Signal :=
  if (cs_RestartCount cs <=? pc_restartThreshold p)%Z then None else
  Some (pod_signal pod SignalContainerRestart SeverityWarning
    (container_text pod cs ++ " has restarted " ++ fmt_d (cs_RestartCount cs) ++ " times")
    (Some (f_of_Z (cs_RestartCount cs))) (Some (f_of_Z (pc_restartThreshold p))) now (containerMetadata pod cs)).

Definition checkContainer (p : PodCollector) (pod : Pod) (cs : ContainerStatus) (now : time) : list Signal :=
  (match cst_Waiting (cs_State cs) with
   | Some waiting => option_list (checkWaiting pod cs waiting now)
   | None => []
   end
   ++ option_list (checkOOMKilled pod cs now)
   ++ option_list (checkProbeFailure pod cs now)
   ++ option_list (checkHighRestarts p pod cs now))%list.

Definition checkPod (p : PodCollector) (pod : Pod) (now : time) : list Signal :=
  (option_list (checkEviction pod now)
   ++ option_list (checkPendingLong p pod now)
   ++ concat (map (fun cs => checkContainer p pod cs now) (pod_ContainerStatuses pod))
   ++ concat (map (fun cs => checkContainer p pod cs now) (pod_InitContainerStatuses pod)))%list.
End pod.

Definition excluded (p : PodCollector) (ns : string) : bool := default false (pc_excludeNS p !! ns).

Definition all_namespaces : ListOptions := mkListOptions None [].

Definition PodCollector_Collect `{Client W} (p : PodCollector) : io W (result error (list Signal)) :=
  let* pods := wrap_io "failed to list pods" (listPods all_namespaces) in
  let! now := clock in
  iok (concat (map (fun pod => if excluded p (pod_Namespace pod) then [] else checkPod p pod now) pods)).

(** ** node.go *)

Definition nodeCollectorName : string := "node-health-checker".
Definition NodeReady : string := "Ready".
Definition NodeMemoryPressure : string := "MemoryPressure".
Definition NodeDiskPressure : string := "DiskPressure".
Definition NodePIDPressure : string := "PIDPressure".
Definition NodeNetworkUnavailable : string := "NetworkUnavailable".

(** [message] is the text after ["Node %s "]. *)
Record nodeConditionMapping := mkMapping {
  nm_conditionType : string;
  nm_unhealthyStatus : string;
  nm_signalType : string;
  nm_severity : string;
  nm_message : string;
}.

Definition nodeConditionMappings : list nodeConditionMapping := [
  mkMapping NodeReady ConditionFalse SignalNodeNotReady SeverityCritical "is not ready";
  mkMapping NodeReady ConditionUnknown SignalNodeNotReady SeverityWarning "ready status is unknown";
  mkMapping NodeMemoryPressure ConditionTrue SignalNodeMemoryPressure SeverityWarning "has memory pressure";
  mkMapping NodeDiskPressure ConditionTrue SignalNodeDiskPressure SeverityWarning "has disk pressure";
  mkMapping NodePIDPressure ConditionTrue SignalNodePIDPressure SeverityWarning "has PID pressure";
  mkMapping NodeNetworkUnavailable ConditionTrue SignalNodeNetworkDown SeverityCritical "network is unavailable" ].

Definition node_role_prefix : string := "node-role.kubernetes.io/".

(** [nodeRole]: the first role label in the order [keys] in which Go's range
    happens to visit the labels. *)
Fixpoint first_role (keys : list string) : string :=
  match keys with
  | [] => "worker"
  | key :: rest => match cut_prefix key node_role_prefix with Some role => role | None => first_role rest end
  end.

Section node.
Context `{QuantityOps} (range_order : gmap string string -> list string).

Definition nodeRole (node : Node) : string := first_role (range_order (m_Labels (node_Meta node))).

Definition nodeMetadata (node : Node) : gmap string string :=
  let labels := m_Labels (node_Meta node) in
  let meta := {["role" := nodeRole node]} in
  let meta := match labels !! "topology.kubernetes.io/zone" with Some z => <["zone" := z]> meta | None => meta end in
  match labels !! "topology.kubernetes.io/region" with Some r => <["region" := r]> meta | None => meta end.

Definition checkCondition (node : Node) (m : nodeConditionMapping) (now : time) : option Signal :=
  match find_first (fun c => (nc_Type c =? nm_conditionType m)) (node_Conditions node) with
  | None => None
  | Some cond =>
      if negb (nc_Status cond =? nm_unhealthyStatus m) then None else
      let detectedAt := if t_is_zero (nc_LastTransitionTime cond) then now else nc_LastTransitionTime cond in
      Some (mkSignal (nm_signalType m) (nm_severity m) CategoryNode nodeCollectorName
        ("Node " ++ node_Name node ++ " " ++ nm_message m) (mkResourceRef "Node" (node_Name node) "" "")
        None None None detectedAt (nodeMetadata node))
  end.

Definition checkNodeConditions (node : Node) (now : time) : list Signal :=
  omap (fun m => checkCondition node m now) nodeConditionMappings.
End node.

Definition NodeCollector_Collect `{Client W} (range_order : gmap string string -> list string)
  : io W (result error (list Signal)) :=
  let* nodes := wrap_io "failed to list nodes" listNodes in
  let! now := clock in
  iok (concat (map (fun node => checkNodeConditions range_order node now) nodes)).

(** ** resource.go *)

Definition resourceCollectorName : string := "resource-saturation-checker".
Definition defaultWarnPct : f64 := f_lit 85 100.
Definition defaultCritPct : f64 := f_lit 95 100.

Record ResourceCollector := mkResourceCollector { rc_warnPct : f64; rc_critPct : f64 }.
Definition NewResourceCollector : ResourceCollector := mkResourceCollector defaultWarnPct defaultCritPct.

Section resource.
Context `{QuantityOps}.

Definition saturationSignal (r : ResourceCollector) (node : Node) (resourceName : string) (ratio : f64)
    (critType warnType : string) (now : time) : option Signal :=
  let pct := fmul ratio (f_of_Z 100) in
  let mk signalType severity threshold :=
    Some (mkSignal signalType severity CategoryResource resourceCollectorName
      ("Node " ++ node_Name node ++ " " ++ resourceName ++ " request saturation at " ++ fmt_f 1 pct ++ "%")
      (mkResourceRef "Node" (node_Name node) "" "") None (Some pct) (Some threshold) now
      {["resourceType" := resourceName; "node" := node_Name node]}) in
  if f_le (rc_critPct r) ratio then mk critType SeverityCritical (fmul (rc_critPct r) (f_of_Z 100))
  else if f_le (rc_warnPct r) ratio then mk warnType SeverityWarning (fmul (rc_warnPct r) (f_of_Z 100))
  else None.

Definition pod_terminated (pod : Pod) : bool :=
  (pod_Phase pod =? PodSucceeded) || (pod_Phase pod =? PodFailed).

(** [totalCPUMillis += ...] and [totalMemoryBytes += ...], on int64. *)
Definition add_request (tot : Z * Z) (c : Container) : Z * Z :=
  (match ct_Requests c !! ResourceCPU with Some q => wrap64 (tot.1 + q_MilliValue q)%Z | None => tot.1 end,
   match ct_Requests c !! ResourceMemory with Some q => wrap64 (tot.2 + q_Value q)%Z | None => tot.2 end).

Definition sum_requests (pods : list Pod) : Z * Z :=
  foldl (fun tot pod => if pod_terminated pod then tot
                        else foldl add_request (foldl add_request tot (pod_Containers pod)) (pod_InitContainers pod))
    (0, 0)%Z pods.

(** [Allocatable.Cpu()]: the zero quantity when absent. *)
Definition allocatable_cpu (node : Node) : Z :=
  match node_Allocatable node !! ResourceCPU with Some q => q_MilliValue q | None => 0%Z end.
Definition allocatable_mem (node : Node) : Z :=
  match node_Allocatable node !! ResourceMemory with Some q => q_Value q | None => 0%Z end.

Definition node_saturation (r : ResourceCollector) (node : Node) (pods : list Pod) (now : time) : list Signal :=
  let '(totalCPUMillis, totalMemoryBytes) := sum_requests pods in
  (if (0 <? allocatable_cpu node)%Z
   then option_list (saturationSignal r node "CPU" (fdiv (f_of_Z totalCPUMillis) (f_of_Z (allocatable_cpu node)))
          SignalCPUSaturationCritical SignalCPUSaturationHigh now)
   else [])
  ++ (if (0 <? allocatable_mem node)%Z
      then option_list (saturationSignal r node "memory"
             (fdiv (f_of_Z totalMemoryBytes) (f_of_Z (allocatable_mem node)))
             SignalMemorySaturationCrit SignalMemorySaturationHigh now)
      else []).
End resource.

Section resource_collect.
Context `{Client W}.

Definition checkNode (r : ResourceCollector) (node : Node) (now : time) : io W (result error (list Signal)) :=
  let* pods := wrap_io ("failed to list pods on node " ++ node_Name node) (listPodsOnNode (node_Name node)) in
  iok (node_saturation r node pods now).

(** A node that cannot be read is skipped. *)
Fixpoint checkNodes (r : ResourceCollector) (nodes : list Node) (now : time) : io W (list Signal) :=
  match nodes with
  | [] => mret []
  | node :: rest =>
      let! res := checkNode r node now in
      let! more := checkNodes r rest now in
      mret (match res with Err _ => more | Ok signals => signals ++ more end)%list
  end.

Definition ResourceCollector_Collect (r : ResourceCollector) : io W (result error (list Signal)) :=
  let* nodes := wrap_io "failed to list nodes" listNodes in
  let! now := clock in
  let! signals := checkNodes r nodes now in
  iok signals.
End resource_collect.

(** ** Properties *)

Section pod_props.
Context `{QuantityOps}.

Lemma elem_option_list {A} (o : option A) x : x ∈ option_list o <-> o = Some x.
Proof. destruct o; simpl; rewrite ?list_elem_of_singleton, ?elem_of_nil; naive_solver. Qed.

Lemma elem_concat_map {A B} (f : A -> list B) l x : x ∈ concat (map f l) <-> exists a, a ∈ l /\ x ∈ f a.
Proof.
  rewrite list_elem_of_In, in_concat. setoid_rewrite <- list_elem_of_In. split.
  - intros (k & (a & -> & Ha)%list_elem_of_fmap & Hx). eauto.
  - intros (a & Ha & Hx). exists (f a). split; [|done]. apply list_elem_of_fmap. eauto.
Qed.

(** Every pod check speaks of the pod it was given, and of nothing else. *)
Definition about_pod (pod : Pod) (s : Signal) : Prop :=
  sig_Resource s = podResource pod /\ sig_PersonaRef s = None /\ sig_Category s = CategoryHealth /\
  sig_Source s = podCollectorName.

Lemma checkContainer_about p pod cs now s : s ∈ checkContainer p pod cs now -> about_pod pod s.
Proof.
  unfold checkContainer. rewrite !elem_of_app, !elem_option_list.
  intros [Hw|[Ho|[Hp|Hr]]].
  - destruct (cst_Waiting (cs_State cs)) as [wt|]; [|by apply not_elem_of_nil in Hw].
    apply elem_option_list in Hw. unfold checkWaiting in Hw.
    destruct (_ =? "CrashLoopBackOff"); [by simplify_eq|]. destruct (_ || _); by simplify_eq.
  - unfold checkOOMKilled in Ho. destruct (oom_termination cs); by simplify_eq.
  - unfold checkProbeFailure in Hp. destruct (_ || _); [done|].
    destruct (oom_terminated (cs_LastTerminationState cs)); by simplify_eq.
  - unfold checkHighRestarts in Hr. destruct (_ <=? _)%Z; by simplify_eq.
Qed.

Lemma checkPod_about p pod now s : s ∈ checkPod p pod now -> about_pod pod s.
Proof.
  unfold checkPod. rewrite !elem_of_app, !elem_option_list, !elem_concat_map.
  intros [He|[Hl|[(cs & _ & Hc)|(cs & _ & Hc)]]]; try by eapply checkContainer_about.
  - unfold checkEviction in He. destruct (_ || _); by simplify_eq.
  - unfold checkPendingLong in Hl. destruct (negb _); [done|]. destruct (t_is_zero _); [done|].
    destruct (_ <? _)%Z; by simplify_eq.
Qed.

(** An out-of-memory kill is one finding, not two: a container whose last
    termination was an OOM kill always yields the OOMKilled signal and never a
    probe failure, in whatever state it is now. *)
Theorem oom_not_probe_failure (p : PodCollector) (pod : Pod) (cs : ContainerStatus) (now : time) (t : Terminated) :
  cst_Terminated (cs_LastTerminationState cs) = Some t -> tm_Reason t = "OOMKilled" ->
  (exists s, s ∈ checkContainer p pod cs now /\ sig_Type s = SignalOOMKilled /\ sig_Severity s = SeverityCritical) /\
  forall s, s ∈ checkContainer p pod cs now -> sig_Type s <> SignalProbeFailure.
Proof.
  intros Ht Hr. assert (Hlast : oom_terminated (cs_LastTerminationState cs) = Some t)
    by (unfold oom_terminated; by rewrite Ht, Hr).
  unfold checkContainer. split.
  - unfold checkOOMKilled, oom_termination.
    destruct (oom_terminated (cs_State cs)) as [t'|]; rewrite ?Hlast; simpl; eexists;
      (split; [rewrite !elem_of_app; right; left; by left|done]).
  - intros s. rewrite !elem_of_app, !elem_option_list. unfold checkProbeFailure. rewrite Hlast.
    intros [Hw|[Ho|[Hp|Hh]]].
    + destruct (cst_Waiting (cs_State cs)) as [wt|]; [|by apply not_elem_of_nil in Hw].
      apply elem_option_list in Hw. unfold checkWaiting in Hw.
      destruct (_ =? "CrashLoopBackOff"); [by simplify_eq|]. destruct (_ || _); by simplify_eq.
    + unfold checkOOMKilled in Ho. destruct (oom_termination cs); by simplify_eq.
    + by destruct (_ || _).
    + unfold checkHighRestarts in Hh. destruct (_ <=? _)%Z; by simplify_eq.
Qed.
End pod_props.

(** The pod collector never reports a pod of an excluded namespace, and every
    signal it reports names a pod the cluster listed. *)
Theorem PodCollector_scope `{Client W} (p : PodCollector) (w : W) (signals : list Signal) (s : Signal) :
  (PodCollector_Collect p w).1 = Ok signals -> s ∈ signals ->
  exists pods pod, (listPods all_namespaces w).1 = Ok pods /\ pod ∈ pods /\ about_pod pod s /\
    excluded p (rr_Namespace (sig_Resource s)) = false.
Proof.
  unfold PodCollector_Collect, mbind, io_bind, iobind, wrap_io, iok.
  destruct (listPods all_namespaces w) as [[pods|e] w']; simpl; [|done]. destruct (clock w'). simpl.
  intros [= <-] (pod & Hpod & Hs)%elem_concat_map. exists pods, pod.
  destruct (excluded p (pod_Namespace pod)) eqn:He; [by apply not_elem_of_nil in Hs|].
  pose proof (checkPod_about _ _ _ _ Hs) as Ha. split_and!; try done. destruct Ha as [-> _]. done.
Qed.

(** *** Nodes *)

Lemma first_role_spec keys :
  (first_role keys = "worker" /\ forall k, k ∈ keys -> cut_prefix k node_role_prefix = None) \/
  exists k, k ∈ keys /\ cut_prefix k node_role_prefix = Some (first_role keys).
Proof.
  induction keys as [|k keys IH]; [left; split; [done|by intros k ?%not_elem_of_nil]|]. simpl.
  destruct (cut_prefix k node_role_prefix) eqn:Hk; [right; exists k; split; [left|done]|].
  destruct IH as [[-> Hn]|(k' & Hk' & He)]; [left|right; exists k'; split; [by right|done]].
  split; [done|]. intros k' [->|?]%elem_of_cons; auto.
Qed.

(** A node's reported role does not depend on the order Go's range visits
    the labels in, as long as at most one label is a role label. *)
Theorem nodeRole_order_independent `{QuantityOps} (order order' : gmap string string -> list string) (node : Node) :
  order (m_Labels (node_Meta node)) ≡ₚ order' (m_Labels (node_Meta node)) ->
  (forall k k' r r', k ∈ order (m_Labels (node_Meta node)) -> k' ∈ order (m_Labels (node_Meta node)) ->
     k = node_role_prefix ++ r -> k' = node_role_prefix ++ r' -> r = r') ->
  nodeRole order node = nodeRole order' node.
Proof.
  unfold nodeRole. generalize (order (m_Labels (node_Meta node))), (order' (m_Labels (node_Meta node))).
  intros l l' Hp Huniq.
  destruct (first_role_spec l) as [[-> Hn]|(k & Hk & He)], (first_role_spec l') as [[-> Hn']|(k' & Hk' & He')].
  - done.
  - exfalso. rewrite <- Hp in Hk'. rewrite (Hn _ Hk') in He'. done.
  - exfalso. rewrite Hp in Hk. rewrite (Hn' _ Hk) in He. done.
  - rewrite <- Hp in Hk'. apply cut_prefix_spec in He, He'. eauto.
Qed.

(** *** Sums on int64 *)

Section sums.
Context `{QuantityOps}.

(** What one container requests, and what a list of pods requests, exactly. *)
Definition request_cpu (c : Container) : Z :=
  match ct_Requests c !! ResourceCPU with Some q => q_MilliValue q | None => 0%Z end.
Definition request_mem (c : Container) : Z :=
  match ct_Requests c !! ResourceMemory with Some q => q_Value q | None => 0%Z end.
Definition counted (pods : list Pod) : list Container :=
  concat (map (fun pod => if pod_terminated pod then [] else pod_Containers pod ++ pod_InitContainers pod)%list pods).
Definition total (f : Container -> Z) (cs : list Container) : Z := foldr (fun c acc => (f c + acc)%Z) 0%Z cs.

Lemma sum_requests_counted pods tot :
  foldl (fun tot pod => if pod_terminated pod then tot
           else foldl add_request (foldl add_request tot (pod_Containers pod)) (pod_InitContainers pod)) tot pods
  = foldl add_request tot (counted pods).
Proof.
  unfold counted. revert tot. induction pods as [|pod pods IH]; intros tot; simpl; [done|].
  rewrite foldl_app, IH. destruct (pod_terminated pod); [done|]. by rewrite foldl_app.
Qed.

Lemma foldl_add_request cs a b :
  foldl add_request (wrap64 a, wrap64 b) cs
  = (wrap64 (a + total request_cpu cs), wrap64 (b + total request_mem cs))%Z.
Proof.
  revert a b. induction cs as [|c cs IH]; intros a b; simpl; [by rewrite !Z.add_0_r|].
  assert (Hstep : add_request (wrap64 a, wrap64 b) c = (wrap64 (a + request_cpu c), wrap64 (b + request_mem c))%Z).
  { unfold add_request, request_cpu, request_mem. cbn [fst snd].
    destruct (ct_Requests c !! ResourceCPU), (ct_Requests c !! ResourceMemory);
      unfold wrap64; rewrite ?wrap_add_l, ?Z.add_0_r by lia; done. }
  rewrite Hstep, IH. f_equal; f_equal; lia.
Qed.

(** The saturation sums are the exact totals of every container and init
    container of the pods that have not terminated, wrapped once to int64: the
    order of the pods does not matter, and a total below 2^63 is exact. *)
Theorem sum_requests_exact (pods : list Pod) :
  sum_requests pods = (wrap64 (total request_cpu (counted pods)), wrap64 (total request_mem (counted pods))) /\
  (forall f, (- 2 ^ 63 <= total f (counted pods) < 2 ^ 63)%Z ->
     wrap64 (total f (counted pods)) = total f (counted pods)).
Proof.
  split; [|intros f Hf; by apply (wrap_small 64)].
  unfold sum_requests. rewrite sum_requests_counted.
  change (0%Z, 0%Z) with (wrap64 0, wrap64 0). by rewrite foldl_add_request, !Z.add_0_l.
Qed.
End sums.

(** ** Witnesses *)

#[local] Existing Instance int_quantity.

Definition ex_pod (name ns : string) (cs : list ContainerStatus) : Pod :=
  mkPod (mkMeta name ns ∅ 0%Z None 0) [mkOwner "ReplicaSet" "api-7f9d"] "node-1" [] [] "Running" "" "" [] cs [] "".
(** Running again, not ready, after an out-of-memory kill. *)
Definition ex_oom_status : ContainerStatus :=
  mkContainerStatus "app" "api:1" false 3 (mkState None true None) (mkState None false (Some (mkTerminated "OOMKilled" 5%Z 137%Z ""))).

Lemma oom_not_probe_failure_witness :
  (exists s, s ∈ checkContainer NewPodCollector (ex_pod "api-7f9d-x" "shop" [ex_oom_status]) ex_oom_status 9%Z /\
    sig_Type s = SignalOOMKilled /\ sig_Severity s = SeverityCritical).
Proof.
  apply (oom_not_probe_failure NewPodCollector (ex_pod "api-7f9d-x" "shop" [ex_oom_status]) ex_oom_status 9%Z
    (mkTerminated "OOMKilled" 5%Z 137%Z "")); reflexivity.
Defined.

Definition ex_pods : Mem :=
  mkMem _ 9%Z ∅ ∅ ∅ [] ∅ [ex_pod "api-7f9d-x" "shop" [ex_oom_status]; ex_pod "dns-1" "kube-system" [ex_oom_status]] [] [] None.

Definition ex_pod_signals : list Signal :=
  match (PodCollector_Collect NewPodCollector ex_pods).1 with Ok l => l | Err _ => [] end.

Lemma PodCollector_scope_witness :
  map sig_Type ex_pod_signals = [SignalOOMKilled] /\
  forall s, s ∈ ex_pod_signals -> exists pods pod, (listPods all_namespaces ex_pods).1 = Ok pods /\ pod ∈ pods /\
    about_pod pod s /\ excluded NewPodCollector (rr_Namespace (sig_Resource s)) = false.
Proof.
  split; [vm_compute; reflexivity|]. intros s Hs.
  apply (PodCollector_scope NewPodCollector ex_pods ex_pod_signals s); [vm_compute; reflexivity|exact Hs].
Defined.

Lemma nodeRole_order_independent_witness :
  let node := mkNode (mkMeta "n" "" {["node-role.kubernetes.io/infra" := ""; "zone" := "a"]} 0%Z None 0) [] ∅ ∅ "" "" [] "" in
  nodeRole (fun m => map fst (map_to_list m)) node = nodeRole (fun m => rev (map fst (map_to_list m))) node.
Proof.
  intros node. apply (nodeRole_order_independent (fun m => map fst (map_to_list m)) (fun m => rev (map fst (map_to_list m)))).
  - apply Permutation_rev.
  - intros k k' r r'. vm_compute (map fst _). rewrite !elem_of_cons, !elem_of_nil.
    intros [->|[->|[]]] [->|[->|[]]] Hr Hr'; vm_compute in Hr, Hr'; congruence.
Defined.
