(* ===== verification/ControlPlane.v ===== *)
(** * The control-plane collector (internal/detection/controlplane.go).

    It probes the API server's health endpoints and the leases of the scheduler
    and the controller manager. *)

From S2P Require Import Prelude GoString GoNum Json ApiTypes KubeTypes Client Signals.
From Stdlib Require Import String Ascii.
From stdpp Require Import strings.
Open Scope string_scope.

Definition controlPlaneCollectorName : string := "controlplane-health-checker".
Definition leaseStaleThreshold : duration := (60 * second)%Z.
Definition lease_namespace : string := "kube-system".

Record leaseCheck := mkLeaseCheck { lc_leaseName : string; lc_signalType : string; lc_component : string }.
Definition leaseChecks : list leaseCheck :=
  [mkLeaseCheck "kube-scheduler" SignalSchedulerUnhealthy "kube-scheduler";
   mkLeaseCheck "kube-controller-manager" SignalControllerMgrUnhealth "kube-controller-manager"].

(** The REST client and the lease reader.  [probe] is one GET of an absolute path. *)
Record Lease := mkLease { ls_RenewTime : option time }.
Class ControlPlaneAPI (W : Type) := {
  probe : string -> io W (result error unit);
  getLease : ObjectKey -> io W (result error Lease);
}.

Definition endpoints : list string := ["/readyz"; "/livez"].

Definition endpoint_signal (endpoint : string) (e : error) (now : time) : Signal :=
  mkSignal SignalAPIServerUnhealthy SeverityCritical CategoryControlPlane controlPlaneCollectorName
    ("API server " ++ endpoint ++ " check failed: " ++ err_string e) (mkResourceRef "ComponentStatus" "kube-apiserver" "" "")
    None None None now {["endpoint" := endpoint]}.

(** [fmt.Sprintf("%.0fs", seconds)]. *)
Definition whole_seconds (d : duration) : string := fmt_f 0 (d_seconds d) ++ "s".

Definition lease_signal (check : leaseCheck) (renewed : time) (stale : duration) : Signal :=
  mkSignal (lc_signalType check) SeverityWarning CategoryControlPlane controlPlaneCollectorName
    (lc_component check ++ " lease is stale (" ++ whole_seconds stale ++ " since last renewal)")
    (mkResourceRef "Lease" (lc_leaseName check) lease_namespace "") None (Some (d_seconds stale)) (Some (d_seconds leaseStaleThreshold)) renewed
    (<["lastRenewAge" := whole_seconds stale]> {["component" := lc_component check]}).

(** What one lease says, as it was read. *)
Definition check_lease (check : leaseCheck) (now : time) (read : result error Lease) : option Signal :=
  match read with
  | Err _ => None
  | Ok lease =>
      match ls_RenewTime lease with
      | None => None
      | Some renewed =>
          let staleDuration := t_sub now renewed in
          if (leaseStaleThreshold <? staleDuration)%Z then Some (lease_signal check renewed staleDuration) else None
      end
  end.

Section collect.
Context `{Client W} `{ControlPlaneAPI W}.

Fixpoint probe_all (paths : list string) (now : time) : io W (list Signal) :=
  match paths with
  | [] => mret []
  | endpoint :: rest =>
      let! r := probe endpoint in
      let! more := probe_all rest now in
      mret (match r with Err e => endpoint_signal endpoint e now :: more | Ok _ => more end)
  end.
(** [hasREST] is [cp.restClient != nil]. *)
Definition checkHealthEndpoints (hasREST : bool) (now : time) : io W (list Signal) :=
  if hasREST then probe_all endpoints now else mret [].

Fixpoint lease_all (checks : list leaseCheck) (now : time) : io W (list Signal) :=
  match checks with
  | [] => mret []
  | check :: rest =>
      let! read := getLease (mkKey (lc_leaseName check) lease_namespace) in
      let! more := lease_all rest now in
      mret (option_list (check_lease check now read) ++ more)%list
  end.
Definition checkLeases (now : time) : io W (list Signal) := lease_all leaseChecks now.

Definition ControlPlaneCollector_Collect (hasREST : bool) : io W (result error (list Signal)) :=
  let! now := clock in
  let! endpoints := checkHealthEndpoints hasREST now in
  let! leases := checkLeases now in
  iok (endpoints ++ leases)%list.
End collect.

(** ** Properties *)

Class ControlPlaneReads `{ControlPlaneAPI W} : Prop := {
  probe_reads path w : (probe path w).2 = w;
  getLease_reads k w : (getLease k w).2 = w;
}.

(** The saturation of [Sub] does not blur the threshold. *)
Lemma stale_exact now renewed : (leaseStaleThreshold <? t_sub now renewed)%Z = (leaseStaleThreshold <? now - renewed)%Z.
Proof. unfold t_sub, leaseStaleThreshold, second, max_int64, min_int64. apply bool_eq_iff. rewrite !Z.ltb_lt. lia. Qed.

Lemma check_lease_Some check now read s : check_lease check now read = Some s <->
  exists lease renewed, read = Ok lease /\ ls_RenewTime lease = Some renewed /\ (leaseStaleThreshold < now - renewed)%Z /\
    s = lease_signal check renewed (t_sub now renewed).
Proof.
  unfold check_lease. destruct read as [[[renewed|]]|e]; cbn [ls_RenewTime]; [rewrite stale_exact|split; [done|naive_solver]..].
  destruct (Z.ltb_spec leaseStaleThreshold (now - renewed)); split; try done.
  - intros [= <-]. eauto 10.
  - intros (lease & r & [= <-] & [= <-] & _ & ->). done.
  - intros (lease & r & [= <-] & [= <-] & Hlt & ->). lia.
Qed.

Section props.
Context `{ClientReads W} `{!ControlPlaneAPI W} `{!ControlPlaneReads (W := W)}.

Lemma probe_all_run paths now w :
  probe_all paths now w = (omap (fun path => match (probe path w).1 with Err e => Some (endpoint_signal path e now) | Ok _ => None end) paths, w).
Proof.
  induction paths as [|path rest IH]; [done|]. cbn [probe_all]. rewrite (bind_read _ _ w _ (read_pair _ _ (probe_reads path w))), (bind_read _ _ w _ IH).
  rewrite omap_cons. by destruct (probe path w).1.
Qed.

Lemma lease_all_run checks now w :
  lease_all checks now w = (omap (fun check => check_lease check now (getLease (mkKey (lc_leaseName check) lease_namespace) w).1) checks, w).
Proof.
  induction checks as [|check rest IH]; [done|]. cbn [lease_all]. rewrite (bind_read _ _ w _ (read_pair _ _ (getLease_reads _ w))), (bind_read _ _ w _ IH).
  rewrite omap_cons. by destruct (check_lease _ _ _).
Qed.

(** The collector never fails and only reads.  It reports exactly the health
    endpoints that answered with an error and the leases that could be read and
    were renewed more than sixty seconds ago; a lease that is missing, or was
    never renewed, is no signal.  A failing API server is grouped under the
    cluster, a stale lease as an unattributed workload of kube-system, dated by
    its last renewal. *)
Theorem control_plane_signals (hasREST : bool) (w : W) :
  let now := (clock w).1 in
  exists signals, ControlPlaneCollector_Collect hasREST w = (Ok signals, w) /\
    (forall s, s ∈ signals <->
       (hasREST = true /\ exists path e, path ∈ endpoints /\ (probe path w).1 = Err e /\ s = endpoint_signal path e now) \/
       exists check lease renewed, check ∈ leaseChecks /\ (getLease (mkKey (lc_leaseName check) lease_namespace) w).1 = Ok lease /\
         ls_RenewTime lease = Some renewed /\ (leaseStaleThreshold < now - renewed)%Z /\ s = lease_signal check renewed (t_sub now renewed)) /\
    forall s, s ∈ signals -> sg_Scope (groupFor s) = ScopeCluster \/
      sg_Scope (groupFor s) = ScopeUnattributed /\ sg_Namespace (groupFor s) = "kube-system".
Proof.
  cbv zeta. unfold ControlPlaneCollector_Collect. rewrite (bind_read _ _ w _ (read_pair _ _ (clock_reads w))).
  set (now := (clock w).1).
  assert (Hh : checkHealthEndpoints hasREST now w =
    (if hasREST then omap (fun path => match (probe path w).1 with Err e => Some (endpoint_signal path e now) | Ok _ => None end) endpoints else [], w)).
  { unfold checkHealthEndpoints. destruct hasREST; [apply probe_all_run|done]. }
  rewrite (bind_read _ _ w _ Hh), (bind_read _ _ w _ (lease_all_run leaseChecks now w)). eexists. split; [done|].
  match goal with |- (?A /\ _) => assert (Hin : A) end; [|split; [exact Hin|]].
  - intros s. rewrite elem_of_app, (list_elem_of_omap _ leaseChecks). setoid_rewrite check_lease_Some.
    assert (He : s ∈ (if hasREST then omap (fun path => match (probe path w).1 with Err e => Some (endpoint_signal path e now) | Ok _ => None end) endpoints else []) <->
      hasREST = true /\ exists path e, path ∈ endpoints /\ (probe path w).1 = Err e /\ s = endpoint_signal path e now).
    { destruct hasREST; [|rewrite elem_of_nil; naive_solver]. rewrite list_elem_of_omap. split.
      - intros (path & Hp & Hs). destruct (probe path w).1 as [|e] eqn:Hr; [done|]. injection Hs as <-. naive_solver.
      - intros (_ & path & e & Hp & Hr & ->). exists path. by rewrite Hr. }
    rewrite He. naive_solver.
  - intros s Hs. apply Hin in Hs as [(_ & path & e & _ & _ & ->)|(check & lease & r & _ & _ & _ & _ & ->)]; [by left|by right].
Qed.
End props.

(** ** A control plane in memory *)

Record ControlMem `{QuantityOps} := mkControlMem {
  km_mem : Mem;
  km_down : gmap string string;
  km_leases : gmap ObjectKey Lease;
}.
Section controlmem.
Context `{QuantityOps}.
#[export] Instance controlmem_client : Client ControlMem := lift_client km_mem (fun m w => mkControlMem _ m (km_down w) (km_leases w)).
#[export] Instance controlmem_reads : ClientReads (W := ControlMem).
Proof. apply lift_client_reads. by intros []. Qed.
#[export] Instance controlmem_api : ControlPlaneAPI ControlMem := {|
  probe path w := (match km_down w !! path with Some msg => Err (ErrText msg) | None => Ok tt end, w);
  getLease k w := (match km_leases w !! k with Some l => Ok l | None => not_found end, w);
|}.
#[export] Instance controlmem_api_reads : ControlPlaneReads (W := ControlMem).
Proof. by constructor. Qed.
End controlmem.

#[local] Existing Instance int_quantity.

(** The scheduler's lease is 61 seconds old, the controller manager's exactly 60. *)
Definition ex_control_plane : ControlMem :=
  mkControlMem _ (empty_mem (1000 * second)%Z) {["/livez" := "connection refused"]}
    {[mkKey "kube-scheduler" lease_namespace := mkLease (Some (939 * second)%Z);
      mkKey "kube-controller-manager" lease_namespace := mkLease (Some (940 * second)%Z)]}.

Lemma control_plane_signals_witness :
  exists signals, ControlPlaneCollector_Collect true ex_control_plane = (Ok signals, ex_control_plane) /\
    map sig_Message signals = ["API server /livez check failed: connection refused"; "kube-scheduler lease is stale (61s since last renewal)"].
Proof.
  destruct (control_plane_signals true ex_control_plane) as (signals & Hrun & _). exists signals. split; [exact Hrun|].
  assert (Ok signals = (ControlPlaneCollector_Collect true ex_control_plane).1) as Hs by (rewrite Hrun; reflexivity).
  assert (match (ControlPlaneCollector_Collect true ex_control_plane).1 with Ok l => map sig_Message l | Err _ => [] end =
    ["API server /livez check failed: connection refused"; "kube-scheduler lease is stale (61s since last renewal)"]) as Hm by (vm_compute; reflexivity).
  rewrite <- Hs in Hm. exact Hm.
Defined.
