(* ===== verification/Diagnosis.v ===== *)
(** * Rule-based diagnosis (internal/diagnosis/types.go, confidence.go, rules.go).

    The confidence score on binary64, the signal helpers, the eight rules and
    the provider that runs them. *)

From S2P Require Import Prelude GoString GoNum Json ApiTypes KubeTypes Client Signals Correlator.
From Stdlib Require Import String Ascii.
From stdpp Require Import strings.
Open Scope string_scope.

Record ContributingSignal := mkContributing { cg_Signal : Signal; cg_Detail : string }.

Record Diagnosis := mkDiagnosis {
  d_Summary : string;
  d_Confidence : f64;
  d_Provider : string;
  d_Category : string;
  d_Severity : string;
  d_PersonaRef : option PersonaReference;
  d_AffectedResources : list ResourceReference;
  d_Contributing : list ContributingSignal;
  d_SuggestedAction : string;
  d_DiagnosedAt : time;
}.

(** ** confidence.go *)

Record ConfidenceFactors := mkFactors {
  cf_BaseConfidence : f64;
  cf_SignalCount : Z;
  cf_SignalClarity : f64;
  cf_TimeWindowSeconds : f64;
}.

Definition signalCountBoost (count : Z) : f64 :=
  if (3 <=? count)%Z then f_lit 11 10 else if (count =? 2)%Z then f_lit 105 100 else f_one.

Definition timeProximityBoost (windowSeconds : f64) : f64 :=
  if f_lt windowSeconds (f_of_Z 60) then f_one
  else if f_lt windowSeconds (f_of_Z 300) then f_lit 95 100
  else f_lit 85 100.

Definition CalculateConfidence (factors : ConfidenceFactors) : f64 :=
  let confidence :=
    fmul (fmul (fmul (cf_BaseConfidence factors) (signalCountBoost (cf_SignalCount factors)))
               (cf_SignalClarity factors))
         (timeProximityBoost (cf_TimeWindowSeconds factors)) in
  f_min f_one (f_max f_zero confidence).

Definition signalClarity : list (string * f64) := [
  (SignalOOMKilled, f_one); (SignalCrashLoopBackOff, f_lit 9 10); (SignalNodeNotReady, f_lit 95 100);
  (SignalImagePullBackOff, f_lit 9 10); (SignalPodEvicted, f_lit 95 100);
  (SignalCPUSaturationCritical, f_lit 85 100); (SignalMemorySaturationCrit, f_lit 85 100);
  (SignalPodPendingLong, f_lit 6 10); (SignalProbeFailure, f_lit 7 10); (SignalContainerRestart, f_lit 6 10);
  (SignalNodeMemoryPressure, f_lit 9 10); (SignalNodeDiskPressure, f_lit 9 10); (SignalNodePIDPressure, f_lit 9 10);
  (SignalNodeNetworkDown, f_lit 95 100); (SignalAPIServerUnhealthy, f_lit 95 100);
  (SignalETCDUnhealthy, f_lit 95 100); (SignalSchedulerUnhealthy, f_lit 95 100);
  (SignalControllerMgrUnhealth, f_lit 95 100); (SignalComponentUnhealthy, f_lit 9 10);
  (SignalCPUSaturationHigh, f_lit 75 100); (SignalMemorySaturationHigh, f_lit 75 100);
  (SignalCPUUsageHigh, f_lit 7 10); (SignalMemoryUsageHigh, f_lit 7 10) ].

Definition SignalClarity (signalType : string) : f64 :=
  match find_first (fun kv => (kv.1 =? signalType)) signalClarity with
  | Some kv => kv.2
  | None => f_lit 5 10
  end.

Definition AverageClarity (signals : list Signal) : f64 :=
  match signals with
  | [] => f_lit 5 10
  | _ => fdiv (foldl (fun total s => fadd total (SignalClarity (sig_Type s))) f_zero signals)
              (f_of_Z (Z.of_nat (length signals)))
  end.

Definition TimeWindowSeconds (signals : list Signal) : f64 :=
  match signals with
  | s0 :: ((_ :: _) as rest) =>
      let '(earliest, latest) := foldl (fun '(earliest, latest) s =>
          (if t_before (sig_DetectedAt s) earliest then sig_DetectedAt s else earliest,
           if t_after (sig_DetectedAt s) latest then sig_DetectedAt s else latest))
        (sig_DetectedAt s0, sig_DetectedAt s0) rest in
      d_seconds (t_sub latest earliest)
  | _ => f_zero
  end.

(** ** Signal helpers (rules.go) *)

Definition providerNameRuleBased : string := "rule-based".
Definition actionResourceAdjustment : string := "resource-adjustment".
Definition actionDeploymentFix : string := "deployment-fix".
Definition actionInvestigate : string := "investigate".

Definition hasSignalType (signals : list Signal) (t : string) : bool :=
  existsb (fun s => (sig_Type s =? t)) signals.

Definition signalsOfType (signals : list Signal) (t : string) : list Signal :=
  List.filter (fun s => (sig_Type s =? t)) signals.

Definition same_resource (a b : ResourceReference) : bool :=
  (rr_Kind a =? rr_Kind b) && (rr_Name a =? rr_Name b) && (rr_Namespace a =? rr_Namespace b).

Definition signalsForResource (signals : list Signal) (ref : ResourceReference) : list Signal :=
  List.filter (fun s => same_resource (sig_Resource s) ref) signals.

(** The map lookup of an unknown severity yields 0. *)
Definition severityRank (s : string) : Z :=
  (if (s =? SeverityWarning)%string then 1 else if (s =? SeverityCritical)%string then 2 else 0)%Z.
Definition severityGreater (a b : string) : bool := (severityRank b <? severityRank a)%Z.

Definition highestSeverity (signals : list Signal) : string :=
  foldl (fun highest s => if severityGreater (sig_Severity s) highest then sig_Severity s else highest)
    SeverityInfo signals.

Definition resource_key (r : ResourceReference) : string :=
  rr_Kind r ++ "/" ++ rr_Namespace r ++ "/" ++ rr_Name r.

(** The first resource of each key, in order. *)
Fixpoint collect_resources (seen : gset string) (signals : list Signal) : list ResourceReference :=
  match signals with
  | [] => []
  | s :: rest =>
      let key := resource_key (sig_Resource s) in
      if decide (key ∈ seen) then collect_resources seen rest
      else sig_Resource s :: collect_resources ({[key]} ∪ seen) rest
  end.
Definition collectAffectedResources (signals : list Signal) : list ResourceReference :=
  collect_resources ∅ signals.

Definition firstPersonaRef (signals : list Signal) : option PersonaReference :=
  head (omap sig_PersonaRef signals).

Definition buildContributing (signals : list Signal) (detail : string) : list ContributingSignal :=
  map (fun s => mkContributing s detail) signals.

Definition concatSignals (slices : list (list Signal)) : list Signal := concat slices.

Definition buildConfidence (base : f64) (signals : list Signal) : f64 :=
  CalculateConfidence (mkFactors base (Z.of_nat (length signals)) (AverageClarity signals) (TimeWindowSeconds signals)).

(** ** The rules *)

(** A diagnosis before the provider stamps it. *)
Definition mk_diag (summary : string) (base : f64) (category severity : string) (signals : list Signal)
    (contributing : list ContributingSignal) (action : string) : Diagnosis :=
  mkDiagnosis summary (buildConfidence base signals) "" category severity (firstPersonaRef signals)
    (collectAffectedResources signals) contributing action 0%Z.

Definition nonempty {A} (l : list A) : bool := match l with [] => false | _ => true end.

(** *** Rule 1: OOM *)

Definition matchOOM (signals : list Signal) : bool := hasSignalType signals SignalOOMKilled.

Definition diagnoseOOM (signals : list Signal) : option Diagnosis :=
  let oomSignals := signalsOfType signals SignalOOMKilled in
  match oomSignals with
  | [] => None
  | primary :: _ =>
      let related := signalsForResource signals (sig_Resource primary) in
      let memUsage := signalsOfType related SignalMemoryUsageHigh in
      let allRelated := concatSignals [oomSignals; memUsage] in
      let oom := buildContributing oomSignals "Container was OOM-killed" in
      Some match memUsage with
      | m :: _ =>
          let val := match sig_Value m with
                     | Some v => " Memory usage was at " ++ fmt_f 0 v ++ "% of limit."
                     | None => ""
                     end in
          mk_diag ("Container memory limit insufficient for workload." ++ val) (f_lit 85 100) CategoryResource
            SeverityCritical allRelated (oom ++ buildContributing memUsage "Memory usage was near limit")%list
            actionResourceAdjustment
      | [] =>
          mk_diag "Container OOM-killed. Memory limit may be insufficient." (f_lit 70 100) CategoryResource
            SeverityCritical allRelated oom actionResourceAdjustment
      end
  end.

(** *** Rule 2: crash loops *)

Definition matchCrashLoop (signals : list Signal) : bool := hasSignalType signals SignalCrashLoopBackOff.

Definition diagnoseCrashLoop (signals : list Signal) : option Diagnosis :=
  let crashSignals := signalsOfType signals SignalCrashLoopBackOff in
  match crashSignals with
  | [] => None
  | primary :: _ =>
      let related := signalsForResource signals (sig_Resource primary) in
      let oomRelated := signalsOfType related SignalOOMKilled in
      let imgRelated := signalsOfType related SignalImagePullBackOff in
      let probeRelated := signalsOfType related SignalProbeFailure in
      let allSignals := concatSignals [crashSignals; oomRelated; imgRelated; probeRelated] in
      let crash := buildContributing crashSignals "Container is crash-looping" in
      let mk summary base contributing action :=
        Some (mk_diag summary base CategoryHealth SeverityCritical allSignals contributing action) in
      if nonempty oomRelated then
        mk "CrashLoopBackOff caused by OOM kills. Increase memory limits." (f_lit 90 100)
          (crash ++ buildContributing oomRelated "Container was OOM-killed during crash loop")%list
          actionResourceAdjustment
      else if nonempty imgRelated then
        mk "CrashLoopBackOff caused by image pull failures." (f_lit 90 100)
          (crash ++ buildContributing imgRelated "Image pull is failing")%list actionDeploymentFix
      else if nonempty probeRelated then
        mk "CrashLoopBackOff likely caused by failing health probes." (f_lit 90 100)
          (crash ++ buildContributing probeRelated "Health probes are failing")%list actionDeploymentFix
      else
        mk "CrashLoopBackOff — check container logs for application errors." (f_lit 50 100)
          (buildContributing crashSignals "Container is crash-looping with no correlated signals")
          actionInvestigate
  end.

(** *** Rule 3: node pressure *)

Definition nodePressureTypes : list string :=
  [SignalNodeMemoryPressure; SignalNodeDiskPressure; SignalNodePIDPressure].

(** [match...] over a list of types, and [append(..., signalsOfType(t)...)]. *)
Definition has_any (signals : list Signal) (types : list string) : bool := existsb (hasSignalType signals) types.
Definition of_types (signals : list Signal) (types : list string) : list Signal :=
  concat (map (signalsOfType signals) types).

Definition matchNodePressure (signals : list Signal) : bool := has_any signals nodePressureTypes.

Fixpoint distinct (seen : list string) (l : list string) : list string :=
  match l with
  | [] => []
  | x :: rest => if existsb (String.eqb x) seen then distinct seen rest else x :: distinct (x :: seen) rest
  end.

(** The node an eviction is filed under: the metadata key ["node"]. *)
Definition eviction_node (e : Signal) : string :=
  let nodeName := mget (sig_Metadata e) "node" in
  if (nodeName =? "") then rr_Name (sig_Resource e) else nodeName.

Definition node_names (pressureSignals : list Signal) : list string :=
  map (fun s => rr_Name (sig_Resource s)) (List.filter (fun s => (rr_Kind (sig_Resource s) =? "Node")) pressureSignals).

Definition relatedEvictions (signals pressureSignals : list Signal) : list Signal :=
  List.filter (fun e => existsb (String.eqb (eviction_node e)) (node_names pressureSignals))
    (signalsOfType signals SignalPodEvicted).

Definition diagnoseNodePressure (signals : list Signal) : option Diagnosis :=
  let pressureSignals := of_types signals nodePressureTypes in
  if negb (nonempty pressureSignals) then None else
  let related := relatedEvictions signals pressureSignals in
  let pressureTypes := strings_join ", " (distinct [] (map sig_Type pressureSignals)) in
  let allSignals := concatSignals [pressureSignals; related] in
  let pressure := buildContributing pressureSignals "Node is under resource pressure" in
  Some (if nonempty related then
    mk_diag ("Node under pressure (" ++ pressureTypes ++ "), causing pod evictions.") (f_lit 90 100) CategoryNode
      (highestSeverity allSignals) allSignals
      (pressure ++ buildContributing related "Pods evicted due to node pressure")%list actionResourceAdjustment
  else
    mk_diag ("Node under pressure: " ++ pressureTypes ++ ".") (f_lit 80 100) CategoryNode
      (highestSeverity allSignals) allSignals pressure actionResourceAdjustment).

(** *** Rule 4: node down *)

Definition matchNodeDown (signals : list Signal) : bool := hasSignalType signals SignalNodeNotReady.

Definition diagnoseNodeDown (signals : list Signal) : option Diagnosis :=
  let notReadySignals := signalsOfType signals SignalNodeNotReady in
  match notReadySignals with
  | [] => None
  | primary :: _ =>
      let related := signalsForResource signals (sig_Resource primary) in
      let networkDown := signalsOfType related SignalNodeNetworkDown in
      let allSignals := concatSignals [notReadySignals; networkDown] in
      let name := rr_Name (sig_Resource primary) in
      let notReady := buildContributing notReadySignals "Node is not ready" in
      Some (if nonempty networkDown then
        mk_diag ("Node " ++ name ++ " unreachable — network connectivity lost.") (f_lit 85 100) CategoryNode
          SeverityCritical allSignals (notReady ++ buildContributing networkDown "Node network is unavailable")%list
          actionInvestigate
      else
        mk_diag ("Node " ++ name ++ " not ready — may require restart or investigation.") (f_lit 85 100) CategoryNode
          SeverityCritical allSignals notReady "node-restart")
  end.

(** *** Rule 5: resource saturation *)

Definition saturationCriticalTypes : list string := [SignalCPUSaturationCritical; SignalMemorySaturationCrit].

Definition matchResourceSaturation (signals : list Signal) : bool := has_any signals saturationCriticalTypes.

Definition node_detail (s : Signal) : string :=
  match sig_Value s with
  | Some v => rr_Name (sig_Resource s) ++ " at " ++ fmt_f 0 v ++ "%"
  | None => rr_Name (sig_Resource s)
  end.

Definition diagnoseResourceSaturation (signals : list Signal) : option Diagnosis :=
  let saturationSignals := of_types signals saturationCriticalTypes in
  if negb (nonempty saturationSignals) then None else
  let pendingPods := signalsOfType signals SignalPodPendingLong in
  let details := strings_join ", " (map node_detail saturationSignals) in
  let allSignals := concatSignals [saturationSignals; pendingPods] in
  let saturation := buildContributing saturationSignals "Node resource saturation is critical" in
  Some (if nonempty pendingPods then
    mk_diag ("Resource saturation (" ++ details ++ "). New pods failing to schedule.") (f_lit 90 100) CategoryScaling
      SeverityCritical allSignals
      (saturation ++ buildContributing pendingPods "Pods are pending due to resource constraints")%list "scale-up"
  else
    mk_diag ("Resource saturation (" ++ details ++ "). New pods may fail to schedule.") (f_lit 80 100) CategoryScaling
      SeverityCritical allSignals saturation "scale-up").

(** *** Rule 6: control plane *)

Definition controlPlaneTypes : list string :=
  [SignalAPIServerUnhealthy; SignalETCDUnhealthy; SignalSchedulerUnhealthy; SignalControllerMgrUnhealth;
   SignalComponentUnhealthy].

Definition matchControlPlane (signals : list Signal) : bool := has_any signals controlPlaneTypes.

Definition diagnoseControlPlane (signals : list Signal) : option Diagnosis :=
  let cpSignals := of_types signals controlPlaneTypes in
  if negb (nonempty cpSignals) then None else
  let components := strings_join ", " (distinct [] (map sig_Type cpSignals)) in
  Some (mk_diag ("Control plane degraded: " ++ components ++ ".") (f_lit 95 100) CategoryControlPlane
    SeverityCritical cpSignals (buildContributing cpSignals "Control plane component is unhealthy") actionInvestigate).

(** *** Rule 7: image pulls *)

Definition matchImagePull (signals : list Signal) : bool := hasSignalType signals SignalImagePullBackOff.

Definition pod_key (s : Signal) : string := rr_Namespace (sig_Resource s) ++ "/" ++ rr_Name (sig_Resource s).

(** The image signals the crash-loop rule does not already cover (same pod). *)
Definition uncoveredImageSignals (signals : list Signal) : list Signal :=
  let crashPods := map pod_key (signalsOfType signals SignalCrashLoopBackOff) in
  List.filter (fun img => negb (existsb (String.eqb (pod_key img)) crashPods))
    (signalsOfType signals SignalImagePullBackOff).

Definition diagnoseImagePull (signals : list Signal) : option Diagnosis :=
  let imgSignals := uncoveredImageSignals signals in
  if negb (nonempty imgSignals) then None else
  Some (mk_diag "Image pull failing for container. Check image name, tag, and registry credentials." (f_lit 80 100)
    CategoryDeployment SeverityCritical imgSignals (buildContributing imgSignals "Image pull is failing")
    actionDeploymentFix).

(** *** Rule 8: pods pending for long *)

Definition matchPendingPod (signals : list Signal) : bool := hasSignalType signals SignalPodPendingLong.

Definition diagnosePendingPod (signals : list Signal) : option Diagnosis :=
  let pendingSignals := signalsOfType signals SignalPodPendingLong in
  if negb (nonempty pendingSignals) then None else
  if has_any signals saturationCriticalTypes then None else
  Some (mk_diag "Pod pending for extended period. May be waiting for resources, node affinity, or tolerations."
    (f_lit 50 100) CategoryScaling SeverityWarning pendingSignals
    (buildContributing pendingSignals "Pod has been pending beyond threshold") actionResourceAdjustment).

(** ** The provider *)

Record Rule := mkRule {
  rule_Name : string;
  rule_Match : list Signal -> bool;
  rule_Diagnose : list Signal -> option Diagnosis;
}.

Definition builtin_rules : list Rule := [
  mkRule "oom-root-cause" matchOOM diagnoseOOM;
  mkRule "crashloop-root-cause" matchCrashLoop diagnoseCrashLoop;
  mkRule "node-pressure" matchNodePressure diagnoseNodePressure;
  mkRule "node-down" matchNodeDown diagnoseNodeDown;
  mkRule "resource-saturation" matchResourceSaturation diagnoseResourceSaturation;
  mkRule "control-plane" matchControlPlane diagnoseControlPlane;
  mkRule "image-pull-failure" matchImagePull diagnoseImagePull;
  mkRule "long-pending-pod" matchPendingPod diagnosePendingPod ].

Definition deduplicationKey (d : Diagnosis) : string :=
  let resources := map resource_key (d_AffectedResources d) in
  d_Category d ++ ":" ++ d_SuggestedAction d ++ ":" ++ strings_join "," (sort_strings resources).

Definition stamp (provider : string) (now : time) (d : Diagnosis) : Diagnosis :=
  mkDiagnosis (d_Summary d) (d_Confidence d) provider (d_Category d) (d_Severity d) (d_PersonaRef d)
    (d_AffectedResources d) (d_Contributing d) (d_SuggestedAction d) now.

(** One rule on the signals: the match, then the diagnosis. *)
Definition apply_rule (signals : list Signal) (rule : Rule) : option Diagnosis :=
  if rule_Match rule signals then rule_Diagnose rule signals else None.

Definition confidence_less (a b : Diagnosis) : bool := f_lt (d_Confidence b) (d_Confidence a).

Section provider.
Context `{Client W} `{SortSlice}.

Fixpoint run_rules (signals : list Signal) (seen : gset string) (rules : list Rule) : io W (list Diagnosis) :=
  match rules with
  | [] => mret []
  | rule :: rest =>
      match apply_rule signals rule with
      | None => run_rules signals seen rest
      | Some d =>
          let key := deduplicationKey d in
          if decide (key ∈ seen) then run_rules signals seen rest
          else
            let! now := clock in
            let! more := run_rules signals ({[key]} ∪ seen) rest in
            mret (stamp providerNameRuleBased now d :: more)
      end
  end.

(** [(p *RuleBasedProvider) Diagnose]. *)
Definition RuleBased_Diagnose (signals : list Signal) : io W (result error (list Diagnosis)) :=
  match signals with
  | [] => iok []
  | _ =>
      let! diagnoses := run_rules signals ∅ builtin_rules in
      iok (sort_slice confidence_less diagnoses)
  end.
End provider.

(** ** Properties *)

(** *** Confidence *)

Definition is_finite (x : f64) : bool := match x with S754_finite false _ _ => true | _ => false end.
Definition good_base (base : f64) : bool :=
  forallb (fun b => is_finite (fmul base b)) [f_lit 11 10; f_lit 105 100; f_one].

Lemma is_finite_spec x : is_finite x = true -> exists m e, x = S754_finite false m e.
Proof. destruct x as [| | |[] m e]; try done. eauto. Qed.

Lemma clarity_finite t : is_finite (SignalClarity t) = true.
Proof.
  unfold SignalClarity. destruct (find_first _ _) as [kv|] eqn:H; [|done].
  apply find_first_Some in H as [H _]. assert (Hall : forallb (fun kv => is_finite kv.2) signalClarity = true) by done.
  rewrite forallb_forall in Hall. by apply Hall, list_elem_of_In.
Qed.

Lemma AverageClarity_not_nan signals :
  (Z.of_nat (length signals) < 2 ^ 53)%Z -> f_is_nan (AverageClarity signals) = false.
Proof.
  intros Hl. destruct signals as [|s0 l]; [done|]. unfold AverageClarity.
  destruct (f_of_Z_finite (Z.of_nat (length (s0 :: l)))) as (m & e & ->); [simpl length in *; lia|].
  apply fdiv_not_nan. assert (Hz : f_is_nan f_zero = false) by done. revert Hz. generalize f_zero, (s0 :: l).
  intros acc k. revert acc. induction k as [|s k IH]; intros acc Hacc; [done|]. simpl. apply IH.
  destruct (is_finite_spec _ (clarity_finite (sig_Type s))) as (m' & e' & ->). by apply fadd_not_nan.
Qed.

Lemma buildConfidence_unit base signals :
  good_base base = true -> (Z.of_nat (length signals) < 2 ^ 53)%Z ->
  f_le f_zero (buildConfidence base signals) = true /\ f_le (buildConfidence base signals) f_one = true.
Proof.
  intros Hb Hl. unfold buildConfidence, CalculateConfidence. apply clamp_unit.
  cbn [cf_BaseConfidence cf_SignalCount cf_SignalClarity cf_TimeWindowSeconds].
  assert (Hbc : is_finite (fmul base (signalCountBoost (Z.of_nat (length signals)))) = true).
  { unfold good_base in Hb. simpl in Hb. rewrite !andb_true_iff in Hb. destruct Hb as (? & ? & ? & _).
    unfold signalCountBoost. destruct (_ <=? _)%Z; [done|]. by destruct (_ =? _)%Z. }
  apply is_finite_spec in Hbc as (m & e & ->).
  assert (Ht : is_finite (timeProximityBoost (TimeWindowSeconds signals)) = true).
  { unfold timeProximityBoost. destruct (f_lt _ (f_of_Z 60)); [done|]. by destruct (f_lt _ _). }
  apply is_finite_spec in Ht as (m' & e' & ->). apply fmul_not_nan, fmul_not_nan_l, AverageClarity_not_nan. done.
Qed.

(** *** Where a diagnosis takes its evidence from *)

Definition from (signals sub : list Signal) : Prop := Forall (fun s => s ∈ signals) sub.

Lemma from_self signals : from signals signals.
Proof. by apply Forall_forall. Qed.
Lemma from_filter f signals sub : from signals sub -> from signals (List.filter f sub).
Proof.
  unfold from. rewrite !Forall_forall. intros H s [Hs _]%list_elem_of_In%filter_In. by apply H, list_elem_of_In.
Qed.
Lemma from_nil signals : from signals [].
Proof. constructor. Qed.
Lemma from_app signals a b : from signals a -> from signals b -> from signals (a ++ b).
Proof. apply Forall_app_2. Qed.
Lemma from_concat signals l : Forall (from signals) l -> from signals (concat l).
Proof. induction 1; simpl; [constructor|]. by apply from_app. Qed.
Lemma from_ofType signals sub t : from signals sub -> from signals (signalsOfType sub t).
Proof. apply from_filter. Qed.
Lemma from_forResource signals sub r : from signals sub -> from signals (signalsForResource sub r).
Proof. apply from_filter. Qed.
Lemma from_types signals types : from signals (of_types signals types).
Proof.
  apply from_concat, Forall_forall. intros sub (t & -> & _)%list_elem_of_fmap. apply from_ofType, from_self.
Qed.
Lemma from_evictions signals sub : from signals (relatedEvictions signals sub).
Proof. apply from_filter, from_ofType, from_self. Qed.
Lemma from_images signals : from signals (uncoveredImageSignals signals).
Proof. apply from_filter, from_ofType, from_self. Qed.
#[export] Hint Resolve from_self from_nil from_app from_ofType from_forResource from_types from_evictions from_images : go.

Definition cited (signals : list Signal) (cs : list ContributingSignal) : Prop := from signals (map cg_Signal cs).
Lemma cited_build signals sub detail : from signals sub -> cited signals (buildContributing sub detail).
Proof. unfold cited, buildContributing. rewrite map_map. simpl. by rewrite map_id. Qed.
Lemma cited_app signals a b : cited signals a -> cited signals b -> cited signals (a ++ b).
Proof. unfold cited. rewrite map_app. apply from_app. Qed.
#[export] Hint Resolve cited_build cited_app : go.

Lemma length_ofType signals t : (length (signalsOfType signals t) <= length signals)%nat.
Proof. apply filter_length_le. Qed.
Lemma length_forResource signals r : (length (signalsForResource signals r) <= length signals)%nat.
Proof. apply filter_length_le. Qed.
Lemma length_types signals types : (length (of_types signals types) <= length types * length signals)%nat.
Proof.
  unfold of_types. induction types as [|t types IH]; simpl; [done|]. rewrite length_app.
  pose proof (length_ofType signals t). lia.
Qed.

Lemma firstPersonaRef_elem sub r : firstPersonaRef sub = Some r -> exists s, s ∈ sub /\ sig_PersonaRef s = Some r.
Proof.
  unfold firstPersonaRef. induction sub as [|s sub IH]; [done|]. rewrite omap_cons.
  destruct (sig_PersonaRef s) as [r'|] eqn:Hs; simpl.
  - intros [= <-]. exists s. split; [left|done].
  - intros (s' & ? & ?)%IH. exists s'. split; [by right|done].
Qed.

Lemma collect_resources_elem seen sub r : r ∈ collect_resources seen sub -> exists s, s ∈ sub /\ sig_Resource s = r.
Proof.
  revert seen. induction sub as [|s sub IH]; intros seen; simpl; [by intros ?%not_elem_of_nil|].
  case_decide; [intros (s' & ? & ?)%IH; exists s'; split; [by right|done]|].
  intros [->|(s' & ? & ?)%IH]%elem_of_cons; [exists s; split; [left|done]|exists s'; split; [by right|done]].
Qed.

(** A diagnosis speaks of the given signals only, and scores within the unit interval. *)
Record sound (signals : list Signal) (d : Diagnosis) : Prop := {
  sound_persona r : d_PersonaRef d = Some r -> exists s, s ∈ signals /\ sig_PersonaRef s = Some r;
  sound_resources r : r ∈ d_AffectedResources d -> exists s, s ∈ signals /\ sig_Resource s = r;
  sound_contributing c : c ∈ d_Contributing d -> cg_Signal c ∈ signals;
  sound_evidence : d_AffectedResources d <> [] /\ d_Contributing d <> [];
  sound_confidence : f_le f_zero (d_Confidence d) = true /\ f_le (d_Confidence d) f_one = true;
}.

Lemma mk_diag_sound signals summary base category severity sub contributing action :
  (8 * Z.of_nat (length signals) < 2 ^ 53)%Z -> good_base base = true ->
  from signals sub -> sub <> [] -> cited signals contributing -> contributing <> [] ->
  (length sub <= 8 * length signals)%nat ->
  sound signals (mk_diag summary base category severity sub contributing action).
Proof.
  intros Hlen Hb Hsub Hne Hc Hcne Hl. unfold from in Hsub. rewrite Forall_forall in Hsub. split; simpl.
  - intros r (s & Hs & Hr)%firstPersonaRef_elem. eauto.
  - intros r (s & Hs & Hr)%collect_resources_elem. eauto.
  - intros c Hin. unfold cited, from in Hc. rewrite Forall_forall in Hc. apply Hc, list_elem_of_fmap. eauto.
  - split; [|done]. destruct sub; [done|]. unfold collectAffectedResources. simpl. by case_decide.
  - apply buildConfidence_unit; [done|lia].
Qed.

Lemma nonempty_true {A} (l : list A) : nonempty l = true <-> l <> [].
Proof. by destruct l. Qed.
Lemma app_nonempty {A} (a b : list A) : a <> [] -> (a ++ b)%list <> [].
Proof. by destruct a. Qed.
Lemma build_nonempty sub detail : sub <> [] -> buildContributing sub detail <> [].
Proof. by destruct sub. Qed.
#[export] Hint Resolve app_nonempty build_nonempty : go.

Ltac rule_lengths := unfold concatSignals; simpl concat; rewrite ?length_app, ?app_nil_r;
  repeat match goal with
  | |- context [length (signalsOfType ?l ?t)] =>
      lazymatch goal with H : (length (signalsOfType l t) <= _)%nat |- _ => fail | _ => pose proof (length_ofType l t) end
  | |- context [length (of_types ?l ?t)] =>
      lazymatch goal with H : (length (of_types l t) <= _)%nat |- _ => fail | _ => pose proof (length_types l t) end
  | H : context [length (signalsForResource ?l ?r)] |- _ =>
      lazymatch goal with H : (length (signalsForResource l r) <= length l)%nat |- _ => fail
      | _ => pose proof (length_forResource l r) end
  end; simpl length in *; lia.

(** One rule's branch: every side condition of [mk_diag_sound] is automatic. *)
Ltac rule_branch := apply mk_diag_sound;
  [assumption | reflexivity | unfold concatSignals; simpl concat; auto 8 with go
  | unfold concatSignals; simpl concat; auto with go | auto 8 with go | auto with go | try rule_lengths].

Section rules_sound.
Context (signals : list Signal) (Hlen : (8 * Z.of_nat (length signals) < 2 ^ 53)%Z).
Abbreviation ok od := (forall d, od = Some d -> sound signals d).

Lemma evictions_length sub : (length (relatedEvictions signals sub) <= length signals)%nat.
Proof. unfold relatedEvictions. etrans; [apply filter_length_le|apply length_ofType]. Qed.
Lemma images_length : (length (uncoveredImageSignals signals) <= length signals)%nat.
Proof. unfold uncoveredImageSignals. etrans; [apply filter_length_le|apply length_ofType]. Qed.

Lemma diagnoseOOM_sound : ok (diagnoseOOM signals).
Proof.
  intros d. unfold diagnoseOOM. destruct (signalsOfType signals SignalOOMKilled) as [|p l] eqn:Hp; [done|].
  rewrite <- Hp. assert (Hne : signalsOfType signals SignalOOMKilled <> []) by by rewrite Hp.
  destruct (signalsOfType (signalsForResource signals _) SignalMemoryUsageHigh) as [|m k] eqn:Hm;
    rewrite <- ?Hm; intros [= <-]; rule_branch.
Qed.

Lemma diagnoseCrashLoop_sound : ok (diagnoseCrashLoop signals).
Proof.
  intros d. unfold diagnoseCrashLoop. destruct (signalsOfType signals SignalCrashLoopBackOff) as [|p l] eqn:Hp; [done|].
  rewrite <- Hp. assert (Hne : signalsOfType signals SignalCrashLoopBackOff <> []) by by rewrite Hp.
  destruct (nonempty _); [intros [= <-]; rule_branch|].
  destruct (nonempty _); [intros [= <-]; rule_branch|].
  destruct (nonempty _); intros [= <-]; rule_branch.
Qed.

Lemma diagnoseNodePressure_sound : ok (diagnoseNodePressure signals).
Proof.
  intros d. unfold diagnoseNodePressure. pose proof (evictions_length (of_types signals nodePressureTypes)).
  destruct (nonempty (of_types signals nodePressureTypes)) eqn:Hne; [|done]. apply nonempty_true in Hne. cbn [negb].
  destruct (nonempty (relatedEvictions _ _)); intros [= <-]; rule_branch.
Qed.

Lemma diagnoseNodeDown_sound : ok (diagnoseNodeDown signals).
Proof.
  intros d. unfold diagnoseNodeDown. destruct (signalsOfType signals SignalNodeNotReady) as [|p l] eqn:Hp; [done|].
  rewrite <- Hp. assert (Hne : signalsOfType signals SignalNodeNotReady <> []) by by rewrite Hp.
  destruct (nonempty _); intros [= <-]; rule_branch.
Qed.

Lemma diagnoseResourceSaturation_sound : ok (diagnoseResourceSaturation signals).
Proof.
  intros d. unfold diagnoseResourceSaturation.
  destruct (nonempty (of_types signals saturationCriticalTypes)) eqn:Hne; [|done]. apply nonempty_true in Hne. cbn [negb].
  destruct (nonempty _); intros [= <-]; rule_branch.
Qed.

Lemma diagnoseControlPlane_sound : ok (diagnoseControlPlane signals).
Proof.
  intros d. unfold diagnoseControlPlane.
  destruct (nonempty (of_types signals controlPlaneTypes)) eqn:Hne; [|done]. apply nonempty_true in Hne. cbn [negb].
  intros [= <-]; rule_branch.
Qed.

Lemma diagnoseImagePull_sound : ok (diagnoseImagePull signals).
Proof.
  intros d. unfold diagnoseImagePull. pose proof images_length.
  destruct (nonempty (uncoveredImageSignals signals)) eqn:Hne; [|done]. apply nonempty_true in Hne. cbn [negb].
  intros [= <-]; rule_branch.
Qed.

Lemma diagnosePendingPod_sound : ok (diagnosePendingPod signals).
Proof.
  intros d. unfold diagnosePendingPod.
  destruct (nonempty (signalsOfType signals SignalPodPendingLong)) eqn:Hne; [|done]. apply nonempty_true in Hne. cbn [negb].
  destruct (has_any _ _); [done|]. intros [= <-]; rule_branch.
Qed.

Lemma apply_rule_sound rule d : rule ∈ builtin_rules -> apply_rule signals rule = Some d -> sound signals d.
Proof.
  intros Hr Hd. assert (Hdiag : rule_Diagnose rule signals = Some d) by (unfold apply_rule in Hd; by destruct (rule_Match rule signals)).
  clear Hd. unfold builtin_rules in Hr. rewrite !elem_of_cons in Hr. destruct_or?;
    [subst rule; simpl in Hdiag..|by apply not_elem_of_nil in Hr].
  - by apply diagnoseOOM_sound.
  - by apply diagnoseCrashLoop_sound.
  - by apply diagnoseNodePressure_sound.
  - by apply diagnoseNodeDown_sound.
  - by apply diagnoseResourceSaturation_sound.
  - by apply diagnoseControlPlane_sound.
  - by apply diagnoseImagePull_sound.
  - by apply diagnosePendingPod_sound.
Qed.
End rules_sound.

(** *** The provider *)

Lemma confidence_weak (P : Diagnosis -> Prop) :
  (forall d, P d -> f_nonneg (d_Confidence d)) -> weak_order P confidence_less.
Proof.
  unfold confidence_less. intros HP. split.
  - intros x y _ _. apply f_lt_asym.
  - intros x y z Hx%HP Hy%HP Hz%HP. rewrite !f_le_nonneg_total by done. rewrite !negb_false_iff.
    intros. by apply (f_le_nonneg_trans _ (d_Confidence y)).
Qed.

(** [sort.Slice] by descending confidence does sort, when no confidence is NaN or negative. *)
Lemma sort_confidence `{SortSlice, !SortSliceSpec} ds :
  Forall (fun d => f_nonneg (d_Confidence d)) ds ->
  StronglySorted (fun a b => f_le (d_Confidence b) (d_Confidence a) = true) (sort_slice confidence_less ds).
Proof.
  intros Hf. pose proof (sort_slice_sorted _ confidence_less ds (confidence_weak _ (fun _ Hx => Hx)) Hf) as Hs.
  rewrite <- (sort_slice_perm confidence_less ds) in Hf. revert Hf.
  induction Hs as [|d k Hk IH Hd]; intros Hf; constructor; inversion Hf; subst; [auto|].
  rewrite Forall_forall in *. intros e He. specialize (Hd e He). unfold confidence_less in Hd.
  rewrite f_le_nonneg_total in Hd by auto. by apply negb_false_iff in Hd.
Qed.

Lemma resource_of_stamp p t d : deduplicationKey (stamp p t d) = deduplicationKey d.
Proof. done. Qed.

Section provider_props.
Context `{Client W}.

(** What the loop over the rules yields, from any set of keys already seen. *)
Lemma run_rules_spec signals seen rules w :
  let ds := (run_rules signals seen rules w).1 in
  NoDup (map deduplicationKey ds) /\
  (forall d, d ∈ ds -> (deduplicationKey d ∉ seen) /\ exists rule d0 now, rule ∈ rules /\
      apply_rule signals rule = Some d0 /\ d = stamp providerNameRuleBased now d0) /\
  (forall rule d0, rule ∈ rules -> apply_rule signals rule = Some d0 ->
      (deduplicationKey d0 ∈ seen) \/ exists d, d ∈ ds /\ deduplicationKey d = deduplicationKey d0).
Proof.
  cbv zeta. revert seen w. induction rules as [|rule rules IH]; intros seen w; cbn [run_rules].
  { split_and!; [constructor|by intros d ?%not_elem_of_nil|by intros r d0 ?%not_elem_of_nil]. }
  destruct (apply_rule signals rule) as [d1|] eqn:Hd1; [case_decide as Hseen|].
  - destruct (IH seen w) as (Hnd & Hsrc & Hall). split_and!; [done| |].
    + intros d Hd. destruct (Hsrc d Hd) as [? (r & d0 & t & ? & ? & ?)]. split; [done|]. exists r, d0, t.
      split_and!; try done. by right.
    + intros r d0 [->|Hr]%elem_of_cons Hd0; [left; by simplify_eq|by eapply Hall].
  - unfold mbind, io_bind. destruct (clock w) as [now w1].
    specialize (IH ({[deduplicationKey d1]} ∪ seen) w1).
    destruct (run_rules signals ({[deduplicationKey d1]} ∪ seen) rules w1) as [ds w2].
    cbn [fst snd] in *. destruct IH as (Hnd & Hsrc & Hall). split_and!.
    + cbn [map]. constructor; [|done]. rewrite resource_of_stamp. intros (d & Heq & Hd)%list_elem_of_fmap.
      destruct (Hsrc d Hd) as [Hns _]. rewrite <- Heq in Hns. set_solver.
    + intros d [->|Hd]%elem_of_cons.
      * split; [done|]. exists rule, d1, now. split_and!; try done. left.
      * destruct (Hsrc d Hd) as [Hns (r & d0 & t & ? & ? & ?)]. split; [set_solver|]. exists r, d0, t.
        split_and!; try done. by right.
    + intros r d0 [->|Hr]%elem_of_cons Hd0.
      * simplify_eq. right. eexists. split; [left|done].
      * destruct (Hall r d0 Hr Hd0) as [Hin|(d & Hd & Hk)]; [|right; exists d; split; [by right|done]].
        apply elem_of_union in Hin as [->%elem_of_singleton|?]; [|by left].
        right. exists (stamp providerNameRuleBased now d1). split; [left|done].
  - destruct (IH seen w) as (Hnd & Hsrc & Hall). split_and!; [done| |].
    + intros d Hd. destruct (Hsrc d Hd) as [? (r & d0 & t & ? & ? & ?)]. split; [done|]. exists r, d0, t.
      split_and!; try done. by right.
    + intros r d0 [->|Hr]%elem_of_cons Hd0; [congruence|by eapply Hall].
Qed.

Lemma stamp_sound signals p t d : sound signals d -> sound signals (stamp p t d).
Proof. by intros [? ? ? ? ?]. Qed.

(** The soundness half, for the components that consume diagnoses. *)
Lemma diagnose_sound `{SortSlice, !SortSliceSpec} (signals : list Signal) (w : W) :
  (8 * Z.of_nat (length signals) < 2 ^ 53)%Z ->
  exists ds, (RuleBased_Diagnose signals w).1 = Ok ds /\ forall d, d ∈ ds -> sound signals d.
Proof.
  intros Hlen. unfold RuleBased_Diagnose. destruct signals as [|s0 rest].
  { exists []. split; [done|by intros d ?%not_elem_of_nil]. }
  unfold mbind, io_bind. pose proof (run_rules_spec (s0 :: rest) ∅ builtin_rules w) as Hr. cbv zeta in Hr.
  destruct (run_rules (s0 :: rest) ∅ builtin_rules w) as [ds w']. cbn [fst] in Hr. destruct Hr as (_ & Hsrc & _).
  eexists. split; [done|]. intros d. rewrite (sort_slice_perm confidence_less ds).
  intros (_ & r & d0 & t & Hr & Hd0 & ->)%Hsrc. eapply stamp_sound, apply_rule_sound; eauto.
Qed.

(** C32. The rule-based provider never fails; every diagnosis it returns takes its
    persona, its affected resources and its evidence from the given signals
    only, names at least one of each, and scores within the unit interval; no
    two share a deduplication key; every rule that fires is represented; and
    the most confident comes first. *)
Theorem RuleBased_Diagnose_sound `{SortSlice, !SortSliceSpec} (signals : list Signal) (w : W) :
  (8 * Z.of_nat (length signals) < 2 ^ 53)%Z ->
  exists ds, (RuleBased_Diagnose signals w).1 = Ok ds /\
    NoDup (map deduplicationKey ds) /\
    (forall d, d ∈ ds -> sound signals d /\ d_Provider d = "rule-based") /\
    (forall rule d0, signals <> [] -> rule ∈ builtin_rules -> apply_rule signals rule = Some d0 ->
       exists d, d ∈ ds /\ deduplicationKey d = deduplicationKey d0) /\
    StronglySorted (fun a b => f_le (d_Confidence b) (d_Confidence a) = true) ds.
Proof.
  intros Hlen. unfold RuleBased_Diagnose. destruct signals as [|s0 rest].
  { exists []. split_and!; [done|constructor|by intros d ?%not_elem_of_nil|done|constructor]. }
  set (signals := s0 :: rest) in *. unfold mbind, io_bind.
  pose proof (run_rules_spec signals ∅ builtin_rules w) as Hr. cbv zeta in Hr.
  destruct (run_rules signals ∅ builtin_rules w) as [ds w']. cbn [fst] in Hr. destruct Hr as (Hnd & Hsrc & Hall).
  exists (sort_slice confidence_less ds). pose proof (sort_slice_perm confidence_less ds) as Hperm.
  assert (Hsound : forall d, d ∈ ds -> sound signals d /\ d_Provider d = "rule-based").
  { intros d Hd. destruct (Hsrc d Hd) as [_ (r & d0 & t & Hr & Hd0 & ->)]. split; [|done].
    eapply stamp_sound, apply_rule_sound; eauto. }
  split_and!; [done|by rewrite Hperm| | |].
  - intros d. rewrite Hperm. apply Hsound.
  - intros r d0 _ Hr Hd0. destruct (Hall r d0 Hr Hd0) as [Hin|(d & Hd & Hk)]; [set_solver|].
    exists d. by rewrite Hperm.
  - apply sort_confidence. apply Forall_forall. intros d Hd. apply (sound_confidence signals), Hsound, Hd.
Qed.
End provider_props.

(** ** Witnesses *)

#[local] Existing Instance int_quantity.

Lemma RuleBased_Diagnose_sound_witness :
  let signals := [ex_signal SignalOOMKilled "api-1" "shop" "api" 0%Z; ex_signal SignalCrashLoopBackOff "api-1" "shop" "api" 0%Z] in
  exists ds, (RuleBased_Diagnose signals ex_cluster).1 = Ok ds /\ NoDup (map deduplicationKey ds) /\
    map d_Category ds = [CategoryHealth; CategoryResource].
Proof.
  intros signals. destruct (RuleBased_Diagnose_sound signals ex_cluster) as (ds & Hds & Hnd & _); [vm_compute; reflexivity|].
  exists ds. split; [exact Hds|]. split; [exact Hnd|]. vm_compute in Hds. injection Hds as <-. vm_compute. reflexivity.
Defined.
