(* ===== verification/DiagnosisEngine.v ===== *)
(** * The diagnosis engine, the namespace gate and the AI provider
    (internal/diagnosis/engine.go, namespace_gate.go, ai.go).

    The HTTP clients of internal/llm forward a request to a remote model: the
    class [LLM] is that call, which may fail and may change the world; Llm.v
    instantiates it. *)

From S2P Require Import Prelude GoString GoNum Json ApiTypes KubeTypes Client Signals Correlator Collectors Diagnosis.
From Stdlib Require Import String Ascii.
From stdpp Require Import strings.
Open Scope string_scope.

(** ** engine.go *)

Record rankedDiagnosis := mkRanked { rk_diagnosis : Diagnosis; rk_stage : nat }.

Definition supersedes (candidate current : rankedDiagnosis) : bool :=
  if negb (f_eq (d_Confidence (rk_diagnosis candidate)) (d_Confidence (rk_diagnosis current)))
  then f_lt (d_Confidence (rk_diagnosis current)) (d_Confidence (rk_diagnosis candidate))
  else (rk_stage current <? rk_stage candidate)%nat.

(** One candidate: the best of each key, and the keys in order of appearance. *)
Definition dedup_step (st : gmap string rankedDiagnosis * list string) (candidate : rankedDiagnosis)
  : gmap string rankedDiagnosis * list string :=
  let '(best, order) := st in
  let key := deduplicationKey (rk_diagnosis candidate) in
  match best !! key with
  | None => (<[key := candidate]> best, order ++ [key])%list
  | Some current => if supersedes candidate current then (<[key := candidate]> best, order) else (best, order)
  end.

Definition deduplicateDiagnoses (produced : list rankedDiagnosis) : list Diagnosis :=
  let '(best, order) := foldl dedup_step (∅, []) produced in
  omap (fun key => rk_diagnosis <$> best !! key) order.

Record DiagnosisProvider (W : Type) := mkProvider {
  prov_Name : string;
  prov_Diagnose : list Signal -> io W (result error (list Diagnosis));
}.
Arguments mkProvider {W} _ _.
Arguments prov_Name {W} _.
Arguments prov_Diagnose {W} _ _.

Section engine.
Context {W : Type} `{SortSlice}.

(** The loop over the providers; the first error stops the analysis. *)
Fixpoint run_providers (stage : nat) (providers : list (DiagnosisProvider W)) (signals : list Signal)
  : io W (result error (list rankedDiagnosis)) :=
  match providers with
  | [] => iok []
  | p :: rest =>
      let* diagnoses := wrap_io ("provider " ++ prov_Name p ++ " failed") (prov_Diagnose p signals) in
      let* more := run_providers (S stage) rest signals in
      iok (map (fun d => mkRanked d stage) diagnoses ++ more)%list
  end.

Definition Analyze (providers : list (DiagnosisProvider W)) (signals : list Signal)
  : io W (result error (list Diagnosis)) :=
  match signals with
  | [] => iok []
  | _ =>
      let* produced := run_providers 0 providers signals in
      iok (sort_slice confidence_less (deduplicateDiagnoses produced))
  end.
End engine.

(** ** namespace_gate.go *)

Definition clusterScopedKinds : list string := ["Node"; "ComponentStatus"].
Definition cluster_scoped (ref : ResourceReference) : bool :=
  (rr_Namespace ref =? "") && existsb (String.eqb (rr_Kind ref)) clusterScopedKinds.

(** The namespaces a diagnosis touches. *)
Definition touched_namespaces (d : Diagnosis) : list string :=
  (match d_PersonaRef d with Some ref => [pr_Namespace ref] | None => [] end
   ++ map rr_Namespace (List.filter (fun ref => negb (cluster_scoped ref))
        (d_AffectedResources d ++ map (fun cs => sig_Resource (cg_Signal cs)) (d_Contributing d))))%list.

Section gate.
Context {W : Type}.

Fixpoint check_namespaces (gate : string -> io W bool) (checked : list string) (namespaces : list string)
  : io W (string * bool) :=
  match namespaces with
  | [] => mret ("", false)
  | ns :: rest =>
      if existsb (String.eqb ns) checked then check_namespaces gate checked rest
      else if (ns =? "") then mret (ns, true)
      else
        let! protected := gate ns in
        if (protected : bool) then mret (ns, true) else check_namespaces gate (ns :: checked) rest
  end.

(** [ProtectedNamespace]; [None] is the nil gate. *)
Definition ProtectedNamespace (gate : option (string -> io W bool)) (d : Diagnosis) : io W (string * bool) :=
  match gate with
  | None => mret ("", true)
  | Some gate => check_namespaces gate [] (touched_namespaces d)
  end.
End gate.

(** ** ai.go *)

Definition providerNameAI : string := "ai-enhanced".

Record SignalContext := mkSignalContext {
  lc_Type : string; lc_Message : string; lc_Resource : string; lc_Value : string }.
Record DiagnosisRequest := mkRequest {
  lr_Summary : string; lr_Category : string; lr_Severity : string; lr_Confidence : f64;
  lr_SuggestedAction : string; lr_Signals : list SignalContext }.
Record DiagnosisResponse := mkResponse { ls_EnhancedSummary : string; ls_RecommendedAction : string }.

Class LLM (W : Type) := EnhanceDiagnosis : DiagnosisRequest -> io W (result error DiagnosisResponse).

Definition signal_context (cs : ContributingSignal) : SignalContext :=
  let s := cg_Signal cs in
  let r := sig_Resource s in
  mkSignalContext (sig_Type s) (sig_Message s)
    (if (rr_Kind r =? "") then ""
     else if (rr_Namespace r =? "") then rr_Kind r ++ "/" ++ rr_Name r
     else rr_Kind r ++ "/" ++ rr_Namespace r ++ "/" ++ rr_Name r)
    (match sig_Value s with Some v => fmt_f 1 v ++ "%" | None => "" end).

Definition buildLLMRequest (d : Diagnosis) : DiagnosisRequest :=
  mkRequest (d_Summary d) (d_Category d) (d_Severity d) (d_Confidence d) (d_SuggestedAction d)
    (map signal_context (d_Contributing d)).

Definition enhanceDiagnosis (base : Diagnosis) (resp : DiagnosisResponse) (now : time) : Diagnosis :=
  mkDiagnosis (if (ls_EnhancedSummary resp =? "") then d_Summary base else ls_EnhancedSummary resp)
    (d_Confidence base) providerNameAI (d_Category base) (d_Severity base) (d_PersonaRef base)
    (d_AffectedResources base) (d_Contributing base)
    (if (ls_RecommendedAction resp =? "") then d_SuggestedAction base else ls_RecommendedAction resp) now.

Section ai.
Context `{Client W} `{SortSlice} `{LLM W}.

(** The loop over the base diagnoses; a failed call drops everything. *)
Fixpoint enhance_all (gate : option (string -> io W bool)) (base : list Diagnosis) (enhanced : list Diagnosis)
  : io W (list Diagnosis) :=
  match base with
  | [] => mret enhanced
  | d :: rest =>
      let! verdict := ProtectedNamespace gate d in
      if snd (verdict : string * bool) then enhance_all gate rest enhanced else
      let! resp := EnhanceDiagnosis (buildLLMRequest d) in
      match resp with
      | Err _ => mret []
      | Ok resp =>
          let! now := clock in
          enhance_all gate rest (enhanced ++ [enhanceDiagnosis d resp now])%list
      end
  end.

(** [(p *AIProvider) Diagnose]. *)
Definition AI_Diagnose (gate : option (string -> io W bool)) (signals : list Signal)
  : io W (result error (list Diagnosis)) :=
  let* baseDiagnoses := wrap_io "rule-based diagnosis failed" (RuleBased_Diagnose signals) in
  match baseDiagnoses with
  | [] => iok []
  | _ => let! enhanced := enhance_all gate baseDiagnoses [] in iok enhanced
  end.
End ai.

(** ** Properties *)

(** *** Deduplication *)

Definition rkey (r : rankedDiagnosis) : string := deduplicationKey (rk_diagnosis r).
Definition rconf (r : rankedDiagnosis) : f64 := d_Confidence (rk_diagnosis r).

(** [r] is at least as good as [c]: more confident, or as confident and from a
    provider at least as late. *)
Definition dominates (r c : rankedDiagnosis) : Prop :=
  f_le (rconf c) (rconf r) = true /\ (f_le (rconf r) (rconf c) = true -> (rk_stage c <= rk_stage r)%nat).

Lemma dominates_trans a b c : f_nonneg (rconf a) -> f_nonneg (rconf b) -> f_nonneg (rconf c) ->
  dominates a b -> dominates b c -> dominates a c.
Proof.
  intros Ha Hb Hc [Hab Hab'] [Hbc Hbc']. split; [by apply (f_le_nonneg_trans _ (rconf b))|].
  intros Hac. assert (f_le (rconf a) (rconf b) = true) by by apply (f_le_nonneg_trans _ (rconf c)).
  assert (f_le (rconf b) (rconf c) = true) by by apply (f_le_nonneg_trans _ (rconf a)). specialize (Hab' H).
  specialize (Hbc' H0). lia.
Qed.

Lemma dominates_refl a : f_nonneg (rconf a) -> dominates a a.
Proof. intros Ha. split; [by apply f_le_nonneg_refl|done]. Qed.

Lemma supersedes_dominates c r : f_nonneg (rconf c) -> f_nonneg (rconf r) ->
  if supersedes c r then dominates c r else dominates r c.
Proof.
  intros Hc Hr. unfold supersedes. fold (rconf c) (rconf r). rewrite f_eq_nonneg, f_le_nonneg_total by done.
  unfold dominates. destruct (f_le (rconf c) (rconf r)) eqn:Hcr, (f_le (rconf r) (rconf c)) eqn:Hrc; simpl; try done.
  - destruct (Nat.ltb_spec (rk_stage r) (rk_stage c)); split; auto; lia.
  - exfalso. pose proof (f_le_nonneg_total (rconf c) (rconf r) Hc Hr) as H1. rewrite Hrc in H1. simpl in H1.
    pose proof (f_le_nonneg_total (rconf r) (rconf c) Hr Hc) as H2. rewrite Hcr in H2. simpl in H2.
    apply f_lt_asym in H1. congruence.
Qed.

Lemma snoc_elem {A} (l : list A) c x : (x ∈ (l ++ [c])%list) <-> (x ∈ l) \/ x = c.
Proof. by rewrite elem_of_app, list_elem_of_singleton. Qed.

Lemma dedup_keys l :
  let '(best, order) := foldl dedup_step (∅, []) l in
  NoDup order /\ (forall k, (k ∈ order) <-> is_Some (best !! k)) /\
  (forall k, (k ∈ order) <-> exists c, (c ∈ l) /\ rkey c = k).
Proof.
  induction l as [|c l IH] using rev_ind.
  { simpl. split_and!; [constructor| |]; intros k; rewrite ?lookup_empty, elem_of_nil; (split; [done|]);
      [by intros []|by intros (c & ?%not_elem_of_nil & _)]. }
  rewrite foldl_snoc. destruct (foldl dedup_step (∅, []) l) as [best order]. destruct IH as (Hnd & Hsome & Hkeys).
  unfold dedup_step. fold (rkey c).
  assert (Hkeys' : forall k, (exists x, (x ∈ (l ++ [c])%list) /\ rkey x = k) <-> (k ∈ order) \/ k = rkey c).
  { intros k. rewrite Hkeys. setoid_rewrite snoc_elem. naive_solver. }
  destruct (best !! rkey c) as [r|] eqn:Hr.
  - assert (Hin : rkey c ∈ order) by (apply Hsome; eauto).
    destruct (supersedes c r); (split_and!; [done| |intros k; rewrite Hkeys'; naive_solver]); [|done].
    intros k. rewrite Hsome, lookup_insert. case_decide as Hd; [subst k|done]. rewrite Hr. naive_solver.
  - assert (Hnin : rkey c ∉ order) by (rewrite Hsome, Hr; by intros [? ?]). split_and!.
    + apply NoDup_app. split_and!; [done| |apply NoDup_singleton]. by intros k Hk ->%list_elem_of_singleton.
    + intros k. rewrite snoc_elem, lookup_insert, Hsome. case_decide; naive_solver.
    + intros k. by rewrite snoc_elem, Hkeys'.
Qed.

Lemma dedup_best l :
  Forall (fun r => f_nonneg (rconf r)) l ->
  forall k r, (foldl dedup_step (∅, []) l).1 !! k = Some r ->
    (r ∈ l) /\ rkey r = k /\ forall c, c ∈ l -> rkey c = k -> dominates r c.
Proof.
  induction l as [|c l IH] using rev_ind; intros Hnn k x; [simpl; by rewrite lookup_empty|].
  apply Forall_app in Hnn as [Hnn Hc]. rewrite Forall_singleton in Hc. specialize (IH Hnn). pose proof (dedup_keys l) as Hk.
  rewrite foldl_snoc. destruct (foldl dedup_step (∅, []) l) as [best order]. destruct Hk as (_ & Hsome & Hkeys).
  cbn [fst] in IH. rewrite Forall_forall in Hnn. setoid_rewrite snoc_elem. unfold dedup_step. fold (rkey c).
  assert (Hold : forall x, best !! k = Some x -> k <> rkey c ->
    ((x ∈ l) \/ x = c) /\ rkey x = k /\ forall y, (y ∈ l) \/ y = c -> rkey y = k -> dominates x y).
  { intros y Hy Hne. destruct (IH _ _ Hy) as (? & ? & ?). split_and!; [by left|done|]. intros z [Hz| ->] Hzk; [auto|congruence]. }
  destruct (best !! rkey c) as [r|] eqn:Hr.
  - destruct (IH _ _ Hr) as (Hrl & Hrk & Hdom). pose proof (supersedes_dominates c r Hc (Hnn _ Hrl)) as Hsup.
    destruct (supersedes c r); cbn [fst].
    + rewrite lookup_insert. case_decide as Hd; [subst k|by intros ?; apply Hold; [|congruence]].
      intros [= <-]. split_and!; [by right|done|]. intros y [Hy| ->] Hyk; [|by apply dominates_refl].
      apply (dominates_trans _ r); auto.
    + destruct (decide (k = rkey c)) as [->|Hne]; [|intros; by apply Hold]. rewrite Hr. intros [= <-].
      split_and!; [by left|done|]. intros y [Hy| ->] Hyk; auto.
  - cbn [fst]. rewrite lookup_insert. case_decide as Hd; [subst k|by intros ?; apply Hold; [|congruence]].
    intros [= <-]. split_and!; [by right|done|]. intros y [Hy| ->] Hyk; [|by apply dominates_refl].
    assert (Hin : rkey c ∈ order) by (apply Hkeys; eauto). apply Hsome in Hin. rewrite Hr in Hin. by destruct Hin.
Qed.

(** Deduplication keeps exactly one diagnosis per key, none of whose rivals is
    better: a kept diagnosis is at least as confident as every other produced
    under its key, and on an exact tie it comes from the latest provider, so an
    AI-enhanced diagnosis is never dropped in favour of the rule it enhances. *)
Theorem deduplicate_keeps_best (produced : list rankedDiagnosis) :
  Forall (fun r => f_nonneg (rconf r)) produced ->
  NoDup (map deduplicationKey (deduplicateDiagnoses produced)) /\
  (forall c, c ∈ produced -> exists d, (d ∈ deduplicateDiagnoses produced) /\ deduplicationKey d = rkey c) /\
  forall d, d ∈ deduplicateDiagnoses produced -> exists r, (r ∈ produced) /\ rk_diagnosis r = d /\
    forall c, c ∈ produced -> rkey c = rkey r -> dominates r c.
Proof.
  intros Hnn. pose proof (dedup_keys produced) as Hk. pose proof (dedup_best produced Hnn) as Hb.
  unfold deduplicateDiagnoses. destruct (foldl dedup_step (∅, []) produced) as [best order].
  destruct Hk as (Hnd & Hsome & Hkeys). cbn [fst] in Hb. split_and!.
  - assert (Hmap : forall ks, (forall k, k ∈ ks -> k ∈ order) ->
      map deduplicationKey (omap (fun key => rk_diagnosis <$> best !! key) ks) = ks).
    { induction ks as [|k ks IH]; intros Hsub; [done|]. rewrite omap_cons.
      destruct (proj1 (Hsome k) (Hsub k (list_elem_of_here _ _))) as [r Hr]. rewrite Hr. cbn [fmap option_fmap option_map map].
      destruct (Hb _ _ Hr) as (_ & Hrk & _). rewrite IH; [by rewrite <- Hrk|]. intros; apply Hsub; by right. }
    by rewrite Hmap.
  - intros c Hc. assert (Hin : rkey c ∈ order) by (apply Hkeys; eauto). destruct (proj1 (Hsome _) Hin) as [r Hr].
    destruct (Hb _ _ Hr) as (_ & Hrk & _). exists (rk_diagnosis r). split; [|done].
    apply list_elem_of_omap. exists (rkey c). by rewrite Hr.
  - intros d (k & Hin & Hd)%list_elem_of_omap. destruct (best !! k) as [r|] eqn:Hr; [|done].
    simplify_eq/=. destruct (Hb _ _ Hr) as (Hrl & <- & Hdom). eauto.
Qed.

(** *** The gate *)

Section gate_props.
Context {W : Type}.

Lemma check_namespaces_clear (gate : string -> io W bool) w :
  (forall ns w, (gate ns w).2 = w) -> forall nss checked,
  (forall ns, ns ∈ checked -> ns <> "" /\ (gate ns w).1 = false) ->
  (check_namespaces gate checked nss w).1.2 = false <->
  forall ns, ns ∈ nss -> ns <> "" /\ (gate ns w).1 = false.
Proof.
  intros Hreads nss. induction nss as [|ns nss IH]; intros checked Hc; cbn [check_namespaces].
  { split; [by intros _ ns ?%not_elem_of_nil|done]. }
  setoid_rewrite elem_of_cons. destruct (existsb (String.eqb ns) checked) eqn:Hin.
  { rewrite IH by done. apply existsb_elem in Hin as (x & Hx & ->%String.eqb_eq).
    specialize (Hc _ Hx). naive_solver. }
  destruct (String.eqb_spec ns "") as [->|Hne]; [simpl; naive_solver|].
  unfold mbind, io_bind. rewrite (read_pair (gate ns) w (Hreads ns w)).
  destruct (gate ns w).1 eqn:Hg; [simpl; naive_solver|]. rewrite IH.
  - naive_solver.
  - intros x [->|Hx]%elem_of_cons; auto.
Qed.

(** The gate fails closed: a diagnosis is cleared for the model only when
    there is a gate, every namespace it touches through its persona, its
    affected resources or its evidence is known, and the gate protects none of
    them; only nodes and component statuses may have no namespace at all. *)
Theorem ProtectedNamespace_clears (gate : option (string -> io W bool)) (d : Diagnosis) (w : W) :
  (forall g ns w, gate = Some g -> (g ns w).2 = w) ->
  (ProtectedNamespace gate d w).1.2 = false <->
  exists g, gate = Some g /\
    (forall ref, d_PersonaRef d = Some ref -> pr_Namespace ref <> "" /\ (g (pr_Namespace ref) w).1 = false) /\
    (forall ref, (ref ∈ d_AffectedResources d \/ exists c, c ∈ d_Contributing d /\ ref = sig_Resource (cg_Signal c)) ->
       rr_Namespace ref = "" /\ (rr_Kind ref = "Node" \/ rr_Kind ref = "ComponentStatus") \/
       rr_Namespace ref <> "" /\ (g (rr_Namespace ref) w).1 = false).
Proof.
  intros Hreads. destruct gate as [g|]; simpl; [|split; [done|by intros (? & ? & _)]].
  rewrite (check_namespaces_clear g w); [|intros; by apply Hreads|by intros ns ?%not_elem_of_nil].
  assert (Hcs : forall ref, cluster_scoped ref = true <->
    rr_Namespace ref = "" /\ (rr_Kind ref = "Node" \/ rr_Kind ref = "ComponentStatus")).
  { intros ref. unfold cluster_scoped. simpl. rewrite andb_true_iff, !orb_true_iff, !String.eqb_eq. naive_solver. }
  assert (Hres : forall ref, (ref ∈ (d_AffectedResources d ++ map (fun cs => sig_Resource (cg_Signal cs)) (d_Contributing d))%list)
    <-> (ref ∈ d_AffectedResources d \/ exists c, c ∈ d_Contributing d /\ ref = sig_Resource (cg_Signal c))).
  { intros ref. rewrite elem_of_app, list_elem_of_fmap. naive_solver. }
  unfold touched_namespaces. split.
  - intros Hall. exists g. split_and!; [done| |].
    + intros ref Href. apply Hall. rewrite Href. left.
    + intros ref Href%Hres. destruct (cluster_scoped ref) eqn:Hc; [left; by apply Hcs|right].
      apply Hall, elem_of_app. right. apply list_elem_of_fmap. exists ref. split; [done|].
      apply list_elem_of_In, filter_In. rewrite Hc. split; [by apply list_elem_of_In|done].
  - intros (g' & [= <-] & Hp & Hr) ns. rewrite elem_of_app. intros [Hns|Hns].
    + destruct (d_PersonaRef d) as [ref|]; [|by apply not_elem_of_nil in Hns].
      apply list_elem_of_singleton in Hns as ->. by apply Hp.
    + apply list_elem_of_fmap in Hns as (ref & -> & Hin). apply list_elem_of_In, filter_In in Hin as [Hin Hc].
      apply list_elem_of_In, Hres, Hr in Hin as [Hin%Hcs|]; [by rewrite Hin in Hc|done].
Qed.
End gate_props.

(** *** The AI provider *)

Section ai_props.
Context `{Client W} `{SortSlice} `{LLM W}.

(** [enhanced] is [base] with the model's words: everything the operator acts on is kept. *)
Definition enhances (base enhanced : Diagnosis) : Prop :=
  d_Confidence enhanced = d_Confidence base /\ d_Category enhanced = d_Category base /\
  d_Severity enhanced = d_Severity base /\ d_PersonaRef enhanced = d_PersonaRef base /\
  d_AffectedResources enhanced = d_AffectedResources base /\ d_Contributing enhanced = d_Contributing base /\
  d_Provider enhanced = "ai-enhanced".

Lemma enhance_all_spec gate base acc w d :
  d ∈ (enhance_all gate base acc w).1 -> d ∈ acc \/ exists b, b ∈ base /\ enhances b d.
Proof.
  revert acc w. induction base as [|b base IH]; intros acc w; cbn [enhance_all]; [by left|].
  unfold mbind, io_bind. destruct (ProtectedNamespace gate b w) as [[ns [|]] w1]; cbn [snd].
  { intros [?|(b' & ? & ?)]%IH; [by left|]. right. exists b'. split; [by right|done]. }
  destruct (EnhanceDiagnosis (buildLLMRequest b) w1) as [[resp|e] w2]; [|by intros ?%not_elem_of_nil].
  destruct (clock w2) as [now w3]. intros [Hd|(b' & ? & ?)]%IH; [|right; exists b'; split; [by right|done]].
  apply elem_of_app in Hd as [?| ->%list_elem_of_singleton]; [by left|]. right. exists b. split; [left|done].
Qed.

Lemma enhance_all_invariant (I : W -> Prop) gate :
  (forall w, I w -> I (clock w).2) ->
  (forall d w, I w -> I (ProtectedNamespace gate d w).2) ->
  (forall d ns w0 w, ProtectedNamespace gate d w0 = ((ns, false), w) -> I w ->
     I (EnhanceDiagnosis (buildLLMRequest d) w).2) ->
  forall base acc w, I w -> I (enhance_all gate base acc w).2.
Proof.
  intros Hclock Hgate Hllm base. induction base as [|b base IH]; intros acc w Hw; cbn [enhance_all]; [done|].
  unfold mbind, io_bind. pose proof (Hgate b w Hw) as I1.
  destruct (ProtectedNamespace gate b w) as [[ns [|]] w1] eqn:Hb; cbn [snd] in *; [by apply IH|].
  pose proof (Hllm _ _ _ _ Hb I1) as I2.
  destruct (EnhanceDiagnosis (buildLLMRequest b) w1) as [[resp|e] w2]; [|done].
  pose proof (Hclock w2 I2) as I3. destruct (clock w2) as [now w3]. by apply IH.
Qed.

Lemma run_rules_invariant (I : W -> Prop) signals rules :
  (forall w, I w -> I (clock w).2) -> forall seen w, I w -> I (run_rules signals seen rules w).2.
Proof.
  intros Hclock. induction rules as [|r rules IH]; intros seen w Hw; cbn [run_rules]; [done|].
  destruct (apply_rule signals r) as [d|]; [|by apply IH]. case_decide; [by apply IH|].
  unfold mbind, io_bind. pose proof (Hclock w Hw) as I1. destruct (clock w) as [now w1].
  specialize (IH ({[deduplicationKey d]} ∪ seen) w1 I1). by destruct (run_rules _ _ rules w1).
Qed.

(** Nothing the gate protects is ever sent to the model: any property of the
    world that the clock, the gate and the calls made right after the gate
    cleared that very diagnosis preserve (such as "every request on the wire
    was cleared") is preserved by a whole run of the AI provider. *)
Theorem AI_never_sends_protected (I : W -> Prop) (gate : option (string -> io W bool)) (signals : list Signal) :
  (forall w, I w -> I (clock w).2) ->
  (forall d w, I w -> I (ProtectedNamespace gate d w).2) ->
  (forall d ns w0 w, ProtectedNamespace gate d w0 = ((ns, false), w) -> I w ->
     I (EnhanceDiagnosis (buildLLMRequest d) w).2) ->
  forall w, I w -> I (AI_Diagnose gate signals w).2.
Proof.
  intros Hclock Hgate Hllm w Hw. unfold AI_Diagnose, iobind, wrap_io, RuleBased_Diagnose.
  destruct signals as [|s rest]; [done|]. unfold mbind, io_bind, iok.
  pose proof (run_rules_invariant I (s :: rest) builtin_rules Hclock ∅ w Hw) as I1.
  destruct (run_rules _ ∅ builtin_rules w) as [ds w1]. cbn [wrap_err map_err snd] in *.
  destruct (sort_slice confidence_less ds) as [|d l]; [done|].
  pose proof (enhance_all_invariant I gate Hclock Hgate Hllm (d :: l) [] w1 I1) as I2.
  by destruct (enhance_all gate (d :: l) [] w1).
Qed.

(** The AI provider never fails the analysis and never changes what a
    diagnosis is about: each result is a rule-based diagnosis of the same
    signals whose confidence, severity, category, persona, resources and
    evidence are untouched. *)
Theorem AI_Diagnose_only_rewords (gate : option (string -> io W bool)) (signals : list Signal) (w : W) :
  exists ds base, (AI_Diagnose gate signals w).1 = Ok ds /\ (RuleBased_Diagnose signals w).1 = Ok base /\
    forall d, d ∈ ds -> exists b, (b ∈ base) /\ enhances b d.
Proof.
  unfold AI_Diagnose, iobind, wrap_io.
  assert (Hok : exists base, (RuleBased_Diagnose signals w).1 = Ok base).
  { unfold RuleBased_Diagnose. destruct signals; [by eexists|]. unfold mbind, io_bind. destruct (run_rules _ _ _ w). by eexists. }
  destruct Hok as [base Hb]. destruct (RuleBased_Diagnose signals w) as [r w1]. simpl in Hb. subst r. cbn [wrap_err map_err].
  destruct base as [|b0 l]; [exists [], []; split_and!; [done..|by intros d ?%not_elem_of_nil]|].
  unfold mbind, io_bind, iok. pose proof (fun d => enhance_all_spec gate (b0 :: l) [] w1 d) as Hs.
  destruct (enhance_all gate (b0 :: l) [] w1) as [ds w2]. exists ds, (b0 :: l). split_and!; [done..|].
  intros d [?%not_elem_of_nil|?]%Hs; done.
Qed.
End ai_props.

(** *** Grouping and diagnosis together *)

(** A diagnosis of one group is about that group's application alone: it names
    the group's persona or nobody, and every resource it lists and every signal
    it cites was attributed to exactly the group's persona and, for a group with
    no persona, comes from the group's own namespace. *)
Theorem diagnosis_of_one_application `{Client W, SortSlice, !SortSliceSpec}
    (collected : list Signal) (g : SignalGroup) (w : W) (ds : list Diagnosis) (d : Diagnosis) :
  (8 * Z.of_nat (length collected) < 2 ^ 53)%Z ->
  (forall t, t ∈ collected -> well_named t) -> g ∈ GroupSignals collected ->
  (RuleBased_Diagnose (sg_Signals g) w).1 = Ok ds -> d ∈ ds ->
  (d_PersonaRef d = None \/ d_PersonaRef d = sg_PersonaRef g) /\
  (forall r, r ∈ d_AffectedResources d -> exists s, s ∈ sg_Signals g /\ sig_Resource s = r) /\
  (forall c, c ∈ d_Contributing d -> sig_PersonaRef (cg_Signal c) = sg_PersonaRef g) /\
  (sg_PersonaRef g = None -> forall r, r ∈ d_AffectedResources d -> rr_Namespace r = sg_Namespace g).
Proof.
  intros Hlen Hwn Hg Hds Hd. destruct (GroupSignals_elem collected g) as [Hge _]. destruct (Hge Hg) as [_ He].
  assert (Hsig : sg_Signals g = with_key (sg_Key g) collected).
  { unfold expected_group in He. destruct (with_key (sg_Key g) collected) eqn:Hk; [done|]. injection He as He. by rewrite <- He. }
  assert (Hiso : forall s, s ∈ sg_Signals g -> sig_PersonaRef s = sg_PersonaRef g /\
      (sg_PersonaRef g = None -> rr_Namespace (sig_Resource s) = sg_Namespace g)).
  { intros s Hs. apply (group_isolated collected); auto. }
  assert (Hl : (8 * Z.of_nat (length (sg_Signals g)) < 2 ^ 53)%Z).
  { rewrite Hsig. pose proof (filter_length_le (fun s => (key_of s =? sg_Key g)%string) collected).
    fold (with_key (sg_Key g) collected) in H3. lia. }
  destruct (diagnose_sound (sg_Signals g) w Hl) as (ds' & Hds' & Hsound). rewrite Hds in Hds'. simplify_eq.
  specialize (Hsound d Hd). destruct Hsound as [Hp Hr Hc _ _]. split_and!.
  - destruct (d_PersonaRef d) as [r|] eqn:Hpr; [|by left]. right. destruct (Hp r eq_refl) as (s & Hs & Hsr).
    destruct (Hiso s Hs) as [Hps _]. congruence.
  - done.
  - intros c Hcin. by destruct (Hiso _ (Hc c Hcin)).
  - intros Hnone r Hrin. destruct (Hr r Hrin) as (s & Hs & <-). by apply (Hiso s Hs).
Qed.

(** The collector files an eviction's node under ["nodeName"]; the node-pressure
    rule looks it up under ["node"] and falls back to the resource's name, which
    is the pod's.  An eviction is therefore related to node pressure only when
    the pod happens to be named like the node it ran on. *)
Theorem eviction_node_is_pod_name `{QuantityOps} (pod : Pod) (now : time) (s : Signal) :
  checkEviction pod now = Some s ->
  mget (sig_Metadata s) "nodeName" = pod_NodeName pod /\ eviction_node s = pod_Name pod.
Proof.
  unfold checkEviction. destruct (_ || _); [done|]. intros [= <-]. unfold eviction_node, mget. simpl. unfold podMetadata.
  destruct (negb _); by rewrite ?lookup_insert_ne.
Qed.

(** ** Witnesses *)

#[local] Existing Instance int_quantity.

Definition ex_diagnosis (summary provider : string) (confidence : f64) : Diagnosis :=
  mkDiagnosis summary confidence provider "health" SeverityCritical (Some (mkPersonaRef "ApplicationPersona" "api" "shop"))
    [mkResourceRef "Pod" "api-1" "shop" ""] [] "resource-adjustment" 0%Z.

(** A rule-based diagnosis and its enhanced copy, tied to the digit. *)
Definition ex_produced : list rankedDiagnosis :=
  [mkRanked (ex_diagnosis "OOM" "rule-based" (f_lit 90 100)) 0; mkRanked (ex_diagnosis "OOM, in words" "ai-enhanced" (f_lit 90 100)) 1].

Lemma deduplicate_keeps_best_witness :
  NoDup (map deduplicationKey (deduplicateDiagnoses ex_produced)) /\
  map d_Provider (deduplicateDiagnoses ex_produced) = ["ai-enhanced"].
Proof.
  split; [|vm_compute; reflexivity]. apply (deduplicate_keeps_best ex_produced). repeat constructor.
Defined.

Lemma ProtectedNamespace_clears_witness :
  let gate ns := mret (M := io Mem) (ns =? "kube-system")%string in
  (ProtectedNamespace (Some gate) (ex_diagnosis "OOM" "rule-based" f_one) ex_cluster).1.2 = false.
Proof.
  intros gate. apply (ProtectedNamespace_clears (Some gate)); [by intros g ns w [= <-]|]. exists gate. split; [reflexivity|]. split.
  - intros ref [= <-]. split; [discriminate|reflexivity].
  - intros ref [->%list_elem_of_singleton|(c & []%not_elem_of_nil & _)]. right. split; [discriminate|reflexivity].
Defined.

(** A model that records each call by consuming a scripted outcome. *)
#[local] Instance ex_llm : LLM Mem := fun req w => (Ok (mkResponse "reworded" ""), (pop_fault w).2).

Lemma AI_never_sends_protected_witness :
  let w := mkMem _ 0%Z ∅ ∅ ∅ [] ∅ [] [] [None; None] None in
  mem_faults (AI_Diagnose None [ex_signal SignalOOMKilled "api-1" "shop" "api" 0%Z] w).2 = [None; None].
Proof.
  intros w. apply (AI_never_sends_protected (fun w => mem_faults w = [None; None]) None); [done|done|done|reflexivity].
Defined.

Definition ex_diagnoses : list Diagnosis :=
  match (RuleBased_Diagnose (sg_Signals ex_api_group) ex_cluster).1 with Ok ds => ds | Err _ => [] end.
Definition ex_first : Diagnosis := default (ex_diagnosis "" "" f_one) (head ex_diagnoses).

Lemma diagnosis_of_one_application_witness :
  (ex_first ∈ ex_diagnoses) /\ d_PersonaRef ex_first = None /\
  (exists r, r ∈ d_AffectedResources ex_first) /\ forall r, r ∈ d_AffectedResources ex_first -> rr_Namespace r = "shop".
Proof.
  assert (Hd : ex_first ∈ ex_diagnoses) by (vm_compute; left). split; [exact Hd|].
  destruct (diagnosis_of_one_application [ex_api; ex_web] ex_api_group ex_cluster ex_diagnoses ex_first)
    as ([Hp|Hp] & _ & _ & Hns); try exact ex_well_named; try exact Hd; try (vm_compute; reflexivity);
    [exact (list_elem_of_lookup_2 _ _ _ ex_grouped)|..];
    (split; [exact Hp|]; split; [|exact (Hns eq_refl)]; eexists; vm_compute; left).
Defined.

Lemma eviction_node_is_pod_name_witness :
  let pod := mkPod (mkMeta "api-1" "shop" ∅ 0%Z None 0) [] "node-1" [] [] "Failed" "Evicted" "" [] [] [] "" in
  exists s, checkEviction pod 9%Z = Some s /\ mget (sig_Metadata s) "nodeName" = "node-1" /\ eviction_node s = "api-1".
Proof. intros pod. eexists. split; [reflexivity|]. apply (eviction_node_is_pod_name pod 9%Z). reflexivity. Defined.
