(* ===== verification/Executor.v ===== *)
(** * Applying, rolling back and verifying a remediation
    (internal/remediation/executor.go, rollback.go, verifier.go).

    [encoding/json] on the persona spec is the class [SpecCodec]; merging and
    everything around it are the program's own. *)

From S2P Require Import Prelude GoString GoNum Json ApiTypes KubeTypes Client Safety Signals Correlator.
From Stdlib Require Import String Ascii.
From stdpp Require Import strings.
Open Scope string_scope.

(** [json.Marshal(persona.Spec)] and [json.Unmarshal(..., &spec)]. *)
Class SpecCodec := {
  marshal_spec : ApplicationPersonaSpec -> gmap string json;
  unmarshal_spec : gmap string json -> result string ApplicationPersonaSpec;
}.

Definition kindApplicationPersona : string := "ApplicationPersona".

(** ** executor.go *)

(** [validatePreconditions]: the reason of the refusal, if any. *)
Definition validatePreconditions (action : RemediationAction) : option string :=
  let detail := ra_Action (ra_Spec action) in
  if negb (ra_Phase action =? phaseApproved) then
    Some ("action must be in Approved phase, got " ++ fmt_q (ra_Phase action))
  else if negb (ad_Type detail =? "persona-update") then
    Some ("unsupported action type " ++ fmt_q (ad_Type detail) ++ ", only persona-update is supported")
  else match ad_Patch detail with
  | None | Some RawEmpty => Some "patch must not be nil or empty"
  | Some patch =>
      match ad_PrePatchState detail with
      | None | Some RawEmpty => Some "prePatchState must not be nil or empty (required for rollback)"
      | Some _ =>
          match unmarshal_map patch with
          | Err e => Some ("patch is not valid JSON: " ++ e)
          | Ok _ => None
          end
      end
  end.

(** The spec a patch turns the given spec into. *)
Definition patched_spec `{SpecCodec} (spec : ApplicationPersonaSpec) (patchRaw : raw_json)
  : result error ApplicationPersonaSpec :=
  match unmarshal_map patchRaw with
  | Err e => Err (ErrWrap "unmarshalling patch" (ErrText e))
  | Ok patchWrapper =>
      match patchWrapper !! "spec" with
      | None => Err (ErrText "patch must contain a 'spec' key")
      | Some specPatch =>
          match jsonMergePatch (RawDoc (JObj (marshal_spec spec))) (RawDoc specPatch) with
          | Err e => Err (ErrWrap "merging patch" (ErrText e))
          | Ok merged =>
              match unmarshal_map merged with
              | Err e => Err (ErrWrap "unmarshalling merged spec" (ErrText e))
              | Ok m => match unmarshal_spec m with
                        | Err e => Err (ErrWrap "unmarshalling merged spec" (ErrText e))
                        | Ok mergedSpec => Ok mergedSpec
                        end
              end
          end
      end
  end.

Definition persona_key (action : RemediationAction) : ObjectKey :=
  mkKey (pr_Name (ra_PersonaRef (ra_Spec action))) (target_namespace action).

Section executor.
Context `{Client W} `{SpecCodec}.

Definition applyPatch (persona : ApplicationPersona) (patchRaw : raw_json) : io W (result error unit) :=
  match patched_spec (ap_Spec persona) patchRaw with
  | Err e => ierr e
  | Ok mergedSpec =>
      let* _ := wrap_io "updating ApplicationPersona" (updatePersona (ap_set_spec mergedSpec persona)) in
      iok tt
  end.

(** [getTargetPersona]; the executor's and the rollback's differ in one text. *)
Definition getTargetPersona (action : RemediationAction) (hint : string) : io W (result error ApplicationPersona) :=
  let kind := pr_Kind (ra_PersonaRef (ra_Spec action)) in
  if negb (kind =? kindApplicationPersona) then
    ierr (ErrText ("unsupported persona kind " ++ fmt_q kind ++ hint))
  else
    let key := persona_key action in
    wrap_io ("getting ApplicationPersona " ++ key_Namespace key ++ "/" ++ key_Name key) (getPersona key).

(** [(e *Executor) Apply]. *)
Definition Executor_Apply (action : RemediationAction) : io W (result error unit) :=
  match validatePreconditions action with
  | Some reason => ierr (ErrPrecondition reason)
  | None =>
      let* persona := wrap_io "getting target persona"
                        (getTargetPersona action ", only ApplicationPersona is supported") in
      match m_DeletionTimestamp (ap_Meta persona) with
      | Some _ => ierr (ErrText ("target persona " ++ ap_Namespace persona ++ "/" ++ ap_Name persona
                                 ++ " is being deleted"))
      | None =>
          wrap_io "applying patch" (applyPatch persona (default RawEmpty (ad_Patch (ra_Action (ra_Spec action)))))
      end
  end.

(** ** rollback.go *)

Definition Rollback_Execute (action : RemediationAction) : io W (result error unit) :=
  match ra_Rollback (ra_Spec action) with
  | Some rb =>
      if negb (rb_Enabled rb) then ierr (ErrText ("rollback is not enabled for action " ++ ra_Name action)) else
      match ad_PrePatchState (ra_Action (ra_Spec action)) with
      | None | Some RawEmpty =>
          ierr (ErrText ("prePatchState is nil or empty for action " ++ ra_Name action ++ ", cannot rollback"))
      | Some pre =>
          let* persona := wrap_io "getting target persona for rollback" (getTargetPersona action "") in
          wrap_io "applying rollback patch" (applyPatch persona pre)
      end
  | None => ierr (ErrText ("rollback is not enabled for action " ++ ra_Name action))
  end.

(** ** verifier.go *)

Definition incident_key (action : RemediationAction) : ObjectKey :=
  let ref := ra_IncidentRef (ra_Spec action) in
  mkKey (ir_Name ref) (if (ir_Namespace ref =? "") then ra_Namespace action else ir_Namespace ref).

Definition Verifier_getIncident (action : RemediationAction) : io W (result error IncidentMemory) :=
  let key := incident_key action in
  wrap_io ("getting IncidentMemory " ++ key_Namespace key ++ "/" ++ key_Name key) (getIncident key).
End executor.

Inductive VerificationResult := VerificationHealthy | VerificationDegraded | VerificationUnknown.
#[export] Instance VerificationResult_eq_dec : EqDecision VerificationResult.
Proof. solve_decision. Defined.
Definition verification_string (v : VerificationResult) : string :=
  match v with
  | VerificationHealthy => "Healthy" | VerificationDegraded => "Degraded" | VerificationUnknown => "Unknown"
  end.

(** The signal is attributed to that persona. *)
Definition signal_of_persona (name namespace : string) (s : Signal) : bool :=
  match sig_PersonaRef s with
  | None => false
  | Some ref => (pr_Name ref =? name) && (pr_Namespace ref =? namespace)
  end.
Definition hasSignalForPersona (signals : list Signal) (signalType name namespace : string) : bool :=
  existsb (fun s => (sig_Type s =? signalType) && signal_of_persona name namespace s) signals.
Definition hasNewCriticalSignals (signals : list Signal) (name namespace : string) : bool :=
  existsb (fun s => (sig_Severity s =? SeverityCritical) && signal_of_persona name namespace s) signals.

(** The verdict on a set of signals: the body of [Verify] after its two reads. *)
Definition verify_signals (signals : list Signal) (incident : IncidentMemory) (action : RemediationAction)
  : VerificationResult :=
  let ref := ra_PersonaRef (ra_Spec action) in
  if hasSignalForPersona signals (di_Signal (im_Detection (im_Spec incident))) (pr_Name ref) (pr_Namespace ref)
  then VerificationDegraded
  else if hasNewCriticalSignals signals (pr_Name ref) (pr_Namespace ref) then VerificationDegraded
  else VerificationHealthy.

(** [Verify] returns a verdict in every case, and an error beside Unknown. *)
Definition Verify `{Client W} (collectAll : io W (result error (list Signal))) (action : RemediationAction)
  : io W (VerificationResult * option error) :=
  let! collected := collectAll in
  match collected with
  | Err e => mret (VerificationUnknown, Some (ErrWrap "collecting signals" e))
  | Ok signals =>
      let! incident := Verifier_getIncident action in
      match incident with
      | Err e => mret (VerificationUnknown, Some (ErrWrap "getting incident" e))
      | Ok incident => mret (verify_signals signals incident action, None)
      end
  end.

(** ** Properties *)

(** [*PreconditionError] is the operator's own type: the API client never returns one. *)
Class ClientErrors `{Client W} : Prop := {
  getPersona_error k w e : (getPersona k w).1 = Err e -> as_precondition e = None;
  updatePersona_error p w e : (updatePersona p w).1 = Err e -> as_precondition e = None;
}.

Lemma validatePreconditions_None action :
  validatePreconditions action = None <->
  ra_Phase action = "Approved" /\ ad_Type (ra_Action (ra_Spec action)) = "persona-update" /\
  exists patch pre obj, ad_Patch (ra_Action (ra_Spec action)) = Some patch /\
    ad_PrePatchState (ra_Action (ra_Spec action)) = Some pre /\ pre <> RawEmpty /\ unmarshal_map patch = Ok obj.
Proof.
  unfold validatePreconditions, phaseApproved.
  destruct (String.eqb_spec (ra_Phase action) "Approved"); cbn [negb]; [|naive_solver].
  destruct (String.eqb_spec (ad_Type (ra_Action (ra_Spec action))) "persona-update"); cbn [negb]; [|naive_solver].
  destruct (ad_Patch _) as [patch|]; [|naive_solver].
  destruct (ad_PrePatchState _) as [pre|]; [|destruct patch; naive_solver].
  destruct patch as [|why|v].
  - split; [done|]. intros (_ & _ & patch & pre' & obj & [= <-] & _ & _ & Ho). done.
  - destruct pre; (split; [done|]); intros (_ & _ & patch & pre' & obj & [= <-] & _ & _ & Ho); done.
  - destruct pre as [|why|u]; [split; [done|]; by intros (_ & _ & patch & pre' & obj & _ & [= <-] & ? & _)|..];
      (destruct (unmarshal_map (RawDoc v)) as [obj|er] eqn:Hu;
       [split; [intros _; split_and!; try done; eexists _, _, obj; split_and!; done|done]
       |split; [done|]; intros (_ & _ & patch & pre' & obj & [= <-] & _ & _ & Ho); congruence]).
Qed.

Section executor_props.
Context `{Client W} `{SpecCodec}.

Lemma Executor_error_precondition `{!ClientErrors} (action : RemediationAction) (w w' : W) (e : error) :
  Executor_Apply action w = (Err e, w') ->
  as_precondition e = validatePreconditions action /\
  (validatePreconditions action <> None -> w' = w).
Proof.
  unfold Executor_Apply. destruct (validatePreconditions action) as [reason|]; [by intros [= <- <-]|].
  intros Hrun. split; [|done]. revert Hrun. unfold iobind, wrap_io, getTargetPersona.
  destruct (negb _); [by intros [= <- <-]|]. unfold wrap_io.
  pose proof (getPersona_error (persona_key action) w) as Hg.
  destruct (getPersona (persona_key action) w) as [[p|e1] w1]; cbn [wrap_err map_err fst] in *;
    [|by intros [= <- <-]; cbn; apply Hg].
  destruct (m_DeletionTimestamp (ap_Meta p)); [by intros [= <- <-]|]. unfold applyPatch.
  destruct (patched_spec (ap_Spec p) _) as [s|e2] eqn:Hp.
  - unfold iobind, wrap_io. pose proof (updatePersona_error (ap_set_spec s p) w1) as Hu.
    destruct (updatePersona (ap_set_spec s p) w1) as [[p'|e3] w2]; cbn in *; [done|]. by intros [= <- <-]; cbn; apply Hu.
  - intros [= <- <-]. cbn. unfold patched_spec in Hp. repeat case_match; by simplify_eq.
Qed.

(** A refusal is a refusal: whenever [Apply] reports a [*PreconditionError],
    the reason is the one [validatePreconditions] gave and the cluster has not
    even been read, let alone written; and no other failure of [Apply] reads as
    one, so the failure cooldown can tell the two apart. *)
Theorem Executor_refusal_writes_nothing `{!ClientErrors} (action : RemediationAction) (w w' : W) (e : error) :
  Executor_Apply action w = (Err e, w') ->
  as_precondition e = validatePreconditions action /\
  (validatePreconditions action <> None -> w' = w).
Proof. apply Executor_error_precondition. Qed.

(** C23. A successful [Apply] did exactly one write: the persona named by an
    approved persona-update, not being deleted, now holds its own spec with
    the patch's [spec] merged in, and nothing else of it changed. *)
Theorem Executor_Apply_ok (action : RemediationAction) (w w' : W) :
  Executor_Apply action w = (Ok tt, w') ->
  validatePreconditions action = None /\ pr_Kind (ra_PersonaRef (ra_Spec action)) = "ApplicationPersona" /\
  exists patch p w1 spec' p',
    ad_Patch (ra_Action (ra_Spec action)) = Some patch /\
    getPersona (persona_key action) w = (Ok p, w1) /\ m_DeletionTimestamp (ap_Meta p) = None /\
    patched_spec (ap_Spec p) patch = Ok spec' /\
    updatePersona (ap_set_spec spec' p) w1 = (Ok p', w').
Proof.
  unfold Executor_Apply. destruct (validatePreconditions action) as [reason|] eqn:Hv; [done|]. intros Hrun.
  split; [done|]. apply validatePreconditions_None in Hv as (_ & _ & patch & pre & obj & Hpatch & _).
  revert Hrun. unfold iobind, wrap_io, getTargetPersona, kindApplicationPersona.
  destruct (String.eqb_spec (pr_Kind (ra_PersonaRef (ra_Spec action))) "ApplicationPersona") as [Hk|];
    cbn [negb]; [|done]. intros Hrun. split; [done|]. revert Hrun. unfold wrap_io.
  destruct (getPersona (persona_key action) w) as [[p|e1] w1]; cbn [wrap_err map_err]; [|done].
  destruct (m_DeletionTimestamp (ap_Meta p)) eqn:Hdel; [done|]. rewrite Hpatch. change (default RawEmpty (Some patch)) with patch. unfold applyPatch.
  destruct (patched_spec (ap_Spec p) patch) as [s|e2] eqn:Hp; [|done]. unfold iobind, wrap_io.
  destruct (updatePersona (ap_set_spec s p) w1) as [[p'|e3] w2] eqn:Hu; cbn; [|done]. intros [= <-].
  exists patch, p, w1, s, p'. by split_and!.
Qed.

Lemma patched_spec_nested spec k ks v :
  patched_spec spec (RawDoc (JObj {["spec" := nested (k :: ks) v]})) =
  match unmarshal_spec (mergeMaps (marshal_spec spec) {[k := nested ks v]}) with
  | Err e => Err (ErrWrap "unmarshalling merged spec" (ErrText e))
  | Ok s => Ok s
  end.
Proof. unfold patched_spec. cbn [unmarshal_map]. by rewrite lookup_singleton_eq. Qed.

(** Rolling back a one-field remediation restores the persona: when the
    pre-patch state holds the value the field had, and the spec the executor
    stored says no more and no less than the merged document, then applying
    the pre-patch state as a patch gives back the original spec. *)
Theorem rollback_restores_spec (spec spec1 : ApplicationPersonaSpec) (k : string) (ks : list string) (old new : json) :
  json_at (k :: ks) (JObj (marshal_spec spec)) = Some old -> json_leaf old = true -> json_leaf new = true ->
  unmarshal_spec (marshal_spec spec) = Ok spec ->
  patched_spec spec (RawDoc (JObj {["spec" := nested (k :: ks) new]})) = Ok spec1 ->
  marshal_spec spec1 = mergeMaps (marshal_spec spec) {[k := nested ks new]} ->
  patched_spec spec1 (RawDoc (JObj {["spec" := nested (k :: ks) old]})) = Ok spec.
Proof.
  intros Hat Hold Hnew Hcodec _ Hmar. rewrite patched_spec_nested, Hmar, mergeMaps_nested_rollback by done.
  by rewrite Hcodec.
Qed.
End executor_props.

(** *** Verification *)

(** A remediation is verified healthy exactly when the current signals hold,
    for the persona it was applied to, neither the signal that opened the
    incident nor any critical one; a verdict other than Unknown is reported
    exactly when both reads succeeded. *)
Theorem Verify_healthy_iff `{Client W} (collectAll : io W (result error (list Signal)))
    (action : RemediationAction) (w : W) :
  let r := (Verify collectAll action w).1 in
  let ref := ra_PersonaRef (ra_Spec action) in
  (r.2 = None <-> r.1 <> VerificationUnknown) /\
  (r.1 = VerificationHealthy <->
   exists signals w1 incident, collectAll w = (Ok signals, w1) /\
     (Verifier_getIncident action w1).1 = Ok incident /\
     forall s, s ∈ signals -> signal_of_persona (pr_Name ref) (pr_Namespace ref) s = true ->
       sig_Type s <> di_Signal (im_Detection (im_Spec incident)) /\ sig_Severity s <> SeverityCritical).
Proof.
  cbv zeta. unfold Verify, mbind, io_bind. destruct (collectAll w) as [[signals|e] w1];
    [|split; [split; [done|by intros []]|split; [done|by intros (? & ? & ? & [=] & _)]]].
  destruct (Verifier_getIncident action w1) as [[incident|e] w2] eqn:Hi; cbn [mret io_ret fst snd];
    [|split; [split; [done|by intros []]|split; [done|]; intros (? & ? & ? & [= <- <-] & Hi' & _); by rewrite Hi in Hi']].
  unfold verify_signals. set (has := hasSignalForPersona _ _ _ _). set (crit := hasNewCriticalSignals _ _ _).
  split; [destruct has, crit; done|].
  set (mine := signal_of_persona _ _).
  assert (Hex : forall (p : Signal -> bool), existsb (fun s => p s && mine s) signals = false <->
    forall s, s ∈ signals -> mine s = true -> p s = false).
  { intros p. rewrite existsb_not_elem. split; intros Hall s Hs; specialize (Hall s Hs);
      destruct (p s), (mine s); naive_solver. }
  assert (Hhas : has = false <-> forall s, s ∈ signals -> mine s = true ->
    sig_Type s <> di_Signal (im_Detection (im_Spec incident))).
  { unfold has, hasSignalForPersona. fold mine.
    rewrite (Hex (fun s => (sig_Type s =? _)%string)). by setoid_rewrite String.eqb_neq. }
  assert (Hcrit : crit = false <-> forall s, s ∈ signals -> mine s = true -> sig_Severity s <> SeverityCritical).
  { unfold crit, hasNewCriticalSignals. fold mine.
    rewrite (Hex (fun s => (sig_Severity s =? _)%string)). by setoid_rewrite String.eqb_neq. }
  split.
  - intros Hv. exists signals, w1, incident. rewrite Hi. split_and!; [done..|].
    destruct has, crit; try done. intros s Hs Hp. split; [by apply Hhas|by apply Hcrit].
  - intros (sigs & w1' & inc & [= <- <-] & Hinc & Hall). rewrite Hi in Hinc. simpl in Hinc. simplify_eq.
    assert (has = false) as -> by (apply Hhas; intros; by apply Hall).
    by assert (crit = false) as -> by (apply Hcrit; intros; by apply Hall).
Qed.

(** ** Witnesses *)

#[local] Existing Instance int_quantity.

#[export] Instance mem_client_errors `{QuantityOps} : ClientErrors (W := Mem).
Proof.
  split.
  - intros k w e. cbn. unfold mem_get. destruct (mem_personas w !! k); [done|]. by intros [= <-].
  - intros p w e. cbn. unfold mem_write, pop_fault. destruct (mem_faults w) as [|[k|] fs]; cbn; try done. by intros [= <-].
Qed.

(** A codec for personas of which only the name and the memory limit vary. *)
Definition ex_limits (name memory : string) : ApplicationPersonaSpec :=
  mkAPSpec name "1" "api" "standard" None
    (Some (mkResources None (Some (mkResourceValues "" memory)) "")) None None [] None None None.
Definition str_at (path : list string) (v : json) : string :=
  match json_at path v with Some (JStr s) => s | _ => "" end.
#[export] Instance ex_codec : SpecCodec := {|
  marshal_spec spec := {["name" := JStr (aps_Name spec); "resources" := nested ["limits"; "memory"]
    (JStr match aps_Resources spec with Some (mkResources _ (Some l) _) => rv_Memory l | _ => "" end)]};
  unmarshal_spec m :=
    Ok (ex_limits (str_at ["name"] (JObj m)) (str_at ["resources"; "limits"; "memory"] (JObj m)));
|}.

Definition ex_patch (memory : string) : raw_json :=
  RawDoc (JObj {["spec" := nested ["resources"; "limits"; "memory"] (JStr memory)]}).
Definition ex_limited (memory : string) : ApplicationPersona :=
  mkAP (mkMeta "api" "shop" ∅ 0%Z None 0) (ex_limits "api" memory) empty_status ∅.
Definition ex_target : Mem :=
  mkMem _ (2000 * second)%Z ∅ {[mkKey "api" "shop" := ex_limited "100"]} ∅ [] ∅ [] [] [] None.

Lemma Executor_Apply_ok_witness :
  let action := ex_ra "ra-1" "Approved" (Some (ex_patch "150")) (Some (ex_patch "100")) None [] in
  (Executor_Apply action ex_target).1 = Ok tt /\
  exists p spec', (getPersona (persona_key action) ex_target).1 = Ok p /\
    patched_spec (ap_Spec p) (ex_patch "150") = Ok spec' /\ spec' = ex_limits "api" "150".
Proof.
  intros action. assert (Hok : (Executor_Apply action ex_target).1 = Ok tt) by (vm_compute; reflexivity).
  split; [exact Hok|].
  destruct (Executor_Apply_ok action ex_target (Executor_Apply action ex_target).2) as (_ & _ & patch & p & w1 & s & p' & Hp & Hg & _ & Hs & _).
  { rewrite <- Hok. apply surjective_pairing. }
  exists p, s. injection Hp as <-. rewrite Hg. split; [reflexivity|]. split; [exact Hs|].
  assert (Hp : (getPersona (persona_key action) ex_target).1 = Ok (ex_limited "100")) by (vm_compute; reflexivity).
  rewrite Hg in Hp. injection Hp as ->.
  assert (H150 : patched_spec (ex_limits "api" "100") (ex_patch "150") = Ok (ex_limits "api" "150")) by (vm_compute; reflexivity).
  change (patched_spec (ex_limits "api" "100") (ex_patch "150") = Ok s) in Hs. rewrite H150 in Hs. by injection Hs as <-.
Defined.

Lemma Executor_refusal_writes_nothing_witness :
  let action := ex_ra "ra-1" "Pending" (Some (ex_patch "150")) (Some (ex_patch "100")) None [] in
  exists e, (Executor_Apply action ex_target).1 = Err e /\ is_Some (as_precondition e) /\
    (Executor_Apply action ex_target).2 = ex_target.
Proof.
  intros action. eexists. split; [reflexivity|]. split; [by eexists|].
  apply (Executor_refusal_writes_nothing action ex_target _ (ErrPrecondition ("action must be in Approved phase, got " ++ fmt_q "Pending"))); [reflexivity|discriminate].
Defined.

Lemma rollback_restores_spec_witness :
  patched_spec (ex_limits "api" "150") (ex_patch "100") = Ok (ex_limits "api" "100").
Proof.
  apply (rollback_restores_spec (ex_limits "api" "100") (ex_limits "api" "150") "resources" ["limits"; "memory"]
    (JStr "100") (JStr "150")); vm_compute; reflexivity.
Defined.
