(* ===== verification/Ownership.v ===== *)
(** * Owner-shaped plans (internal/remediation/proposer_ownership.go) and the
    shared prose helpers of blast_radius_notice.go and proposer_grounding.go.

    A workload that someone else owns is never offered a command that writes to
    it: the step says what to change in the owner's own source of truth. *)

From S2P Require Import Prelude GoString GoNum Json ApiTypes KubeTypes Steps KubectlVerb.
From Stdlib Require Import String Ascii.
From stdpp Require Import strings.
Open Scope string_scope.

(** ** Prose helpers *)

Definition is_alnum (c : ascii) : bool := is_lower c || is_upper c || is_digit c.

(** [strings.TrimRight(s, cutset)] for a one-byte cutset. *)
Fixpoint trim_right_byte (b : ascii) (s : string) : string :=
  match s with
  | "" => ""
  | String c s' => match trim_right_byte b s' with
                   | "" => if Ascii.eqb c b then "" else String c ""
                   | r => String c r
                   end
  end.

Fixpoint last_byte (s : string) : option ascii :=
  match s with "" => None | String c "" => Some c | String _ s' => last_byte s' end.

Definition endSentence (text : string) : string :=
  let trimmed := trim_right_byte " " text in
  match last_byte trimmed with
  | None => trimmed
  | Some last => if is_alnum last then trimmed ++ "." else trimmed
  end.

Definition appendNote (existing note : string) : string :=
  if (existing =? "") then note
  else if contains existing note then existing
  else endSentence existing ++ " " ++ note.

(** "a", "a and b", "a, b and c". *)
Definition humanFieldList (fields : list string) : string :=
  match fields with
  | [] => "the proposed value"
  | [f] => f
  | _ => strings_join ", " (removelast fields) ++ " and " ++ List.last fields ""
  end.

Definition pathPrefixLimits : string := "spec.resources.limits.".
Definition pathPrefixRequests : string := "spec.resources.requests.".
Definition resourceKeyCPU : string := "cpu".
Definition resourceKeyMemory : string := "memory".

(** [path[strings.LastIndex(path, ".")+1:]]. *)
Definition last_segment (path : string) : string :=
  match cut_last "."%char path with Some (_, leaf) => leaf | None => path end.

Definition isResourcePath (path : string) : bool :=
  if negb (has_prefix path pathPrefixLimits) && negb (has_prefix path pathPrefixRequests) then false
  else let leaf := last_segment path in (leaf =? resourceKeyCPU) || (leaf =? resourceKeyMemory).

(** [resolved]: the reference describes a workload that was found. *)
Definition resolved (ref : option WorkloadRef) : bool :=
  match ref with Some r => negb (wr_Name r =? "") | None => false end.

(** ** Leaf values of a patch *)

Fixpoint leaf_values (prefix : string) (node : json) (out : gmap string string) : gmap string string :=
  match node with
  | JObj m => map_fold (fun key val out =>
      match val with
      | JObj _ => leaf_values (path_join prefix key) val out
      | JStr typed => <[path_join prefix key := typed]> out
      | _ => out
      end) out m
  | _ => out
  end.

Definition patchLeafValues (raw : raw_json) : gmap string string :=
  if raw_len0 raw then ∅ else
  match unmarshal_map raw with
  | Err _ => ∅
  | Ok root => leaf_values "" (JObj root) ∅
  end.

(** ** Resource changes *)

Record resourceChange := mkChange { rch_Key : string; rch_Value : string }.

(** [collect]: the resource leaves of one patch, later patches overriding. *)
Definition collect_changes (raw : raw_json) (seen : gmap string string) : gmap string string :=
  if raw_len0 raw then seen else
  map_fold (fun path value seen =>
    if isResourcePath path then <[trim_prefix path "spec." := value]> seen else seen) seen (patchLeafValues raw).

Definition step_patches (action : RemediationAction) : list raw_json :=
  omap (fun step => if (st_Type step =? StepTypePersonaUpdate) then st_Patch step else None) (ra_Steps (ra_Spec action)).

Definition map_keys {A} (m : gmap string A) : list string := map fst (map_to_list m).

Definition proposedResourceChanges (action : RemediationAction) : list resourceChange :=
  let patches := (step_patches action ++ option_list (ad_Patch (ra_Action (ra_Spec action))))%list in
  let seen := foldl (fun seen raw => collect_changes raw seen) ∅ patches in
  omap (fun k => mkChange k <$> seen !! k) (sort_strings (map_keys seen)).

Definition describeChanges (changes : list resourceChange) : string :=
  match changes with
  | [] => ""
  | _ => "Set " ++ humanFieldList (map (fun c => rch_Key c ++ ": " ++ rch_Value c) changes)
  end.

(** ** The owner's words *)

(** [ownerSourceOfTruth]: where the desired state lives, and how it reaches the cluster. *)
Definition ownerSourceOfTruth (ref : WorkloadRef) : string * string :=
  let owner dflt := if (wr_ManagedByDetail ref =? "") then dflt else wr_ManagedByDetail ref in
  if (wr_ManagedBy ref =? ManagedByHelm) then
    ("the values for " ++ owner "the Helm release that owns this Deployment"
       ++ " (the key is chart-specific, commonly under `resources`)",
     "run your usual `helm upgrade` for that release")
  else if (wr_ManagedBy ref =? ManagedByArgoCD) then
    ("the Git manifests for " ++ owner "the ArgoCD application that owns this Deployment",
     "commit and let ArgoCD sync")
  else if (wr_ManagedBy ref =? ManagedByFlux) then
    ("the Git source reconciled by " ++ owner "the Flux resource that owns this Deployment",
     "commit and let Flux reconcile it")
  else if (wr_ManagedBy ref =? ManagedByKustomize) then
    ("your kustomize overlay for this Deployment", "re-apply the overlay")
  else if negb (resolved (Some ref)) then
    ("whatever manages this application (Dorgu could not resolve its Deployment)", "")
  else
    let detail := trim_space (wr_ManagedByDetail ref) in
    if negb (detail =? "") then ("whatever manages Deployment " ++ wr_Name ref ++ " (" ++ detail ++ ")", "")
    else ("whatever manages Deployment " ++ wr_Name ref ++ " (Dorgu could not identify it)", "").

Definition ownerInstruction (ref : WorkloadRef) (changes : list resourceChange) (fallback : string) : string :=
  let described := describeChanges changes in
  let what := if (described =? "") then
                let what := trim_right_byte "." (trim_space fallback) in
                if (what =? "") then "Apply this change" else what
              else described in
  let '(where_, how) := ownerSourceOfTruth ref in
  if (how =? "") then what ++ " in " ++ where_ ++ "."
  else what ++ " in " ++ where_ ++ ", then " ++ how ++ ".".

Definition whyDorguWillNotPatch (ref : WorkloadRef) : string :=
  let owner dflt := if (wr_ManagedByDetail ref =? "") then dflt else wr_ManagedByDetail ref in
  if (wr_ManagedBy ref =? ManagedByHelm) then
    "Dorgu will not patch this Deployment because " ++ owner "a Helm release"
      ++ " owns it: a direct patch claims the fields it sets, and the next `helm upgrade` then fails with a field-manager conflict."
  else if (wr_ManagedBy ref =? ManagedByArgoCD) then
    "Dorgu will not patch this Deployment because " ++ owner "an ArgoCD application"
      ++ " owns it: a direct patch is reverted on the next sync, or fails outright under server-side apply."
  else if (wr_ManagedBy ref =? ManagedByFlux) then
    "Dorgu will not patch this Deployment because " ++ owner "a Flux controller"
      ++ " reconciles it: a direct patch is reverted on the next reconciliation."
  else if (wr_ManagedBy ref =? ManagedByKustomize) then
    "Dorgu will not patch this Deployment because a kustomize overlay owns it: a direct patch is overwritten the next time the overlay is applied."
  else if negb (resolved (Some ref)) then
    "Dorgu could not resolve the Deployment for this application, so it cannot tell what owns it and will not suggest a command that writes to it. Unresolved is treated as owned."
  else
    let detail := trim_space (wr_ManagedByDetail ref) in
    if negb (detail =? "") then
      "Dorgu will not patch this Deployment. What it can see: " ++ detail
        ++ ". It cannot tell what that manager belongs to, and unknown is treated as owned, because a patch that collides with an unseen owner breaks their next deploy."
    else "Dorgu could not identify what manages this Deployment, so it will not patch it. Unknown is treated as owned, because a patch that collides with an unseen owner breaks their next deploy.".

(** ** Shaping the plan *)

Definition set_step_text (command description rationale : string) (s : RemediationStep) : RemediationStep :=
  mkStep (st_Order s) (st_ID s) (st_Type s) description rationale (st_Risk s) (st_AutoExecutable s) command
    (st_Patch s) (st_PrePatchState s) (st_Safety s).

Definition set_plan (steps : list RemediationStep) (summary : string) (action : RemediationAction) : RemediationAction :=
  let s := ra_Spec action in
  mkRA (ra_Meta action) (mkRASpec (ra_IncidentRef s) (ra_PersonaRef s) (ra_TrustLevel s) (ra_Action s) steps
    (ra_PlanSource s) summary (ra_Explanation s) (ra_Confidence s) (ra_WorkloadRef s) (ra_Approval s) (ra_Rollback s))
    (ra_Status action).

(** A step the owner's next apply would fight over. *)
Definition reshaped (step : RemediationStep) : bool :=
  negb (st_Type step =? StepTypePersonaUpdate) && writesWorkload (st_Command step).

Definition reshape (ref : WorkloadRef) (changes : list resourceChange) (reason : string) (step : RemediationStep)
  : RemediationStep :=
  if reshaped step then
    set_step_text "" (ownerInstruction ref changes (st_Description step)) (appendNote (st_Rationale step) reason) step
  else step.

(** [applyOwnershipShaping].  The reference is never nil here: a workload that
    could not be read is the unresolved placeholder, and the text helpers
    dereference it. *)
Definition applyOwnershipShaping (action : RemediationAction) (ref : WorkloadRef) : RemediationAction :=
  if negb (WorkloadRef_IsOwned (Some ref)) then action else
  let changes := proposedResourceChanges action in
  let reason := whyDorguWillNotPatch ref in
  let steps := ra_Steps (ra_Spec action) in
  set_plan (map (reshape ref changes reason) steps)
    (if existsb reshaped steps then appendNote (ra_PlanSummary (ra_Spec action)) reason
     else ra_PlanSummary (ra_Spec action)) action.

Definition strip_command (step : RemediationStep) : RemediationStep :=
  if writesWorkload (st_Command step) then set_step_text "" (st_Description step) (st_Rationale step) step else step.

Definition stripWorkloadWriteCommands (action : RemediationAction) (ref : option WorkloadRef) : RemediationAction :=
  if negb (WorkloadRef_IsOwned ref) then action else
  set_plan (map strip_command (ra_Steps (ra_Spec action))) (ra_PlanSummary (ra_Spec action)) action.

(** ** Properties *)

(** Everything of a step but its command and its prose. *)
Definition step_core (s : RemediationStep) : Z * string * string * string * bool * option raw_json * option raw_json * list StepSafety :=
  (st_Order s, st_ID s, st_Type s, st_Risk s, st_AutoExecutable s, st_Patch s, st_PrePatchState s, st_Safety s).

Lemma writesWorkload_empty : writesWorkload "" = false.
Proof. reflexivity. Qed.

Lemma reshape_clean ref changes reason s : reshaped (reshape ref changes reason s) = false.
Proof.
  unfold reshape. destruct (reshaped s) eqn:H; [|done]. unfold reshaped. simpl. by rewrite writesWorkload_empty, andb_false_r.
Qed.

Lemma map_reshape_clean ref changes reason l : existsb reshaped (map (reshape ref changes reason) l) = false.
Proof. induction l as [|s l IH]; [done|]. simpl. by rewrite reshape_clean. Qed.

Lemma map_reshape_id ref changes reason l :
  existsb reshaped l = false -> map (reshape ref changes reason) l = l.
Proof.
  induction l as [|s l IH]; [done|]. simpl. rewrite orb_false_iff. intros [Hs Hl].
  unfold reshape at 1. rewrite Hs. by rewrite IH.
Qed.


(** The last gate before persistence: on an owned workload no step of any type
    keeps a writing command, and no other command and no patch is touched; an
    unmanaged workload's plan passes through as it is. *)
Theorem stripWorkloadWriteCommands_spec (action : RemediationAction) (ref : option WorkloadRef) :
  let out := stripWorkloadWriteCommands action ref in
  (WorkloadRef_IsOwned ref = true -> forall s, s ∈ ra_Steps (ra_Spec out) -> writesWorkload (st_Command s) = false) /\
  (WorkloadRef_IsOwned ref = false -> out = action) /\
  map step_core (ra_Steps (ra_Spec out)) = map step_core (ra_Steps (ra_Spec action)) /\
  forall i s, ra_Steps (ra_Spec action) !! i = Some s -> writesWorkload (st_Command s) = false ->
    ra_Steps (ra_Spec out) !! i = Some s.
Proof.
  cbv zeta. unfold stripWorkloadWriteCommands. destruct (WorkloadRef_IsOwned ref); cbn [negb]; [|by split_and!].
  cbn [set_plan ra_Spec ra_Steps]. split_and!.
  - intros _ s (s0 & -> & _)%list_elem_of_fmap. unfold strip_command. by destruct (writesWorkload (st_Command s0)) eqn:E.
  - done.
  - rewrite map_map. apply map_ext. intros s. unfold strip_command. by destruct (writesWorkload (st_Command s)).
  - intros i s Hs Hw. rewrite list_lookup_fmap, Hs. simpl. unfold strip_command. by rewrite Hw.
Qed.
