(* ===== verification/Grounding.v ===== *)
(** * Grounding a plan in the live workload (internal/remediation/proposer_grounding.go)
    and pruning a patch (prunePatchPaths of proposer_ai_appliable.go).

    The persona is an import that drifts; what a plan may change, and what its
    cap is measured against, is read from the workload that runs. *)

From S2P Require Import Prelude GoString GoNum Json ApiTypes KubeTypes Ownership.
From Stdlib Require Import String Ascii.
From stdpp Require Import strings.
Open Scope string_scope.

(** ** The live values *)

Definition nonempty_value (v : string) : option string := if (v =? "") then None else Some v.

Definition section_value (section : option ResourceValues) (key : string) : option string :=
  match section with
  | None => None
  | Some s => if (key =? resourceKeyCPU) then nonempty_value (rv_CPU s)
              else if (key =? resourceKeyMemory) then nonempty_value (rv_Memory s) else None
  end.

(** [observedValue]: [None] is the [false] result. *)
Definition observedValue (ref : option WorkloadRef) (path : string) : option string :=
  match ref with
  | None => None
  | Some r =>
      if negb (resolved ref) then None else
      match wr_ObservedResources r with
      | None => None
      | Some o =>
          if has_prefix path pathPrefixLimits then section_value (or_Limits o) (trim_prefix path pathPrefixLimits)
          else if has_prefix path pathPrefixRequests then section_value (or_Requests o) (trim_prefix path pathPrefixRequests)
          else None
      end
  end.

(** ** Pruning *)

Definition split_path (path : string) : list string := split_byte "." path.

(** [prunePatchPaths]: [None] when nothing survives. *)
Definition prunePatchPaths (patch : option raw_json) (paths : list string) : option raw_json :=
  match patch with
  | None => None
  | Some raw =>
      if raw_len0 raw || (length paths =? 0)%nat then patch else
      match unmarshal_map raw with
      | Err _ => patch
      | Ok root =>
          let root := foldl (fun root path => deleteNestedPath root (split_path path)) root paths in
          if decide (root = ∅) then None else Some (RawDoc (JObj root))
      end
  end.

(** A resource leaf whose key the live container does not set. *)
Definition absent_resource (ref : option WorkloadRef) (path : string) : bool :=
  isResourcePath path && match observedValue ref path with Some _ => false | None => true end.

Definition dropAbsentResourceKeys (patch : option raw_json) (ref : option WorkloadRef) : option raw_json * list string :=
  match patch with
  | None => (None, [])
  | Some raw =>
      if raw_len0 raw || negb (resolved ref) then (patch, []) else
      match List.filter (absent_resource ref) (patchLeafPaths raw) with
      | [] => (patch, [])
      | dropped => let dropped := sort_strings dropped in (prunePatchPaths patch dropped, dropped)
      end
  end.

Definition sectionOf (path : string) : string := if has_prefix path pathPrefixRequests then "requests" else "limits".
Definition pluralField (n : nat) : string := if (n =? 1)%nat then "it" else "them".

Definition absentKeyNote (ref : WorkloadRef) (dropped : list string) : string :=
  let names := sort_strings (map (fun path => last_segment path ++ " (" ++ sectionOf path ++ ")") dropped) in
  "Left out " ++ humanFieldList names ++ ": container " ++ fmt_q (wr_Container ref) ++ " on " ++ wr_Name ref
  ++ " does not set " ++ pluralField (length names)
  ++ " today, and introducing a resource field as a side effect of another fix changes how the workload is scheduled and throttled. Ask for it as its own change if you want it.".

(** ** The pre-patch state of the live workload *)

Definition grounded_values (ref : option WorkloadRef) (paths : list string) : gmap string string :=
  foldl (fun values path => match observedValue ref path with Some live => <[path := live]> values | None => values end) ∅ paths.

Definition merge_value (values : gmap string string) (snapshot : gmap string json) (path : string) : gmap string json :=
  match values !! path with Some v => mergeNestedPath snapshot (split_path path) v | None => snapshot end.

Definition groundedPrePatch (patch : option raw_json) (ref : option WorkloadRef) : option raw_json :=
  match patch with
  | None => None
  | Some raw =>
      if raw_len0 raw || negb (resolved ref) then None else
      let values := grounded_values ref (patchLeafPaths raw) in
      if decide (values = ∅) then None
      else Some (RawDoc (JObj (foldl (merge_value values) ∅ (sort_strings (map_keys values)))))
  end.

Definition set_pre (pre : option raw_json) (s : RemediationStep) : RemediationStep :=
  mkStep (st_Order s) (st_ID s) (st_Type s) (st_Description s) (st_Rationale s) (st_Risk s) (st_AutoExecutable s)
    (st_Command s) (st_Patch s) pre (st_Safety s).
Definition set_detail_pre (pre : option raw_json) (d : RemediationActionDetail) : RemediationActionDetail :=
  mkActionDetail (ad_Type d) (ad_Patch d) pre.

Definition set_action (d : RemediationActionDetail) (action : RemediationAction) : RemediationAction :=
  let s := ra_Spec action in
  mkRA (ra_Meta action) (mkRASpec (ra_IncidentRef s) (ra_PersonaRef s) (ra_TrustLevel s) d (ra_Steps s)
    (ra_PlanSource s) (ra_PlanSummary s) (ra_Explanation s) (ra_Confidence s) (ra_WorkloadRef s) (ra_Approval s) (ra_Rollback s))
    (ra_Status action).
Definition set_steps (steps : list RemediationStep) (action : RemediationAction) : RemediationAction :=
  set_plan steps (ra_PlanSummary (ra_Spec action)) action.

Definition ground_detail (ref : option WorkloadRef) (d : RemediationActionDetail) : RemediationActionDetail :=
  match groundedPrePatch (ad_Patch d) ref with Some g => set_detail_pre (Some g) d | None => d end.
Definition ground_step (ref : option WorkloadRef) (s : RemediationStep) : RemediationStep :=
  match groundedPrePatch (st_Patch s) ref with Some g => set_pre (Some g) s | None => s end.

Definition groundedSafetyProbe (action : RemediationAction) (ref : option WorkloadRef) : RemediationAction :=
  if negb (resolved ref) then action else
  set_steps (map (ground_step ref) (ra_Steps (ra_Spec action)))
    (set_action (ground_detail ref (ra_Action (ra_Spec action))) action).

(** ** Paths and leaves *)

Definition leaf (v : json) : Prop := forall m, v <> JObj m.

(** The dot-joined spelling of a key list, as [patchLeafPaths] builds it. *)
Definition joined (ks : list string) : string := foldl path_join "" ks.

Lemma walk_elem v prefix p :
  p ∈ walk prefix v <->
  exists ks x, ks <> [] /\ json_at ks v = Some x /\ leaf x /\ p = foldl path_join prefix ks.
Proof.
  revert prefix. induction v as [v Hv|m IH] using json_obj_ind; intros prefix.
  { assert (walk prefix v = []) as -> by (destruct v; try done; by destruct (Hv m)). split; [by intros ?%not_elem_of_nil|].
    intros ([|k ks] & x & Hne & Hat & _); [done|]. destruct v; try done. by destruct (Hv m). }
  assert (Hw : p ∈ walk prefix (JObj m) <-> exists k x, m !! k = Some x /\
    (leaf x /\ p = path_join prefix k \/ (exists c, x = JObj c) /\ p ∈ walk (path_join prefix k) x)).
  { cbn [walk]. clear IH.
    apply (map_fold_weak_ind (fun acc m => p ∈ acc <-> exists k x, m !! k = Some x /\
      (leaf x /\ p = path_join prefix k \/ (exists c, x = JObj c) /\ p ∈ walk (path_join prefix k) x))).
    - split; [by intros ?%not_elem_of_nil|]. intros (k & x & Hk & _). by rewrite lookup_empty in Hk.
    - intros k x m' acc Hk Hacc.
      assert (Hone : p ∈ (match x with JObj _ => walk (path_join prefix k) x ++ acc | _ => path_join prefix k :: acc end)%list
        <-> (leaf x /\ p = path_join prefix k \/ (exists c, x = JObj c) /\ p ∈ walk (path_join prefix k) x) \/ p ∈ acc).
      { assert (Hleaf : leaf x -> p ∈ path_join prefix k :: acc <->
          (leaf x /\ p = path_join prefix k \/ (exists c, x = JObj c) /\ p ∈ walk (path_join prefix k) x) \/ p ∈ acc).
        { intros Hl. rewrite elem_of_cons. split; [naive_solver|]. intros [[[_ ->]|[(c & ->) _]]|]; [by left|by destruct (Hl c)|by right]. }
        destruct x; try (apply Hleaf; intros ?; discriminate). rewrite elem_of_app. split; [|].
        - intros [|]; [left; right; eauto|by right].
        - intros [[[Hl _]|[_ ?]]|]; [by destruct (Hl m0)|by left|by right]. }
      rewrite Hone, Hacc. split.
      + intros [Hx|(k' & x' & Hk' & Hx')]; [exists k, x; by rewrite lookup_insert_eq|].
        exists k', x'. rewrite lookup_insert_ne by congruence. done.
      + intros (k' & x' & Hk' & Hx'). apply lookup_insert_Some in Hk' as [[<- <-]|[Hne Hk']]; [by left|right; eauto]. }
  rewrite Hw. split.
  - intros (k & x & Hk & [[Hl ->]|[_ Hin]]).
    + exists [k], x. cbn. by rewrite Hk.
    + apply (IH k x Hk) in Hin as (ks & y & _ & Hat & Hl & ->). exists (k :: ks), y. cbn. by rewrite Hk.
  - intros ([|k ks] & x & Hne & Hat & Hl & ->); [done|]. cbn in Hat. destruct (m !! k) as [y|] eqn:Hk; [|done]. cbn in Hat.
    exists k, y. split; [done|]. destruct ks as [|k' ks]; [injection Hat as ->; by left|].
    right. destruct y as [| | | | |c]; try done. split; [eauto|]. apply (IH k (JObj c) Hk).
    exists (k' :: ks), x. done.
Qed.

(** A key a dot-joined path spells unambiguously. *)
Definition plain_key (k : string) : Prop := k <> "" /\ str_exists (Ascii.eqb ".") k = false.
Definition plain_keys (v : json) : Prop := forall ks x, json_at ks v = Some x -> Forall plain_key ks.

Lemma plain_keys_child m k v : plain_keys (JObj m) -> m !! k = Some v -> plain_keys v.
Proof. intros Hp Hk ks x Hat. specialize (Hp (k :: ks) x). cbn in Hp. rewrite Hk in Hp. apply Hp in Hat. by apply Forall_cons in Hat as [_ ?]. Qed.

Lemma split_plain k : str_exists (Ascii.eqb ".") k = false -> split_byte "." k = [k].
Proof.
  induction k as [|c k IH]; [done|]. cbn [split_byte str_exists]. intros [Hc Hk]%orb_false_iff. by rewrite Hc, IH.
Qed.
Lemma split_nonempty s : split_byte "." s <> [].
Proof. destruct s as [|c s]; cbn [split_byte]; [done|]. destruct (Ascii.eqb "." c); [done|]. by destruct (split_byte "." s). Qed.
Lemma split_snoc acc k : str_exists (Ascii.eqb ".") k = false ->
  split_byte "." (acc ++ "." ++ k) = (split_byte "." acc ++ [k])%list.
Proof.
  intros Hk. induction acc as [|c acc IH].
  - change (split_byte "." ("" ++ "." ++ k)) with ("" :: split_byte "." k). by rewrite split_plain.
  - change (String c acc ++ "." ++ k) with (String c (acc ++ "." ++ k)). cbn [split_byte]. rewrite IH. destruct (Ascii.eqb "." c); [done|].
    pose proof (split_nonempty acc). by destruct (split_byte "." acc).
Qed.
Lemma path_join_app p ks : p <> "" -> foldl path_join p ks = foldl (fun a k => a ++ "." ++ k) p ks.
Proof.
  revert p. induction ks as [|k ks IH]; intros p Hp; [done|]. cbn. unfold path_join at 2.
  destruct (String.eqb_spec p ""); [done|]. apply IH. by destruct p.
Qed.

Lemma split_joined ks : ks <> [] -> Forall plain_key ks -> split_path (joined ks) = ks.
Proof.
  intros Hne Hks. unfold split_path, joined. destruct ks as [|k ks]; [done|]. cbn [foldl].
  apply Forall_cons in Hks as [[Hk Hdot] Hks]. change (path_join "" k) with k. rewrite path_join_app by done. clear Hne Hk.
  enough (Hgen : forall acc, split_byte "." (foldl (fun a k => a ++ "." ++ k) acc ks) = (split_byte "." acc ++ ks)%list)
    by by rewrite Hgen, split_plain.
  induction ks as [|k' ks IH]; intros acc; [by rewrite app_nil_r|]. cbn [foldl].
  apply Forall_cons in Hks as [[_ Hdot'] Hks]. by rewrite IH, split_snoc, <- app_assoc.
Qed.

Lemma deleteNestedPath_step m s s' segs : deleteNestedPath m (s :: s' :: segs) =
  match m !! s with
  | Some (JObj child) =>
      if decide (deleteNestedPath child (s' :: segs) = ∅) then delete s m
      else <[s := JObj (deleteNestedPath child (s' :: segs))]> m
  | _ => m
  end.
Proof. done. Qed.

(** Deleting a path takes the leaves below it and leaves every other one. *)
Lemma deleteNestedPath_leaf segs : forall m ks x, segs <> [] -> ks <> [] -> leaf x ->
  json_at ks (JObj (deleteNestedPath m segs)) = Some x <-> json_at ks (JObj m) = Some x /\ ~ segs `prefix_of` ks.
Proof.
  induction segs as [|s segs IH]; intros m ks x Hs Hk Hx; [done|]. destruct ks as [|k ks]; [done|].
  destruct (decide (k = s)) as [->|Hne]; cycle 1.
  { assert (Hnp : ~ (s :: segs) `prefix_of` (k :: ks)) by (intros Hp; by apply prefix_cons_inv_1 in Hp).
    assert (Heq : deleteNestedPath m (s :: segs) !! k = m !! k).
    { cbn. destruct segs as [|s' segs]; [by rewrite lookup_delete_ne|]. destruct (m !! s) as [[| | | | |c]|]; try done.
      case_decide; [by rewrite lookup_delete_ne|by rewrite lookup_insert_ne]. }
    cbn [json_at]. rewrite Heq. tauto. }
  destruct segs as [|s' segs].
  { cbn [deleteNestedPath json_at]. rewrite lookup_delete_eq. split; [done|]. intros [_ Hn]. destruct Hn. by exists ks. }
  rewrite deleteNestedPath_step. cbn [json_at]. destruct (m !! s) as [v|] eqn:Hm; cycle 1.
  { cbn [json_at]. rewrite Hm. cbn. split; [done|by intros [? _]]. }
  destruct v as [| | | | |c];
    try (cbn beta iota; rewrite Hm; cbn; destruct ks as [|k ks]; cbn;
      (split; [intros Hat; first [discriminate Hat|split; [exact Hat|]; intros [tl Hl]; by simplify_list_eq]|by intros [? _]])).
  assert (Hsub : json_at ks (JObj (deleteNestedPath c (s' :: segs))) = Some x <->
    json_at ks (JObj c) = Some x /\ ~ (s :: s' :: segs) `prefix_of` (s :: ks)).
  { destruct ks as [|k ks].
    - cbn [json_at]. split; [intros [= Hx']; by destruct (Hx (deleteNestedPath c (s' :: segs)))|].
      intros [[= Hx'] _]. by destruct (Hx c).
    - rewrite (IH c (k :: ks) x) by done. split; intros [Hat Hn]; (split; [exact Hat|]); intros Hp; apply Hn;
        [by apply prefix_cons_inv_2 in Hp|by apply prefix_cons]. }
  case_decide as Hemp.
  - rewrite lookup_delete_eq. cbn. split; [done|]. intros H. apply Hsub in H. rewrite Hemp in H.
    destruct ks as [|k ks]; [injection H as Hx'; by destruct (Hx ∅)|]. cbn in H. by rewrite lookup_empty in H.
  - rewrite lookup_insert_eq. cbn. exact Hsub.
Qed.

(** The value a patch holds at a key list; a patch that is gone holds none. *)
Definition patch_at (ks : list string) (patch : option raw_json) : option json :=
  match patch with Some (RawDoc (JObj m)) => json_at ks (JObj m) | _ => None end.

Lemma delete_paths_leaf paths : forall m ks x, ks <> [] -> leaf x ->
  json_at ks (JObj (foldl (fun root path => deleteNestedPath root (split_path path)) m paths)) = Some x <->
  json_at ks (JObj m) = Some x /\ forall p, p ∈ paths -> ~ split_path p `prefix_of` ks.
Proof.
  induction paths as [|p paths IH]; intros m ks x Hk Hx; cbn [foldl].
  { split; [intros Hat; split; [done|by intros ? ?%not_elem_of_nil]|by intros [? _]]. }
  rewrite IH by done. rewrite deleteNestedPath_leaf by (done || apply split_nonempty).
  setoid_rewrite elem_of_cons. naive_solver.
Qed.

Lemma prunePatchPaths_leaf m paths ks x : ks <> [] -> leaf x ->
  patch_at ks (prunePatchPaths (Some (RawDoc (JObj m))) paths) = Some x <->
  json_at ks (JObj m) = Some x /\ forall p, p ∈ paths -> ~ split_path p `prefix_of` ks.
Proof.
  intros Hk Hx. rewrite <- (delete_paths_leaf paths m ks x) by done. cbn [prunePatchPaths raw_len0 orb].
  destruct paths as [|p paths]; [done|]. cbn [length Nat.eqb unmarshal_map]. case_decide as Hemp.
  - rewrite Hemp. cbn. split; [done|]. destruct ks as [|k ks]; [done|]. cbn. by rewrite lookup_empty.
  - done.
Qed.

(** A leaf is not above another leaf. *)
Lemma leaf_prefix m ks ks' x y : json_at ks (JObj m) = Some x -> leaf x -> json_at ks' (JObj m) = Some y -> ks `prefix_of` ks' -> ks = ks'.
Proof.
  revert m ks'. induction ks as [|k ks IH]; intros m ks' Hat Hx Hat' Hp.
  { injection Hat as <-. by destruct (Hx m). }
  destruct Hp as [l ->]. cbn in Hat, Hat'. destruct (m !! k) as [v|]; [|done]. cbn in Hat, Hat'.
  destruct v as [| | | | |c];
    try (destruct ks as [|k' ks]; [|by destruct l]; destruct l; [by rewrite app_nil_r|]; by cbn in Hat').
  rewrite <- app_comm_cons. f_equal. by apply (IH c); [| | |exists l].
Qed.

(** ** Properties *)

Lemma patchLeafPaths_elem m p :
  p ∈ patchLeafPaths (RawDoc (JObj m)) <-> exists ks x, ks <> [] /\ json_at ks (JObj m) = Some x /\ leaf x /\ p = joined ks.
Proof. unfold patchLeafPaths. cbn [raw_len0 unmarshal_map]. apply walk_elem. Qed.

(** A remediation never introduces a resource field.  For a patch whose
    keys a dotted path can spell, every leaf of the filtered patch is a leaf of
    the planned one that is not a resource field the live container lacks, every
    other leaf survives with its value, and the reported fields are exactly the
    ones taken out. *)
Theorem dropAbsentResourceKeys_exact (ref : option WorkloadRef) (m : gmap string json) (ks : list string) (x : json) :
  plain_keys (JObj m) -> resolved ref = true -> ks <> [] -> leaf x ->
  let '(kept, dropped) := dropAbsentResourceKeys (Some (RawDoc (JObj m))) ref in
  (patch_at ks kept = Some x <->
   json_at ks (JObj m) = Some x /\ ~ (isResourcePath (joined ks) = true /\ observedValue ref (joined ks) = None)) /\
  (json_at ks (JObj m) = Some x ->
   joined ks ∈ dropped <-> isResourcePath (joined ks) = true /\ observedValue ref (joined ks) = None).
Proof.
  intros Hplain Hres Hks Hx. unfold dropAbsentResourceKeys. rewrite Hres. cbn [raw_len0 negb orb].
  assert (Habs : forall p, absent_resource ref p = true <-> isResourcePath p = true /\ observedValue ref p = None).
  { intros p. unfold absent_resource. rewrite andb_true_iff. destruct (observedValue ref p); naive_solver. }
  assert (Hin : json_at ks (JObj m) = Some x -> joined ks ∈ patchLeafPaths (RawDoc (JObj m))).
  { intros Hat. apply patchLeafPaths_elem. eauto 6. }
  assert (Hfil : forall p, p ∈ List.filter (absent_resource ref) (patchLeafPaths (RawDoc (JObj m))) <->
    p ∈ patchLeafPaths (RawDoc (JObj m)) /\ (isResourcePath p = true /\ observedValue ref p = None)).
  { intros p. rewrite list_elem_of_In, filter_In, <- list_elem_of_In, Habs. done. }
  destruct (List.filter (absent_resource ref) _) as [|d ds].
  - split; [|intros Hat; split; [by intros ?%not_elem_of_nil|intros Ha]].
    + split; [|by intros [? _]]. intros Hat. split; [done|]. intros Ha.
      eapply not_elem_of_nil, Hfil. split; [by apply Hin|exact Ha].
    + apply Hfil. split; [by apply Hin|exact Ha].
  - set (dropped := sort_strings (d :: ds)).
    assert (Hd : forall p, p ∈ dropped <-> p ∈ patchLeafPaths (RawDoc (JObj m)) /\ isResourcePath p = true /\ observedValue ref p = None).
    { intros p. unfold dropped. by rewrite sort_strings_perm. }
    split; [|intros Hat; rewrite Hd; naive_solver].
    rewrite prunePatchPaths_leaf by done. split; intros [Hat Hn]; (split; [done|]).
    + intros Ha. apply (Hn (joined ks)); [by apply Hd; split; [apply Hin|]|]. rewrite split_joined by eauto. done.
    + intros p ((ks' & y & Hks' & Hat' & Hy & ->)%patchLeafPaths_elem & Ha)%Hd Hp.
      rewrite split_joined in Hp by eauto. apply (leaf_prefix m ks' ks y x) in Hp as ->; done.
Qed.

(** *** The live snapshot *)

Definition observed_paths : list string :=
  [pathPrefixLimits ++ resourceKeyCPU; pathPrefixLimits ++ resourceKeyMemory;
   pathPrefixRequests ++ resourceKeyCPU; pathPrefixRequests ++ resourceKeyMemory].

Lemma section_value_key section key v : section_value section key = Some v ->
  (key = resourceKeyCPU \/ key = resourceKeyMemory) /\ v <> "".
Proof.
  unfold section_value, nonempty_value. destruct section as [s|]; [|done].
  destruct (String.eqb_spec key resourceKeyCPU); [|destruct (String.eqb_spec key resourceKeyMemory); [|done]];
    destruct (String.eqb_spec (rv_CPU s) ""), (String.eqb_spec (rv_Memory s) ""); naive_solver.
Qed.

Lemma observedValue_paths ref p v : observedValue ref p = Some v -> p ∈ observed_paths /\ v <> "".
Proof.
  unfold observedValue. destruct ref as [r|]; [|done]. destruct (negb _); [done|].
  destruct (wr_ObservedResources r) as [o|]; [|done].
  assert (Hone : forall pre section, has_prefix p pre = true -> section_value section (trim_prefix p pre) = Some v ->
    (p = pre ++ resourceKeyCPU \/ p = pre ++ resourceKeyMemory) /\ v <> "").
  { intros pre section. unfold has_prefix, trim_prefix. destruct (cut_prefix p pre) as [r'|] eqn:Hc; [|done].
    apply cut_prefix_spec in Hc as ->. intros _ [[->| ->] Hv]%section_value_key; auto. }
  destruct (has_prefix p pathPrefixLimits) eqn:H1; [|destruct (has_prefix p pathPrefixRequests) eqn:H2; [|done]];
    intros Hv; (eapply Hone in Hv as [Hp Hv]; [|eassumption]); (split; [|done]); unfold observed_paths;
    rewrite !elem_of_cons; tauto.
Qed.

Lemma mergeNestedPath_at segs m v : segs <> [] -> json_at segs (JObj (mergeNestedPath m segs v)) = Some (JStr v).
Proof.
  revert m. induction segs as [|k segs IH]; intros m Hs; [done|]. destruct segs as [|k' segs].
  - cbn. by rewrite lookup_insert_eq.
  - change (mergeNestedPath m (k :: k' :: segs) v) with
      (<[k := JObj (mergeNestedPath (match m !! k with Some (JObj c) => c | _ => ∅ end) (k' :: segs) v)]> m).
    cbn [json_at]. rewrite lookup_insert_eq. by apply (IH (match m !! k with Some (JObj c) => c | _ => ∅ end)).
Qed.

Lemma mergeNestedPath_other segs m v ks :
  length ks = length segs -> ks <> segs -> json_at ks (JObj (mergeNestedPath m segs v)) = json_at ks (JObj m).
Proof.
  revert m ks. induction segs as [|s segs IH]; intros m ks Hlen Hne; [by destruct ks|]. destruct ks as [|k ks]; [done|].
  injection Hlen as Hlen. destruct segs as [|s' segs].
  - destruct ks; [|done]. cbn. rewrite lookup_insert_ne by congruence. done.
  - change (mergeNestedPath m (s :: s' :: segs) v) with
      (<[s := JObj (mergeNestedPath (match m !! s with Some (JObj c) => c | _ => ∅ end) (s' :: segs) v)]> m).
    cbn [json_at]. destruct (decide (s = k)) as [->|Hk]; [|by rewrite lookup_insert_ne].
    rewrite lookup_insert_eq. cbn [mbind option_bind]. rewrite IH by congruence.
    destruct ks as [|k' ks]; [done|]. destruct (m !! k) as [[]|]; cbn; by rewrite ?lookup_empty.
Qed.

Lemma observed_paths_split p : p ∈ observed_paths -> length (split_path p) = 4%nat.
Proof. unfold observed_paths. rewrite !elem_of_cons, elem_of_nil. by intros [->|[->|[->|[->|[]]]]]. Qed.
Lemma observed_paths_inj p q : p ∈ observed_paths -> q ∈ observed_paths -> split_path p = split_path q -> p = q.
Proof.
  unfold observed_paths. rewrite !elem_of_cons, !elem_of_nil.
  intros [->|[->|[->|[->|[]]]]] [->|[->|[->|[->|[]]]]] Heq; first [reflexivity|vm_compute in Heq; discriminate Heq].
Qed.

Lemma grounded_values_lookup ref paths p v :
  grounded_values ref paths !! p = Some v <-> p ∈ paths /\ observedValue ref p = Some v.
Proof.
  unfold grounded_values.
  assert (Hgen : forall acc : gmap string string, foldl (fun values path => match observedValue ref path with
      Some live => <[path := live]> values | None => values end) acc paths !! p = Some v <->
    (p ∈ paths /\ observedValue ref p = Some v) \/ (~ (p ∈ paths /\ is_Some (observedValue ref p)) /\ acc !! p = Some v)).
  { induction paths as [|q paths IH]; intros acc; cbn [foldl].
    - rewrite elem_of_nil. naive_solver.
    - rewrite IH, elem_of_cons. destruct (decide (p = q)) as [->|Hne].
      + destruct (observedValue ref q) as [w|] eqn:Hq; [rewrite lookup_insert_eq|]; split; intros H;
          destruct (decide (q ∈ paths)); naive_solver.
      + destruct (observedValue ref q) as [w|]; [rewrite lookup_insert_ne by done|]; naive_solver. }
  rewrite Hgen, lookup_empty. naive_solver.
Qed.

(** The blast radius is measured against what runs.  Whenever a patch
    touches a field the live container sets, the grounded pre-patch state exists
    and holds the live value at every such field and nothing else, whatever the
    persona recorded; with no such field the recorded state is kept. *)
Theorem groundedPrePatch_live (ref : option WorkloadRef) (raw : raw_json) :
  let touched p v := p ∈ patchLeafPaths raw /\ observedValue ref p = Some v in
  match groundedPrePatch (Some raw) ref with
  | Some (RawDoc (JObj snap)) =>
      (exists p v, touched p v) /\
      (forall p v, touched p v -> json_at (split_path p) (JObj snap) = Some (JStr v)) /\
      (forall ks x, length ks = 4%nat -> json_at ks (JObj snap) = Some x ->
         exists p v, touched p v /\ ks = split_path p /\ x = JStr v)
  | Some _ => False
  | None => forall p v, ~ touched p v
  end.
Proof.
  cbv zeta. unfold groundedPrePatch.
  destruct (raw_len0 raw) eqn:Hlen.
  { cbn [orb]. intros p v [Hin _]. destruct raw; try done. by apply not_elem_of_nil in Hin. }
  destruct (resolved ref) eqn:Hres; cbn [negb orb].
  2:{ intros p v [_ Hv]. unfold observedValue in Hv. destruct ref as [r|]; [|done]. by rewrite Hres in Hv. }
  set (values := grounded_values ref (patchLeafPaths raw)).
  assert (Hval : forall p v, values !! p = Some v <-> p ∈ patchLeafPaths raw /\ observedValue ref p = Some v)
    by (intros; apply grounded_values_lookup).
  case_decide as Hemp. { intros p v Ht. apply Hval in Ht. by rewrite Hemp, lookup_empty in Ht. }
  assert (Hobs : forall p v, values !! p = Some v -> p ∈ observed_paths).
  { intros p v [_ Hv]%Hval. by apply observedValue_paths in Hv as [? _]. }
  assert (Hfold : forall paths snap, (forall p, p ∈ paths -> p ∈ observed_paths) -> forall ks x, length ks = 4%nat ->
    json_at ks (JObj (foldl (merge_value values) snap paths)) = Some x <->
    (exists p v, p ∈ paths /\ values !! p = Some v /\ ks = split_path p /\ x = JStr v) \/
    (~ (exists p, p ∈ paths /\ is_Some (values !! p) /\ ks = split_path p) /\ json_at ks (JObj snap) = Some x)).
  { induction paths as [|q paths IH]; intros snap Hps ks x Hlen4; cbn [foldl].
    { setoid_rewrite elem_of_nil. naive_solver. }
    rewrite IH by (try done; intros p Hp; apply Hps; by right). setoid_rewrite elem_of_cons.
    assert (Hq : q ∈ observed_paths) by (apply Hps; left). unfold merge_value at 1.
    destruct (values !! q) as [w|] eqn:Hw; cycle 1.
    { split.
      - intros [(p & v & Hp & Hv & Heq)|[Hn Hat]]; [left; exists p, v; auto|right]. split; [|done].
        intros (p & [->|Hp] & [v Hv] & Heq); [congruence|]. apply Hn. exists p. eauto.
      - intros [(p & v & [->|Hp] & Hv & Heq)|[Hn Hat]]; [congruence|left; exists p, v; auto|right]. split; [|done].
        intros (p & Hp & Hv & Heq). apply Hn. exists p. auto. }
    destruct (decide (ks = split_path q)) as [->|Hne].
    - rewrite mergeNestedPath_at by apply split_nonempty. split.
      + intros [(p & v & Hp & Hv & Heq & ->)|[_ [= <-]]]; [left; exists p, v; auto|left; exists q, w; auto].
      + intros [(p & v & [->|Hp] & Hv & Heq & ->)|[Hn _]].
        * destruct (decide (q ∈ paths)); [left; exists q, v; auto|]. right. split; [|congruence].
          intros (p & Hp & [v' Hv'] & Heq'). apply observed_paths_inj in Heq'; [by subst|done|by eapply Hobs].
        * left. exists p, v. auto.
        * exfalso. apply Hn. exists q. eauto.
    - rewrite mergeNestedPath_other by (try done; by rewrite observed_paths_split). split.
      + intros [(p & v & Hp & Hv & Heq)|[Hn Hat]]; [left; exists p, v; auto|right]. split; [|done].
        intros (p & [->|Hp] & [v Hv] & Heq); [congruence|]. apply Hn. exists p. eauto.
      + intros [(p & v & [->|Hp] & Hv & Heq & Hx)|[Hn Hat]]; [congruence|left; exists p, v; auto|right]. split; [|done].
        intros (p & Hp & Hv & Heq). apply Hn. exists p. auto. }
  assert (Hmem : forall p v, values !! p = Some v -> p ∈ sort_strings (map_keys values)).
  { intros p v Hv. rewrite sort_strings_perm. unfold map_keys. apply list_elem_of_fmap. exists (p, v).
    split; [done|]. by apply elem_of_map_to_list. }
  assert (Hall : forall p, p ∈ sort_strings (map_keys values) -> p ∈ observed_paths).
  { intros p. rewrite sort_strings_perm. unfold map_keys. intros ([k v] & -> & Hk)%list_elem_of_fmap.
    apply elem_of_map_to_list in Hk. by eapply Hobs. }
  split; [|split].
  - apply map_choose in Hemp as (p & v & Hv). exists p, v. by apply Hval.
  - intros p v Ht. apply Hval in Ht. apply Hfold; [done|by eapply observed_paths_split, Hobs|]. left. exists p, v. eauto.
  - intros ks x Hlen4 Hat. destruct (proj1 (Hfold _ ∅ Hall ks x Hlen4) Hat) as [(p & v & _ & Hv & -> & ->)|[_ Hat']].
    + exists p, v. split; [by apply Hval|done].
    + destruct ks as [|k ks]; [done|]. cbn in Hat'. by rewrite lookup_empty in Hat'.
Qed.

(** ** Witnesses *)

Lemma plain_keys_nested ks v : Forall plain_key ks -> leaf v -> plain_keys (nested ks v).
Proof.
  intros Hks Hv. induction Hks as [|k ks Hk Hks IH]; intros [|k' ks'] x Hat; try by constructor.
  - destruct v as [| | | | |m]; try done. by destruct (Hv m).
  - cbn in Hat. destruct (decide (k = k')) as [->|Hne]; [|by rewrite lookup_singleton_ne in Hat].
    rewrite lookup_singleton_eq in Hat. constructor; [done|]. by apply (IH ks' x).
Qed.

Definition ex_live_ref : WorkloadRef :=
  mkWorkloadRef "Deployment" "api" "shop" "app" "unmanaged" "" (Some (mkObserved None (Some (mkResourceValues "" "32Mi")))) "api:1" None.
Definition ex_cpu_path : list string := ["spec"; "resources"; "limits"; "cpu"].

(** A CPU limit the container has never had is taken out of the plan. *)
Lemma dropAbsentResourceKeys_exact_witness :
  match nested ex_cpu_path (JStr "200m") with
  | JObj m =>
      let '(kept, dropped) := dropAbsentResourceKeys (Some (RawDoc (JObj m))) (Some ex_live_ref) in
      patch_at ex_cpu_path kept <> Some (JStr "200m") /\ joined ex_cpu_path ∈ dropped
  | _ => False
  end.
Proof.
  assert (Hplain : plain_keys (nested ex_cpu_path (JStr "200m")))
    by (apply plain_keys_nested; [repeat constructor; done|by intros m]).
  cbn [nested ex_cpu_path] in *.
  match goal with |- let '(_, _) := dropAbsentResourceKeys (Some (RawDoc (JObj ?m))) _ in _ =>
    pose proof (dropAbsentResourceKeys_exact (Some ex_live_ref) m ex_cpu_path (JStr "200m") Hplain eq_refl
      ltac:(discriminate) ltac:(intros ?; discriminate)) as H end.
  destruct (dropAbsentResourceKeys _ _) as [kept dropped]. destruct H as [Hkept Hdropped]. split.
  - intros Hat. apply Hkept in Hat as [_ Hn]. apply Hn. split; reflexivity.
  - apply Hdropped; [reflexivity|split; reflexivity].
Defined.
