(* ===== verification/Prose.v ===== *)
(** * Reading prose (internal/remediation): sentences and delimited words.

    [splitSentences], [containsToken] and [alphanumericAt] of refused_values.go,
    [containsWord] and [letterAt] of fabricated_clamp.go.  The two searches are
    unbounded loops over an offset in the source; here they carry fuel, and
    [search_total] shows the length of the text is enough and that no slice
    expression of theirs is out of range. *)

From S2P Require Import Prelude GoString GoNum Json ApiTypes Ownership.
From Stdlib Require Import String Ascii.
From stdpp Require Import strings.
Open Scope string_scope.

(** ** Slices and indices *)

(** [strings.Index(s, sub)]; [None] is -1. *)
Fixpoint index_of (s sub : string) : option nat :=
  if has_prefix s sub then Some 0%nat
  else match s with "" => None | String _ s' => S <$> index_of s' sub end.

(** [s[n:]]; [None] is the run-time panic. *)
Fixpoint slice_from (n : nat) (s : string) : option string :=
  match n, s with
  | O, _ => Some s
  | S n', String _ s' => slice_from n' s'
  | S _, "" => None
  end.

(** [s[i]], absent when out of range. *)
Definition byte_at (s : string) (i : Z) : option ascii :=
  if (i <? 0)%Z then None else String.get (Z.to_nat i) s.

Definition is_letter (c : ascii) : bool := is_lower c || is_upper c.

Definition letterAt (text : string) (i : Z) : bool :=
  match byte_at text i with Some c => is_letter c | None => false end.

(** [unicode.IsLetter(rune(b))] above ASCII: the byte read as Latin-1. *)
Definition latin1_letter (c : ascii) : bool :=
  let n := N_of_ascii c in
  (n =? 170)%N || (n =? 181)%N || (n =? 186)%N
  || ((192 <=? n)%N && negb (n =? 215)%N && negb (n =? 247)%N).

Definition alphanumericAt (text : string) (i : Z) : bool :=
  match byte_at text i with Some c => is_letter c || latin1_letter c || is_digit c | None => false end.

(** ** The delimited search both loops are *)

Section search.
Context (joins : string -> Z -> bool).  (* letterAt, alphanumericAt *)

(** One iteration per unit of fuel; [None] is a panic or fuel that ran out. *)
Fixpoint search_loop (fuel : nat) (text word : string) (offset : nat) : option bool :=
  match fuel with
  | O => None
  | S fuel' =>
      match slice_from offset text with
      | None => None
      | Some rest =>
          match index_of rest word with
          | None => Some false
          | Some idx =>
              let start := (offset + idx)%nat in
              let stop := (start + String.length word)%nat in
              if negb (joins text (Z.of_nat start - 1)%Z) && negb (joins text (Z.of_nat stop)) then Some true
              else search_loop fuel' text word (S start)
          end
      end
  end.

Definition search (text word : string) : bool :=
  default false (search_loop (S (String.length text)) text word 0).
End search.

Definition containsWord : string -> string -> bool := search letterAt.
Definition containsToken : string -> string -> bool := search alphanumericAt.

(** ** Sentences *)

Definition is_stop (c : ascii) : bool := Ascii.eqb c "." || Ascii.eqb c "!" || Ascii.eqb c "?".

(** The end of the text, or a blank. *)
Definition at_break (s : string) : bool := match s with "" => true | String c _ => is_space c end.

(** The runs of text the loop cuts, before they are trimmed. *)
Fixpoint segments (text : string) : list string :=
  match text with
  | "" => []
  | String c rest =>
      match segments rest with
      | [] => [String c ""]
      | seg :: segs => if is_stop c && at_break rest then String c "" :: seg :: segs
                       else String c seg :: segs
      end
  end.

Definition nonblank (s : string) : bool := negb (s =? "").

Definition splitSentences (text : string) : list string :=
  List.filter nonblank (map trim_space (segments text)).

(** ** The search: termination, no panic, and what it finds *)

Lemma slice_from_app a b : slice_from (String.length a) (a ++ b) = Some b.
Proof. induction a as [|c a IH]; [by destruct b|exact IH]. Qed.

Lemma slice_from_split n s : (n <= String.length s)%nat ->
  exists a b, s = a ++ b /\ String.length a = n /\ slice_from n s = Some b.
Proof.
  revert s. induction n as [|n IH]; intros s Hn; [by exists "", s|].
  destruct s as [|c s]; [simpl in Hn; lia|]. destruct (IH s) as (a & b & -> & <- & Hs); [simpl in Hn; lia|].
  by exists (String c a), b.
Qed.

Lemma index_of_Some s sub i : index_of s sub = Some i ->
  exists a b, s = a ++ sub ++ b /\ String.length a = i /\
  forall a' b', s = a' ++ sub ++ b' -> (i <= String.length a')%nat.
Proof.
  revert i. induction s as [|c s IH]; intros i; cbn [index_of]; destruct (has_prefix _ sub) eqn:Hp.
  - intros [= <-]. apply has_prefix_spec in Hp as [r ->]. exists "", r. split_and!; [done..|intros; lia].
  - done.
  - intros [= <-]. apply has_prefix_spec in Hp as [r ->]. exists "", r. split_and!; [done..|intros; lia].
  - destruct (index_of s sub) as [j|]; [|done]. intros [= <-]. destruct (IH j eq_refl) as (a & b & -> & <- & Hmin).
    exists (String c a), b. split_and!; [done..|]. intros [|c' a'] b' Heq.
    + assert (has_prefix (String c (a ++ sub ++ b)) sub = true) by (apply has_prefix_spec; by exists b'). congruence.
    + injection Heq as <- Heq. simpl. specialize (Hmin _ _ Heq). lia.
Qed.

Lemma index_of_None s sub : index_of s sub = None -> forall a b, s <> a ++ sub ++ b.
Proof.
  induction s as [|c s IH]; cbn [index_of]; destruct (has_prefix _ sub) eqn:Hp; try done.
  - intros _ a b Heq. destruct a; [|done].
    assert (has_prefix "" sub = true) by (apply has_prefix_spec; by exists b). congruence.
  - destruct (index_of s sub) as [j|]; [done|]. intros _ [|c' a] b Heq.
    + assert (has_prefix (String c s) sub = true) by (apply has_prefix_spec; by exists b). congruence.
    + injection Heq as <- Heq. by apply (IH eq_refl a b).
Qed.

(** An occurrence of [word] at byte [i] that the boundary test accepts. *)
Definition delimited_at (joins : string -> Z -> bool) (text word : string) (i : nat) : Prop :=
  (exists a b, text = a ++ word ++ b /\ String.length a = i) /\
  joins text (Z.of_nat i - 1)%Z = false /\ joins text (Z.of_nat (i + String.length word)) = false.

Lemma search_loop_spec joins word text : word <> "" ->
  forall fuel offset, (offset <= String.length text)%nat -> (String.length text < fuel + offset)%nat ->
  exists found, search_loop joins fuel text word offset = Some found /\
    (found = true <-> exists i, (offset <= i)%nat /\ delimited_at joins text word i).
Proof.
  intros Hw. induction fuel as [|fuel IH]; intros offset Hle Hfuel; [lia|]. cbn [search_loop].
  destruct (slice_from_split offset text Hle) as (p & rest & Htext & Hp & ->).
  assert (Hat : forall i, (offset <= i)%nat -> delimited_at joins text word i -> exists a b, rest = a ++ word ++ b /\ (String.length a + offset = i)%nat).
  { intros i Hi [(a & b & Ha & Hlen) _]. destruct (slice_from_split (i - offset) rest) as (a2 & b2 & Hr & Hl2 & _).
    - apply (f_equal String.length) in Ha, Htext. rewrite !str_length_app in *. lia.
    - exists a2, b. split; [|lia]. rewrite Hr. f_equal. apply (str_app_inv_head (p ++ a2)).
      rewrite str_app_assoc, <- Hr, <- Htext, Ha. clear - Ha Htext Hr Hp Hl2 Hlen Hi.
      assert (Heq : a = p ++ a2).
      { rewrite Htext, Hr, <- str_app_assoc in Ha. assert (Hl : String.length a = String.length (p ++ a2)) by (rewrite str_length_app; lia).
        clear - Ha Hl. revert a Ha Hl. generalize (p ++ a2) as q. induction q as [|c q IH]; intros [|d a]; intros Heq Hl; simpl in *; try lia; [done|].
        injection Heq as -> Heq. f_equal. apply IH; [done|lia]. }
      by rewrite Heq. }
  destruct (index_of rest word) as [idx|] eqn:Hidx; cycle 1.
  { exists false. split; [done|]. split; [done|]. intros (i & Hi & Hd). destruct (Hat i Hi Hd) as (a & b & Hr & _).
    by apply (index_of_None _ _ Hidx) in Hr. }
  apply index_of_Some in Hidx as (a & b & Hr & Hlen & Hmin).
  assert (Hocc : text = (p ++ a) ++ word ++ b) by (by rewrite str_app_assoc, <- Hr).
  assert (Hl : String.length (p ++ a) = (offset + idx)%nat) by (rewrite str_length_app; lia).
  destruct (negb _ && negb _) eqn:Hb.
  - exists true. split; [done|]. split; [|done]. intros _. exists (offset + idx)%nat. split; [lia|].
    apply andb_true_iff in Hb as [H1%negb_true_iff H2%negb_true_iff]. split_and!; eauto.
  - assert (Hlt : (offset + idx < String.length text)%nat).
    { rewrite Hocc, !str_length_app. destruct word; [done|]. simpl. rewrite str_length_app in Hl. lia. }
    destruct (IH (S (offset + idx))) as (found & -> & Hfound); [lia..|]. exists found. split; [done|].
    rewrite Hfound. split; intros (i & Hi & Hd); exists i; (split; [|done]); [lia|].
    destruct (Hat i Hi Hd) as (a' & b' & Hr' & Hl'). specialize (Hmin _ _ Hr').
    destruct (decide (i = offset + idx)%nat) as [->|]; [|lia].
    destruct Hd as (_ & H1 & H2). by rewrite H1, H2 in Hb.
Qed.

Lemma search_total joins text word : word <> "" ->
  exists found, search_loop joins (S (String.length text)) text word 0 = Some found /\
    (found = true <-> exists i, delimited_at joins text word i).
Proof.
  intros Hw. destruct (search_loop_spec joins word text Hw (S (String.length text)) 0) as (found & Hs & Hf); [lia..|].
  exists found. split; [done|]. rewrite Hf. split; intros (i & Hi); exists i; [by destruct Hi|split; [lia|done]].
Qed.

Lemma search_spec joins text word : word <> "" ->
  search joins text word = true <-> exists i, delimited_at joins text word i.
Proof.
  intros Hw. destruct (search_total joins text word Hw) as (found & Hs & Hf). unfold search. by rewrite Hs.
Qed.

(** ** Occurrences, by the bytes around them *)

Definition first_byte (s : string) : option ascii := match s with "" => None | String c _ => Some c end.

(** [word] occurs in [text] between bytes that do not join it. *)
Definition occurs (jc : option ascii -> bool) (text word : string) : Prop :=
  exists a b, text = a ++ word ++ b /\ jc (last_byte a) = false /\ jc (first_byte b) = false.

Lemma str_app_eq_app a b c d : a ++ b = c ++ d ->
  (exists k, a = c ++ k /\ d = k ++ b) \/ (exists k, c = a ++ k /\ b = k ++ d).
Proof.
  revert c. induction a as [|x a IH]; intros c; [intros Heq; right; by exists c|].
  destruct c as [|y c]; [intros Heq; left; exists (String x a); by split|]. intros [= <- Heq].
  destruct (IH c Heq) as [(k & -> & ->)|(k & -> & ->)]; [left|right]; by exists k.
Qed.

Lemma last_byte_app a b : last_byte (a ++ b) = match last_byte b with Some c => Some c | None => last_byte a end.
Proof.
  induction a as [|c a IH]; [change ("" ++ b) with b; by destruct (last_byte b)|].
  change (String c a ++ b) with (String c (a ++ b)). destruct (a ++ b) as [|d r] eqn:Hab.
  - destruct a, b; done.
  - change (last_byte (String c (String d r))) with (last_byte (String d r)). rewrite IH.
    destruct a as [|x a]; [|done]. simpl in Hab. subst b. destruct (last_byte (String d r)) eqn:Hl; [done|].
    exfalso. clear -Hl. revert d Hl. induction r as [|x r IH]; intros d; [done|]. apply IH.
Qed.

Lemma last_byte_None s : last_byte s = None -> s = "".
Proof. induction s as [|c s IH]; [done|]. destruct s as [|d s]; [done|]. intros Hl. by specialize (IH Hl). Qed.

Lemma first_byte_app a b : first_byte (a ++ b) = match a with "" => first_byte b | String c _ => Some c end.
Proof. by destruct a. Qed.

Lemma get_app_r a b n : String.get (String.length a + n) (a ++ b) = String.get n b.
Proof. induction a as [|c a IH]; [done|exact IH]. Qed.

Lemma byte_at_last a b : byte_at (a ++ b) (Z.of_nat (String.length a) - 1) = last_byte a.
Proof.
  induction a as [|c a IH]; [by destruct b|]. unfold byte_at in *.
  change (String.length (String c a)) with (S (String.length a)).
  replace (Z.of_nat (S (String.length a)) - 1)%Z with (Z.of_nat (String.length a)) by lia.
  destruct (Z.ltb_spec (Z.of_nat (String.length a)) 0); [lia|]. rewrite Nat2Z.id.
  destruct a as [|d a]; [done|].
  change (String.length (String d a)) with (S (String.length a)) in *.
  replace (Z.of_nat (S (String.length a)) - 1)%Z with (Z.of_nat (String.length a)) in IH by lia.
  destruct (Z.ltb_spec (Z.of_nat (String.length a)) 0); [lia|]. rewrite Nat2Z.id in IH. exact IH.
Qed.

Lemma byte_at_next a b : byte_at (a ++ b) (Z.of_nat (String.length a)) = first_byte b.
Proof.
  unfold byte_at. destruct (Z.ltb_spec (Z.of_nat (String.length a)) 0); [lia|].
  rewrite Nat2Z.id, <- (Nat.add_0_r (String.length a)), get_app_r. by destruct b.
Qed.

(** A search whose test looks at one byte finds exactly the occurrences. *)
Lemma search_occurs (joins : string -> Z -> bool) (jc : option ascii -> bool) text word :
  (forall s i, joins s i = jc (byte_at s i)) -> word <> "" ->
  search joins text word = true <-> occurs jc text word.
Proof.
  intros Hj Hw. rewrite search_spec by done. unfold delimited_at. split.
  - intros (i & (a & b & -> & <-) & H1 & H2). exists a, b. rewrite Hj in H1, H2. rewrite byte_at_last in H1.
    rewrite <- str_app_assoc, <- str_length_app, byte_at_next in H2. done.
  - intros (a & b & -> & H1 & H2). exists (String.length a). split_and!; [by exists a, b| |]; rewrite Hj.
    + by rewrite byte_at_last.
    + by rewrite <- str_app_assoc, <- str_length_app, byte_at_next.
Qed.

Lemma contains_occurs text word : contains text word = true <-> occurs (fun _ => false) text word.
Proof.
  enough (contains text word = true <-> exists a b, text = a ++ word ++ b) as ->.
  { split; intros (a & b & H); exists a, b; [done|apply H]. }
  unfold contains. induction text as [|c s IH]; cbn [cut]; destruct (cut_prefix _ word) as [r|] eqn:Hp.
  - apply cut_prefix_spec in Hp as ->. split; [|done]. intros _. by exists "", r.
  - split; [done|]. intros (a & b & Heq). destruct a; [|done]. assert (cut_prefix "" word = Some b) by by apply cut_prefix_spec. congruence.
  - apply cut_prefix_spec in Hp as ->. split; [|done]. intros _. by exists "", r.
  - transitivity (exists a b, s = a ++ word ++ b).
    + rewrite <- IH. by destruct (cut s word) as [[? ?]|].
    + split; [intros (a & b & ->); by exists (String c a), b|]. intros ([|x a] & b & Heq).
      * assert (cut_prefix (String c s) word = Some b) by by apply cut_prefix_spec. congruence.
      * injection Heq as <- ->. by exists a, b.
Qed.

(** ** Occurrences and sentences *)

Definition blank (s : string) : Prop := str_forall is_space s = true.
Definition ends_stop (s : string) : Prop := exists p c, s = p ++ String c "" /\ is_stop c = true.

(** Every piece but the last ends in terminal punctuation. *)
Fixpoint well_cut (l : list string) : Prop :=
  match l with
  | [] => True
  | s :: l' => (l' = [] \/ ends_stop s) /\ well_cut l'
  end.

Lemma str_forall_app p s t : str_forall p (s ++ t) = str_forall p s && str_forall p t.
Proof. unfold str_forall. by rewrite str_exists_app, negb_orb. Qed.

Lemma str_forall_cons p c s : str_forall p (String c s) = p c && str_forall p s.
Proof. unfold str_forall. cbn. rewrite negb_orb, negb_involutive. done. Qed.

Lemma last_byte_elem p s c : str_forall p s = true -> last_byte s = Some c -> p c = true.
Proof.
  induction s as [|d s IH]; [done|]. rewrite str_forall_cons. intros [Hd Hs]%andb_true_iff.
  destruct s as [|x s]; [by intros [= <-]|]. intros Hl. by apply IH.
Qed.

Lemma last_byte_snoc p c : last_byte (p ++ String c "") = Some c.
Proof. by rewrite last_byte_app. Qed.

Lemma stop_not_space c : is_stop c = true -> is_space c = false.
Proof. by destruct c as [[] [] [] [] [] [] [] []]. Qed.

Lemma nonempty_split s : s <> "" -> exists p c, s = p ++ String c "" /\ last_byte s = Some c.
Proof.
  induction s as [|c s IH]; [done|]. intros _. destruct s as [|d s]; [by exists "", c|].
  destruct IH as (p & e & Hs & Hl); [done|]. exists (String c p), e. rewrite Hs. split; [done|]. by rewrite <- Hs.
Qed.

Section occurrences.
Context (jc : option ascii -> bool) (jc_none : jc None = false).
Context (word : string) (word_nonempty : word <> "").
Context (word_stops : str_forall (fun c => negb (is_stop c)) word = true).
Context (word_first : forall c, first_byte word = Some c -> is_space c = false).
Context (word_last : forall c, last_byte word = Some c -> is_space c = false).

Lemma occurs_app x y : (x = "" \/ ends_stop x) -> occurs jc (x ++ y) word -> occurs jc x word \/ occurs jc y word.
Proof.
  intros Hx (a & b & Heq & Ha & Hb). destruct (str_app_eq_app _ _ _ _ Heq) as [(k & Hk & Hrest)|(k & Hk & Hrest)].
  - destruct (str_app_eq_app _ _ _ _ Hrest) as [(k' & Hw & Hb')|(k' & Hw & Hb')].
    + destruct Hx as [->|(p & c & -> & Hc)]; [destruct a; [|done]; destruct k; [|done]|].
      { change ("" ++ k') with k' in Hw. right. exists "", b. subst. by split_and!. }
      destruct k as [|d k].
      * change ("" ++ k') with k' in Hw. right. exists "", b. subst. by split_and!.
      * exfalso. assert (Hl : last_byte (String d k) = Some c).
        { assert (He : last_byte (p ++ String c "") = last_byte (a ++ String d k)) by by rewrite Hk.
          rewrite last_byte_snoc, last_byte_app in He. destruct (last_byte (String d k)) eqn:E; [done|]. by apply last_byte_None in E. }
        rewrite Hw, str_forall_app in word_stops. apply andb_true_iff in word_stops as [Hs _].
        apply (last_byte_elem _ _ _ Hs) in Hl. by rewrite Hc in Hl.
    + left. exists a, k'. subst. split_and!; try done. destruct k'; [done|exact Hb].
  - right. exists k, b. subst. split_and!; try done. rewrite last_byte_app in Ha. by destruct (last_byte k).
Qed.

Lemma occurs_blank_l x y : blank x -> occurs jc (x ++ y) word -> occurs jc y word.
Proof.
  intros Hx (a & b & Heq & Ha & Hb). destruct (str_app_eq_app _ _ _ _ Heq) as [(k & Hk & Hrest)|(k & Hk & Hrest)].
  - destruct k as [|d k]; [exists "", b; by split_and!|exfalso]. subst x.
    unfold blank in Hx. rewrite str_forall_app, str_forall_cons in Hx. apply andb_true_iff in Hx as [_ [Hd _]%andb_true_iff].
    destruct word as [|e w]; [done|]. injection Hrest as <- _. by rewrite (word_first e) in Hd.
  - subst. exists k, b. split_and!; try done. rewrite last_byte_app in Ha. by destruct (last_byte k).
Qed.

Lemma occurs_blank_r x y : blank y -> occurs jc (x ++ y) word -> occurs jc x word.
Proof.
  intros Hy (a & b & Heq & Ha & Hb). rewrite <- str_app_assoc in Heq.
  destruct (str_app_eq_app _ _ _ _ Heq) as [(k & Hk & Hrest)|(k & Hk & Hrest)].
  - exists a, k. subst. rewrite str_app_assoc. split_and!; try done. by destruct k.
  - destruct (nonempty_split word) as (p & e & Hw & Hl); [done|]. destruct k as [|d k].
    { rewrite str_app_nil_r in Hk. exists a, "". subst. by rewrite str_app_nil_r. }
    exfalso. assert (Hl' : last_byte (String d k) = Some e).
    { assert (He : last_byte (a ++ word) = last_byte (x ++ String d k)) by by rewrite Hk. rewrite !last_byte_app, Hl in He.
      destruct (last_byte (String d k)) eqn:E; [done|]. by apply last_byte_None in E. }
    subst y. unfold blank in Hy. rewrite str_forall_app in Hy. apply andb_true_iff in Hy as [Hy _].
    apply (last_byte_elem _ _ _ Hy) in Hl'. by rewrite (word_last e) in Hl'.
Qed.

(** A word in a joined text lies within one of the pieces. *)
Lemma occurs_join sep l : blank sep -> well_cut l -> l <> [] -> occurs jc (strings_join sep l) word ->
  exists s, s ∈ l /\ occurs jc s word.
Proof.
  intros Hsep. induction l as [|x l IH]; [done|]. intros [Hx Hl] _. destruct l as [|y l]; [intros Ho; exists x; by split; [left|]|].
  change (strings_join sep (x :: y :: l)) with (x ++ sep ++ strings_join sep (y :: l)). intros Ho.
  destruct (occurs_app x (sep ++ strings_join sep (y :: l))) as [|Ho']; [right; by destruct Hx|done|exists x; by split; [left|]|].
  apply occurs_blank_l in Ho'; [|done]. destruct IH as (s & Hs & ?); [done..|]. exists s. by split; [right|].
Qed.
End occurrences.

(** [trim_space] takes blanks off both ends. *)
Lemma trim_left_split s : exists l, s = l ++ trim_left_space s /\ blank l.
Proof.
  induction s as [|c s (l & Hs & Hl)]; [by exists ""|]. cbn [trim_left_space]. destruct (is_space c) eqn:Hc; [|by exists ""].
  exists (String c l). split; [by rewrite Hs at 1|]. unfold blank. by rewrite str_forall_cons, Hc.
Qed.
Lemma trim_right_split s : exists r, s = trim_right_space s ++ r /\ blank r.
Proof.
  induction s as [|c s (r & Hs & Hr)]; [by exists ""|]. cbn [trim_right_space].
  destruct (trim_right_space s) as [|d t] eqn:Ht.
  - change ("" ++ r) with r in Hs. subst r. destruct (is_space c) eqn:Hc.
    + exists (String c s). split; [done|]. unfold blank. by rewrite str_forall_cons, Hc.
    + by exists s.
  - exists r. split; [by rewrite Hs at 1|done].
Qed.
Lemma trim_space_split s : exists l r, s = l ++ trim_space s ++ r /\ blank l /\ blank r.
Proof.
  destruct (trim_left_split s) as (l & Hs & Hl), (trim_right_split (trim_left_space s)) as (r & Hr & Hb).
  exists l, r. unfold trim_space. by rewrite <- Hr, <- Hs.
Qed.

Lemma trim_right_stop p c : is_space c = false -> trim_right_space (p ++ String c "") = p ++ String c "".
Proof.
  intros Hc. induction p as [|d p IH]; [simpl; by rewrite Hc|]. change (String d p ++ String c "") with (String d (p ++ String c "")).
  cbn [trim_right_space]. rewrite IH. by destruct p.
Qed.
Lemma trim_space_stop s : ends_stop s -> ends_stop (trim_space s).
Proof.
  intros (p & c & -> & Hc). unfold trim_space.
  assert (exists q, trim_left_space (p ++ String c "") = q ++ String c "") as [q ->].
  { induction p as [|d p [q IH]]; [exists ""; simpl; by rewrite stop_not_space|].
    change (String d p ++ String c "") with (String d (p ++ String c "")). cbn [trim_left_space].
    destruct (is_space d); [by exists q|by exists (String d p)]. }
  rewrite trim_right_stop by by apply stop_not_space. by exists q, c.
Qed.

(** ** What [splitSentences] keeps *)

Lemma segments_nonempty s : s <> "" -> segments s <> [].
Proof. destruct s as [|c s]; cbn [segments]; [done|]. destruct (segments s); [done|]. by destruct (is_stop c && at_break s). Qed.

Lemma segments_nil s : segments s = [] -> s = "".
Proof. intros Hs. destruct (decide (s = "")); [done|]. by apply segments_nonempty in Hs. Qed.

Lemma segments_join s : strings_join "" (segments s) = s.
Proof.
  induction s as [|c s IH]; [done|]. cbn [segments]. destruct (segments s) as [|seg segs] eqn:Hs.
  { apply segments_nil in Hs as ->. done. }
  destruct (is_stop c && at_break s).
  - change (strings_join "" (String c "" :: seg :: segs)) with (String c (strings_join "" (seg :: segs))). by rewrite IH.
  - rewrite <- IH. by destruct segs.
Qed.

Lemma segments_cut s : well_cut (segments s).
Proof.
  induction s as [|c s IH]; [done|]. cbn [segments].
  destruct (segments s) as [|seg segs]; [by split; [left|]|]. destruct (is_stop c && at_break s) eqn:Hc.
  - split; [|done]. right. exists "", c. by apply andb_true_iff in Hc as [? _].
  - destruct IH as [Hs Hl]. split; [|done]. destruct Hs as [|(p & d & -> & Hd)]; [by left|right]. by exists (String c p), d.
Qed.

Lemma well_cut_map f l : (forall s, ends_stop s -> ends_stop (f s)) -> well_cut l -> well_cut (map f l).
Proof. intros Hf. induction l as [|s l IH]; [done|]. intros [Hs Hl]. split; [|by apply IH]. destruct Hs as [->|]; [by left|right; auto]. Qed.
Lemma well_cut_filter f l : well_cut l -> well_cut (List.filter f l).
Proof.
  induction l as [|s l IH]; [done|]. intros [Hs Hl]. cbn. destruct (f s); [|by apply IH]. split; [|by apply IH].
  destruct Hs as [->|]; [by left|by right].
Qed.
Lemma splitSentences_cut s : well_cut (splitSentences s).
Proof. apply well_cut_filter, well_cut_map, segments_cut. apply trim_space_stop. Qed.

Lemma blank_trim s : blank s -> trim_space s = "".
Proof.
  intros Hs. unfold trim_space. enough (trim_left_space s = "") as -> by done. unfold blank in Hs.
  induction s as [|c s IH]; [done|]. rewrite str_forall_cons in Hs. apply andb_true_iff in Hs as [Hc Hs].
  cbn. rewrite Hc. by apply IH.
Qed.
Lemma trim_blank s : trim_space s = "" -> blank s.
Proof.
  intros He. destruct (trim_space_split s) as (l & r & -> & Hl & Hr). rewrite He.
  unfold blank in *. by rewrite !str_forall_app, Hl, Hr.
Qed.

Lemma segments_blank s : blank s -> Forall blank (segments s).
Proof.
  induction s as [|c s IH]; [by constructor|]. unfold blank. rewrite str_forall_cons. intros [Hc Hs]%andb_true_iff.
  specialize (IH Hs). assert (Hone : blank (String c "")) by (unfold blank; by rewrite str_forall_cons, Hc).
  cbn [segments]. destruct (segments s) as [|g gs]; [by repeat constructor|]. apply Forall_cons in IH as [Hg Hgs].
  destruct (is_stop c && at_break s); repeat (constructor; try done). unfold blank. by rewrite str_forall_cons, Hc.
Qed.
Lemma splitSentences_blank s : trim_space s = "" -> splitSentences s = [].
Proof.
  intros He. unfold splitSentences. pose proof (segments_blank s (trim_blank s He)) as Hb.
  induction Hb as [|g gs Hg _ IH]; [done|]. cbn. by rewrite blank_trim.
Qed.

Section sentences.
Context (jc : option ascii -> bool) (jc_none : jc None = false).
Context (jc_space : forall c, is_space c = true -> jc (Some c) = false).
Context (word : string) (word_nonempty : word <> "").
Context (word_stops : str_forall (fun c => negb (is_stop c)) word = true).
Context (word_first : forall c, first_byte word = Some c -> is_space c = false).
Context (word_last : forall c, last_byte word = Some c -> is_space c = false).

Lemma occurs_untrim s : occurs jc (trim_space s) word -> occurs jc s word.
Proof.
  destruct (trim_space_split s) as (l & r & Hs & Hl & Hr). intros (a & b & Heq & Ha & Hb).
  exists (l ++ a), (b ++ r). rewrite Hs, Heq at 1. rewrite !str_app_assoc. split; [done|]. rewrite last_byte_app, first_byte_app. split.
  - destruct (last_byte a) eqn:E; [done|]. destruct (last_byte l) eqn:El; [|done]. apply jc_space. by apply (last_byte_elem _ _ _ Hl).
  - destruct b; [|done]. destruct r as [|c r]; [done|]. apply jc_space. unfold blank in Hr.
    rewrite str_forall_cons in Hr. by apply andb_true_iff in Hr as [? _].
Qed.

(** A word of a text is a word of one of its sentences. *)
Lemma occurs_sentence text : occurs jc text word -> exists s, s ∈ splitSentences text /\ occurs jc s word.
Proof.
  intros Ho. rewrite <- (segments_join text) in Ho.
  apply occurs_join in Ho as (s & Hs & Ho); try done; [|by apply segments_cut|]; cycle 1.
  { intros Hn. rewrite Hn in Ho. destruct Ho as (a & b & Heq & _). destruct a; [|done]. by destruct word. }
  exists (trim_space s). destruct (trim_space_split s) as (l & r & Heq & Hl & Hr).
  rewrite Heq in Ho. apply occurs_blank_l in Ho; [|done..]. apply occurs_blank_r in Ho; [|done..]. split; [|done].
  apply list_elem_of_In, filter_In. split; [by apply list_elem_of_In, list_elem_of_fmap_2|].
  unfold nonblank. destruct Ho as (a & b & -> & _). destruct a; [|done]. by destruct word.
Qed.

(** Sentences removed, the rest joined and trimmed: the words left are words of
    the sentences kept. *)
Lemma occurs_kept l : well_cut l -> occurs jc (trim_space (strings_join " " l)) word -> exists s, s ∈ l /\ occurs jc s word.
Proof.
  intros Hl Ho. apply occurs_untrim in Ho. destruct l as [|x l]; cycle 1.
  { apply occurs_join in Ho; done. }
  destruct Ho as (a & b & Heq & _). destruct a; [|done]. by destruct word.
Qed.
End sentences.

(** ** Splitting what was joined

    Sentences that were split, some of them removed and the rest joined by a
    space, split into exactly the ones that were kept. *)

Definition sentence (s : string) : Prop :=
  segments s = [s] /\ s <> "" /\ (forall c, first_byte s = Some c -> is_space c = false) /\
  (forall c, last_byte s = Some c -> is_space c = false).

Lemma at_break_app s t : s <> "" -> at_break (s ++ t) = at_break s.
Proof. by destruct s. Qed.

Lemma segments_one c s : s <> "" -> segments (String c s) = [String c s] -> segments s = [s] /\ (is_stop c && at_break s) = false.
Proof.
  intros Hne. cbn [segments]. pose proof (segments_nonempty s Hne). destruct (segments s) as [|g gs]; [done|].
  destruct (is_stop c && at_break s); [done|]. by intros [= -> ->].
Qed.

Lemma segments_stop_app s t : segments s = [s] -> ends_stop s -> t <> "" -> at_break t = true -> segments (s ++ t) = s :: segments t.
Proof.
  intros Hs (p & e & -> & He) Hne Ht. pose proof (segments_nonempty t Hne) as Hn. induction p as [|c p IH].
  - change ((("" : string) ++ String e "") ++ t) with (String e t). cbn [segments]. rewrite He, Ht. by destruct (segments t).
  - change ((String c p ++ String e "") ++ t) with (String c ((p ++ String e "") ++ t)). cbn [segments].
    change (String c p ++ String e "") with (String c (p ++ String e "")) in Hs.
    assert (Hne' : p ++ String e "" <> "") by by destruct p. apply segments_one in Hs as [Hs Hb]; [|done].
    rewrite (IH Hs), at_break_app by done. by rewrite Hb.
Qed.

Lemma segments_space c s : is_space c = true -> s <> "" ->
  segments (String c s) = match segments s with [] => [] | g :: gs => String c g :: gs end.
Proof.
  intros Hc Hne. cbn [segments]. pose proof (segments_nonempty s Hne). destruct (segments s); [done|].
  assert (is_stop c = false) as -> by (destruct (is_stop c) eqn:E; [by rewrite stop_not_space in Hc|done]). done.
Qed.

Lemma trim_left_id s : (forall c, first_byte s = Some c -> is_space c = false) -> trim_left_space s = s.
Proof. destruct s as [|c s]; [done|]. intros H. cbn. by rewrite H. Qed.
Lemma trim_right_id s : (forall c, last_byte s = Some c -> is_space c = false) -> trim_right_space s = s.
Proof.
  destruct (decide (s = "")) as [->|Hne]; [done|]. destruct (nonempty_split s Hne) as (p & c & -> & Hl). intros H.
  apply trim_right_stop. by apply H.
Qed.
Lemma trim_space_id s : (forall c, first_byte s = Some c -> is_space c = false) ->
  (forall c, last_byte s = Some c -> is_space c = false) -> trim_space s = s.
Proof. intros Hf Hl. unfold trim_space. by rewrite trim_left_id, trim_right_id. Qed.

Lemma trim_left_first s c : first_byte (trim_left_space s) = Some c -> is_space c = false.
Proof. induction s as [|d s IH]; [done|]. cbn. destruct (is_space d) eqn:Hd; [done|]. by intros [= <-]. Qed.
Lemma trim_right_last s c : last_byte (trim_right_space s) = Some c -> is_space c = false.
Proof.
  induction s as [|d s IH]; [done|]. cbn [trim_right_space]. destruct (trim_right_space s) as [|x t] eqn:Ht; [|exact IH].
  destruct (is_space d) eqn:Hd; [done|]. by intros [= <-].
Qed.
Lemma trim_right_first s c : first_byte (trim_right_space s) = Some c -> first_byte s = Some c.
Proof.
  destruct s as [|d s]; [done|]. cbn [trim_right_space]. destruct (trim_right_space s); [destruct (is_space d); [done|]|]; by intros [= <-].
Qed.
Lemma trim_space_ends s c : (first_byte (trim_space s) = Some c \/ last_byte (trim_space s) = Some c) -> is_space c = false.
Proof.
  unfold trim_space. intros [Hf|Hl]; [by eapply trim_left_first, trim_right_first|by eapply trim_right_last].
Qed.

(** A trimmed segment is a sentence. *)
Lemma segments_blank_app l s : blank l -> s <> "" -> segments (l ++ s) = match segments s with [] => [] | g :: gs => (l ++ g) :: gs end.
Proof.
  intros Hl Hne. induction l as [|c l IH]; [change ("" ++ s) with s; by destruct (segments s)|].
  unfold blank in Hl. rewrite str_forall_cons in Hl. apply andb_true_iff in Hl as [Hc Hl].
  change (String c l ++ s) with (String c (l ++ s)). rewrite segments_space by (first [done | destruct l; done]).
  rewrite IH by done. by destruct (segments s).
Qed.
Lemma segments_app_one s t : s <> "" -> segments (s ++ t) = [s ++ t] -> segments s = [s].
Proof.
  induction s as [|c s IH]; [done|]. intros _. destruct (decide (s = "")) as [->|Hne]; [done|].
  change (String c s ++ t) with (String c (s ++ t)). intros H. apply segments_one in H as [H Hb]; [|by destruct s].
  specialize (IH Hne H). cbn [segments]. rewrite IH. rewrite at_break_app in Hb by done. by rewrite Hb.
Qed.
Lemma segment_trim seg : segments seg = [seg] -> trim_space seg <> "" -> sentence (trim_space seg).
Proof.
  intros Hs Hne. split; [|split; [done|split; intros c Hc; apply (trim_space_ends seg); [by left|by right]]].
  destruct (trim_space_split seg) as (l & r & Heq & Hl & Hr).
  assert (Hne' : trim_space seg ++ r <> "") by by destruct (trim_space seg).
  rewrite Heq, segments_blank_app in Hs by done. pose proof (segments_nonempty _ Hne').
  destruct (segments (trim_space seg ++ r)) as [|g gs] eqn:Hg; [done|].
  injection Hs as Hg' ->. apply str_app_inv_head in Hg' as ->. by apply segments_app_one in Hg.
Qed.
Lemma segments_each s : Forall (fun seg => segments seg = [seg]) (segments s).
Proof.
  induction s as [|c s IH]; [by constructor|]. cbn [segments]. pose proof (segments_join s) as Hj.
  destruct (segments s) as [|g gs]; [by repeat constructor|]. apply Forall_cons in IH as [Hg Hgs].
  destruct (is_stop c && at_break s) eqn:Hb; (constructor; [|try constructor; done]); [done|].
  cbn [segments]. rewrite Hg. destruct g as [|d g]; [done|].
  assert (at_break (String d g) = at_break s) as -> by (rewrite <- Hj; by destruct gs). by rewrite Hb.
Qed.
Lemma splitSentences_each text : Forall sentence (splitSentences text).
Proof.
  apply Forall_forall. intros s Hs. apply list_elem_of_In, filter_In in Hs as [Hs Hn].
  apply list_elem_of_In, list_elem_of_fmap in Hs as (seg & -> & Hseg). apply segment_trim.
  - pose proof (segments_each text) as He. rewrite Forall_forall in He. by apply He.
  - intros He. by rewrite He in Hn.
Qed.

Lemma join_first x l c : first_byte (strings_join " " (x :: l)) = Some c -> x <> "" -> first_byte x = Some c.
Proof. destruct l; [done|]. change (strings_join " " (x :: s :: l)) with (x ++ " " ++ strings_join " " (s :: l)). rewrite first_byte_app. by destruct x. Qed.
Lemma join_last x l c : Forall (fun s => s <> "") (x :: l) -> last_byte (strings_join " " (x :: l)) = Some c ->
  exists s, s ∈ x :: l /\ last_byte s = Some c.
Proof.
  revert x. induction l as [|y l IH]; intros x Hne; [intros Hl; exists x; by split; [left|]|].
  change (strings_join " " (x :: y :: l)) with (x ++ " " ++ strings_join " " (y :: l)). apply Forall_cons in Hne as [Hx Hne].
  rewrite !last_byte_app. destruct (last_byte (strings_join " " (y :: l))) eqn:E.
  - intros [= ->]. destruct (IH y Hne E) as (s & Hs & ?). exists s. by split; [right|].
  - apply last_byte_None in E. apply Forall_cons in Hne as [Hy _]. destruct l; [done|]. by destruct y.
Qed.

Lemma split_join_gen l : Forall sentence l -> well_cut l -> l <> [] -> splitSentences (strings_join " " l) = l.
Proof.
  intros Hs Hc Hne. unfold splitSentences.
  enough (exists gs, segments (strings_join " " l) = gs /\ map trim_space gs = l) as (gs & -> & ->).
  { clear Hc Hne. induction Hs as [|x l (_ & Hx & _) _ IH]; [done|]. cbn. rewrite IH. unfold nonblank. by destruct (String.eqb_spec x ""). }
  induction l as [|x l IH]; [done|]. apply Forall_cons in Hs as [(Hx1 & Hx2 & Hxf & Hxl) Hs]. destruct Hc as [Hx Hc].
  destruct l as [|y l].
  { exists [x]. split; [exact Hx1|]. cbn. by rewrite trim_space_id. }
  destruct Hx as [|Hx]; [done|]. destruct (IH Hs Hc) as (gs & Hg & Hm); [done|].
  change (strings_join " " (x :: y :: l)) with (x ++ String " " (strings_join " " (y :: l))).
  
  assert (Hj : strings_join " " (y :: l) <> "").
  { intros Hj. rewrite Hj in Hg. cbn in Hg. by subst gs. }
  rewrite segments_stop_app, segments_space, Hg by done. destruct gs as [|g gs]; [done|].
  eexists. split; [done|]. cbn. rewrite trim_space_id by done. cbn in Hm. injection Hm as Hgy Hm. do 2 f_equal; [|done].
  unfold trim_space in *. cbn. exact Hgy.
Qed.

Lemma split_kept text keep :
  let kept := List.filter keep (splitSentences text) in
  splitSentences (trim_space (strings_join " " kept)) = kept.
Proof.
  cbv zeta. set (kept := List.filter keep _).
  assert (Hs : Forall sentence kept).
  { apply Forall_forall. intros s Hin. apply list_elem_of_In, filter_In in Hin as [Hin _].
    pose proof (splitSentences_each text) as He. rewrite Forall_forall in He. by apply He, list_elem_of_In. }
  assert (Hc : well_cut kept) by apply well_cut_filter, splitSentences_cut.
  destruct kept as [|x l]; [done|]. rewrite trim_space_id; [by apply split_join_gen| |].
  - intros c Hf. apply Forall_cons in Hs as [(_ & Hne & Hx & _) _]. apply Hx. by eapply join_first.
  - intros c Hl. apply join_last in Hl as (s & Hin & Hl).
    + rewrite Forall_forall in Hs. destruct (Hs s Hin) as (_ & _ & _ & H). by apply H.
    + eapply Forall_impl; [done|]. by intros ? (_ & ? & _).
Qed.

(** ** Properties *)

(** C38. The searches end, and end right.  [containsToken] and [containsWord] loop
    with no bound in the source, slicing the text from a moving offset.  For any
    text and any non-empty word neither loop runs past the length of the text or
    slices out of range, and the answer is whether the word occurs somewhere
    with nothing that joins it on either side. *)
Theorem searches_terminate (text word : string) : word <> "" ->
  (exists found, search_loop alphanumericAt (S (String.length text)) text word 0 = Some found /\ containsToken text word = found /\
     (found = true <-> exists i, delimited_at alphanumericAt text word i)) /\
  (exists found, search_loop letterAt (S (String.length text)) text word 0 = Some found /\ containsWord text word = found /\
     (found = true <-> exists i, delimited_at letterAt text word i)).
Proof.
  intros Hw. split.
  - destruct (search_total alphanumericAt text word Hw) as (found & Hs & Hf). exists found. unfold containsToken, search. by rewrite Hs.
  - destruct (search_total letterAt text word Hw) as (found & Hs & Hf). exists found. unfold containsWord, search. by rewrite Hs.
Qed.

(** Dropping sentences is exact.  The sentences the scrubs keep, rejoined with
    single spaces, split into the same sentences again: a kept sentence is never
    torn or glued to the next, so what was decided of each sentence holds of the
    text that is written. *)
Theorem splitSentences_rejoin (text : string) (keep : string -> bool) :
  let kept := List.filter keep (splitSentences text) in
  splitSentences (trim_space (strings_join " " kept)) = kept.
Proof. apply split_kept. Qed.

Lemma searches_terminate_witness :
  containsToken "raise it to 400, not 1400" "400" = true /\ exists i, delimited_at alphanumericAt "raise it to 400, not 1400" "400" i.
Proof.
  split; [vm_compute; reflexivity|].
  destruct (searches_terminate "raise it to 400, not 1400" "400") as [(found & _ & Hc & Hf) _]; [discriminate|].
  apply Hf. rewrite <- Hc. vm_compute. reflexivity.
Defined.
