(* ===== verification/Disclosure.v ===== *)
(** * What a plan says about the guardrails (internal/remediation:
    blast_radius_notice.go, fabricated_clamp.go, and
    discloseGroundedBlastRadiusClamp of proposer_grounding.go).

    A plan that sits at the 2x cap is annotated and its confidence damped; a
    sentence that claims a guardrail ruled survives only in a plan where one
    recorded a verdict. *)

From S2P Require Import Prelude GoString GoNum Json ApiTypes KubeTypes Steps Safety Ownership Grounding Prose.
From Stdlib Require Import String Ascii.
From stdpp Require Import strings.
Open Scope string_scope.

(** ** Field updates *)

Definition set_description (d : string) (s : RemediationStep) : RemediationStep :=
  set_step_text (st_Command s) d (st_Rationale s) s.
Definition set_rationale (r : string) (s : RemediationStep) : RemediationStep :=
  set_step_text (st_Command s) (st_Description s) r s.

(** The prose of the action itself. *)
Definition set_prose (summary explanation confidence : string) (action : RemediationAction) : RemediationAction :=
  let s := ra_Spec action in
  mkRA (ra_Meta action) (mkRASpec (ra_IncidentRef s) (ra_PersonaRef s) (ra_TrustLevel s) (ra_Action s) (ra_Steps s)
    (ra_PlanSource s) summary explanation confidence (ra_WorkloadRef s) (ra_Approval s) (ra_Rollback s))
    (ra_Status action).

(** ** blast_radius_notice.go *)

Definition ClampedConfidenceDamping : f64 := f_lit 85 100.
Definition clampEpsilon : f64 := f_lit 1 1000000000.

(** [MaxBlastRadiusMultiplier - clampEpsilon], a constant expression: rounded once. *)
Definition cap_threshold : f64 := f_lit 1999999999 1000000000.

Section quantities.
Context `{QuantityOps}.

Definition at_cap (newVal oldVal : Quantity) : bool :=
  let oldQty := q_Float oldVal in
  negb (f_le oldQty f_zero) && f_le cap_threshold (fdiv (q_Float newVal) oldQty).

Definition fieldsAtBlastRadiusCap (patch prePatch : option raw_json) : list string :=
  match patch, prePatch with
  | Some p, Some pre =>
      if raw_len0 p || raw_len0 pre then [] else
      match parseResourcePatch p with
      | Err _ => []
      | Ok patchValues =>
          match parseResourcePatch pre with
          | Err _ => []
          | Ok prePatchValues =>
              sort_strings (omap (fun fv => oldVal ← prePatchValues !! fv.1;
                                            if at_cap fv.2 oldVal then Some fv.1 else None) (map_to_list patchValues))
          end
      end
  | _, _ => []
  end.

Definition blastRadiusCaveat (fields : list string) : string :=
  "Clamped by the " ++ fmt_f 0 MaxBlastRadiusMultiplier ++ "x blast-radius guardrail: " ++ humanFieldList fields
  ++ " could not be raised further in one step, so this may be insufficient and a second increase may be required.".

Definition dampConfidence (confidence : string) : string :=
  match ParseFloat confidence with
  | None => confidence
  | Some parsed => fmt_f 2 (fmul parsed ClampedConfidenceDamping)
  end.

(** The fields at the cap on one step: the operator's own writes only. *)
Definition step_cap_fields (step : RemediationStep) : list string :=
  if st_AutoExecutable step && (st_Type step =? StepTypePersonaUpdate)
  then fieldsAtBlastRadiusCap (st_Patch step) (st_PrePatchState step) else [].

Definition disclose_step (step : RemediationStep) : RemediationStep :=
  match step_cap_fields step with
  | [] => step
  | fields => set_rationale (appendNote (st_Rationale step) (blastRadiusCaveat fields)) step
  end.

(** [sortedKeys] of the set of every field seen. *)
Definition clamped_fields (action : RemediationAction) : list string :=
  let spec := ra_Spec action in
  sort_strings (remove_dups (concat (map step_cap_fields (ra_Steps spec))
    ++ fieldsAtBlastRadiusCap (ad_Patch (ra_Action spec)) (ad_PrePatchState (ra_Action spec)))%list).

(** [discloseBlastRadiusClamp]: the action and whether it was annotated.  With
    no field at the cap no step was touched either. *)
Definition discloseBlastRadiusClamp (action : RemediationAction) : RemediationAction * bool :=
  match clamped_fields action with
  | [] => (action, false)
  | clamped =>
      let spec := ra_Spec action in
      let caveat := blastRadiusCaveat clamped in
      (set_prose (if (ra_PlanSummary spec =? "") then "" else appendNote (ra_PlanSummary spec) caveat)
         (appendNote (ra_Explanation spec) caveat) (dampConfidence (ra_Confidence spec))
         (set_steps (map disclose_step (ra_Steps spec)) action), true)
  end.

(** [swap] and [restore]: the disclosure is measured against the live values,
    and the recorded rollback state is put back afterwards. *)
Definition discloseGroundedBlastRadiusClamp (action : RemediationAction) (ref : option WorkloadRef) : RemediationAction * bool :=
  let spec := ra_Spec action in
  let swapped := set_steps (map (ground_step ref) (ra_Steps spec)) (set_action (ground_detail ref (ra_Action spec)) action) in
  let '(out, disclosed) := discloseBlastRadiusClamp swapped in
  (set_steps (zip_with (fun step saved => set_pre (st_PrePatchState saved) step) (ra_Steps (ra_Spec out)) (ra_Steps spec))
     (set_action (set_detail_pre (ad_PrePatchState (ra_Action spec)) (ra_Action (ra_Spec out))) out), disclosed).
End quantities.

(** ** fabricated_clamp.go *)

Definition guardrailTerms : list string := ["clamp"; "guardrail"; "blast radius"; "blast-radius"; "ceiling"].
Definition guardrailWords : list string := ["cap"; "caps"; "capped"; "capping"].

Definition assertsGuardrailVerdict (text : string) : bool :=
  let lower := to_lower text in
  existsb (contains lower) guardrailTerms || existsb (containsWord lower) guardrailWords.

Definition dropGuardrailClaims (text : string) : string * bool :=
  if (trim_space text =? "") then (text, false) else
  let sentences := splitSentences text in
  if existsb assertsGuardrailVerdict sentences
  then (trim_space (strings_join " " (List.filter (fun s => negb (assertsGuardrailVerdict s)) sentences)), true)
  else (text, false).

Definition b2n (b : bool) : nat := if b then 1 else 0.

Definition scrub_claims (step : RemediationStep) : RemediationStep * nat :=
  let '(description, d) := dropGuardrailClaims (st_Description step) in
  let '(rationale, r) := dropGuardrailClaims (st_Rationale step) in
  (set_step_text (st_Command step) description rationale step, b2n d + b2n r)%nat.

Definition no_verdict (action : RemediationAction) : bool :=
  forallb (fun s => match st_Safety s with [] => true | _ => false end) (ra_Steps (ra_Spec action)).

(** [scrubFabricatedGuardrailClaims]: the plan and how many surfaces changed. *)
Definition scrubFabricatedGuardrailClaims (action : RemediationAction) : RemediationAction * nat :=
  if negb (no_verdict action) then (action, 0%nat) else
  let spec := ra_Spec action in
  let steps := map scrub_claims (ra_Steps spec) in
  let '(summary, s) := dropGuardrailClaims (ra_PlanSummary spec) in
  let '(explanation, e) := dropGuardrailClaims (ra_Explanation spec) in
  (set_prose summary explanation (ra_Confidence spec) (set_steps (map fst steps) action),
   list_sum (map snd steps) + b2n s + b2n e)%nat.

(** ** Case folding and sentences *)

Lemma space_lower c : is_space (to_lower_byte c) = is_space c.
Proof. by destruct c as [[] [] [] [] [] [] [] []]. Qed.
Lemma stop_lower c : is_stop (to_lower_byte c) = is_stop c.
Proof. by destruct c as [[] [] [] [] [] [] [] []]. Qed.

Lemma to_lower_app a b : to_lower (a ++ b) = to_lower a ++ to_lower b.
Proof. unfold to_lower. induction a as [|c a IH]; [done|]. cbn. by rewrite IH. Qed.

Lemma trim_left_lower s : trim_left_space (to_lower s) = to_lower (trim_left_space s).
Proof. induction s as [|c s IH]; [done|]. cbn. rewrite space_lower. by destruct (is_space c). Qed.
Lemma trim_right_lower s : trim_right_space (to_lower s) = to_lower (trim_right_space s).
Proof.
  induction s as [|c s IH]; [done|]. cbn [to_lower str_map trim_right_space] in *. change (str_map to_lower_byte s) with (to_lower s).
  rewrite IH, space_lower. destruct (trim_right_space s); [|done]. cbn. by destruct (is_space c).
Qed.
Lemma trim_space_lower s : trim_space (to_lower s) = to_lower (trim_space s).
Proof. unfold trim_space. by rewrite trim_left_lower, trim_right_lower. Qed.

Lemma join_lower sep l : to_lower sep = sep -> strings_join sep (map to_lower l) = to_lower (strings_join sep l).
Proof.
  intros Hs. induction l as [|x l IH]; [done|]. destruct l as [|y l]; [done|].
  change (strings_join sep (map to_lower (x :: y :: l))) with (to_lower x ++ sep ++ strings_join sep (map to_lower (y :: l))).
  rewrite IH. change (strings_join sep (x :: y :: l)) with (x ++ sep ++ strings_join sep (y :: l)). by rewrite !to_lower_app, Hs.
Qed.

Lemma segments_lower s : segments (to_lower s) = map to_lower (segments s).
Proof.
  induction s as [|c s IH]; [done|]. cbn [to_lower str_map segments]. change (str_map to_lower_byte s) with (to_lower s).
  rewrite IH. destruct (segments s) as [|g gs]; [done|]. cbn [map].
  rewrite stop_lower. replace (at_break (to_lower s)) with (at_break s) by (destruct s; [done|]; cbn; by rewrite space_lower).
  by destruct (is_stop c && at_break s).
Qed.
Lemma filter_map_comm {A B} (f : A -> B) p l : List.filter p (map f l) = map f (List.filter (fun x => p (f x)) l).
Proof. induction l as [|x l IH]; [done|]. cbn. rewrite IH. by destruct (p (f x)). Qed.

Lemma splitSentences_lower s : splitSentences (to_lower s) = map to_lower (splitSentences s).
Proof.
  unfold splitSentences. rewrite segments_lower, map_map.
  rewrite (map_ext (fun x => trim_space (to_lower x)) (fun x => to_lower (trim_space x))) by apply trim_space_lower.
  rewrite <- (map_map trim_space to_lower), filter_map_comm. f_equal. apply filter_ext. by intros [|].
Qed.

(** ** Verdict words are found sentence by sentence *)

Definition letter_joins (c : option ascii) : bool := match c with Some c => is_letter c | None => false end.

Lemma containsWord_occurs text word : word <> "" -> containsWord text word = true <-> occurs letter_joins text word.
Proof. apply search_occurs. intros s i. unfold letterAt, letter_joins. by destruct (byte_at s i). Qed.

(** A term as it is searched for: non-empty, and spelled without a stop or an
    outer blank. *)
Definition plain_term (w : string) : bool :=
  negb (w =? "") && str_forall (fun c => negb (is_stop c)) w
  && match first_byte w with Some c => negb (is_space c) | None => false end
  && match last_byte w with Some c => negb (is_space c) | None => false end.

Definition asserts_by (text : string) (jc : option ascii -> bool) (w : string) : Prop := occurs jc (to_lower text) w.

Definition verdict_spelling (jc : option ascii -> bool) (w : string) : Prop :=
  (w ∈ guardrailTerms /\ jc = fun _ => false) \/ (w ∈ guardrailWords /\ jc = letter_joins).

Lemma verdict_spelling_plain jc w : verdict_spelling jc w ->
  plain_term w = true /\ jc None = false /\ forall c, is_space c = true -> jc (Some c) = false.
Proof.
  assert (Hl : forall c, is_space c = true -> letter_joins (Some c) = false).
  { intros c. by destruct c as [[] [] [] [] [] [] [] []]. }
  intros [[Hw ->]|[Hw ->]]; (split; [|by split]); clear Hl; revert Hw;
    rewrite ?list_elem_of_In; cbn; intros Hw; intuition (subst; reflexivity).
Qed.

Lemma assertsGuardrailVerdict_iff text :
  assertsGuardrailVerdict text = true <-> exists jc w, verdict_spelling jc w /\ occurs jc (to_lower text) w.
Proof.
  unfold assertsGuardrailVerdict. rewrite orb_true_iff, !existsb_elem. split.
  - intros [(w & Hw & Hc)|(w & Hw & Hc)].
    + exists (fun _ => false), w. split; [by left|]. by apply contains_occurs.
    + exists letter_joins, w. split; [by right|]. apply containsWord_occurs; [|done]. intros ->. by repeat (apply elem_of_cons in Hw as [?|Hw]; [done|]); apply not_elem_of_nil in Hw.
  - intros (jc & w & [[Hw ->]|[Hw ->]] & Ho); [left|right]; exists w; (split; [done|]).
    + by apply contains_occurs.
    + apply containsWord_occurs; [|done]. intros ->. by repeat (apply elem_of_cons in Hw as [?|Hw]; [done|]); apply not_elem_of_nil in Hw.
Qed.

Lemma plain_term_facts w : plain_term w = true ->
  w <> "" /\ str_forall (fun c => negb (is_stop c)) w = true /\
  (forall c, first_byte w = Some c -> is_space c = false) /\ (forall c, last_byte w = Some c -> is_space c = false).
Proof.
  unfold plain_term. rewrite !andb_true_iff. intros [[[H1 H2] H3] H4]. split; [by intros ->|]. split; [done|].
  split; intros c Hc; rewrite Hc in *; by apply negb_true_iff.
Qed.

(** A text of which no sentence asserts a verdict asserts none. *)
Lemma quiet_sentences text : existsb assertsGuardrailVerdict (splitSentences text) = false -> assertsGuardrailVerdict text = false.
Proof.
  intros Hq. destruct (assertsGuardrailVerdict text) eqn:Ht; [|done]. exfalso.
  apply assertsGuardrailVerdict_iff in Ht as (jc & w & Hs & Ho).
  destruct (verdict_spelling_plain jc w Hs) as (Hp & Hn & Hb). destruct (plain_term_facts w Hp) as (H1 & H2 & H3 & H4).
  apply occurs_sentence in Ho as (s & Hin & Ho); try done.
  rewrite splitSentences_lower in Hin. apply list_elem_of_fmap in Hin as (s0 & -> & Hin).
  rewrite existsb_not_elem in Hq. specialize (Hq s0 Hin).
  assert (assertsGuardrailVerdict s0 = true) by (apply assertsGuardrailVerdict_iff; eauto). congruence.
Qed.

(** Neither does what is left when the asserting sentences go. *)
Lemma quiet_kept text :
  assertsGuardrailVerdict (trim_space (strings_join " " (List.filter (fun s => negb (assertsGuardrailVerdict s)) (splitSentences text)))) = false.
Proof.
  set (l := List.filter _ _). destruct (assertsGuardrailVerdict _) eqn:Ht; [|done]. exfalso.
  apply assertsGuardrailVerdict_iff in Ht as (jc & w & Hs & Ho).
  destruct (verdict_spelling_plain jc w Hs) as (Hp & Hn & Hb). destruct (plain_term_facts w Hp) as (H1 & H2 & H3 & H4).
  rewrite <- trim_space_lower, <- join_lower in Ho by done.
  apply occurs_kept in Ho as (s & Hin & Ho); try done.
  - apply list_elem_of_fmap in Hin as (s0 & -> & Hin). apply list_elem_of_In, filter_In in Hin as [_ Hf].
    assert (assertsGuardrailVerdict s0 = true) as Ha by (apply assertsGuardrailVerdict_iff; eauto). by rewrite Ha in Hf.
  - apply well_cut_map; [|apply well_cut_filter, splitSentences_cut]. intros s (p & c & -> & Hc).
    exists (to_lower p), (to_lower_byte c). by rewrite to_lower_app, stop_lower.
Qed.

Lemma dropGuardrailClaims_quiet text : assertsGuardrailVerdict (dropGuardrailClaims text).1 = false.
Proof.
  unfold dropGuardrailClaims. destruct (String.eqb_spec (trim_space text) "") as [He|_]; [|destruct (existsb _ _) eqn:Hs].
  - cbn [fst]. apply quiet_sentences. by rewrite splitSentences_blank.
  - apply quiet_kept.
  - by apply quiet_sentences.
Qed.

(** ** Properties *)

(** Every surface of prose a reader sees. *)
Definition surfaces (action : RemediationAction) : list string :=
  ra_PlanSummary (ra_Spec action) :: ra_Explanation (ra_Spec action)
  :: concat (map (fun s => [st_Description s; st_Rationale s]) (ra_Steps (ra_Spec action))).

(** What the operator acts on: everything of a step but its prose. *)
Definition step_effect (s : RemediationStep) : Z * string * string * string * bool * string * option raw_json * option raw_json * list StepSafety :=
  (st_Order s, st_ID s, st_Type s, st_Risk s, st_AutoExecutable s, st_Command s, st_Patch s, st_PrePatchState s, st_Safety s).

Lemma scrub_claims_effect s : step_effect (scrub_claims s).1 = step_effect s.
Proof. unfold scrub_claims. by destruct (dropGuardrailClaims (st_Description s)), (dropGuardrailClaims (st_Rationale s)). Qed.

Lemma scrub_claims_quiet s :
  assertsGuardrailVerdict (st_Description (scrub_claims s).1) = false /\ assertsGuardrailVerdict (st_Rationale (scrub_claims s).1) = false.
Proof.
  unfold scrub_claims. pose proof (dropGuardrailClaims_quiet (st_Description s)). pose proof (dropGuardrailClaims_quiet (st_Rationale s)).
  by destruct (dropGuardrailClaims (st_Description s)), (dropGuardrailClaims (st_Rationale s)).
Qed.

Lemma scrub_fabricated_facts (action : RemediationAction) :
  let out := (scrubFabricatedGuardrailClaims action).1 in
  (no_verdict action = true -> forall text, text ∈ surfaces out -> assertsGuardrailVerdict text = false) /\
  (no_verdict action = false -> out = action) /\
  map step_effect (ra_Steps (ra_Spec out)) = map step_effect (ra_Steps (ra_Spec action)) /\
  ra_Action (ra_Spec out) = ra_Action (ra_Spec action) /\ ra_Confidence (ra_Spec out) = ra_Confidence (ra_Spec action).
Proof.
  cbv zeta. unfold scrubFabricatedGuardrailClaims. destruct (no_verdict action); cbn [negb]; [|by split_and!].
  pose proof (dropGuardrailClaims_quiet (ra_PlanSummary (ra_Spec action))) as Hs.
  pose proof (dropGuardrailClaims_quiet (ra_Explanation (ra_Spec action))) as He.
  destruct (dropGuardrailClaims (ra_PlanSummary _)) as [summary s], (dropGuardrailClaims (ra_Explanation _)) as [explanation e].
  cbn [fst] in *. unfold surfaces, set_prose, set_steps, set_plan. cbn [ra_Spec ra_Steps ra_PlanSummary ra_Explanation ra_Action ra_Confidence].
  split; [|split; [done|split; [|done]]].
  - intros _ text [->|[->|Hin]%elem_of_cons]%elem_of_cons; [done|done|].
    apply list_elem_of_In, in_concat in Hin as (l & Hl & Ht). apply in_map_iff in Hl as (st & <- & Hst).
    rewrite map_map in Hst. apply in_map_iff in Hst as (st0 & <- & _). destruct (scrub_claims_quiet st0) as [Hd Hr].
    destruct Ht as [<-|[<-|[]]]; done.
  - rewrite !map_map. apply map_ext. apply scrub_claims_effect.
Qed.

(** No plan claims a guardrail ruled when none did: with no recorded verdict, no
    surface of the scrubbed plan asserts one, by any of the words it is asserted
    with; with one, the plan is left as it is; and either way nothing the
    operator acts on changes. *)
Theorem scrubFabricated_spec (action : RemediationAction) :
  let out := (scrubFabricatedGuardrailClaims action).1 in
  (no_verdict action = true -> forall text, text ∈ surfaces out -> assertsGuardrailVerdict text = false) /\
  (no_verdict action = false -> out = action) /\
  map step_effect (ra_Steps (ra_Spec out)) = map step_effect (ra_Steps (ra_Spec action)) /\
  ra_Action (ra_Spec out) = ra_Action (ra_Spec action) /\ ra_Confidence (ra_Spec out) = ra_Confidence (ra_Spec action).
Proof. apply scrub_fabricated_facts. Qed.

Section disclosure.
Context `{QuantityOps}.

Lemma fields_at_cap_elem patch prePatch field :
  field ∈ fieldsAtBlastRadiusCap patch prePatch <->
  exists p pre new old newVal oldVal, patch = Some p /\ prePatch = Some pre /\
    parseResourcePatch p = Ok new /\ parseResourcePatch pre = Ok old /\
    new !! field = Some newVal /\ old !! field = Some oldVal /\ at_cap newVal oldVal = true.
Proof.
  unfold fieldsAtBlastRadiusCap. split.
  - destruct patch as [p|], prePatch as [pre|]; try by intros ?%not_elem_of_nil.
    destruct (raw_len0 p || raw_len0 pre); [by intros ?%not_elem_of_nil|].
    destruct (parseResourcePatch p) as [new|] eqn:Hp; [|by intros ?%not_elem_of_nil].
    destruct (parseResourcePatch pre) as [old|] eqn:Hpre; [|by intros ?%not_elem_of_nil].
    rewrite sort_strings_perm. intros ([f v] & Hin & Hf)%list_elem_of_omap. cbn in Hf. apply elem_of_map_to_list in Hin.
    destruct (old !! f) as [o|] eqn:Ho; [|done]. cbn in Hf. destruct (at_cap v o) eqn:Hc; [|done]. injection Hf as <-.
    exists p, pre, new, old, v, o. by split_and!.
  - intros (p & pre & new & old & v & o & -> & -> & Hp & Hpre & Hn & Ho & Hc).
    assert (raw_len0 p = false) as -> by (by destruct p). assert (raw_len0 pre = false) as -> by (by destruct pre).
    rewrite Hp, Hpre. cbn [orb]. rewrite sort_strings_perm. apply list_elem_of_omap. exists (field, v).
    split; [by apply elem_of_map_to_list|]. cbn. rewrite Ho. cbn. by rewrite Hc.
Qed.

Lemma clamped_fields_elem action field :
  field ∈ clamped_fields action <->
  (exists s, s ∈ ra_Steps (ra_Spec action) /\ st_AutoExecutable s = true /\ st_Type s = StepTypePersonaUpdate /\
     field ∈ fieldsAtBlastRadiusCap (st_Patch s) (st_PrePatchState s)) \/
  field ∈ fieldsAtBlastRadiusCap (ad_Patch (ra_Action (ra_Spec action))) (ad_PrePatchState (ra_Action (ra_Spec action))).
Proof.
  unfold clamped_fields. rewrite sort_strings_perm, elem_of_remove_dups, elem_of_app.
  apply or_iff_compat_r. rewrite list_elem_of_In, in_concat. split.
  - intros (l & Hl & Hf). apply in_map_iff in Hl as (s & <- & Hs). exists s. unfold step_cap_fields in Hf.
    destruct (st_AutoExecutable s); [|done]. destruct (String.eqb_spec (st_Type s) StepTypePersonaUpdate); [|done].
    by rewrite !list_elem_of_In.
  - intros (s & Hs & Ha & Ht & Hf). exists (step_cap_fields s). split; [by apply in_map, list_elem_of_In|].
    unfold step_cap_fields. rewrite Ha, Ht. cbn. by apply list_elem_of_In.
Qed.

(** The plan as the guardrail measures it: every pre-patch state it can read
    from the live workload, read from there. *)
Definition grounded_plan (action : RemediationAction) (ref : option WorkloadRef) : RemediationAction :=
  set_steps (map (ground_step ref) (ra_Steps (ra_Spec action))) (set_action (ground_detail ref (ra_Action (ra_Spec action))) action).

Lemma restore_effects ref steps (f : RemediationStep -> RemediationStep) :
  (forall s, step_effect (f s) = step_effect s) ->
  map step_effect (zip_with (fun step saved => set_pre (st_PrePatchState saved) step) (map f (map (ground_step ref) steps)) steps)
  = map step_effect steps.
Proof.
  intros Hf. induction steps as [|s steps IH]; [done|]. cbn. f_equal; [|exact IH]. specialize (Hf (ground_step ref s)).
  unfold step_effect in *. unfold ground_step in *. destruct (groundedPrePatch (st_Patch s) ref); cbn in *; simplify_eq; congruence.
Qed.

Lemma disclose_step_effect s : step_effect (disclose_step s) = step_effect s.
Proof. unfold disclose_step. by destruct (step_cap_fields s). Qed.

Lemma restore_steps ref steps :
  zip_with (fun step saved => set_pre (st_PrePatchState saved) step) (map (ground_step ref) steps) steps = steps.
Proof.
  induction steps as [|s steps IH]; [done|]. cbn. rewrite IH. f_equal. unfold ground_step.
  destruct (groundedPrePatch (st_Patch s) ref); by destruct s.
Qed.

Lemma restore_detail ref d : set_detail_pre (ad_PrePatchState d) (ground_detail ref d) = d.
Proof. unfold ground_detail. destruct (groundedPrePatch (ad_Patch d) ref); by destruct d. Qed.

Lemma disclosure_effects action ref :
  let out := (discloseGroundedBlastRadiusClamp action ref).1 in
  map step_effect (ra_Steps (ra_Spec out)) = map step_effect (ra_Steps (ra_Spec action)) /\
  ra_Action (ra_Spec out) = ra_Action (ra_Spec action).
Proof.
  cbv zeta. unfold discloseGroundedBlastRadiusClamp. fold (grounded_plan action ref). unfold discloseBlastRadiusClamp.
  destruct (clamped_fields (grounded_plan action ref)) as [|f fs]; cbn beta iota zeta;
    cbn [fst ra_Spec ra_Steps set_steps set_plan set_action grounded_plan ra_Action set_prose];
    rewrite restore_detail; (split; [|done]).
  - by rewrite restore_steps.
  - by rewrite restore_effects by apply disclose_step_effect.
Qed.

(** The clamp disclosure is about words and confidence only.  It fires exactly
    when some field a step would write, or the legacy action would, reaches the
    cap measured against the live workload; then the confidence is the damped
    one; the rollback state, swapped for the measurement, is back in place, so
    every patch, command, flag, pre-patch state and verdict is as it was; and
    when it does not fire the plan is untouched. *)
Theorem disclosure_touches_prose_only (action : RemediationAction) (ref : option WorkloadRef) :
  let '(out, disclosed) := discloseGroundedBlastRadiusClamp action ref in
  let live := ra_Spec (grounded_plan action ref) in
  (disclosed = true <-> exists field,
     (exists s, s ∈ ra_Steps live /\ st_AutoExecutable s = true /\ st_Type s = StepTypePersonaUpdate /\
        field ∈ fieldsAtBlastRadiusCap (st_Patch s) (st_PrePatchState s)) \/
     field ∈ fieldsAtBlastRadiusCap (ad_Patch (ra_Action live)) (ad_PrePatchState (ra_Action live))) /\
  (disclosed = true -> ra_Confidence (ra_Spec out) = dampConfidence (ra_Confidence (ra_Spec action))) /\
  (disclosed = false -> out = action) /\
  map step_effect (ra_Steps (ra_Spec out)) = map step_effect (ra_Steps (ra_Spec action)) /\
  ra_Action (ra_Spec out) = ra_Action (ra_Spec action).
Proof.
  unfold discloseGroundedBlastRadiusClamp. fold (grounded_plan action ref). unfold discloseBlastRadiusClamp.
  pose proof (clamped_fields_elem (grounded_plan action ref)) as Hel.
  destruct (clamped_fields (grounded_plan action ref)) as [|f fs] eqn:Hc.
  - cbn beta iota zeta. cbn [ra_Spec ra_Steps set_steps set_plan set_action grounded_plan ra_Action].
    rewrite restore_steps, restore_detail. split_and!; try done.
    + split; [done|]. by intros [? ?%Hel%not_elem_of_nil].
    + intros _. by destruct action as [? []].
  - cbn beta iota zeta. cbn [ra_Spec ra_Steps set_steps set_plan set_action grounded_plan ra_Action set_prose ra_Confidence].
    rewrite restore_detail, restore_effects by apply disclose_step_effect. split_and!; try done.
    split; [|done]. intros _. exists f. apply Hel. by left.
Qed.
End disclosure.
