(* ===== verification/Refused.v ===== *)
(** * No surface of a plan offers a value a guardrail refused
    (internal/remediation/refused_values.go; [planExplanation] and [pluralSteps]
    of proposer_ai.go).

    The refusals are read from the verdicts recorded on the steps, of the whole
    plan; commands that carry one are dropped, patch leaves that hold one are
    pruned, and sentences that name one are removed.  The verdict messages and
    the pre-patch state are left alone. *)

From S2P Require Import Prelude GoString GoNum Json ApiTypes KubeTypes Steps Client Executor Ownership Grounding Prose Disclosure.
From Stdlib Require Import String Ascii.
From stdpp Require Import strings.
Open Scope string_scope.

Definition SafetyRuleBlastRadius : string := "blast-radius".
Definition SafetyRulePlanValidation : string := "plan-validation".
Definition SafetyRuleAbsentField : string := "absent-field".
Definition SafetyVerdictClamped : string := "clamped".
Definition SafetyVerdictRejected : string := "rejected".
Definition SafetyVerdictDerived : string := "derived".

(** ** The shape of a plan in one line *)

Definition pluralSteps (n : nat) : string := if (n =? 1)%nat then "1 step" else fmt_d (Z.of_nat n) ++ " steps".

Definition planExplanation (steps : list RemediationStep) : string :=
  let auto := length (List.filter st_AutoExecutable steps) in
  let advisory := (length steps - auto)%nat in
  if (length steps =? 0)%nat then "AI remediation plan with no steps"
  else if (auto =? 0)%nat then
    "AI remediation plan: " ++ pluralSteps (length steps) ++ ", all advisory (nothing is applied for you)"
  else if (advisory =? 0)%nat then "AI remediation plan: " ++ pluralSteps (length steps) ++ ", applied on approval"
  else "AI remediation plan: " ++ pluralSteps (length steps) ++ ", " ++ fmt_d (Z.of_nat auto)
    ++ " applied on approval and " ++ fmt_d (Z.of_nat advisory) ++ " advisory".

(** ** Text *)

(** [strings.FieldsFunc(s, sep)]. *)
Fixpoint fields_func_aux (sep : ascii -> bool) (s : string) : string * list string :=
  match s with
  | "" => ("", [])
  | String c s' => let '(w, l) := fields_func_aux sep s' in
      if sep c then ("", nonempty_cons w l) else (String c w, l)
  end.
Definition fields_func (sep : ascii -> bool) (s : string) : list string :=
  let '(w, l) := fields_func_aux sep s in nonempty_cons w l.

(** [strings.NewReplacer(pairs...).Replace(s)]: at each position the first key
    that matches; every key is non-empty, so the length of the text is enough
    fuel. *)
Fixpoint first_match (pairs : list (string * string)) (s : string) : option (string * string) :=
  match pairs with
  | [] => None
  | (old, new) :: ps => match cut_prefix s old with Some rest => Some (new, rest) | None => first_match ps s end
  end.
Fixpoint replace_loop (fuel : nat) (pairs : list (string * string)) (s : string) : string :=
  match fuel with
  | O => s
  | S fuel' => match first_match pairs s with
               | Some (new, rest) => new ++ replace_loop fuel' pairs rest
               | None => match s with "" => "" | String c s' => String c (replace_loop fuel' pairs s') end
               end
  end.
Definition replacer (pairs : list (string * string)) (s : string) : string := replace_loop (S (String.length s)) pairs s.

Definition nul : string := String Ascii.zero "".
Definition protected_token (i : nat) : string :=
  nul ++ "protected-" ++ String (ascii_of_N (97 + N.of_nat (i mod 26))) "" ++ nul.

(** The masked text and the pairs [restore] puts back, in order. *)
Fixpoint mask_from (i : nat) (text : string) (protected : list string) : string * list (string * string) :=
  match protected with
  | [] => (text, [])
  | span :: rest =>
      if (span =? "") || negb (contains text span) then mask_from (S i) text rest else
      let token := protected_token i in
      let '(masked, pairs) := mask_from (S i) (replacer [(span, token)] text) rest in
      (masked, (token, span) :: pairs)
  end.
Definition maskProtected (text : string) (protected : list string) : string * (string -> string) :=
  let '(masked, pairs) := mask_from 0 text protected in
  (masked, fun s => match pairs with [] => s | _ => replacer pairs s end).

Definition droppedCommandNote : string :=
  "Dorgu removed the command this step suggested: it carried a value a guardrail refused, and pasting it would have applied exactly the change Dorgu declined to make. The persona-update step above applies what the guardrails permit.".

(** ** The verdicts' own words *)

Definition stepSafetyMessages (step : RemediationStep) : list string :=
  List.filter nonblank (map ss_Message (st_Safety step)).
Definition allSafetyMessages (action : RemediationAction) : list string :=
  concat (map stepSafetyMessages (ra_Steps (ra_Spec action))).

Definition set_command (c : string) (s : RemediationStep) : RemediationStep :=
  set_step_text c (st_Description s) (st_Rationale s) s.
Definition set_patch (patch : option raw_json) (auto : bool) (s : RemediationStep) : RemediationStep :=
  mkStep (st_Order s) (st_ID s) (st_Type s) (st_Description s) (st_Rationale s) (st_Risk s) auto
    (st_Command s) patch (st_PrePatchState s) (st_Safety s).

Section quantities.
Context `{QuantityOps}.

Record refusedValue := mkRefused { rfv_field : string; rfv_value : string; rfv_quantity : option Quantity }.

(** A verdict that denied a value. *)
Definition refusal (s : StepSafety) : bool :=
  negb ((ss_Requested s =? "") || (ss_Requested s =? ss_Permitted s))
  && ((ss_Verdict s =? SafetyVerdictRejected) || (ss_Verdict s =? SafetyVerdictClamped)).

Definition refusal_key (s : StepSafety) : string := ss_Field s ++ "=" ++ ss_Requested s.

Fixpoint collect_refusals (seen : list string) (l : list StepSafety) : list refusedValue :=
  match l with
  | [] => []
  | s :: l' =>
      if negb (refusal s) then collect_refusals seen l'
      else if existsb (String.eqb (refusal_key s)) seen then collect_refusals seen l'
      else mkRefused (ss_Field s) (ss_Requested s) (ParseQuantity (ss_Requested s))
             :: collect_refusals (refusal_key s :: seen) l'
  end.

Definition refusedValues (action : RemediationAction) : list refusedValue :=
  collect_refusals [] (concat (map st_Safety (ra_Steps (ra_Spec action)))).

(** ** What counts as a mention *)

Definition quantity_separator (c : ascii) : bool := negb (is_letter c) && negb (is_digit c) && negb (Ascii.eqb c ".").

Definition quantityTokens (text : string) : list Quantity :=
  omap (fun field => if str_exists is_digit field then ParseQuantity field else None) (fields_func quantity_separator text).

Definition same_quantity (q r : Quantity) : bool := match q_Cmp q r with Eq => true | _ => false end.

Definition mentionsRefusedValue (text : string) (refused : refusedValue) : bool :=
  if (rfv_value refused =? "") || (text =? "") then false
  else if containsToken text (rfv_value refused) then true
  else match rfv_quantity refused with
       | None => false
       | Some q => existsb (fun token => same_quantity token q) (quantityTokens text)
       end.

Definition mentionsResourceValue (text value : string) : bool :=
  mentionsRefusedValue text (mkRefused "" value (ParseQuantity value)).

Definition sameResourceValue (actual : string) (refused : refusedValue) : bool :=
  if (actual =? rfv_value refused) then true
  else match rfv_quantity refused with
       | None => false
       | Some q => match ParseQuantity actual with Some qty => same_quantity qty q | None => false end
       end.

Definition offersRefusedValue (command : string) (refused : list refusedValue) : bool :=
  existsb (mentionsRefusedValue command) refused.
Definition sentenceMentionsRefused (sentence : string) (refused : list refusedValue) : bool :=
  existsb (mentionsRefusedValue sentence) refused.

(** ** Pruning and redacting *)

Definition refused_leaf (values : gmap string string) (r : refusedValue) : bool :=
  match values !! rfv_field r with Some actual => sameResourceValue actual r | None => false end.

Definition pruneRefusedLeaves (patch : option raw_json) (refused : list refusedValue) : option raw_json * bool :=
  match patch with
  | None => (None, false)
  | Some raw =>
      if raw_len0 raw then (patch, false) else
      match List.filter (refused_leaf (patchLeafValues raw)) refused with
      | [] => (patch, false)
      | hits => (prunePatchPaths patch (map rfv_field hits), true)
      end
  end.

Definition redactRefusedProse (text : string) (protected : list string) (refused : list refusedValue) : string * bool :=
  if (trim_space text =? "") then (text, false) else
  let '(masked, restore) := maskProtected text protected in
  let sentences := splitSentences masked in
  if existsb (fun s => sentenceMentionsRefused s refused) sentences
  then (trim_space (restore (strings_join " " (List.filter (fun s => negb (sentenceMentionsRefused s refused)) sentences))), true)
  else (text, false).

(** The three surfaces of a step, in the order the code visits them. *)
Definition scrub_patch (refused : list refusedValue) (step : RemediationStep) : RemediationStep * nat :=
  let '(pruned, changed) := pruneRefusedLeaves (st_Patch step) refused in
  (if changed then set_patch pruned (match pruned with None => false | Some _ => st_AutoExecutable step end) step else step, b2n changed).

Definition scrub_command (refused : list refusedValue) (step : RemediationStep) : RemediationStep * nat :=
  if negb (st_Command step =? "") && offersRefusedValue (st_Command step) refused
  then (set_step_text "" (appendNote (st_Description step) droppedCommandNote) (st_Rationale step) step, 1%nat)
  else (step, 0%nat).

Definition scrub_prose (refused : list refusedValue) (step : RemediationStep) : RemediationStep * nat :=
  let messages := stepSafetyMessages step in
  let '(description, d) := redactRefusedProse (st_Description step) messages refused in
  let '(rationale, r) := redactRefusedProse (st_Rationale step) messages refused in
  (set_step_text (st_Command step) description rationale step, b2n d + b2n r)%nat.

Definition scrubStep (refused : list refusedValue) (step : RemediationStep) : RemediationStep * nat :=
  let '(s1, n1) := scrub_patch refused step in
  let '(s2, n2) := scrub_command refused s1 in
  let '(s3, n3) := scrub_prose refused s2 in
  (s3, n1 + n2 + n3)%nat.

Definition scrub_detail (refused : list refusedValue) (d : RemediationActionDetail) : RemediationActionDetail * nat :=
  let '(pruned, changed) := pruneRefusedLeaves (ad_Patch d) refused in
  (if changed then match pruned with
                   | None => mkActionDetail ActionTypeNotification None None
                   | Some _ => mkActionDetail (ad_Type d) pruned (ad_PrePatchState d)
                   end
   else d, b2n changed).

(** Scrubbing can demote a step: only the generated prefix is restated. *)
Definition restate (before after explanation : string) : string :=
  if negb (after =? before) && has_prefix explanation before then after ++ trim_prefix explanation before else explanation.

Definition scrubRefusedValues (action : RemediationAction) : RemediationAction * nat :=
  match refusedValues action with
  | [] => (action, 0%nat)
  | refused =>
      let spec := ra_Spec action in
      let explanationBefore := planExplanation (ra_Steps spec) in
      let steps := map (scrubStep refused) (ra_Steps spec) in
      let '(detail, n) := scrub_detail refused (ra_Action spec) in
      let scrubbed := set_steps (map fst steps) (set_action detail action) in
      let '(summary, s) := redactRefusedProse (ra_PlanSummary spec) (allSafetyMessages scrubbed) refused in
      let '(explanation, e) := redactRefusedProse (ra_Explanation spec) (allSafetyMessages scrubbed) refused in
      (set_prose summary (restate explanationBefore (planExplanation (map fst steps)) explanation) (ra_Confidence spec) scrubbed,
       list_sum (map snd steps) + n + b2n s + b2n e)%nat
  end.
End quantities.

(** ** The leaf values of a patch, by key list *)

Definition leaf_value_step (prefix : string) (key : string) (val : json) (out : gmap string string) : gmap string string :=
  match val with
  | JObj _ => leaf_values (path_join prefix key) val out
  | JStr typed => <[path_join prefix key := typed]> out
  | _ => out
  end.

Lemma leaf_values_obj prefix m out : leaf_values prefix (JObj m) out = map_fold (leaf_value_step prefix) out m.
Proof. done. Qed.

Lemma leaf_values_sound node : forall prefix out p v, leaf_values prefix node out !! p = Some v ->
  (exists ks, ks <> [] /\ json_at ks node = Some (JStr v) /\ p = foldl path_join prefix ks) \/ out !! p = Some v.
Proof.
  induction node as [node Hn|m IH] using json_obj_ind; intros prefix out p v.
  { assert (leaf_values prefix node out = out) as -> by (destruct node; try done; by destruct (Hn m)). by right. }
  rewrite leaf_values_obj.
  enough (Hgen : forall m', (forall k w, m' !! k = Some w -> m !! k = Some w) ->
    map_fold (leaf_value_step prefix) out m' !! p = Some v ->
    (exists ks, ks <> [] /\ json_at ks (JObj m') = Some (JStr v) /\ p = foldl path_join prefix ks) \/ out !! p = Some v)
    by by apply Hgen.
  intros m'. apply (map_fold_weak_ind (fun acc m' => (forall k w, m' !! k = Some w -> m !! k = Some w) -> acc !! p = Some v ->
    (exists ks, ks <> [] /\ json_at ks (JObj m') = Some (JStr v) /\ p = foldl path_join prefix ks) \/ out !! p = Some v)); [by right|].
  intros k x mm acc Hk IHm Hsub Hacc.
  assert (Hrec : acc !! p = Some v -> (exists ks, ks <> [] /\ json_at ks (JObj (<[k:=x]> mm)) = Some (JStr v) /\ p = foldl path_join prefix ks) \/ out !! p = Some v).
  { intros Ha. destruct IHm as [([|k' ks] & Hne & Hat & ->)|]; [|done|done|left|by right].
    - intros k' w Hw. apply Hsub. by rewrite lookup_insert_ne by congruence.
    - exists (k' :: ks). split; [done|]. split; [|done]. cbn in Hat |- *. rewrite lookup_insert_ne; [done|].
      intros <-. by rewrite Hk in Hat. }
  unfold leaf_value_step in Hacc. destruct x; try (by apply Hrec).
  - destruct (decide (path_join prefix k = p)) as [<-|Hne]; [|rewrite lookup_insert_ne in Hacc by done; by apply Hrec].
    rewrite lookup_insert_eq in Hacc. injection Hacc as ->. left. exists [k]. cbn. by rewrite lookup_insert_eq.
  - eapply IH in Hacc; [|by apply Hsub, lookup_insert_eq]. destruct Hacc as [(ks & Hne & Hat & ->)|Ha]; [left|by apply Hrec].
    exists (k :: ks). split; [done|]. cbn. by rewrite lookup_insert_eq.
Qed.

Lemma leaf_values_complete node : forall prefix out,
  (forall p, is_Some (out !! p) -> is_Some (leaf_values prefix node out !! p)) /\
  (forall ks v, ks <> [] -> json_at ks node = Some (JStr v) -> is_Some (leaf_values prefix node out !! foldl path_join prefix ks)).
Proof.
  induction node as [node Hn|m IH] using json_obj_ind; intros prefix out.
  { assert (leaf_values prefix node out = out) as -> by (destruct node; try done; by destruct (Hn m)). split; [done|].
    intros [|k ks] v Hne Hat; [done|]. destruct node; try done. by destruct (Hn m). }
  rewrite leaf_values_obj.
  enough (Hgen : forall m', (forall k w, m' !! k = Some w -> m !! k = Some w) ->
    (forall p, is_Some (out !! p) -> is_Some (map_fold (leaf_value_step prefix) out m' !! p)) /\
    (forall ks v, ks <> [] -> json_at ks (JObj m') = Some (JStr v) -> is_Some (map_fold (leaf_value_step prefix) out m' !! foldl path_join prefix ks)))
    by by apply Hgen.
  intros m'. apply (map_fold_weak_ind (fun acc m' => (forall k w, m' !! k = Some w -> m !! k = Some w) ->
    (forall p, is_Some (out !! p) -> is_Some (acc !! p)) /\
    (forall ks v, ks <> [] -> json_at ks (JObj m') = Some (JStr v) -> is_Some (acc !! foldl path_join prefix ks)))).
  - intros _. split; [done|]. intros [|k ks] v Hne Hat; [done|]. cbn in Hat. by rewrite lookup_empty in Hat.
  - intros k x mm acc Hk IHm Hsub. destruct IHm as [Hout Hmm].
    { intros k' w Hw. apply Hsub. by rewrite lookup_insert_ne by congruence. }
    assert (Hx : m !! k = Some x) by by apply Hsub, lookup_insert_eq.
    assert (Hkeep : forall p, is_Some (acc !! p) -> is_Some (leaf_value_step prefix k x acc !! p)).
    { intros p Hp. unfold leaf_value_step. destruct x; try done; [|by apply (IH k _ Hx)].
      rewrite lookup_insert. by case_decide. }
    split; [by auto|]. intros [|k' ks] v Hne Hat; [done|]. cbn in Hat. destruct (decide (k = k')) as [<-|Hkk].
    + rewrite lookup_insert_eq in Hat. cbn in Hat. destruct ks as [|k' ks].
      * injection Hat as ->. cbn. by rewrite lookup_insert_eq.
      * destruct x as [| | | | |c]; try done. cbn [leaf_value_step]. by apply (IH k (JObj c) Hx (path_join prefix k) acc) with (ks := k' :: ks) (v := v).
    + rewrite lookup_insert_ne in Hat by done. apply Hkeep, (Hmm (k' :: ks) v); done.
Qed.

Lemma patchLeafValues_lookup m p v : plain_keys (JObj m) ->
  patchLeafValues (RawDoc (JObj m)) !! p = Some v <-> exists ks, ks <> [] /\ json_at ks (JObj m) = Some (JStr v) /\ p = joined ks.
Proof.
  intros Hp. unfold patchLeafValues. cbn [raw_len0 unmarshal_map]. split.
  - intros [(ks & Hne & Hat & ->)|H]%leaf_values_sound; [by exists ks|by rewrite lookup_empty in H].
  - intros (ks & Hne & Hat & ->). destruct (leaf_values_complete (JObj m) "" ∅) as [_ Hc].
    destruct (Hc ks v Hne Hat) as [v' Hv']. fold (joined ks) in Hv'. rewrite Hv'.
    apply leaf_values_sound in Hv' as [(ks' & Hne' & Hat' & Hj)|H]; [|by rewrite lookup_empty in H].
    fold (joined ks') in Hj. assert (ks = ks') as <- by (rewrite <- (split_joined ks), Hj, split_joined by eauto; done).
    rewrite Hat in Hat'. by injection Hat' as <-.
Qed.

(** ** Pruning leaves no refused value behind *)

(** A patch a dotted path can address: every key plain, or no object at all. *)
Definition addressable (patch : option raw_json) : Prop :=
  match patch with Some (RawDoc (JObj m)) => plain_keys (JObj m) | _ => True end.

Definition leaf_values_of (patch : option raw_json) : gmap string string :=
  match patch with Some raw => patchLeafValues raw | None => ∅ end.

Section pruned.
Context `{QuantityOps}.

Definition holds_refused (patch : option raw_json) (refused : list refusedValue) : bool :=
  existsb (refused_leaf (leaf_values_of patch)) refused.

Lemma unmarshal_obj raw m : raw_len0 raw = false -> unmarshal_map raw = Ok m -> raw = RawDoc (JObj m) \/ (raw = RawDoc JNull /\ m = ∅).
Proof. destruct raw as [| |[]]; try done; intros _ [= <-]; [by right|by left]. Qed.

Lemma leaf_values_of_null raw : (forall m, raw <> RawDoc (JObj m)) -> patchLeafValues raw = ∅.
Proof. destruct raw as [| |[]]; try done. intros Hn. by destruct (Hn m). Qed.

Lemma pruneRefusedLeaves_clean patch refused : addressable patch ->
  holds_refused (pruneRefusedLeaves patch refused).1 refused = false.
Proof.
  intros Ha. unfold holds_refused. apply existsb_not_elem. intros r Hr. unfold pruneRefusedLeaves.
  destruct patch as [raw|]; [|cbn; unfold refused_leaf; by rewrite lookup_empty].
  destruct (raw_len0 raw) eqn:Hl; [by destruct raw; cbn|].
  destruct (List.filter _ refused) as [|h hs] eqn:Hf.
  { cbn. by apply (bfilter_none (refused_leaf (patchLeafValues raw)) refused). }
  cbn [fst]. destruct raw as [| |v]; [done| |].
  { assert (h ∈ h :: hs) as Hh by by left. rewrite <- Hf in Hh. apply list_elem_of_In, filter_In in Hh as [_ Hh].
    unfold refused_leaf in Hh. rewrite leaf_values_of_null in Hh by done. by rewrite lookup_empty in Hh. }
  assert (Hobj : exists m, v = JObj m).
  { assert (h ∈ h :: hs) as Hh by by left. rewrite <- Hf in Hh. apply list_elem_of_In, filter_In in Hh as [_ Hh].
    unfold refused_leaf in Hh. destruct v; try (rewrite leaf_values_of_null in Hh by done; by rewrite lookup_empty in Hh). by eexists. }
  destruct Hobj as [m ->]. cbn in Ha. unfold refused_leaf.
  destruct (leaf_values_of _ !! rfv_field r) as [actual|] eqn:Hat; [|done].
  destruct (sameResourceValue actual r) eqn:Hsame; [|done]. exfalso.
  set (paths := map rfv_field (h :: hs)) in *. unfold leaf_values_of in Hat.
  destruct (prunePatchPaths (Some (RawDoc (JObj m))) paths) as [out|] eqn:Hout; [|by rewrite lookup_empty in Hat].
  destruct out as [| |[| | | | |m']]; try by rewrite leaf_values_of_null, lookup_empty in Hat by done.
  unfold patchLeafValues in Hat. cbn [raw_len0 unmarshal_map] in Hat.
  apply leaf_values_sound in Hat as [(ks & Hne & Hat & Hj)|Hat]; [|by rewrite lookup_empty in Hat].
  assert (Hp : patch_at ks (prunePatchPaths (Some (RawDoc (JObj m))) paths) = Some (JStr actual)) by by rewrite Hout.
  apply prunePatchPaths_leaf in Hp as [Hm Hno]; [|done|by intros ?]. apply (Hno (rfv_field r)).
  - unfold paths. rewrite <- Hf. apply list_elem_of_fmap_2. apply list_elem_of_In, filter_In. split; [by apply list_elem_of_In|].
    unfold refused_leaf. assert (patchLeafValues (RawDoc (JObj m)) !! rfv_field r = Some actual) as ->; [|done].
    apply patchLeafValues_lookup; [done|]. by exists ks.
  - rewrite Hj. fold (joined ks). by rewrite split_joined by eauto.
Qed.
End pruned.

(** ** Redacted prose *)

Section prose.
Context `{QuantityOps}.

Lemma mask_from_id i text protected :
  (forall span, span ∈ protected -> span <> "" -> contains text span = false) -> mask_from i text protected = (text, []).
Proof.
  revert i. induction protected as [|span rest IH]; intros i Hs; [done|]. cbn [mask_from].
  assert (((span =? "") || negb (contains text span)) = true) as ->.
  { destruct (String.eqb_spec span ""); [done|]. by rewrite Hs by (by left || done). }
  apply IH. intros s Hin. apply Hs. by right.
Qed.

(** A surface that quotes no verdict message names no refused value, sentence
    by sentence, once redacted. *)
Lemma redact_quiet text protected refused s :
  (forall span, span ∈ protected -> span <> "" -> contains text span = false) ->
  s ∈ splitSentences (redactRefusedProse text protected refused).1 -> sentenceMentionsRefused s refused = false.
Proof.
  intros Hm. unfold redactRefusedProse, maskProtected. rewrite mask_from_id by done.
  destruct (String.eqb_spec (trim_space text) "") as [He|_].
  { cbn [fst]. rewrite splitSentences_blank by done. by intros ?%not_elem_of_nil. }
  destruct (existsb _ _) eqn:Hx; cbn [fst].
  - rewrite split_kept. rewrite list_elem_of_In, filter_In. by intros [_ ?%negb_true_iff].
  - rewrite existsb_not_elem in Hx. apply Hx.
Qed.

(** ** Every recorded refusal is enforced *)

Lemma collect_refusals_covers l : forall seen v, v ∈ l -> refusal v = true -> refusal_key v ∉ seen ->
  exists u, u ∈ l /\ refusal_key u = refusal_key v /\ mkRefused (ss_Field u) (ss_Requested u) (ParseQuantity (ss_Requested u)) ∈ collect_refusals seen l.
Proof.
  induction l as [|s l IH]; intros seen v; [by intros ?%not_elem_of_nil|]. intros Hv Hr Hns. cbn [collect_refusals].
  destruct (refusal s) eqn:Hs; cbn [negb].
  - destruct (existsb (String.eqb (refusal_key s)) seen) eqn:Hx.
    + apply existsb_elem in Hx as (k & Hk & Hk2%String.eqb_eq). apply elem_of_cons in Hv as [->|Hv]; [by rewrite Hk2 in Hns|].
      destruct (IH seen v Hv Hr Hns) as (u & Hu & Huk & Hin). exists u. by split; [right|].
    + destruct (decide (refusal_key s = refusal_key v)) as [Heq|Hne].
      * exists s. split; [by left|]. by split; [|left].
      * apply elem_of_cons in Hv as [->|Hv]; [done|]. destruct (IH (refusal_key s :: seen) v Hv Hr) as (u & Hu & Huk & Hin).
        { intros [Hk|]%elem_of_cons; [by symmetry in Hk|done]. }
        exists u. split; [by right|]. by split; [|right].
  - apply elem_of_cons in Hv as [->|Hv]; [congruence|]. destruct (IH seen v Hv Hr Hns) as (u & Hu & Huk & Hin). exists u. by split; [right|].
Qed.

Definition plain_field (v : StepSafety) : Prop := str_exists (Ascii.eqb "=") (ss_Field v) = false.

Lemma refusedValues_covers action s v :
  (forall s' v', s' ∈ ra_Steps (ra_Spec action) -> v' ∈ st_Safety s' -> plain_field v') ->
  s ∈ ra_Steps (ra_Spec action) -> v ∈ st_Safety s -> refusal v = true ->
  mkRefused (ss_Field v) (ss_Requested v) (ParseQuantity (ss_Requested v)) ∈ refusedValues action.
Proof.
  intros Hf Hs Hv Hr. assert (Hall : forall u, u ∈ concat (map st_Safety (ra_Steps (ra_Spec action))) <-> exists s, s ∈ ra_Steps (ra_Spec action) /\ u ∈ st_Safety s).
  { intros u. rewrite list_elem_of_In, in_concat. split.
    - intros (l & Hl & Hu). apply in_map_iff in Hl as (s' & <- & Hs'). exists s'. by rewrite !list_elem_of_In.
    - intros (s' & Hs' & Hu). exists (st_Safety s'). split; [by apply in_map, list_elem_of_In|by apply list_elem_of_In]. }
  destruct (collect_refusals_covers (concat (map st_Safety (ra_Steps (ra_Spec action)))) [] v) as (u & Hu & Hk & Hin).
  - apply Hall. by exists s.
  - done.
  - by apply not_elem_of_nil.
  - unfold refusal_key in Hk. apply Hall in Hu as (s' & Hs' & Hu). pose proof (Hf _ _ Hs' Hu). pose proof (Hf _ _ Hs Hv).
    apply (str_split_inj "=") in Hk as [<- <-]; done.
Qed.

(** ** The scrub *)

(** What no scrub touches. *)
Definition step_frame (s : RemediationStep) : Z * string * string * string * option raw_json * list StepSafety :=
  (st_Order s, st_ID s, st_Type s, st_Risk s, st_PrePatchState s, st_Safety s).

Definition scrubbed_step (refused : list refusedValue) (s s' : RemediationStep) : Prop :=
  step_frame s' = step_frame s /\
  (st_Command s' = "" \/ st_Command s' = st_Command s /\ offersRefusedValue (st_Command s) refused = false) /\
  (addressable (st_Patch s) -> holds_refused (st_Patch s') refused = false) /\
  (st_AutoExecutable s' = true -> st_AutoExecutable s = true) /\
  (st_Patch s <> None -> st_Patch s' = None -> st_AutoExecutable s' = false).

Lemma scrub_patch_spec refused s : let s' := (scrub_patch refused s).1 in
  step_frame s' = step_frame s /\ st_Command s' = st_Command s /\
  (addressable (st_Patch s) -> holds_refused (st_Patch s') refused = false) /\
  (st_AutoExecutable s' = true -> st_AutoExecutable s = true) /\
  (st_Patch s <> None -> st_Patch s' = None -> st_AutoExecutable s' = false).
Proof.
  cbv zeta. pose proof (pruneRefusedLeaves_clean (st_Patch s) refused) as Hc. unfold scrub_patch.
  destruct (pruneRefusedLeaves (st_Patch s) refused) as [pruned changed] eqn:Hp. cbn [fst] in *.
  assert (Hid : changed = false -> pruned = st_Patch s).
  { intros ->. unfold pruneRefusedLeaves in Hp. destruct (st_Patch s); [|by injection Hp]. destruct (raw_len0 r); [by injection Hp|].
    by destruct (List.filter _ _); injection Hp. }
  destruct changed.
  - cbn. split; [done|split; [done|split; [exact Hc|split; [by destruct pruned|by intros _ ->]]]].
  - rewrite Hid in Hc by done. split_and!; done.
Qed.

Lemma scrub_command_spec refused s : let s' := (scrub_command refused s).1 in
  step_frame s' = step_frame s /\ st_Patch s' = st_Patch s /\ st_AutoExecutable s' = st_AutoExecutable s /\
  (st_Command s' = "" \/ st_Command s' = st_Command s /\ offersRefusedValue (st_Command s) refused = false).
Proof.
  cbv zeta. unfold scrub_command. destruct (String.eqb_spec (st_Command s) ""); cbn [negb andb]; [by split_and!; [..|left]|].
  destruct (offersRefusedValue _ _); [by split_and!; [..|left]|by split_and!; [..|right]].
Qed.

Lemma scrub_prose_spec refused s : let s' := (scrub_prose refused s).1 in step_effect s' = step_effect s.
Proof.
  cbv zeta. unfold scrub_prose. by destruct (redactRefusedProse (st_Description s) _ _), (redactRefusedProse (st_Rationale s) _ _).
Qed.

Lemma scrubStep_spec refused s : scrubbed_step refused s (scrubStep refused s).1.
Proof.
  unfold scrubStep. pose proof (scrub_patch_spec refused s) as H1. destruct (scrub_patch refused s) as [s1 n1].
  pose proof (scrub_command_spec refused s1) as H2. destruct (scrub_command refused s1) as [s2 n2].
  pose proof (scrub_prose_spec refused s2) as H3. destruct (scrub_prose refused s2) as [s3 n3].
  cbn [fst] in *. cbv zeta in *. destruct H1 as (Hf1 & Hc1 & Hp1 & Ha1 & Hn1), H2 as (Hf2 & Hp2 & Ha2 & Hc2).
  unfold step_effect in H3. injection H3 as E1 E2 E3 E4 E5 E6 E7 E8 E9. unfold scrubbed_step, step_frame in *.
  rewrite E1, E2, E3, E4, E5, E6, E7, E8, E9, Hp2, Ha2, Hf2, <- Hf1. split; [done|]. rewrite Hc1 in Hc2. by split_and!.
Qed.

Lemma set_prose_steps a b c action : ra_Steps (ra_Spec (set_prose a b c action)) = ra_Steps (ra_Spec action).
Proof. done. Qed.

Lemma scrub_detail_clean refused d : addressable (ad_Patch d) -> holds_refused (ad_Patch (scrub_detail refused d).1) refused = false.
Proof.
  intros Ha. pose proof (pruneRefusedLeaves_clean _ refused Ha) as Hc. unfold scrub_detail.
  destruct (pruneRefusedLeaves (ad_Patch d) refused) as [pruned changed] eqn:Hp. cbn [fst] in *. destruct changed.
  - destruct pruned; cbn; [done|]. unfold holds_refused. apply existsb_not_elem. intros r _. unfold refused_leaf. cbn. by rewrite lookup_empty.
  - unfold pruneRefusedLeaves in Hp. destruct (ad_Patch d) as [raw|] eqn:E; [|by injection Hp as <-].
    destruct (raw_len0 raw); [by injection Hp as <-|]. by destruct (List.filter _ _); injection Hp as <-.
Qed.

Lemma scrub_steps action : ra_Steps (ra_Spec (scrubRefusedValues action).1) =
  match refusedValues action with [] => ra_Steps (ra_Spec action) | refused => map (fun s => (scrubStep refused s).1) (ra_Steps (ra_Spec action)) end.
Proof.
  unfold scrubRefusedValues. destruct (refusedValues action) as [|r rs]; [done|]. cbv zeta.
  destruct (scrub_detail _ _), (redactRefusedProse (ra_PlanSummary _) _ _), (redactRefusedProse (ra_Explanation _) _ _).
  cbn [fst]. rewrite set_prose_steps. unfold set_steps, set_plan. cbn [ra_Spec ra_Steps]. by rewrite map_map.
Qed.

Lemma scrub_detail_eq action : ra_Action (ra_Spec (scrubRefusedValues action).1) =
  match refusedValues action with [] => ra_Action (ra_Spec action) | refused => (scrub_detail refused (ra_Action (ra_Spec action))).1 end.
Proof.
  unfold scrubRefusedValues. destruct (refusedValues action) as [|r rs]; [done|]. cbv zeta.
  by destruct (scrub_detail _ _), (redactRefusedProse (ra_PlanSummary _) _ _), (redactRefusedProse (ra_Explanation _) _ _).
Qed.

Lemma scrubbed_lookup action i s' : ra_Steps (ra_Spec (scrubRefusedValues action).1) !! i = Some s' ->
  exists s, ra_Steps (ra_Spec action) !! i = Some s /\ scrubbed_step (refusedValues action) s s'.
Proof.
  rewrite scrub_steps. destruct (refusedValues action) as [|r rs].
  - intros Hs. exists s'. split; [done|]. unfold scrubbed_step. split_and!; try done. by right.
  - rewrite list_lookup_fmap. destruct (ra_Steps (ra_Spec action) !! i) as [s|]; [|done]. intros [= <-].
    exists s. split; [done|]. apply scrubStep_spec.
Qed.


(** What is left of the prose: unless a surface quotes a verdict's own message,
    none of its sentences names a refused value. *)
Theorem redacted_prose_names_no_refused_value (text : string) (protected : list string) (refused : list refusedValue) :
  (forall span, span ∈ protected -> span <> "" -> contains text span = false) ->
  forall s r, s ∈ splitSentences (redactRefusedProse text protected refused).1 -> r ∈ refused -> mentionsRefusedValue s r = false.
Proof.
  intros Hm s r Hs Hr. apply redact_quiet in Hs; [|done]. unfold sentenceMentionsRefused in Hs.
  rewrite existsb_not_elem in Hs. by apply Hs.
Qed.
End prose.

(** ** Witnesses *)

#[local] Existing Instance int_quantity.

Definition ex_memory_path : list string := ["spec"; "resources"; "limits"; "memory"].
Definition ex_refusal : StepSafety :=
  mkStepSafety SafetyRuleBlastRadius SafetyVerdictRejected "spec.resources.limits.memory" "100" "400" "" "4.0x" "2.0x" "400 is too much.".
(** The step that was refused, one that would set the value by hand, and one
    whose patch still holds it. *)
Definition ex_offering : list RemediationStep :=
  [mkStep 1 "step-1" StepTypePersonaUpdate "Raise it" "" "low" false "" None None [ex_refusal];
   mkStep 2 "step-2" "manual" "Or by hand" "" "low" false "kubectl set resources deployment/api --limits=memory=400" None None [];
   mkStep 3 "step-3" StepTypePersonaUpdate "Raise it again" "" "low" true ""
     (Some (RawDoc (JObj {["spec" := nested ["resources"; "limits"; "memory"] (JStr "400")]}))) None []].
Definition ex_offer : RemediationAction :=
  mkRA (mkMeta "ra-1" "shop" ∅ 0%Z None 0)
    (mkRASpec (mkIncidentRef "inc-1" "shop") (mkPersonaRef "ApplicationPersona" "api" "shop") 2
      (mkActionDetail "persona-update" (st_Patch (nth 2 ex_offering (mkStep 0 "" "" "" "" "" false "" None None []))) None)
      ex_offering "" "" "" "0.90" None None None)
    (mkRAStatus "" "" None None "" [] 0 []).

Lemma ex_memory_addressable v : addressable (Some (RawDoc (JObj {["spec" := nested ["resources"; "limits"; "memory"] (JStr v)]}))).
Proof.
  change (plain_keys (nested ex_memory_path (JStr v))). apply plain_keys_nested; [|by intros m].
  repeat constructor; done.
Qed.


Lemma redacted_prose_names_no_refused_value_witness :
  let out := (redactRefusedProse "Memory is short. Raise it to 400 now." ["400 is too much."] [mkRefused "memory" "400" (Some 400%Z)]).1 in
  out = "Memory is short." /\ forall s, s ∈ splitSentences out -> mentionsRefusedValue s (mkRefused "memory" "400" (Some 400%Z)) = false.
Proof.
  split; [vm_compute; reflexivity|]. intros s Hs.
  refine (redacted_prose_names_no_refused_value _ ["400 is too much."] [mkRefused "memory" "400" (Some 400%Z)] _ s _ Hs (list_elem_of_here _ _)).
  intros span Hspan _. apply list_elem_of_singleton in Hspan as ->. reflexivity.
Defined.
