(* ===== verification/Divergence.v ===== *)
(** * What a rollback did not reach (internal/remediation/rollback_divergence.go). *)

From S2P Require Import Prelude GoString GoNum Json ApiTypes KubeTypes Client Ownership.
From Stdlib Require Import String Ascii.
From stdpp Require Import strings.
Open Scope string_scope.

Definition ReasonWorkloadDiverged : string := "WorkloadDiverged".
Definition ReasonWorkloadRestored : string := "WorkloadRestored".
Definition ReasonWorkloadUnreadable : string := "WorkloadUnreadable".

Record WorkloadDivergence := mkDivergence { wd_Field : string; wd_Live : string; wd_Intended : string }.

Record RollbackOutcome := mkOutcome {
  ro_Ref : option WorkloadRef;
  ro_Divergences : list WorkloadDivergence;
  ro_Unreadable : string;
}.

Definition Diverged (o : RollbackOutcome) : bool := match ro_Divergences o with [] => false | _ => true end.

Definition outcome_Reason (o : RollbackOutcome) : string :=
  if negb (ro_Unreadable o =? "") then ReasonWorkloadUnreadable
  else if Diverged o then ReasonWorkloadDiverged
  else ReasonWorkloadRestored.

Definition observedResourceValue (ref : WorkloadRef) (field : string) : string :=
  match wr_ObservedResources ref with
  | None => ""
  | Some obs =>
      match (if contains field ".requests." then or_Requests obs else or_Limits obs) with
      | None => ""
      | Some values =>
          if has_suffix field ".cpu" then rv_CPU values
          else if has_suffix field ".memory" then rv_Memory values
          else ""
      end
  end.

Section divergence.
Context `{QuantityOps}.

Definition containerNamed (deploy : Deployment) (name : string) : option Container :=
  match find_first (fun c => (ct_Name c =? name)) (dp_Containers deploy) with
  | Some c => Some c
  | None => match dp_Containers deploy with [c] => Some c | _ => None end
  end.

Definition liveResourceValue (container : Container) (field : string) : string :=
  let list_ := if contains field ".requests." then ct_Requests container else ct_Limits container in
  let name := if has_suffix field ".cpu" then ResourceCPU else ResourceMemory in
  match list_ !! name with Some qty => q_String qty | None => "" end.

(** One resource path of the patch: the divergence it left, if any. *)
Definition path_divergence (ref : WorkloadRef) (container : Container) (personaPath : string)
  : option WorkloadDivergence :=
  let field := trim_prefix personaPath "spec." in
  let intended := observedResourceValue ref field in
  let live := liveResourceValue container field in
  if (intended =? "") || (live =? intended) then None else Some (mkDivergence field live intended).

Definition resource_paths (raw : raw_json) : list string :=
  List.filter isResourcePath (map_keys (patchLeafValues raw)).

Definition compareToPreRemediation (action : RemediationAction) (ref : WorkloadRef) (container : Container)
  : list WorkloadDivergence :=
  match ad_Patch (ra_Action (ra_Spec action)) with
  | None | Some RawEmpty => []
  | Some raw => omap (path_divergence ref container) (sort_strings (resource_paths raw))
  end.
End divergence.

(** [InspectRollback] returns an outcome in every case, never an error. *)
Definition InspectRollback `{Client W} (action : RemediationAction) : io W RollbackOutcome :=
  match ra_WorkloadRef (ra_Spec action) with
  | None => mret (mkOutcome None []
      "Dorgu never resolved a live Deployment for this application, so it cannot say whether the workload still carries the change.")
  | Some ref =>
      if (wr_Name ref =? "") || (wr_Namespace ref =? "") then
        mret (mkOutcome (Some ref) []
          "Dorgu never resolved a live Deployment for this application, so it cannot say whether the workload still carries the change.")
      else
        let! deploy := getDeployment (mkKey (wr_Name ref) (wr_Namespace ref)) in
        match deploy with
        | Err e => mret (mkOutcome (Some ref) [] ("Dorgu could not read Deployment " ++ wr_Namespace ref ++ "/"
            ++ wr_Name ref ++ " to check whether it still carries the change: " ++ err_string e))
        | Ok deploy =>
            match containerNamed deploy (wr_Container ref) with
            | None => mret (mkOutcome (Some ref) [] ("Dorgu could not find container " ++ fmt_q (wr_Container ref)
                ++ " on Deployment " ++ wr_Namespace ref ++ "/" ++ wr_Name ref
                ++ ", so it cannot say whether the workload still carries the change."))
            | Some container =>
                mret (mkOutcome (Some ref) (compareToPreRemediation action ref container) "")
            end
        end
  end.

(** ** The sentence *)

Definition revertCommand (ref : WorkloadRef) (divergences : list WorkloadDivergence) : string :=
  let key d := last_segment (wd_Field d) ++ "=" ++ wd_Intended d in
  let is_request d := contains (wd_Field d) ".requests." in
  let limits := map key (List.filter (fun d => negb (is_request d)) divergences) in
  let requests := map key (List.filter is_request divergences) in
  "kubectl set resources deployment/" ++ wr_Name ref ++ " -n " ++ wr_Namespace ref
    ++ " --containers=" ++ wr_Container ref
    ++ (match limits with [] => "" | _ => " --limits=" ++ strings_join "," limits end)
    ++ (match requests with [] => "" | _ => " --requests=" ++ strings_join "," requests end).

Definition revertInstruction (ref : WorkloadRef) (divergences : list WorkloadDivergence) : string :=
  if (wr_ManagedBy ref =? ManagedByUnmanaged) then
    "To finish the rollback: " ++ revertCommand ref divergences
  else
    "To finish the rollback: "
      ++ ownerInstruction ref (map (fun d => mkChange (wd_Field d) (wd_Intended d)) divergences) ""
      ++ " " ++ whyDorguWillNotPatch ref.

(** [Message].  The code dereferences the reference when the outcome is readable;
    [InspectRollback] sets it then ([InspectRollback_honest]). *)
Definition empty_ref : WorkloadRef := mkWorkloadRef "" "" "" "" "" "" None "" None.
Definition outcome_Message (o : RollbackOutcome) : string :=
  let ref := default empty_ref (ro_Ref o) in
  if negb (ro_Unreadable o =? "") then "Rollback restored the ApplicationPersona. " ++ ro_Unreadable o
  else if negb (Diverged o) then
    "Rollback restored the ApplicationPersona, and Deployment " ++ wr_Namespace ref ++ "/" ++ wr_Name ref
      ++ " matches what it held before the remediation. Nothing is left to undo."
  else
    "Rollback restored the ApplicationPersona but NOT the workload. "
      ++ "Dorgu has no write access to Deployments, so it cannot un-patch one. "
      ++ "Container " ++ fmt_q (wr_Container ref) ++ " on Deployment " ++ wr_Namespace ref ++ "/" ++ wr_Name ref
      ++ " still carries the remediation: "
      ++ humanFieldList (map (fun d => wd_Field d ++ " is " ++ wd_Live d ++ ", and was " ++ wd_Intended d)
           (ro_Divergences o))
      ++ ". " ++ revertInstruction ref (ro_Divergences o).

(** ** Properties *)

Lemma map_keys_elem {A} (m : gmap string A) k : k ∈ map_keys m <-> is_Some (m !! k).
Proof.
  unfold map_keys. rewrite list_elem_of_fmap. split.
  - intros ([k' v] & -> & Hin%elem_of_map_to_list). by exists v.
  - intros [v Hv]. exists (k, v). by rewrite elem_of_map_to_list.
Qed.

(** A rollback is reported as complete only when it was: "WorkloadRestored"
    means the Deployment was read, the container was found, and every resource
    field the patch touched and Dorgu had recorded holds the recorded value
    again; "WorkloadDiverged" names at least one field whose live value differs
    from the recorded one; in every other case the outcome says it cannot tell. *)
Theorem InspectRollback_honest `{Client W} (action : RemediationAction) (w : W) :
  let o := (InspectRollback action w).1 in
  (outcome_Reason o = ReasonWorkloadRestored ->
     exists ref deploy container, ra_WorkloadRef (ra_Spec action) = Some ref /\
       (getDeployment (mkKey (wr_Name ref) (wr_Namespace ref)) w).1 = Ok deploy /\
       containerNamed deploy (wr_Container ref) = Some container /\
       forall raw path, ad_Patch (ra_Action (ra_Spec action)) = Some raw ->
         is_Some (patchLeafValues raw !! path) -> isResourcePath path = true ->
         observedResourceValue ref (trim_prefix path "spec.") <> "" ->
         liveResourceValue container (trim_prefix path "spec.") = observedResourceValue ref (trim_prefix path "spec.")) /\
  (outcome_Reason o = ReasonWorkloadDiverged ->
     exists d, d ∈ ro_Divergences o /\ wd_Live d <> wd_Intended d /\ wd_Intended d <> "") /\
  (outcome_Reason o = ReasonWorkloadRestored \/ outcome_Reason o = ReasonWorkloadDiverged \/
   outcome_Reason o = ReasonWorkloadUnreadable /\ ro_Divergences o = []).
Proof.
  cbv zeta. unfold InspectRollback. destruct (ra_WorkloadRef (ra_Spec action)) as [ref|] eqn:Href;
    [|split_and!; [done..|by right; right]].
  destruct (_ || _); [split_and!; [done..|by right; right]|]. unfold mbind, io_bind.
  destruct (getDeployment _ w) as [[deploy|e] w1] eqn:Hg; [|split_and!; [done..|by right; right]].
  destruct (containerNamed deploy (wr_Container ref)) as [container|] eqn:Hc; [|split_and!; [done..|by right; right]].
  cbn [mret io_ret fst ro_Divergences]. unfold outcome_Reason. cbn [ro_Unreadable ro_Divergences Diverged].
  change (negb ("" =? "")) with false. cbv iota.
  assert (Hd : forall d, d ∈ compareToPreRemediation action ref container -> wd_Live d <> wd_Intended d /\ wd_Intended d <> "").
  { intros d. unfold compareToPreRemediation. destruct (ad_Patch _) as [[]|]; try by intros ?%not_elem_of_nil.
    all: intros (p & _ & Hp)%list_elem_of_omap; unfold path_divergence in Hp;
      destruct (String.eqb_spec (observedResourceValue ref (trim_prefix p "spec.")) ""); [done|];
      destruct (String.eqb_spec (liveResourceValue container (trim_prefix p "spec.")) (observedResourceValue ref (trim_prefix p "spec.")));
      [done|]; by simplify_eq/=. }
  unfold Diverged. cbn [ro_Divergences]. destruct (compareToPreRemediation action ref container) as [|d l] eqn:Hcmp.
  - split_and!; [|done|by left]. intros _. exists ref, deploy, container. split_and!; try done; [by rewrite Hg|].
    intros raw path Hraw Hpath Hres Hobs. unfold compareToPreRemediation in Hcmp. rewrite Hraw in Hcmp.
    destruct (decide (liveResourceValue container (trim_prefix path "spec.") = observedResourceValue ref (trim_prefix path "spec.")))
      as [|Hne]; [done|exfalso].
    assert (Hin : path ∈ sort_strings (resource_paths raw)).
    { rewrite sort_strings_perm. unfold resource_paths. rewrite list_elem_of_In, filter_In, <- list_elem_of_In.
      by rewrite map_keys_elem. }
    assert (Hdiv : exists d, path_divergence ref container path = Some d).
    { unfold path_divergence. rewrite (proj2 (String.eqb_neq _ _) Hobs), (proj2 (String.eqb_neq _ _) Hne). by eexists. }
    destruct Hdiv as [d Hdiv]. assert (Hin' : d ∈ omap (path_divergence ref container) (sort_strings (resource_paths raw)))
      by (apply list_elem_of_omap; eauto).
    destruct raw; [by destruct Hpath|rewrite Hcmp in Hin'; by apply not_elem_of_nil in Hin'..].
  - split_and!; [done| |by right; left]. intros _. exists d. split; [left|]. apply Hd. left.
Qed.
