(* ===== verification/RemediationController.v ===== *)
(** * The remediation lifecycle (internal/controller/remediation_controller.go,
    controller_helpers.go).

    [dispatch] runs the handler of the action's phase; a handler returns the
    reconcile result and the action as it left it in memory.  What it
    broadcasts is in Protocol.v, what it counts in Harness.v. *)

From S2P Require Import Prelude GoString GoNum Json ApiTypes KubeTypes Client Retry Steps Safety Signals Correlator.
From S2P Require Import Executor Ownership Divergence.
From Stdlib Require Import String Ascii.
From stdpp Require Import strings.
Open Scope string_scope.

Definition RemediationPhasePending : string := "Pending".
Definition RemediationPhaseApproved : string := "Approved".
Definition RemediationPhaseApplying : string := "Applying".
Definition RemediationPhaseVerifying : string := "Verifying".
Definition RemediationPhaseCompleted : string := "Completed".
Definition RemediationPhaseAcknowledged : string := "Acknowledged".
Definition RemediationPhaseRolledBack : string := "RolledBack".
Definition RemediationPhaseFailed : string := "Failed".
Definition RemediationPhaseRejected : string := "Rejected".
Definition RemediationPhaseExpired : string := "Expired".
Definition ConditionApplied : string := "Applied".
Definition ConditionVerified : string := "Verified".
Definition ConditionRolledBack : string := "RolledBack".
Definition ConditionWorkloadDiverged : string := "WorkloadDiverged".
Definition ConditionRejected : string := "Rejected".
Definition ReasonUserRejected : string := "UserRejected".
Definition RejectionCooldown : duration := hour.
Definition defaultVerificationWait : duration := (10 * minute)%Z.
Definition maxUnknownRetries : Z := 2.
Definition LabelPhase : string := "dorgu.io/phase".
Definition PhaseResolved : string := "Resolved".

(** [ctrl.Result]. *)
Record Result := mkResult { res_Requeue : bool; res_RequeueAfter : duration }.
Definition no_requeue : Result := mkResult false 0%Z.

(** ** Conditions *)

(** [setCondition]: the first condition of the type is rewritten, and only when
    its status or reason changes; otherwise a new one is appended. *)
Fixpoint setCondition (now : time) (condType status reason message : string) (conditions : list Condition)
  : list Condition :=
  match conditions with
  | [] => [mkCondition condType status reason message now]
  | c :: rest =>
      if (c_Type c =? condType) then
        (if negb (c_Status c =? status) || negb (c_Reason c =? reason)
         then mkCondition condType status reason message now else c) :: rest
      else c :: setCondition now condType status reason message rest
  end.

Definition hasCondition (conditions : list Condition) (condType : string) : bool :=
  existsb (fun c => (c_Type c =? condType)) conditions.

Definition getVerificationDelay (action : RemediationAction) : duration :=
  match ra_Rollback (ra_Spec action) with
  | Some rb => default defaultVerificationWait (rb_HealthCheckAfter rb)
  | None => defaultVerificationWait
  end.

(** ** The retry count in the message *)

(** [%d] of [fmt.Sscanf]: an optional sign and digits. *)
Fixpoint scan_digits (acc : Z) (s : string) : Z * string :=
  match s with
  | String c s' => if is_digit c then scan_digits (10 * acc + digit_val c)%Z s' else (acc, s)
  | "" => (acc, s)
  end.
Definition scan_nat (s : string) : option (Z * string) :=
  match s with String c _ => if is_digit c then Some (scan_digits 0 s) else None | "" => None end.
Definition scan_int (s : string) : option (Z * string) :=
  match s with
  | String c s' =>
      if Ascii.eqb c "-" then match scan_nat s' with Some (z, r) => Some (- z, r)%Z | None => None end
      else if Ascii.eqb c "+" then scan_nat s' else scan_nat s
  | "" => None
  end.

(** [Sscanf(message, "Verification returned Unknown, retry %d/%d", ...)]. *)
Definition retry_prefix : string := "Verification returned Unknown, retry ".
Definition scan_retry (message : string) : option Z :=
  match cut_prefix message retry_prefix with
  | None => None
  | Some r1 =>
      match scan_int r1 with
      | None => None
      | Some (attempt, r2) =>
          match cut_prefix r2 "/" with
          | None => None
          | Some r3 => match scan_int r3 with Some _ => Some attempt | None => None end
          end
      end
  end.

Definition retry_of_condition (c : Condition) : option Z :=
  if (c_Type c =? ConditionVerified) && (c_Reason c =? "VerificationUnknown") then scan_retry (c_Message c) else None.
Definition getRetryCount (action : RemediationAction) : Z :=
  default 0%Z (head (omap retry_of_condition (ra_Conditions action))).

(** ** The handlers *)

Section controller.
Context `{Client W} `{Retry W} `{SpecCodec}.
Context (collectAll : io W (result error (list Signal))).

(** What a handler returns: the reconcile result, and the action in memory. *)
Definition handled : Type := Result * RemediationAction.

Definition with_condition (condType status reason message : string) (action : RemediationAction)
  : io W RemediationAction :=
  let! now := clock in
  mret (set_conditions (setCondition now condType status reason message (ra_Conditions action)) action).

(** [time.Since(FirstSeen)], unless it was never set. *)
Definition incident_duration (now : time) (incident : IncidentMemory) : option duration :=
  let seen := di_FirstSeen (im_Detection (im_Spec incident)) in
  if t_is_zero seen then None else Some (t_sub now seen).

Definition resolution_of (action : RemediationAction) (outcome : string) (dur : option duration) : ResolutionInfo :=
  mkResolution (ra_Explanation (ra_Spec action)) (Some (mkRemediationRef (ra_Name action) (ra_Namespace action)))
    (ra_AppliedAt action) outcome dur.

(** [updateIncidentResolution]: the spec first, then the phase when resolved. *)
Definition updateIncidentResolution (action : RemediationAction) (outcome : string) : io W (result error unit) :=
  let key := incident_key action in
  let* incident := wrap_io ("getting IncidentMemory " ++ key_Namespace key ++ "/" ++ key_Name key) (getIncident key) in
  let! now := clock in
  let resolution := resolution_of action outcome (incident_duration now incident) in
  let incident := im_set_resolution (Some resolution) incident in
  let incident := if (outcome =? "resolved") then im_set_label LabelPhase PhaseResolved incident else incident in
  let* _ := wrap_io "updating IncidentMemory spec" (updateIncident incident) in
  if (outcome =? "resolved") then
    wrap_io "updating IncidentMemory status" (RetryOnConflict
      (let* fresh := getIncident key in
       let* _ := updateStatusIncident (im_set_phase PhaseResolved fresh) in
       iok tt))
  else iok tt.

(** Write the status, then record the outcome on the incident; a failure of the
    second is only logged. *)
Definition settle (what : string) (outcome : string) (action : RemediationAction)
  : io W (result error handled) :=
  let* action := wrap_io what (updateStatusRA action) in
  let! _ := updateIncidentResolution action outcome in
  iok (no_requeue, action).

Definition transitionToFailedWithReason (action : RemediationAction) (conditionReason reason : string)
  : io W (result error handled) :=
  let! action := with_condition ConditionApplied ConditionFalse conditionReason reason
                   (set_phase RemediationPhaseFailed action) in
  settle "updating status to Failed" "failed" action.

Definition transitionToFailed (action : RemediationAction) (reason : string) : io W (result error handled) :=
  transitionToFailedWithReason action "Failed" reason.

Definition transitionToAcknowledged (action : RemediationAction) : io W (result error handled) :=
  let! action := with_condition ConditionApplied ConditionFalse ReasonAdvisoryOnly
      "Approval recorded. This plan has no auto-applicable step, so the operator changed nothing; the steps are for a human to apply."
      (set_phase RemediationPhaseAcknowledged action) in
  settle "updating status to Acknowledged" "acknowledged" action.

Definition handleApproved (action : RemediationAction) : io W (result error handled) :=
  if negb (HasAutoApplicableChange (Some action)) then transitionToAcknowledged action else
  let! applied := Executor_Apply action in
  match applied with
  | Err err =>
      match as_precondition err with
      | Some _ => transitionToFailedWithReason action ReasonPreconditionRejected
                    (err_string err ++ "; nothing was applied")
      | None => transitionToFailed action ("apply failed: " ++ err_string err)
      end
  | Ok _ =>
      let! now := clock in
      let! action := with_condition ConditionApplied ConditionTrue "PatchApplied"
          "Remediation patch applied to ApplicationPersona"
          (set_applied_at (Some now) (set_phase RemediationPhaseApplying action)) in
      let* action := wrap_io "updating status to Applying" (updateStatusRA action) in
      iok (mkResult false (getVerificationDelay action), action)
  end.

Definition handleApplying (action : RemediationAction) : io W (result error handled) :=
  match ra_AppliedAt action with
  | None => transitionToFailed action "AppliedAt is nil in Applying phase"
  | Some appliedAt =>
      let! now := clock in
      let elapsed := t_sub now appliedAt in
      if (elapsed <? getVerificationDelay action)%Z
      then iok (mkResult false (wrap64 (getVerificationDelay action - elapsed)), action)
      else
        let* action := wrap_io "updating status to Verifying"
                         (updateStatusRA (set_phase RemediationPhaseVerifying action)) in
        iok (mkResult true 0%Z, action)
  end.

Definition handleVerificationHealthy (action : RemediationAction) : io W (result error handled) :=
  let! action := with_condition ConditionVerified ConditionTrue "HealthRestored"
      "Verification confirmed health restored" (set_phase RemediationPhaseCompleted action) in
  settle "updating status to Completed" "resolved" action.

(** [recordRollbackScope]. *)
Definition scope_status (outcome : RollbackOutcome) : string :=
  if (outcome_Reason outcome =? ReasonWorkloadDiverged) then ConditionTrue
  else if (outcome_Reason outcome =? ReasonWorkloadUnreadable) then ConditionUnknown
  else ConditionFalse.
Definition recordRollbackScope (action : RemediationAction) : io W RemediationAction :=
  let! outcome := InspectRollback action in
  with_condition ConditionWorkloadDiverged (scope_status outcome) (outcome_Reason outcome)
    (outcome_Message outcome) action.

Definition handleVerificationDegraded (action : RemediationAction) : io W (result error handled) :=
  let! rolled := Rollback_Execute action in
  match rolled with
  | Err err => transitionToFailed action ("rollback failed: " ++ err_string err)
  | Ok _ =>
      let! action := with_condition ConditionRolledBack ConditionTrue "HealthDegraded"
          "Remediation rolled back due to degraded health" (set_phase RemediationPhaseRolledBack action) in
      let! action := recordRollbackScope action in
      settle "updating status to RolledBack" "rollback" action
  end.

Definition retry_message (attempt : Z) : string :=
  retry_prefix ++ fmt_d attempt ++ "/" ++ fmt_d maxUnknownRetries.

Definition handleVerificationUnknown (action : RemediationAction) : io W (result error handled) :=
  let retryCount := getRetryCount action in
  if (maxUnknownRetries <=? retryCount)%Z
  then transitionToFailed action "verification returned Unknown after max retries"
  else
    let! action := with_condition ConditionVerified ConditionFalse "VerificationUnknown"
                     (retry_message (retryCount + 1)) action in
    let* action := wrap_io "updating retry count" (updateStatusRA action) in
    iok (mkResult false minute, action).

Definition handleVerifying (action : RemediationAction) : io W (result error handled) :=
  let! verdict := Verify collectAll action in
  let result := match snd verdict with Some _ => VerificationUnknown | None => fst verdict end in
  let action := set_verification (verification_string result) action in
  match result with
  | VerificationHealthy => handleVerificationHealthy action
  | VerificationDegraded => handleVerificationDegraded action
  | VerificationUnknown => handleVerificationUnknown action
  end.

(** [recordRejection]: the condition is stamped once, on a fresh copy. *)
Definition rejection_message : string :=
  "declined by a human; dorgu will not re-propose this fix for " ++ fmt_duration RejectionCooldown.
Definition recordRejection (action : RemediationAction) : io W (result error unit) :=
  if hasCondition (ra_Conditions action) ConditionRejected then iok tt else
  wrap_io ("recording the rejection timestamp on " ++ ra_Name action) (RetryOnConflict
    (let* fresh := getRA (mkKey (ra_Name action) (ra_Namespace action)) in
     if negb (ra_Phase fresh =? RemediationPhaseRejected) || hasCondition (ra_Conditions fresh) ConditionRejected
     then iok tt
     else
       let! stamped := with_condition ConditionRejected ConditionTrue ReasonUserRejected rejection_message fresh in
       let* _ := updateStatusRA stamped in
       iok tt)).

Definition dispatch (action : RemediationAction) : io W (result error handled) :=
  let phase := ra_Phase action in
  if (phase =? RemediationPhasePending) then iok (no_requeue, action)
  else if (phase =? RemediationPhaseApproved) then handleApproved action
  else if (phase =? RemediationPhaseApplying) then handleApplying action
  else if (phase =? RemediationPhaseVerifying) then handleVerifying action
  else if (phase =? RemediationPhaseRejected) then
    let* _ := recordRejection action in iok (no_requeue, action)
  else iok (no_requeue, action).

(** [Reconcile]: a deleted action is nothing to do. *)
Definition Remediation_Reconcile (key : ObjectKey) : io W (result error Result) :=
  let! action := getRA key in
  match action with
  | Err e => if is_not_found e then iok no_requeue else ierr e
  | Ok action => let* r := dispatch action in iok (fst r)
  end.
End controller.

(** ** Properties *)

(** *** Conditions *)

Definition condition_of (condType : string) (cs : list Condition) : option Condition :=
  find_first (fun c => (c_Type c =? condType)) cs.

Lemma setCondition_same now ty st re msg cs :
  exists c, condition_of ty (setCondition now ty st re msg cs) = Some c /\
    c_Type c = ty /\ c_Status c = st /\ c_Reason c = re.
Proof.
  unfold condition_of. induction cs as [|c cs IH]; simpl.
  - rewrite String.eqb_refl. by eexists.
  - destruct (String.eqb_spec (c_Type c) ty) as [Hc|Hc]; simpl.
    + destruct (String.eqb_spec (c_Status c) st), (String.eqb_spec (c_Reason c) re); simpl;
        rewrite ?String.eqb_refl, ?(proj2 (String.eqb_eq _ _) Hc); by eexists.
    + by rewrite (proj2 (String.eqb_neq _ _) Hc).
Qed.

Lemma setCondition_other now ty st re msg cs ty' :
  ty' <> ty -> condition_of ty' (setCondition now ty st re msg cs) = condition_of ty' cs.
Proof.
  intros Hne. unfold condition_of. induction cs as [|c cs IH]; simpl.
  - by rewrite (proj2 (String.eqb_neq ty ty')) by congruence.
  - destruct (String.eqb_spec (c_Type c) ty) as [Hc|Hc]; simpl; [|by rewrite IH].
    assert (Ht : c_Type (if negb (c_Status c =? st) || negb (c_Reason c =? re) then mkCondition ty st re msg now else c) = ty)
      by by destruct (_ || _).
    rewrite Ht, Hc. by rewrite (proj2 (String.eqb_neq ty ty')) by congruence.
Qed.

Lemma setCondition_kept now ty st re msg cs c :
  condition_of ty cs = Some c -> c_Status c = st -> c_Reason c = re -> setCondition now ty st re msg cs = cs.
Proof.
  intros Hc <- <-. revert Hc. unfold condition_of. induction cs as [|d cs IH]; [done|]. simpl.
  destruct (c_Type d =? ty); [intros [= ->]; by rewrite !String.eqb_refl|]. intros Hd. by rewrite IH.
Qed.

(** [setCondition] is idempotent and local: the condition of its type has the
    given status and reason afterwards, every other type is untouched, at most
    one condition is added, and a call that changes neither status nor reason
    changes nothing at all, message and transition time included. *)
Theorem setCondition_spec (now : time) (ty st re msg : string) (cs : list Condition) :
  let out := setCondition now ty st re msg cs in
  (exists c, condition_of ty out = Some c /\ c_Status c = st /\ c_Reason c = re) /\
  (forall ty', ty' <> ty -> condition_of ty' out = condition_of ty' cs) /\
  length out = (if hasCondition cs ty then length cs else S (length cs)) /\
  (forall c, condition_of ty cs = Some c -> c_Status c = st -> c_Reason c = re -> out = cs) /\
  forall now' msg', setCondition now' ty st re msg' out = out.
Proof.
  cbv zeta. split_and!.
  - destruct (setCondition_same now ty st re msg cs) as (c & Hc & _ & Hs & Hr). eauto.
  - intros. by apply setCondition_other.
  - induction cs as [|c cs IH]; [done|]. simpl. destruct (c_Type c =? ty); simpl; [done|]. rewrite IH.
    unfold hasCondition. by destruct (existsb _ cs).
  - intros c. apply setCondition_kept.
  - intros now' msg'. induction cs as [|c cs IH]; simpl; [by rewrite !String.eqb_refl|].
    destruct (c_Type c =? ty) eqn:Ht; simpl; [|rewrite Ht; by rewrite IH].
    destruct (negb (c_Status c =? st) || negb (c_Reason c =? re)) eqn:Hd; simpl;
      rewrite ?Ht, ?String.eqb_refl; [done|]. by rewrite Hd.
Qed.

(** *** The retry counter *)

Lemma is_digit_char x : (x < 10)%N -> is_digit (pretty_N_char x) = true /\ digit_val (pretty_N_char x) = Z.of_N x.
Proof.
  intros Hx. assert (Hall : forallb (fun n => is_digit (pretty_N_char n) && (digit_val (pretty_N_char n) =? Z.of_N n)%Z)
    [0; 1; 2; 3; 4; 5; 6; 7; 8; 9]%N = true) by reflexivity.
  rewrite forallb_forall in Hall. specialize (Hall x). rewrite andb_true_iff, Z.eqb_eq in Hall. apply Hall.
  assert (x = 0 \/ x = 1 \/ x = 2 \/ x = 3 \/ x = 4 \/ x = 5 \/ x = 6 \/ x = 7 \/ x = 8 \/ x = 9)%N by lia.
  simpl. naive_solver.
Qed.

Lemma pretty_go_app x s t : pretty_N_go x s ++ t = pretty_N_go x (s ++ t).
Proof.
  revert s. induction (N.lt_wf_0 x) as [x _ IH]; intros s. destruct (decide (0 < x)%N) as [Hx|Hx].
  - rewrite !(pretty_N_go_step x) by done. rewrite IH; [done|]. apply N.div_lt; lia.
  - assert (x = 0%N) as -> by lia. by rewrite !pretty_N_go_0.
Qed.

Lemma scan_digits_go x s : scan_digits 0 (pretty_N_go x s) = scan_digits (Z.of_N x) s.
Proof.
  revert s. induction (N.lt_wf_0 x) as [x _ IH]; intros s. destruct (decide (0 < x)%N) as [Hx|Hx].
  - rewrite (pretty_N_go_step x) by done. rewrite IH by (apply N.div_lt; lia). cbn [scan_digits].
    destruct (is_digit_char (x mod 10)) as [-> ->]; [apply N.mod_lt; lia|]. f_equal.
    rewrite <- N2Z.inj_div || idtac. pose proof (N.div_mod x 10 ltac:(lia)). lia.
  - assert (x = 0%N) as -> by lia. by rewrite pretty_N_go_0.
Qed.


Lemma pretty_go_head x s : (0 < x)%N -> exists c s', pretty_N_go x s = String c s' /\ is_digit c = true.
Proof.
  revert s. induction (N.lt_wf_0 x) as [x _ IH]; intros s Hx. rewrite (pretty_N_go_step x) by done.
  destruct (decide (0 < x `div` 10)%N) as [Hd|Hd].
  - apply IH; [|done]. apply N.div_lt; lia.
  - assert ((x `div` 10)%N = 0%N) as -> by (apply N.le_0_r, N.nlt_ge; exact Hd). rewrite pretty_N_go_0. eexists _, s. split; [done|].
    apply is_digit_char, N.mod_lt. lia.
Qed.

Definition no_digit (s : string) : bool :=
  match s with String c _ => negb (is_digit c) | "" => true end.

Lemma scan_digits_stop z s : no_digit s = true -> scan_digits z s = (z, s).
Proof. destruct s as [|c s]; [done|]. simpl. by destruct (is_digit c). Qed.

Lemma scan_int_fmt n t : (0 <= n)%Z -> no_digit t = true -> scan_int (fmt_d n ++ t) = Some (n, t).
Proof.
  intros Hn Ht. destruct n as [|p|p]; [| |lia].
  { change (fmt_d 0) with "0". simpl. by rewrite scan_digits_stop. }
  assert (Hp : fmt_d (Z.pos p) = pretty_N_go (N.pos p) "") by done. rewrite Hp, pretty_go_app.
  destruct (pretty_go_head (N.pos p) ("" ++ t)) as (c & s' & Hs & Hc); [lia|].
  pose proof (scan_digits_go (N.pos p) ("" ++ t)) as Hscan. rewrite Hs in *. unfold scan_int.
  destruct (Ascii.eqb_spec c "-") as [->|_]; [done|]. destruct (Ascii.eqb_spec c "+") as [->|_]; [done|].
  unfold scan_nat. rewrite Hc, Hscan. by rewrite scan_digits_stop.
Qed.

Lemma cut_prefix_app p s : cut_prefix (p ++ s) p = Some s.
Proof. induction p as [|c p IH]; [by destruct s|]. simpl. by rewrite Ascii.eqb_refl. Qed.

(** The retry counter survives its encoding: the number the operator writes
    into the condition's message is the number it reads back from it. *)
Theorem scan_retry_message (n : Z) : (0 <= n)%Z -> scan_retry (retry_message n) = Some n.
Proof.
  intros Hn. unfold scan_retry, retry_message. rewrite cut_prefix_app, scan_int_fmt by done. reflexivity.
Qed.

Lemma scan_retry_message_witness : (0 <= 12)%Z /\ scan_retry (retry_message 12) = Some 12%Z.
Proof. split; [lia|]. apply (scan_retry_message 12). lia. Defined.

(** *** Phases *)

(** The status subresource stores, and returns, the status it was sent. *)
Class StatusEcho `{Client W} : Prop :=
  updateStatusRA_echo a w a' w' : updateStatusRA a w = (Ok a', w') -> ra_Status a' = ra_Status a.

#[export] Instance mem_status_echo `{QuantityOps} : StatusEcho (W := Mem).
Proof.
  intros a w a' w'. cbn. unfold mem_write. destruct (pop_fault w) as [[e|] w1]; [done|]. by intros [= <- <-].
Qed.

(** The edges of the lifecycle. *)
Inductive phase_step : string -> string -> Prop :=
| step_acknowledge : phase_step "Approved" "Acknowledged"
| step_apply : phase_step "Approved" "Applying"
| step_refuse : phase_step "Approved" "Failed"
| step_never_applied : phase_step "Applying" "Failed"
| step_verify : phase_step "Applying" "Verifying"
| step_complete : phase_step "Verifying" "Completed"
| step_roll_back : phase_step "Verifying" "RolledBack"
| step_give_up : phase_step "Verifying" "Failed".

Section phases.
Context `{Client W} `{Retry W} `{SpecCodec} (collectAll : io W (result error (list Signal))).
Context `{!StatusEcho}.

Lemma wrap_io_ok {A} what (m : io W (result error A)) w a w' :
  wrap_io what m w = (Ok a, w') -> m w = (Ok a, w').
Proof. unfold wrap_io. destruct (m w) as [[x|e] w1]; cbn; [|done]. by intros [= <- <-]. Qed.

Lemma iobind_ok {A B} (m : io W (result error A)) (f : A -> io W (result error B)) w b w' :
  iobind m f w = (Ok b, w') -> exists a w1, m w = (Ok a, w1) /\ f a w1 = (Ok b, w').
Proof. unfold iobind. destruct (m w) as [[a|e] w1]; [|done]. eauto. Qed.

Lemma written_status what a w a' w' :
  wrap_io what (updateStatusRA a) w = (Ok a', w') -> ra_Status a' = ra_Status a.
Proof. intros Hw%wrap_io_ok. by eapply updateStatusRA_echo. Qed.

Lemma with_condition_status ty st re msg a w :
  exists now w1, with_condition ty st re msg a w = (set_conditions (setCondition now ty st re msg (ra_Conditions a)) a, w1).
Proof. unfold with_condition, mbind, io_bind. destruct (clock w) as [now w1]. by exists now, w1. Qed.

Lemma settle_status what outcome a w r a' w' :
  settle what outcome a w = (Ok (r, a'), w') -> r = no_requeue /\ ra_Status a' = ra_Status a.
Proof.
  unfold settle. intros (a1 & w1 & Ha & Hrun)%iobind_ok. revert Hrun. unfold mbind, io_bind, iok.
  destruct (updateIncidentResolution a1 outcome w1). intros [= <- <- _]. split; [done|].
  by eapply written_status.
Qed.

Lemma failed_status reason msg a w r a' w' :
  transitionToFailedWithReason a reason msg w = (Ok (r, a'), w') ->
  r = no_requeue /\ ra_Phase a' = "Failed" /\ ra_AppliedAt a' = ra_AppliedAt a /\
  exists now, ra_Conditions a' = setCondition now ConditionApplied ConditionFalse reason msg (ra_Conditions a).
Proof.
  unfold transitionToFailedWithReason, mbind, io_bind.
  destruct (with_condition_status ConditionApplied ConditionFalse reason msg (set_phase RemediationPhaseFailed a) w)
    as (now & w1 & ->). intros [-> Hs]%settle_status.
  unfold ra_Phase, ra_AppliedAt, ra_Conditions. rewrite Hs. split_and!; try done. by exists now.
Qed.

Lemma handleApproved_phase a w r a' w' :
  handleApproved a w = (Ok (r, a'), w') -> ra_Phase a' ∈ ["Acknowledged"; "Applying"; "Failed"].
Proof.
  unfold handleApproved. destruct (HasAutoApplicableChange (Some a)); cbn [negb].
  - unfold mbind, io_bind. destruct (Executor_Apply a w) as [[[]|e] w1].
    + destruct (clock w1) as [now w2].
      destruct (with_condition_status ConditionApplied ConditionTrue "PatchApplied"
        "Remediation patch applied to ApplicationPersona"
        (set_applied_at (Some now) (set_phase RemediationPhaseApplying a)) w2) as (now' & w3 & ->).
      intros (a1 & w4 & Ha%written_status & [= _ <- _])%iobind_ok. unfold ra_Phase. rewrite Ha. cbn. set_solver.
    + destruct (as_precondition e); intros (_ & -> & _)%failed_status; set_solver.
  - unfold transitionToAcknowledged, mbind, io_bind.
    destruct (with_condition_status ConditionApplied ConditionFalse ReasonAdvisoryOnly
      "Approval recorded. This plan has no auto-applicable step, so the operator changed nothing; the steps are for a human to apply."
      (set_phase RemediationPhaseAcknowledged a) w) as (now & w1 & ->).
    intros [_ Hs]%settle_status. unfold ra_Phase. rewrite Hs. cbn. set_solver.
Qed.

Lemma handleApplying_phase a w r a' w' :
  handleApplying a w = (Ok (r, a'), w') -> ra_Phase a' ∈ [ra_Phase a; "Failed"; "Verifying"].
Proof.
  unfold handleApplying. destruct (ra_AppliedAt a) as [t|]; [|intros (_ & -> & _)%failed_status; set_solver].
  unfold mbind, io_bind. destruct (clock w) as [now w1]. destruct (_ <? _)%Z; [intros [= _ <- _]; set_solver|].
  intros (a1 & w4 & Ha%written_status & [= _ <- _])%iobind_ok. unfold ra_Phase. rewrite Ha. cbn. set_solver.
Qed.

Lemma handleVerificationUnknown_phase a w r a' w' :
  handleVerificationUnknown a w = (Ok (r, a'), w') -> ra_Phase a' ∈ [ra_Phase a; "Failed"].
Proof.
  unfold handleVerificationUnknown.
  destruct (maxUnknownRetries <=? getRetryCount a)%Z; [intros (_ & -> & _)%failed_status; set_solver|].
  unfold mbind, io_bind.
  destruct (with_condition_status ConditionVerified ConditionFalse "VerificationUnknown"
    (retry_message (getRetryCount a + 1)) a w) as (now & w1 & ->).
  intros (a1 & w4 & Ha%written_status & [= _ <- _])%iobind_ok. unfold ra_Phase. rewrite Ha. cbn. set_solver.
Qed.

Lemma handleVerificationDegraded_phase a w r a' w' :
  handleVerificationDegraded a w = (Ok (r, a'), w') -> ra_Phase a' ∈ ["Failed"; "RolledBack"].
Proof.
  unfold handleVerificationDegraded, recordRollbackScope, mbind, io_bind.
  destruct (Rollback_Execute a w) as [[[]|e] w1]; [|intros (_ & -> & _)%failed_status; set_solver].
  destruct (with_condition_status ConditionRolledBack ConditionTrue "HealthDegraded"
    "Remediation rolled back due to degraded health" (set_phase RemediationPhaseRolledBack a) w1) as (now & w2 & ->).
  destruct (InspectRollback _ w2) as [o w3]. destruct (with_condition_status ConditionWorkloadDiverged (scope_status o)
    (outcome_Reason o) (outcome_Message o) (set_conditions (setCondition now ConditionRolledBack ConditionTrue
    "HealthDegraded" "Remediation rolled back due to degraded health" (ra_Conditions (set_phase
    RemediationPhaseRolledBack a))) (set_phase RemediationPhaseRolledBack a)) w3) as (now' & w4 & ->).
  intros [_ Hs]%settle_status. unfold ra_Phase. rewrite Hs. cbn. set_solver.
Qed.

Lemma handleVerificationHealthy_phase a w r a' w' :
  handleVerificationHealthy a w = (Ok (r, a'), w') -> ra_Phase a' = "Completed".
Proof.
  unfold handleVerificationHealthy, mbind, io_bind.
  destruct (with_condition_status ConditionVerified ConditionTrue "HealthRestored"
      "Verification confirmed health restored" (set_phase RemediationPhaseCompleted a) w) as (now & w1 & ->).
  intros [_ Hs]%settle_status. unfold ra_Phase. by rewrite Hs.
Qed.

Lemma handleVerifying_phase a w r a' w' :
  handleVerifying collectAll a w = (Ok (r, a'), w') ->
  ra_Phase a' ∈ [ra_Phase a; "Failed"; "RolledBack"; "Completed"].
Proof.
  unfold handleVerifying, mbind, io_bind. destruct (Verify collectAll a w) as [verdict w1].
  set (v := match verdict.2 with Some _ => _ | None => _ end). destruct v.
  - intros ->%handleVerificationHealthy_phase. set_solver.
  - intros Hp%handleVerificationDegraded_phase. set_solver.
  - intros Hp%handleVerificationUnknown_phase. unfold ra_Phase in *. cbn in Hp. set_solver.
Qed.
End phases.

(** The case analysis behind the lifecycle. *)
Lemma dispatch_edges `{Client W} `{Retry W} `{SpecCodec} `{!StatusEcho}
    (collectAll : io W (result error (list Signal))) (a a' : RemediationAction) (r : Result) (w w' : W) :
  dispatch collectAll a w = (Ok (r, a'), w') ->
  (ra_Phase a' = ra_Phase a \/ phase_step (ra_Phase a) (ra_Phase a')) /\
  (ra_Phase a ∉ ["Approved"; "Applying"; "Verifying"; "Rejected"] -> a' = a /\ w' = w /\ r = no_requeue).
Proof.
  unfold dispatch, RemediationPhasePending, RemediationPhaseApproved, RemediationPhaseApplying,
    RemediationPhaseVerifying, RemediationPhaseRejected.
  destruct (String.eqb_spec (ra_Phase a) "Pending") as [Hp|_]; [intros [= <- <- <-]; by split; [left|]|].
  destruct (String.eqb_spec (ra_Phase a) "Approved") as [Hp|Ha]; [rewrite Hp|].
  { intros Hrun%handleApproved_phase. split; [right|set_solver].
    by rewrite !elem_of_cons, elem_of_nil in Hrun; destruct Hrun as [->|[->|[->|[]]]]; constructor. }
  destruct (String.eqb_spec (ra_Phase a) "Applying") as [Hp|Hb]; [rewrite Hp|].
  { intros Hrun%handleApplying_phase. split; [|set_solver]. rewrite Hp in Hrun.
    rewrite !elem_of_cons, elem_of_nil in Hrun; destruct Hrun as [->|[->|[->|[]]]]; try (by left); right; constructor. }
  destruct (String.eqb_spec (ra_Phase a) "Verifying") as [Hp|Hc]; [rewrite Hp|].
  { intros Hrun%handleVerifying_phase. split; [|set_solver]. rewrite Hp in Hrun.
    rewrite !elem_of_cons, elem_of_nil in Hrun; destruct Hrun as [->|[->|[->|[->|[]]]]]; try (by left); right; constructor. all: exact _. }
  destruct (String.eqb_spec (ra_Phase a) "Rejected") as [Hp|Hd].
  { intros (? & w1 & _ & [= _ <- _])%iobind_ok. split; [by left|set_solver]. }
  intros [= <- <- <-]. by split; [left|].
Qed.

(** C4. The lifecycle: one reconcile of an action either leaves its phase alone
    or moves it along one edge of the documented state machine, and an action
    in any other phase (Pending, Rejected, and every terminal one) keeps its
    phase; outside Rejected, not even the cluster is touched. *)
Theorem dispatch_phase_step `{Client W} `{Retry W} `{SpecCodec} `{!StatusEcho}
    (collectAll : io W (result error (list Signal))) (a a' : RemediationAction) (r : Result) (w w' : W) :
  dispatch collectAll a w = (Ok (r, a'), w') ->
  (ra_Phase a' = ra_Phase a \/ phase_step (ra_Phase a) (ra_Phase a')) /\
  (ra_Phase a ∉ ["Approved"; "Applying"; "Verifying"; "Rejected"] -> a' = a /\ w' = w /\ r = no_requeue).
Proof. apply dispatch_edges. Qed.

(** No verification before its time: an applying action younger than the
    verification delay is left exactly as it is and requeued for the very
    remainder of the delay; one that has reached it moves to Verifying and is
    requeued at once. *)
Theorem handleApplying_waits `{Client W} `{Retry W} `{!StatusEcho}
    (a a' : RemediationAction) (r : Result) (w w' w1 : W) (t now : time) :
  ra_AppliedAt a = Some t -> clock w = (now, w1) -> (0 <= now - t <= max_int64)%Z ->
  (getVerificationDelay a <= max_int64)%Z ->
  handleApplying a w = (Ok (r, a'), w') ->
  if (now <? t + getVerificationDelay a)%Z
  then a' = a /\ w' = w1 /\ res_RequeueAfter r = (t + getVerificationDelay a - now)%Z /\ (0 < res_RequeueAfter r)%Z
  else ra_Phase a' = "Verifying" /\ ra_AppliedAt a' = Some t /\ res_Requeue r = true.
Proof.
  intros Hat Hclock Hrange Hdelay. unfold handleApplying. rewrite Hat. unfold mbind, io_bind. rewrite Hclock.
  rewrite t_sub_exact by (unfold min_int64, max_int64 in *; lia).
  destruct (Z.ltb_spec (now - t) (getVerificationDelay a)) as [Hlt|Hge].
  - intros [= <- <- <-]. rewrite (proj2 (Z.ltb_lt _ _)) by lia. cbn [res_RequeueAfter].
    unfold wrap64. rewrite wrap_small by (unfold max_int64 in *; lia). split_and!; try done; lia.
  - rewrite (proj2 (Z.ltb_ge _ _)) by lia.
    intros (a1 & w4 & Ha%written_status & [= <- <- _])%iobind_ok. unfold ra_Phase, ra_AppliedAt in *. by rewrite Ha.
Qed.

(** *** An advisory plan *)

Section advisory.
Context `{Client W} `{RL : RetryLaws W} `{SpecCodec} `{!StatusEcho}.
Context (collectAll : io W (result error (list Signal))).

(** What the operator may do to the cluster without touching a persona or a workload. *)
Record bookkeeping (I : W -> Prop) : Prop := {
  bk_clock w : I w -> I (clock w).2;
  bk_status a w : I w -> I (updateStatusRA a w).2;
  bk_get k w : I w -> I (getIncident k w).2;
  bk_update i w : I w -> I (updateIncident i w).2;
  bk_phase i w : I w -> I (updateStatusIncident i w).2;
}.

Context (I : W -> Prop) (BK : bookkeeping I).

Lemma wrap_io_inv {A} what (m : io W (result error A)) w : I (m w).2 -> I (wrap_io what m w).2.
Proof. unfold wrap_io. by destruct (m w). Qed.

Lemma iobind_inv {A B} (m : io W (result error A)) (f : A -> io W (result error B)) w :
  I (m w).2 -> (forall a w', I w' -> I (f a w').2) -> I (iobind m f w).2.
Proof. unfold iobind. destruct (m w) as [[a|e] w']; simpl; auto. Qed.

Lemma bind_inv {A B} (m : io W A) (f : A -> io W B) w :
  I (m w).2 -> (forall a w', I w' -> I (f a w').2) -> I (mbind f m w).2.
Proof. unfold mbind, io_bind. destruct (m w) as [a w']; simpl; auto. Qed.

Lemma retry_inv {A} (f : io W (result error A)) w :
  (forall w, I w -> I (f w).2) -> I w -> I (RetryOnConflict f w).2.
Proof.
  intros Hf Hw. unfold RetryOnConflict. eapply (retried_invariant I (fun out => I out.2)); [| |done|apply OnError_retried];
    intros; by apply Hf.
Qed.

Lemma updateIncidentResolution_inv a outcome w : I w -> I (updateIncidentResolution a outcome w).2.
Proof.
  intros Hw. unfold updateIncidentResolution. apply iobind_inv; [by apply wrap_io_inv, (bk_get I BK)|].
  intros incident w1 Hw1. apply bind_inv; [by apply (bk_clock I BK)|]. intros now w2 Hw2.
  apply iobind_inv; [by apply wrap_io_inv, (bk_update I BK)|]. intros _ w3 Hw3. destruct (outcome =? "resolved"); [|done].
  apply wrap_io_inv, retry_inv; [|done]. intros w4 Hw4. apply iobind_inv; [by apply (bk_get I BK)|].
  intros fresh w5 Hw5. apply iobind_inv; [by apply (bk_phase I BK)|done].
Qed.

Lemma settle_inv what outcome a w : I w -> I (settle what outcome a w).2.
Proof.
  intros Hw. unfold settle. apply iobind_inv; [by apply wrap_io_inv, (bk_status I BK)|]. intros a1 w1 Hw1.
  apply bind_inv; [by apply updateIncidentResolution_inv|done].
Qed.

Lemma transitionToAcknowledged_inv a w : I w -> I (transitionToAcknowledged a w).2.
Proof.
  intros Hw. unfold transitionToAcknowledged. apply bind_inv; [|intros; by apply settle_inv].
  unfold with_condition. apply bind_inv; [by apply (bk_clock I BK)|done].
Qed.

(** Approving an advisory plan changes nothing but the records: whatever
    fact about the cluster the incident and action-status writes respect (such
    as: no persona and no workload differs) holds after the reconcile, success
    or failure; and when it succeeds the action is Acknowledged, never Failed,
    with no apply time. *)
Theorem approved_advisory_applies_nothing (a : RemediationAction) (w : W) :
  ra_Phase a = "Approved" -> HasAutoApplicableChange (Some a) = false -> I w ->
  I (dispatch collectAll a w).2 /\
  forall r a', (dispatch collectAll a w).1 = Ok (r, a') ->
    ra_Phase a' = "Acknowledged" /\ ra_AppliedAt a' = ra_AppliedAt a /\ r = no_requeue /\
    exists c, condition_of ConditionApplied (ra_Conditions a') = Some c /\
      c_Status c = ConditionFalse /\ c_Reason c = ReasonAdvisoryOnly.
Proof.
  intros Hp Hadv Hw. unfold dispatch. rewrite Hp. cbn [String.eqb Ascii.eqb Bool.eqb RemediationPhasePending RemediationPhaseApproved].
  change (RemediationPhaseApproved =? RemediationPhaseApproved) with true. cbv iota.
  unfold handleApproved. rewrite Hadv. cbn [negb].
  split; [by apply transitionToAcknowledged_inv|]. intros r a'.
  destruct (transitionToAcknowledged a w) as [out w'] eqn:Hrun. cbn [fst]. intros ->. revert Hrun.
  unfold transitionToAcknowledged, mbind, io_bind.
  destruct (with_condition_status ConditionApplied ConditionFalse ReasonAdvisoryOnly
    "Approval recorded. This plan has no auto-applicable step, so the operator changed nothing; the steps are for a human to apply."
    (set_phase RemediationPhaseAcknowledged a) w) as (now & w1 & ->).
  intros [-> Hs]%settle_status. unfold ra_Phase, ra_AppliedAt, ra_Conditions. rewrite Hs. split_and!; try done.
  cbn. edestruct setCondition_same as (c & Hc & _ & Hst & Hr). eauto.
Qed.
End advisory.

(** A refusal is not a failure: when the reconcile of an approved,
    auto-applicable action that was never applied ends Failed, it starts the
    failed-remediation cooldown exactly when the executor's preconditions held,
    that is when the cluster may have been touched. *)
Theorem refused_action_no_cooldown `{Client W} `{Retry W} `{SpecCodec} `{!StatusEcho} `{!ClientErrors}
    (collectAll : io W (result error (list Signal))) (a a' : RemediationAction) (r : Result) (w w' : W) :
  ra_Phase a = "Approved" -> HasAutoApplicableChange (Some a) = true ->
  ra_AppliedAt a = None -> hasCondition (ra_Conditions a) ConditionApplied = false ->
  dispatch collectAll a w = (Ok (r, a'), w') -> ra_Phase a' = "Failed" ->
  rejectedBeforeApply a' = (match validatePreconditions a with Some _ => true | None => false end) /\
  (validatePreconditions a <> None -> forall now, in_failed_cooldown now a' = false).
Proof.
  intros Hp Hauto Hat Hcond Hrun Hf. enough (Hr : rejectedBeforeApply a' =
    match validatePreconditions a with Some _ => true | None => false end).
  { split; [done|]. intros Hv now. unfold in_failed_cooldown. rewrite Hr. destruct (validatePreconditions a); [|done].
    by destruct (ra_Phase a' =? phaseFailed). }
  revert Hrun. unfold dispatch. rewrite Hp. change (handleApproved a w = (Ok (r, a'), w') -> rejectedBeforeApply a' =
    match validatePreconditions a with Some _ => true | None => false end).
  unfold handleApproved. rewrite Hauto. cbn [negb]. unfold mbind, io_bind.
  destruct (Executor_Apply a w) as [[[]|e] w1] eqn:Happly.
  - destruct (clock w1) as [now w2].
    destruct (with_condition_status ConditionApplied ConditionTrue "PatchApplied"
      "Remediation patch applied to ApplicationPersona"
      (set_applied_at (Some now) (set_phase RemediationPhaseApplying a)) w2) as (now' & w3 & ->).
    intros (a1 & w4 & Ha%written_status & [= _ <- _])%iobind_ok. unfold ra_Phase in Hf. by rewrite Ha in Hf.
  - destruct (Executor_error_precondition a w w1 e Happly) as [Hpre _].
    assert (Hset : forall now reason msg, ra_AppliedAt a' = ra_AppliedAt a ->
      ra_Conditions a' = setCondition now ConditionApplied ConditionFalse reason msg (ra_Conditions a) ->
      rejectedBeforeApply a' = (reason =? ReasonPreconditionRejected)).
    { intros now reason msg Ht Hc. unfold rejectedBeforeApply. rewrite Ht, Hat, Hc. clear Hc Ht.
      revert Hcond. unfold hasCondition. induction (ra_Conditions a) as [|c l IH]; simpl; [by rewrite orb_false_r|].
      unfold conditionApplied, ConditionApplied in *.
      destruct (c_Type c =? "Applied") eqn:Hty; simpl; [done|]. intros Hl. rewrite Hty. by apply IH. }
    rewrite <- Hpre. destruct (as_precondition e) as [pr|].
    + intros (_ & _ & Ht & now & Hc)%failed_status. by rewrite (Hset _ _ _ Ht Hc).
    + intros (_ & _ & Ht & now & Hc)%failed_status. by rewrite (Hset _ _ _ Ht Hc).
Qed.

(** *** A verification that stays unknown *)

(** Every verification of the action so far has been unknown. *)
Definition unknown_so_far (cs : list Condition) : Prop :=
  hasCondition cs ConditionVerified = false \/
  exists l1 c l2, cs = (l1 ++ c :: l2)%list /\ hasCondition l1 ConditionVerified = false /\
    c_Type c = ConditionVerified /\ c_Status c = ConditionFalse /\ c_Reason c = "VerificationUnknown" /\
    c_Message c = retry_message 1.

Lemma retry_count_skip l cs : hasCondition l ConditionVerified = false ->
  omap retry_of_condition (l ++ cs)%list = omap retry_of_condition cs.
Proof.
  induction l as [|c l IH]; [done|]. cbn [hasCondition existsb app]. rewrite orb_false_iff. intros [Hc Hl].
  rewrite omap_cons. unfold retry_of_condition at 1. rewrite Hc. by apply IH.
Qed.

Lemma setCondition_skip now ty st re msg l cs : hasCondition l ty = false ->
  setCondition now ty st re msg (l ++ cs)%list = (l ++ setCondition now ty st re msg cs)%list.
Proof.
  induction l as [|c l IH]; [done|]. cbn [hasCondition existsb app setCondition]. rewrite orb_false_iff.
  intros [-> Hl]. by rewrite IH.
Qed.

(** C26. The bound on unknown verifications is never reached: the counter lives in
    a message that [setCondition] rewrites only with the status or the reason,
    so after any number of unknown verifications it reads one, the limit of two
    is never met, and the action is requeued every minute, still Verifying. *)
Theorem unknown_verification_never_gives_up `{Client W} `{Retry W} `{!StatusEcho}
    (a a' : RemediationAction) (r : Result) (w w' : W) :
  unknown_so_far (ra_Conditions a) ->
  handleVerificationUnknown a w = (Ok (r, a'), w') ->
  unknown_so_far (ra_Conditions a') /\ ra_Phase a' = ra_Phase a /\ r = mkResult false minute /\
  (getRetryCount a' < maxUnknownRetries)%Z.
Proof.
  intros Hso. unfold handleVerificationUnknown.
  assert (Hstep : (getRetryCount a < maxUnknownRetries)%Z /\ forall now,
    unknown_so_far (setCondition now ConditionVerified ConditionFalse "VerificationUnknown"
      (retry_message (getRetryCount a + 1)) (ra_Conditions a)) /\
    default 0%Z (head (omap retry_of_condition (setCondition now ConditionVerified ConditionFalse "VerificationUnknown"
      (retry_message (getRetryCount a + 1)) (ra_Conditions a)))) = 1%Z).
  { unfold getRetryCount. destruct Hso as [Hno|(l1 & c & l2 & -> & Hno & Hty & Hst & Hre & Hmsg)].
    - rewrite <- (app_nil_r (ra_Conditions a)), !retry_count_skip by done. split; [done|]. intros now.
      rewrite setCondition_skip, retry_count_skip by done. split; [|done]. right. by eexists _, _, [].
    - assert (Hc : retry_of_condition c = Some 1%Z).
      { unfold retry_of_condition. rewrite Hty, Hre, Hmsg. reflexivity. }
      rewrite !retry_count_skip, omap_cons, Hc by done. split; [done|]. intros now.
      rewrite setCondition_skip by done. cbn [setCondition]. rewrite Hty, Hst, Hre, !String.eqb_refl. cbn [negb orb].
      rewrite retry_count_skip, omap_cons, Hc by done. split; [|done]. right. by exists l1, c, l2. }
  destruct Hstep as [Hlt Hso']. rewrite (proj2 (Z.leb_gt _ _)) by done. unfold mbind, io_bind.
  destruct (with_condition_status ConditionVerified ConditionFalse "VerificationUnknown"
      (retry_message (getRetryCount a + 1)) a w) as (now & w1 & ->).
  intros (a1 & w4 & Ha%written_status & [= <- <- _])%iobind_ok. destruct (Hso' now) as [Hs Hone].
  unfold getRetryCount, ra_Phase, ra_Conditions in *. rewrite Ha. split_and!; try done. cbn [ra_Status set_conditions set_status ras_Conditions].
  rewrite Hone. done.
Qed.

(** ** Witnesses *)

#[local] Existing Instance int_quantity.

Definition ex_approved : RemediationAction := ex_ra "ra-1" "Approved" (Some (ex_patch "150")) (Some (ex_patch "100")) None [].
Definition ex_no_signals : io Mem (result error (list Signal)) := iok [].
(** The outcome of a reconcile that is known to succeed. *)
Definition ex_done (m : io Mem (result error handled)) (w : Mem) : handled :=
  match (m w).1 with Ok h => h | Err _ => (no_requeue, ex_approved) end.
Lemma ex_done_ok (m : io Mem (result error handled)) w :
  is_ok (m w).1 = true -> m w = (Ok ((ex_done m w).1, (ex_done m w).2), (m w).2).
Proof. unfold ex_done. destruct (m w) as [[[r a]|e] w']; [done|]. discriminate. Qed.

Lemma dispatch_phase_step_witness :
  let a' := (ex_done (dispatch ex_no_signals ex_approved) ex_target).2 in
  (ra_Phase a' = "Approved" \/ phase_step "Approved" (ra_Phase a')) /\ ra_Phase a' = "Applying".
Proof.
  split; [|vm_compute; reflexivity].
  refine (proj1 (dispatch_phase_step ex_no_signals ex_approved _ _ ex_target _ (ex_done_ok _ _ _))). vm_compute. reflexivity.
Defined.

Lemma handleApplying_waits_witness :
  let a := ex_ra "ra-1" "Applying" (Some (ex_patch "150")) (Some (ex_patch "100")) (Some (1900 * second)%Z) [] in
  res_RequeueAfter (ex_done (handleApplying a) ex_target).1 = (200 * second)%Z.
Proof.
  intros a. assert (Hok : is_ok (handleApplying a ex_target).1 = true) by (vm_compute; reflexivity).
  pose proof (handleApplying_waits a (ex_done (handleApplying a) ex_target).2 (ex_done (handleApplying a) ex_target).1
    ex_target (handleApplying a ex_target).2 ex_target 1900000000000%Z 2000000000000%Z) as Hw.
  assert (Hd : getVerificationDelay a = 300000000000%Z) by (vm_compute; reflexivity). rewrite Hd in Hw.
  apply Hw; [vm_compute; reflexivity|reflexivity|vm_compute; split; discriminate|vm_compute; discriminate|exact (ex_done_ok _ _ Hok)].
Defined.

Definition ex_advisory : RemediationAction := ex_ra "ra-1" "Approved" None None None [].

Lemma approved_advisory_applies_nothing_witness :
  (mem_personas (dispatch ex_no_signals ex_advisory ex_target).2 = mem_personas ex_target) /\
  ra_Phase (ex_done (dispatch ex_no_signals ex_advisory) ex_target).2 = "Acknowledged".
Proof.
  assert (BK : bookkeeping (fun w => mem_personas w = mem_personas ex_target)).
  { split; [done| |done|..]; intros a w <-; cbn; unfold mem_write, pop_fault;
      destruct (mem_faults w) as [|[k|] fs]; cbn; try done; unfold status_ra, spec_incident, status_incident; cbn;
      by repeat case_match. }
  destruct (approved_advisory_applies_nothing ex_no_signals _ BK ex_advisory ex_target) as [HI Hok];
    [reflexivity|reflexivity|reflexivity|].
  split; [exact HI|]. refine (proj1 (Hok (ex_done (dispatch ex_no_signals ex_advisory) ex_target).1 _ _)).
  rewrite ex_done_ok; [reflexivity|vm_compute; reflexivity].
Defined.

(** Approved, but no pre-patch state to roll back to. *)
Definition ex_refused : RemediationAction := ex_ra "ra-1" "Approved" (Some (ex_patch "150")) None None [].

Lemma refused_action_no_cooldown_witness :
  let a' := (ex_done (dispatch ex_no_signals ex_refused) ex_target).2 in
  rejectedBeforeApply a' = true /\ in_failed_cooldown (2000 * second)%Z a' = false.
Proof.
  intros a'. destruct (refused_action_no_cooldown ex_no_signals ex_refused a'
    (ex_done (dispatch ex_no_signals ex_refused) ex_target).1 ex_target (dispatch ex_no_signals ex_refused ex_target).2)
    as [Hr Hc]; [vm_compute; reflexivity..| | |].
  - apply ex_done_ok. vm_compute. reflexivity.
  - vm_compute. reflexivity.
  - split; [exact Hr|]. apply Hc. vm_compute. discriminate.
Defined.

Lemma unknown_verification_never_gives_up_witness :
  let a := ex_ra "ra-1" "Verifying" (Some (ex_patch "150")) (Some (ex_patch "100")) (Some 0%Z) [] in
  let once := (ex_done (handleVerificationUnknown a) ex_target).2 in
  let twice := (ex_done (handleVerificationUnknown once) ex_target).2 in
  ra_Phase twice = "Verifying" /\ getRetryCount twice = 1%Z.
Proof.
  intros a once twice. split; [|vm_compute; reflexivity].
  assert (Hok1 : is_ok (handleVerificationUnknown a ex_target).1 = true) by (vm_compute; reflexivity).
  assert (Hok2 : is_ok (handleVerificationUnknown once ex_target).1 = true) by (vm_compute; reflexivity).
  destruct (unknown_verification_never_gives_up a once (ex_done (handleVerificationUnknown a) ex_target).1 ex_target
    (handleVerificationUnknown a ex_target).2 (or_introl eq_refl) (ex_done_ok _ _ Hok1)) as (Hso & Hp & _).
  destruct (unknown_verification_never_gives_up once twice (ex_done (handleVerificationUnknown once) ex_target).1 ex_target
    (handleVerificationUnknown once ex_target).2 Hso (ex_done_ok _ _ Hok2)) as (_ & Hp2 & _).
  rewrite Hp2, Hp. reflexivity.
Defined.
