(* ===== verification/Workload.v ===== *)
(** * Finding the live workload and its owner (internal/workload/).

    match.go resolves a persona name to one Deployment, ownership.go and
    ownership_fields.go say who reconciles it, observe.go records what a
    remediation must be grounded in. *)

From S2P Require Import Prelude GoString GoNum Json ApiTypes KubeTypes Client.
From Stdlib Require Import String Ascii.
From stdpp Require Import strings.
Open Scope string_scope.

(** ** match.go *)

Definition LabelAppName : string := "app.kubernetes.io/name".
Definition LabelApp : string := "app".
Definition RungLabelAppName : string := "label " ++ LabelAppName.
Definition RungLabelApp : string := "label " ++ LabelApp.
Definition RungName : string := "metadata.name".
Definition RungSelector : string := "spec.selector.matchLabels".

Record AmbiguousError := mkAmbiguous { am_PersonaName : string; am_Rung : string; am_Candidates : list string }.

Definition AmbiguousError_text (e : AmbiguousError) : string :=
  fmt_d (Z.of_nat (length (am_Candidates e))) ++ " Deployments match persona " ++ fmt_q (am_PersonaName e) ++ " by "
  ++ am_Rung e ++ " (" ++ strings_join ", " (am_Candidates e) ++ "); set " ++ LabelAppName ++ "=" ++ am_PersonaName e
  ++ " on exactly one".

Section matching.
Context `{QuantityOps}.

Record matcher := mkMatcher { rung : string; matches_by : Deployment -> string -> bool }.

(** [labels[key] == name]: an absent key reads as the empty string. *)
Definition selector_matches (d : Deployment) (name : string) : bool :=
  match dp_MatchLabels d with
  | None => false
  | Some ml => (mget ml LabelAppName =? name) || (mget ml LabelApp =? name)
  end.

Definition chain : list matcher :=
  [ mkMatcher RungLabelAppName (fun d name => (mget (dp_Labels d) LabelAppName =? name));
    mkMatcher RungLabelApp (fun d name => (mget (dp_Labels d) LabelApp =? name));
    mkMatcher RungName (fun d name => (dp_Name d =? name));
    mkMatcher RungSelector selector_matches ].

Definition ChainDescription : string := strings_join ", " (map rung chain).

(** [Matches]; [None] is the nil Deployment. *)
Definition Matches (deploy : option Deployment) (personaName : string) : bool :=
  match deploy with
  | None => false
  | Some d => if (personaName =? "") then false else existsb (fun m => matches_by m d personaName) chain
  end.

(** The loop of [Resolve] over the rungs that are left. *)
Fixpoint resolve_by (ms : list matcher) (deployments : list Deployment) (personaName : string)
  : result AmbiguousError (option (Deployment * string)) :=
  match ms with
  | [] => Ok None
  | m :: rest =>
      match List.filter (fun d => matches_by m d personaName) deployments with
      | [] => resolve_by rest deployments personaName
      | [d] => Ok (Some (d, rung m))
      | matched => Err (mkAmbiguous personaName (rung m) (sort_strings (map dp_Name matched)))
      end
  end.

Definition Resolve (deployments : list Deployment) (personaName : string)
  : result AmbiguousError (option (Deployment * string)) :=
  if (personaName =? "") then Ok None else resolve_by chain deployments personaName.
End matching.

(** ** ownership_fields.go *)

Definition fieldSpec : string := "f:spec".
Definition fieldTemplate : string := "f:template".
Definition fieldContainers : string := "f:containers".
Definition fieldResources : string := "f:resources".
Definition containerKeyPrefix : string := "k:".

Fixpoint descendFields (node : gmap string json) (keys : list string) : option (gmap string json) :=
  match keys with
  | [] => Some node
  | key :: rest =>
      match node !! key with
      | None => None
      | Some raw => match unmarshal_map (RawDoc raw) with Err _ => None | Ok next => descendFields next rest end
      end
  end.

(** One child of [f:containers]: unreadable, or claiming its resources. *)
Definition container_claimed (kv : string * json) : bool :=
  if negb (has_prefix kv.1 containerKeyPrefix) then false else
  match unmarshal_map (RawDoc kv.2) with
  | Err _ => true
  | Ok container => bool_decide (is_Some (container !! fieldResources))
  end.

Definition ownsContainerResources (entry : ManagedFieldsEntry) : bool :=
  match mf_FieldsV1 entry with
  | None | Some RawEmpty => false
  | Some raw =>
      match unmarshal_map raw with
      | Err _ => true
      | Ok root =>
          match descendFields root [fieldSpec; fieldTemplate; fieldSpec; fieldContainers] with
          | None => false
          | Some containers => existsb container_claimed (map_to_list containers)
          end
      end
  end.

(** ** ownership.go *)

Definition LabelManagedBy : string := "app.kubernetes.io/managed-by".
Definition annotationKustomizeOrigin : string := "config.kubernetes.io/origin".
Definition annotationKustomizeTransformations : string := "alpha.config.kubernetes.io/transformations".
Definition annotationHelmReleaseName : string := "meta.helm.sh/release-name".
Definition annotationHelmReleaseNamespace : string := "meta.helm.sh/release-namespace".
Definition labelArgoCDInstance : string := "argocd.argoproj.io/instance".
Definition annotationArgoCDTracking : string := "argocd.argoproj.io/tracking-id".
Definition labelFluxKustomizeName : string := "kustomize.toolkit.fluxcd.io/name".
Definition labelFluxHelmName : string := "helm.toolkit.fluxcd.io/name".
Definition managerHelm : string := "helm".
Definition managerArgoCD : string := "argocd-controller".
Definition managerArgoCDApp : string := "argocd-application-controller".
Definition managerFluxKustomize : string := "kustomize-controller".
Definition managerFluxHelm : string := "helm-controller".
Definition managerKubectlPrefix : string := "kubectl".
Definition managerDorguPrefix : string := "dorgu".
Definition managerKubeControllers : string := "kube-controller-manager".

Record Ownership := mkOwnership { own_ManagedBy : string; own_Detail : string }.
Definition Ownership_IsOwned (o : Ownership) : bool := negb (own_ManagedBy o =? ManagedByUnmanaged).

Definition fieldManagers (entries : list ManagedFieldsEntry) : list string :=
  map (fun e => to_lower (mf_Manager e)) (List.filter (fun e => negb (mf_Manager e =? "")) entries).
Definition hasManager (managers names : list string) : bool :=
  existsb (fun n => existsb (String.eqb n) managers) names.

Definition argoCDAppFromTrackingID (id : string) : string :=
  match cut id ":" with
  | Some (app, _) => if (app =? "") then id else app
  | None => id
  end.

Definition detectArgoCD (labels annotations : gmap string string) (managers : list string) : option Ownership :=
  let v := mget annotations annotationArgoCDTracking in
  let l := mget labels labelArgoCDInstance in
  if negb (v =? "") then Some (mkOwnership ManagedByArgoCD ("ArgoCD application " ++ fmt_q (argoCDAppFromTrackingID v)))
  else if negb (l =? "") then Some (mkOwnership ManagedByArgoCD ("ArgoCD application " ++ fmt_q l))
  else if hasManager managers [managerArgoCD; managerArgoCDApp]
  then Some (mkOwnership ManagedByArgoCD "an ArgoCD application") else None.

Definition detectFlux (labels : gmap string string) (managers : list string) : option Ownership :=
  let k := mget labels labelFluxKustomizeName in
  let h := mget labels labelFluxHelmName in
  if negb (k =? "") then Some (mkOwnership ManagedByFlux ("Flux Kustomization " ++ fmt_q k))
  else if negb (h =? "") then Some (mkOwnership ManagedByFlux ("Flux HelmRelease " ++ fmt_q h))
  else if hasManager managers [managerFluxKustomize; managerFluxHelm]
  then Some (mkOwnership ManagedByFlux "a Flux controller") else None.

Definition detectHelm (labels annotations : gmap string string) (managers : list string) : option Ownership :=
  let release := mget annotations annotationHelmReleaseName in
  let releaseNS := mget annotations annotationHelmReleaseNamespace in
  if negb (release =? "") then
    Some (mkOwnership ManagedByHelm (if (releaseNS =? "") then "Helm release " ++ fmt_q release
                                     else "Helm release " ++ fmt_q release ++ " in namespace " ++ releaseNS))
  else if equal_fold (mget labels LabelManagedBy) "helm" then Some (mkOwnership ManagedByHelm "a Helm release")
  else if hasManager managers [managerHelm] then Some (mkOwnership ManagedByHelm "a Helm release") else None.

Definition isKustomizeManagedBy (value : string) : bool :=
  let lower := to_lower (trim_space value) in
  (lower =? "kustomize") || has_prefix lower "kustomize-".

Definition detectKustomize (labels annotations : gmap string string) : option Ownership :=
  if isKustomizeManagedBy (mget labels LabelManagedBy)
     || existsb (fun annotation => negb (mget annotations annotation =? ""))
          [annotationKustomizeOrigin; annotationKustomizeTransformations]
  then Some (mkOwnership ManagedByKustomize "a kustomize overlay") else None.

Definition isKnownBenignManager (manager : string) : bool :=
  let lower := to_lower manager in
  has_prefix lower managerKubectlPrefix || has_prefix lower managerDorguPrefix || (lower =? managerKubeControllers).

(** What one managedFields entry says, if anything. *)
Definition foreign_entry (e : ManagedFieldsEntry) : option Ownership :=
  if (mf_Manager e =? "") || isKnownBenignManager (mf_Manager e) then None else
  match mf_Operation e with
  | OpApply => Some (mkOwnership ManagedByUnknown ("server-side applied by field manager " ++ fmt_q (mf_Manager e)))
  | OpUpdate =>
      if ownsContainerResources e
      then Some (mkOwnership ManagedByUnknown
             ("field manager " ++ fmt_q (mf_Manager e) ++ " already owns this container's resources"))
      else None
  | OpOther => None
  end.
Definition foreignFieldOwner (entries : list ManagedFieldsEntry) : option Ownership := head (omap foreign_entry entries).

Fixpoint first_some {A} (l : list (option A)) (fallback : A) : A :=
  match l with [] => fallback | Some a :: _ => a | None :: rest => first_some rest fallback end.

Section owner.
Context `{QuantityOps}.

(** [DetectOwner]; [None] is the nil Deployment. *)
Definition DetectOwner (deploy : option Deployment) : Ownership :=
  match deploy with
  | None => mkOwnership ManagedByUnknown ""
  | Some d =>
      let labels := dp_Labels d in
      let annotations := dp_Annotations d in
      let managers := fieldManagers (dp_ManagedFields d) in
      first_some [ detectArgoCD labels annotations managers; detectFlux labels managers;
                   detectHelm labels annotations managers; detectKustomize labels annotations;
                   foreignFieldOwner (dp_ManagedFields d) ]
        (mkOwnership ManagedByUnmanaged "")
  end.

(** ** observe.go *)

Definition kindDeployment : string := "Deployment".

Record Observation := mkObservation {
  ob_Deployment : Deployment;
  ob_Container : option Container;
  ob_MatchedBy : string;
  ob_Ownership : Ownership;
}.

Definition PickContainer (deploy : Deployment) (personaName : string) : option Container :=
  match find_first (fun c => (ct_Name c =? personaName)) (dp_Containers deploy) with
  | Some c => Some c
  | None => head (dp_Containers deploy)
  end.

Definition resourceValues (list_ : gmap string Quantity) : option ResourceValues :=
  let value name := match list_ !! name with Some qty => q_String qty | None => "" end in
  if (value ResourceCPU =? "") && (value ResourceMemory =? "") then None
  else Some (mkResourceValues (value ResourceCPU) (value ResourceMemory)).

Definition observedResources (container : Container) : option ObservedResources :=
  match resourceValues (ct_Limits container), resourceValues (ct_Requests container) with
  | None, None => None
  | limits, requests => Some (mkObserved requests limits)
  end.

Definition UnresolvedRef (now : time) : WorkloadRef :=
  mkWorkloadRef kindDeployment "" "" "" ManagedByUnknown "" None "" (Some now).

Definition Ref (o : option Observation) (now : time) : WorkloadRef :=
  match o with
  | None => UnresolvedRef now
  | Some o =>
      let d := ob_Deployment o in
      let by_ := own_ManagedBy (ob_Ownership o) in
      let detail := own_Detail (ob_Ownership o) in
      match ob_Container o with
      | Some c => mkWorkloadRef kindDeployment (dp_Name d) (dp_Namespace d) (ct_Name c) by_ detail
                    (observedResources c) (ct_Image c) (Some now)
      | None => mkWorkloadRef kindDeployment (dp_Name d) (dp_Namespace d) "" by_ detail None "" (Some now)
      end
  end.
End owner.

(** [Observe]: nothing matched is not an error. *)
Definition Observe `{Client W} (namespace personaName : string) : io W (result error (option Observation)) :=
  if (personaName =? "") || (namespace =? "") then iok None else
  let* deployments := wrap_io ("listing Deployments in namespace " ++ namespace)
                        (listDeployments (mkListOptions (Some namespace) [])) in
  match Resolve deployments personaName with
  | Err e => ierr (ErrText (AmbiguousError_text e))
  | Ok None => iok None
  | Ok (Some (d, rung)) => iok (Some (mkObservation d (PickContainer d personaName) rung (DetectOwner (Some d))))
  end.

(** ** Properties *)

Lemma elem_mid {A} (x : A) l1 l2 : x ∈ (l1 ++ x :: l2)%list.
Proof. apply elem_of_app. right. left. Qed.

Lemma bfilter_perm {A} (f : A -> bool) l l' : l ≡ₚ l' -> List.filter f l ≡ₚ List.filter f l'.
Proof.
  induction 1 as [|x l l' _ IH|x y l|l l' l'' _ IH1 _ IH2]; simpl; [done|..|by rewrite IH1].
  - destruct (f x); [by constructor|done].
  - destruct (f x), (f y); try done. constructor.
Qed.

Section resolve_props.
Context `{QuantityOps}.

Lemma resolve_by_perm ms ds ds' name : ds ≡ₚ ds' -> resolve_by ms ds name = resolve_by ms ds' name.
Proof.
  intros Hp. induction ms as [|m ms IH]; [done|]. cbn [resolve_by].
  pose proof (bfilter_perm (fun d => matches_by m d name) _ _ Hp) as Hf. revert Hf.
  destruct (List.filter _ ds) as [|d [|e l]]; intros Hf.
  - apply Permutation_nil in Hf as ->. done.
  - apply Permutation_length_1_inv in Hf. by rewrite Hf.
  - pose proof (Permutation_length Hf) as Hl. destruct (List.filter _ ds') as [|d' [|e' l']]; try done.
    do 2 f_equal. apply sort_strings_proper. by apply Permutation_map.
Qed.

(** What the rungs before the deciding one have in common: nothing matches there. *)
Definition silent (ms : list matcher) (ds : list Deployment) (name : string) : Prop :=
  forall m d, m ∈ ms -> d ∈ ds -> matches_by m d name = false.

Lemma resolve_by_spec ms ds name :
  match resolve_by ms ds name with
  | Ok None => silent ms ds name
  | Ok (Some (d, r)) => exists before m after, ms = (before ++ m :: after)%list /\ rung m = r /\ silent before ds name /\
      exists l1 l2, ds = (l1 ++ d :: l2)%list /\ matches_by m d name = true /\
        forall d', d' ∈ (l1 ++ l2)%list -> matches_by m d' name = false
  | Err e => exists before m after, ms = (before ++ m :: after)%list /\ silent before ds name /\
      (2 <= length (List.filter (fun d => matches_by m d name) ds))%nat /\ am_Rung e = rung m /\
      am_PersonaName e = name /\
      am_Candidates e = sort_strings (map dp_Name (List.filter (fun d => matches_by m d name) ds))
  end.
Proof.
  induction ms as [|m ms IH]; [by intros m d ?%not_elem_of_nil|]. cbn [resolve_by].
  destruct (List.filter _ ds) as [|d [|e l]] eqn:Hf.
  - rewrite bfilter_none in Hf.
    assert (Hs : forall before, silent before ds name -> silent (m :: before) ds name).
    { intros before Hb m' d [->|Hm]%elem_of_cons Hd; [by apply Hf|by apply Hb]. }
    destruct (resolve_by ms ds name) as [[[d r]|]|e]; [..|].
    + destruct IH as (before & m' & after & -> & Hr & Hb & Hrest). exists (m :: before), m', after. eauto.
    + by apply Hs.
    + destruct IH as (before & m' & after & -> & Hb & Hrest). exists (m :: before), m', after. eauto.
  - apply bfilter_singleton in Hf as (l1 & l2 & Hds & Hm & Hno). exists [], m, ms.
    split_and!; [done|done|by intros m' d' ?%not_elem_of_nil|]. exists l1, l2. by split_and!.
  - exists [], m, ms. rewrite Hf. split_and!; try done; [by intros m' d' ?%not_elem_of_nil|simpl; lia].
Qed.

(** Resolution never guesses and never depends on the order the API lists
    Deployments in: it names a Deployment only when the first rung that matches
    anything matches that Deployment alone, it reports nothing exactly when no
    Deployment matches at any rung, and a tie is an error naming every
    candidate of the tied rung. *)
Theorem Resolve_unambiguous (ds ds' : list Deployment) (name : string) :
  (ds ≡ₚ ds' -> Resolve ds name = Resolve ds' name) /\
  (Resolve ds name = Ok None <-> forall d, d ∈ ds -> Matches (Some d) name = false) /\
  (forall d r, Resolve ds name = Ok (Some (d, r)) ->
     exists before m after l1 l2, chain = (before ++ m :: after)%list /\ rung m = r /\ silent before ds name /\
       ds = (l1 ++ d :: l2)%list /\ matches_by m d name = true /\
       forall d', d' ∈ (l1 ++ l2)%list -> matches_by m d' name = false) /\
  (forall e, Resolve ds name = Err e -> exists m, (m ∈ chain) /\ rung m = am_Rung e /\
     (2 <= length (am_Candidates e))%nat /\
     forall n, n ∈ am_Candidates e <-> exists d, d ∈ ds /\ matches_by m d name = true /\ dp_Name d = n).
Proof.
  unfold Resolve, Matches. destruct (String.eqb_spec name "") as [->|Hne]; [by split_and!|].
  pose proof (resolve_by_spec chain ds name) as Hs. split_and!.
  - intros Hp. by apply resolve_by_perm.
  - destruct (resolve_by chain ds name) as [[[d r]|]|e]; (split; [|]); try done.
    + intros Hall. destruct Hs as (before & m & after & Hc & _ & _ & l1 & l2 & -> & Hm & _).
      specialize (Hall d (elem_mid _ _ _)). rewrite existsb_not_elem in Hall.
      by rewrite Hall in Hm by (rewrite Hc; apply elem_mid).
    + intros _ d Hd. rewrite existsb_not_elem. intros m Hm. by apply Hs.
    + intros Hall. destruct Hs as (before & m & after & Hc & _ & Hl & _).
      destruct (List.filter _ ds) as [|d l] eqn:Hf; [simpl in Hl; lia|].
      assert (Hd : d ∈ List.filter (fun d => matches_by m d name) ds) by (rewrite Hf; left).
      apply list_elem_of_In, filter_In in Hd as [Hd Hm]. specialize (Hall d (proj2 (list_elem_of_In _ _) Hd)).
      rewrite existsb_not_elem in Hall.
      by rewrite Hall in Hm by (rewrite Hc; apply elem_mid).
  - intros d r Hr. rewrite Hr in Hs. destruct Hs as (b & m & a & ? & ? & ? & l1 & l2 & ? & ? & ?). eauto 12.
  - intros e He. rewrite He in Hs. destruct Hs as (b & m & a & Hc & _ & Hl & Hru & _ & Hcand). exists m.
    split_and!; [rewrite Hc; apply elem_mid|done|rewrite Hcand, sort_strings_perm, length_map; done|].
    intros n. rewrite Hcand, sort_strings_perm, list_elem_of_fmap. setoid_rewrite list_elem_of_In at 1.
    setoid_rewrite filter_In. setoid_rewrite <- list_elem_of_In. naive_solver.
Qed.
End resolve_props.

(** *** Ownership *)

(** Everything that marks a workload as reconciled by something. *)
Definition reconciler_annotations : list string :=
  [annotationArgoCDTracking; annotationHelmReleaseName; annotationKustomizeOrigin; annotationKustomizeTransformations].
Definition reconciler_labels : list string := [labelArgoCDInstance; labelFluxKustomizeName; labelFluxHelmName].
Definition reconciler_managers : list string :=
  [managerArgoCD; managerArgoCDApp; managerFluxKustomize; managerFluxHelm; managerHelm].

(** The entry neither applies from elsewhere nor holds any container's resources. *)
Definition harmless (e : ManagedFieldsEntry) : Prop :=
  mf_Manager e = "" \/
  (to_lower (mf_Manager e) ∉ reconciler_managers) /\
  (isKnownBenignManager (mf_Manager e) = true \/
   mf_Operation e <> OpApply /\ (mf_Operation e = OpUpdate -> ownsContainerResources e = false)).

Lemma hasManager_false entries names :
  hasManager (fieldManagers entries) names = false <->
  forall e, e ∈ entries -> mf_Manager e <> "" -> to_lower (mf_Manager e) ∉ names.
Proof.
  unfold hasManager, fieldManagers. rewrite existsb_not_elem. split.
  - intros Hall e He Hne Hin. specialize (Hall _ Hin). rewrite existsb_not_elem in Hall.
    specialize (Hall (to_lower (mf_Manager e))). rewrite String.eqb_refl in Hall. discriminate Hall.
    apply list_elem_of_fmap. exists e. split; [done|]. apply list_elem_of_In, filter_In.
    split; [by apply list_elem_of_In|]. by apply negb_true_iff, String.eqb_neq.
  - intros Hall n Hn. rewrite existsb_not_elem. intros m (e & -> & He)%list_elem_of_fmap.
    apply list_elem_of_In, filter_In in He as [He Hne]. apply negb_true_iff, String.eqb_neq in Hne.
    apply String.eqb_neq. intros ->. eapply Hall; [by apply list_elem_of_In|done|done].
Qed.

Lemma foreign_entry_None e :
  foreign_entry e = None <-> mf_Manager e = "" \/ isKnownBenignManager (mf_Manager e) = true \/
    mf_Operation e <> OpApply /\ (mf_Operation e = OpUpdate -> ownsContainerResources e = false).
Proof.
  unfold foreign_entry. destruct (String.eqb_spec (mf_Manager e) ""); cbn [orb]; [naive_solver|].
  destruct (isKnownBenignManager (mf_Manager e)); [naive_solver|].
  destruct (mf_Operation e); [..|naive_solver]; [|destruct (ownsContainerResources e)]; naive_solver.
Qed.

Lemma foreignFieldOwner_None entries :
  foreignFieldOwner entries = None <-> forall e, e ∈ entries -> foreign_entry e = None.
Proof.
  unfold foreignFieldOwner. induction entries as [|e l IH]; [split; [by intros _ e ?%not_elem_of_nil|done]|].
  rewrite omap_cons. setoid_rewrite elem_of_cons. destruct (foreign_entry e) eqn:He.
  - split; [done|]. intros Hall. rewrite Hall in He by (by left). done.
  - rewrite IH. naive_solver.
Qed.

Lemma foreignFieldOwner_unknown entries o : foreignFieldOwner entries = Some o -> own_ManagedBy o = ManagedByUnknown.
Proof.
  unfold foreignFieldOwner. induction entries as [|e l IH]; [done|]. rewrite omap_cons.
  destruct (foreign_entry e) eqn:He; [|done]. intros [= ->]. unfold foreign_entry in He. by repeat case_match; simplify_eq.
Qed.

Section owner_props.
Context `{QuantityOps}.

Lemma negb_if_none {A} (b : bool) (x : A) (rest : option A) :
  (if negb b then Some x else rest) = None <-> b = true /\ rest = None.
Proof. destruct b; naive_solver. Qed.

(** A Deployment is open to patching only on positive evidence that nothing
    reconciles it: no ArgoCD, Flux, Helm or kustomize marker in its labels or
    annotations, no field manager of theirs, and no foreign field manager that
    applied it or that holds a container's resources.  Each kind of evidence
    alone, an unreadable managedFields entry included, makes it owned. *)
Theorem DetectOwner_unmanaged_iff (d : Deployment) :
  own_ManagedBy (DetectOwner (Some d)) = ManagedByUnmanaged <->
  (forall k, k ∈ reconciler_annotations -> mget (dp_Annotations d) k = "") /\
  (forall k, k ∈ reconciler_labels -> mget (dp_Labels d) k = "") /\
  equal_fold (mget (dp_Labels d) LabelManagedBy) "helm" = false /\
  isKustomizeManagedBy (mget (dp_Labels d) LabelManagedBy) = false /\
  forall e, e ∈ dp_ManagedFields d -> harmless e.
Proof.
  unfold DetectOwner. set (labels := dp_Labels d). set (ann := dp_Annotations d). set (mf := dp_ManagedFields d).
  assert (Hharm : (forall e, e ∈ mf -> harmless e) <->
    hasManager (fieldManagers mf) [managerArgoCD; managerArgoCDApp] = false /\
    hasManager (fieldManagers mf) [managerFluxKustomize; managerFluxHelm] = false /\
    hasManager (fieldManagers mf) [managerHelm] = false /\ foreignFieldOwner mf = None).
  { rewrite !hasManager_false, foreignFieldOwner_None. setoid_rewrite foreign_entry_None.
    unfold harmless, reconciler_managers. repeat setoid_rewrite not_elem_of_cons.
    split; [intros Hall; split_and!|intros (H1 & H2 & H3 & H4)]; intros e He.
    - intros Hne. destruct (Hall e He) as [|[Hr _]]; naive_solver.
    - intros Hne. destruct (Hall e He) as [|[Hr _]]; naive_solver.
    - intros Hne. destruct (Hall e He) as [|[Hr _]]; naive_solver.
    - destruct (Hall e He) as [|[_ Hr]]; naive_solver.
    - destruct (decide (mf_Manager e = "")) as [|Hne]; [by left|right]. specialize (H1 e He Hne). specialize (H2 e He Hne).
      specialize (H3 e He Hne). specialize (H4 e He). naive_solver. }
  assert (Hann : (forall k, k ∈ reconciler_annotations -> mget ann k = "") <->
    mget ann annotationArgoCDTracking = "" /\ mget ann annotationHelmReleaseName = "" /\
    mget ann annotationKustomizeOrigin = "" /\ mget ann annotationKustomizeTransformations = "").
  { unfold reconciler_annotations. repeat setoid_rewrite elem_of_cons. setoid_rewrite elem_of_nil. naive_solver. }
  assert (Hlab : (forall k, k ∈ reconciler_labels -> mget labels k = "") <->
    mget labels labelArgoCDInstance = "" /\ mget labels labelFluxKustomizeName = "" /\ mget labels labelFluxHelmName = "").
  { unfold reconciler_labels. repeat setoid_rewrite elem_of_cons. setoid_rewrite elem_of_nil. naive_solver. }
  rewrite Hharm, Hann, Hlab. clear Hharm Hann Hlab. cbn [first_some].
  unfold detectArgoCD, detectFlux, detectHelm, detectKustomize. cbn [existsb].
  destruct (String.eqb_spec (mget ann annotationArgoCDTracking) ""); cbn [negb]; [|naive_solver].
  destruct (String.eqb_spec (mget labels labelArgoCDInstance) ""); cbn [negb]; [|naive_solver].
  destruct (hasManager (fieldManagers mf) [managerArgoCD; managerArgoCDApp]); [naive_solver|].
  destruct (String.eqb_spec (mget labels labelFluxKustomizeName) ""); cbn [negb]; [|naive_solver].
  destruct (String.eqb_spec (mget labels labelFluxHelmName) ""); cbn [negb]; [|naive_solver].
  destruct (hasManager (fieldManagers mf) [managerFluxKustomize; managerFluxHelm]); [naive_solver|].
  destruct (String.eqb_spec (mget ann annotationHelmReleaseName) ""); cbn [negb]; [|naive_solver].
  destruct (equal_fold (mget labels LabelManagedBy) "helm"); [naive_solver|].
  destruct (hasManager (fieldManagers mf) [managerHelm]); [naive_solver|].
  destruct (isKustomizeManagedBy (mget labels LabelManagedBy)); cbn [orb]; [naive_solver|].
  destruct (String.eqb_spec (mget ann annotationKustomizeOrigin) ""); cbn [negb orb]; [|naive_solver].
  destruct (String.eqb_spec (mget ann annotationKustomizeTransformations) ""); cbn [negb orb]; [|naive_solver].
  destruct (foreignFieldOwner mf) as [o|] eqn:Hf; [|naive_solver].
  apply foreignFieldOwner_unknown in Hf. rewrite Hf. naive_solver.
Qed.

(** The record of an observation is owned unless the Deployment was positively
    found unmanaged; with no observation it is owned. *)
Lemma Ref_IsOwned (o : option Observation) (now : time) :
  WorkloadRef_IsOwned (Some (Ref o now)) =
  match o with None => true | Some o => Ownership_IsOwned (ob_Ownership o) end.
Proof. destruct o as [o|]; [|done]. unfold Ref. by destruct (ob_Container o). Qed.

Lemma observedResources_spec (c : Container) :
  let limits := match observedResources c with Some r => or_Limits r | None => None end in
  let requests := match observedResources c with Some r => or_Requests r | None => None end in
  limits = resourceValues (ct_Limits c) /\ requests = resourceValues (ct_Requests c).
Proof. unfold observedResources. by destruct (resourceValues (ct_Limits c)), (resourceValues (ct_Requests c)). Qed.
End owner_props.

(** What [Observe] records is what the cluster holds: it returns an
    observation exactly when the Deployments of the namespace could be listed
    and one of them is the unambiguous match, the record names that Deployment
    and its picked container with the resources that container sets now, and it
    counts as owned unless the Deployment is positively unmanaged; every other
    outcome yields the owned placeholder or an error, never a guess. *)
Theorem Observe_grounded `{Client W} (namespace personaName : string) (now : time) (w : W) :
  match (Observe namespace personaName w).1 with
  | Err _ => True
  | Ok None => WorkloadRef_IsOwned (Some (Ref None now)) = true
  | Ok (Some o) =>
      exists ds r, (listDeployments (mkListOptions (Some namespace) []) w).1 = Ok ds /\
        Resolve ds personaName = Ok (Some (ob_Deployment o, r)) /\ ob_MatchedBy o = r /\
        let ref := Ref (Some o) now in
        wr_Name ref = dp_Name (ob_Deployment o) /\ wr_Namespace ref = dp_Namespace (ob_Deployment o) /\
        (forall c, ob_Container o = Some c -> (c ∈ dp_Containers (ob_Deployment o)) /\ wr_Container ref = ct_Name c /\
           wr_ObservedResources ref = observedResources c) /\
        (ob_Container o = None -> dp_Containers (ob_Deployment o) = []) /\
        (WorkloadRef_IsOwned (Some ref) = false <->
         own_ManagedBy (DetectOwner (Some (ob_Deployment o))) = ManagedByUnmanaged)
  end.
Proof.
  unfold Observe. destruct (_ || _); [done|]. unfold iobind, wrap_io.
  destruct (listDeployments _ w) as [[ds|e] w1]; cbn [wrap_err map_err fst]; [|done].
  destruct (Resolve ds personaName) as [[[d r]|]|e] eqn:Hr; cbn [iok ierr fst]; try done.
  exists ds, r. cbn [ob_Deployment ob_MatchedBy ob_Container ob_Ownership]. cbv zeta. rewrite Ref_IsOwned.
  unfold Ref. cbn [ob_Deployment ob_MatchedBy ob_Container ob_Ownership]. split_and!; try done.
  - by destruct (PickContainer d personaName).
  - by destruct (PickContainer d personaName).
  - intros c Hc. rewrite Hc. split_and!; try done. unfold PickContainer in Hc.
    destruct (find_first _ (dp_Containers d)) eqn:Hf; [apply find_first_Some in Hf as [? _]; by simplify_eq|].
    destruct (dp_Containers d); [done|]. simplify_eq/=. left.
  - unfold PickContainer. destruct (dp_Containers d) as [|c l]; [done|]. simpl. by repeat case_match.
  - unfold Ownership_IsOwned. rewrite negb_false_iff. by rewrite String.eqb_eq.
Qed.

(** ** Witnesses *)

#[local] Existing Instance int_quantity.

Definition ex_deployment (name : string) (labels : gmap string string) : Deployment :=
  mkDeployment (mkMeta name "shop" labels 0%Z None 0) ∅ [] (Some 1%Z) None
    [mkContainer "app" "api:1" {[ResourceMemory := 100%Z]} ∅ None None None] 1%Z 1%Z [] [] None.
Definition ex_shop : Mem :=
  mkMem _ 0%Z ∅ ∅ ∅ [] {[mkKey "api" "shop" := ex_deployment "api" ∅; mkKey "web" "shop" := ex_deployment "web" ∅]} [] [] [] None.

Example Observe_finds_api :
  match (Observe "shop" "api" ex_shop).1 with
  | Ok (Some o) => wr_Name (Ref (Some o) 0%Z) = "api" /\ WorkloadRef_IsOwned (Some (Ref (Some o) 0%Z)) = false
  | _ => False
  end.
Proof. vm_compute. split; reflexivity. Qed.
