(* ===== verification/Recovery.v ===== *)
(** * When an incident may close by itself (internal/controller/incident_recovery.go).

    Silence is not recovery: pods have to be seen Ready and stable, or the
    workload has to be seen gone or scaled to zero. *)

From S2P Require Import Prelude GoString GoNum Json ApiTypes KubeTypes Client Signals Correlator Workload.
From Stdlib Require Import String Ascii.
From stdpp Require Import strings.
Open Scope string_scope.

Definition RecoveryStabilityWindow : duration := (6 * minute)%Z.
Definition ResolutionActionPrefix : string := "auto-resolved".

Inductive recoveryVerdict := verdictHealthy | verdictUnknown | verdictBroken.
#[export] Instance recoveryVerdict_eq_dec : EqDecision recoveryVerdict.
Proof. solve_decision. Defined.

Record recoveryEvidence := mkEvidence { re_verdict : recoveryVerdict; re_Reason : string }.
Definition Recovered (e : recoveryEvidence) : bool := bool_decide (re_verdict e = verdictHealthy).
Definition is_broken (e : recoveryEvidence) : bool := bool_decide (re_verdict e = verdictBroken).
Definition healthy (reason : string) : recoveryEvidence := mkEvidence verdictHealthy reason.
Definition unknown (reason : string) : recoveryEvidence := mkEvidence verdictUnknown reason.
Definition broken (reason : string) : recoveryEvidence := mkEvidence verdictBroken reason.

Definition resolutionAction (evidence : recoveryEvidence) : string :=
  ResolutionActionPrefix ++ ": " ++ re_Reason evidence.

Definition incidentNamespace (im : IncidentMemory) : string :=
  if negb (pr_Namespace (im_PersonaRef (im_Spec im)) =? "") then pr_Namespace (im_PersonaRef (im_Spec im))
  else im_Namespace im.
Definition incidentWorkloadName (im : IncidentMemory) : string := pr_Name (im_PersonaRef (im_Spec im)).

Section pods.
Context `{QuantityOps}.

Definition podReadyCondition (pod : Pod) : option PodCondition :=
  find_first (fun c => (pc_Type c =? PodReady)) (pod_Conditions pod).

(** The last restart, if the container has one on record. *)
Definition last_restart (cs : ContainerStatus) : option Terminated :=
  match cst_Terminated (cs_LastTerminationState cs) with
  | Some last => if t_is_zero (tm_FinishedAt last) then None else Some last
  | None => None
  end.

Definition containerRecoveryEvidence (podName : string) (cs : ContainerStatus) (now : time) : recoveryEvidence :=
  match cst_Waiting (cs_State cs) with
  | Some waiting => broken ("container " ++ cs_Name cs ++ " in pod " ++ podName ++ " is waiting: " ++ wt_Reason waiting)
  | None =>
      if negb (cs_Ready cs) && negb (match cst_Terminated (cs_State cs) with Some _ => true | None => false end)
      then broken ("container " ++ cs_Name cs ++ " in pod " ++ podName ++ " is not ready")
      else match last_restart cs with
      | None => healthy "container has not restarted"
      | Some last =>
          let since := t_sub now (tm_FinishedAt last) in
          if (since <? RecoveryStabilityWindow)%Z
          then broken ("container " ++ cs_Name cs ++ " in pod " ++ podName ++ " last restarted "
                 ++ fmt_duration (d_round since second) ++ " ago (" ++ tm_Reason last ++ "), inside the "
                 ++ fmt_duration RecoveryStabilityWindow ++ " stability window")
          else healthy "container has been up for the stability window"
      end
  end.

Definition podRecoveryEvidence (pod : Pod) (now : time) : recoveryEvidence :=
  match m_DeletionTimestamp (pod_Meta pod) with
  | Some _ => unknown ("pod " ++ pod_Name pod ++ " is terminating")
  | None =>
      if (pod_Phase pod =? PodSucceeded) then unknown ("pod " ++ pod_Name pod ++ " completed")
      else if (pod_Phase pod =? PodFailed)
      then broken ("pod " ++ pod_Name pod ++ " is in phase Failed (" ++ pod_Reason pod ++ ")")
      else match podReadyCondition pod with
      | None => broken ("pod " ++ pod_Name pod ++ " is not Ready")
      | Some ready =>
          if negb (pc_Status ready =? ConditionTrue) then broken ("pod " ++ pod_Name pod ++ " is not Ready") else
          let stableFor := t_sub now (pc_LastTransitionTime ready) in
          if (stableFor <? RecoveryStabilityWindow)%Z
          then broken ("pod " ++ pod_Name pod ++ " has only been Ready for " ++ fmt_duration (d_round stableFor second)
                 ++ ", and recovery needs " ++ fmt_duration RecoveryStabilityWindow)
          else match find_first is_broken (map (fun cs => containerRecoveryEvidence (pod_Name pod) cs now)
                       (pod_ContainerStatuses pod ++ pod_InitContainerStatuses pod)%list) with
               | Some evidence => evidence
               | None => healthy ("pod " ++ pod_Name pod ++ " is Ready and stable")
               end
      end
  end.

(** The pods the incident named, plus those its workload claims by name. *)
Definition affected_pods (im : IncidentMemory) (namespace : string) : list string :=
  map rr_Name (List.filter (fun ref => (rr_Kind ref =? "Pod")
      && ((rr_Namespace ref =? "") || (rr_Namespace ref =? namespace)))
    (di_AffectedResources (im_Detection (im_Spec im)))).
Definition workload_pod (im : IncidentMemory) (namespace : string) (pod : Pod) : bool :=
  existsb (String.eqb (pod_Name pod)) (affected_pods im namespace)
  || NameClaimedByPersona (pod_Name pod) (incidentWorkloadName im).
End pods.

Section recovery.
Context `{Client W}.

Definition workloadPods (im : IncidentMemory) (namespace : string) : io W (result error (list Pod)) :=
  let* pods := wrap_io ("listing pods in " ++ namespace) (listPods (mkListOptions (Some namespace) [])) in
  iok (List.filter (workload_pod im namespace) pods).

(** What "nothing was observed working" means: gone, scaled to zero, or down. *)
Definition absent_evidence (deployments : list Deployment) (im : IncidentMemory) : recoveryEvidence :=
  match Resolve deployments (incidentWorkloadName im) with
  | Err e => broken ("no pods were found and the workload is ambiguous: " ++ AmbiguousError_text e)
  | Ok None => healthy "the workload has no pods and no Deployment: it is no longer running"
  | Ok (Some (deploy, _)) =>
      let desired := default 1%Z (dp_Replicas deploy) in
      if (0 <? desired)%Z
      then broken ("Deployment " ++ dp_Name deploy ++ " wants " ++ fmt_d desired ++ " running and none are")
      else healthy ("Deployment " ++ dp_Name deploy ++ " is scaled to zero")
  end.

Definition verifyAbsentWorkload (im : IncidentMemory) (namespace : string) : io W recoveryEvidence :=
  let! deployments := listDeployments (mkListOptions (Some namespace) []) in
  mret match deployments with
       | Err e => broken ("no pods were found and the Deployments could not be listed: " ++ err_string e)
       | Ok ds => absent_evidence ds im
       end.

Definition verifyRecovery (im : IncidentMemory) (now : time) : io W recoveryEvidence :=
  let namespace := incidentNamespace im in
  if (namespace =? "") then mret (broken "the incident names no namespace, so its workload cannot be inspected") else
  let! pods := workloadPods im namespace in
  match pods with
  | Err e => mret (broken ("the workload's pods could not be listed: " ++ err_string e))
  | Ok pods =>
      let evidence := map (fun pod => podRecoveryEvidence pod now) pods in
      match find_first is_broken evidence with
      | Some e => mret e
      | None =>
          let confirmed := length (List.filter Recovered evidence) in
          if (confirmed =? 0)%nat then verifyAbsentWorkload im namespace
          else mret (healthy (fmt_d (Z.of_nat confirmed) ++ " pod(s) Ready with no restarts for "
                      ++ fmt_duration RecoveryStabilityWindow))
      end
  end.
End recovery.

(** ** Properties *)

Section recovery_props.
Context `{QuantityOps}.

(** A container that neither waits nor restarted inside the window. *)
Definition container_steady (cs : ContainerStatus) (now : time) : Prop :=
  cst_Waiting (cs_State cs) = None /\ (cs_Ready cs = true \/ is_Some (cst_Terminated (cs_State cs))) /\
  forall last, cst_Terminated (cs_LastTerminationState cs) = Some last -> t_is_zero (tm_FinishedAt last) = false ->
    (RecoveryStabilityWindow <= t_sub now (tm_FinishedAt last))%Z.

(** A pod observed working: live, Ready for the whole window, every container steady. *)
Definition pod_steady (pod : Pod) (now : time) : Prop :=
  m_DeletionTimestamp (pod_Meta pod) = None /\ pod_Phase pod <> PodSucceeded /\ pod_Phase pod <> PodFailed /\
  (exists ready, podReadyCondition pod = Some ready /\ pc_Status ready = ConditionTrue /\
     (RecoveryStabilityWindow <= t_sub now (pc_LastTransitionTime ready))%Z) /\
  forall cs, cs ∈ (pod_ContainerStatuses pod ++ pod_InitContainerStatuses pod)%list -> container_steady cs now.

(** A pod that says nothing: on its way out, or run to completion. *)
Definition pod_silent (pod : Pod) : Prop :=
  is_Some (m_DeletionTimestamp (pod_Meta pod)) \/
  m_DeletionTimestamp (pod_Meta pod) = None /\ pod_Phase pod = PodSucceeded.

Lemma container_not_broken name cs now :
  is_broken (containerRecoveryEvidence name cs now) = false <-> container_steady cs now.
Proof.
  unfold containerRecoveryEvidence, container_steady, last_restart.
  destruct (cst_Waiting (cs_State cs)); [split; [done|by intros [[=] _]]|].
  destruct (cst_Terminated (cs_State cs)) as [t|], (cs_Ready cs); cbn [negb andb];
    try (split; [done|by intros (_ & [[=]|[? [=]]] & _)]);
    (destruct (cst_Terminated (cs_LastTerminationState cs)) as [last|];
      [|split; [intros _; split_and!; eauto; by intros ? [=]|done]]);
    (destruct (t_is_zero (tm_FinishedAt last)) eqn:Hz;
      [split; [intros _; split_and!; eauto; intros ? [= <-]; congruence|done]|]);
    (destruct (Z.ltb_spec (t_sub now (tm_FinishedAt last)) RecoveryStabilityWindow) as [Hlt|Hge]; cbn;
      [split; [done|intros (_ & _ & Hall); specialize (Hall last eq_refl Hz); lia]
      |split; [intros _; split_and!; eauto; by intros ? [= <-]|done]]).
Qed.

Lemma podRecoveryEvidence_verdict (pod : Pod) (now : time) :
  (re_verdict (podRecoveryEvidence pod now) = verdictHealthy <-> pod_steady pod now) /\
  (re_verdict (podRecoveryEvidence pod now) = verdictUnknown <-> pod_silent pod).
Proof.
  unfold podRecoveryEvidence, pod_steady, pod_silent.
  destruct (m_DeletionTimestamp (pod_Meta pod)); [split; (split; [|]); naive_solver|].
  destruct (String.eqb_spec (pod_Phase pod) PodSucceeded) as [Hs|Hs]; [split; (split; [|]); naive_solver|].
  destruct (String.eqb_spec (pod_Phase pod) PodFailed); [split; (split; [|]); naive_solver|].
  destruct (podReadyCondition pod) as [ready|]; [|split; (split; [|]); naive_solver].
  destruct (String.eqb_spec (pc_Status ready) ConditionTrue) as [Ht|Ht]; cbn [negb];
    [|split; (split; [|]); naive_solver].
  destruct (Z.ltb_spec (t_sub now (pc_LastTransitionTime ready)) RecoveryStabilityWindow) as [Hlt|Hge].
  { split; (split; [done|]); [intros (_ & _ & _ & (r & [= <-] & _ & ?) & _); lia|naive_solver]. }
  destruct (find_first is_broken _) as [e|] eqn:Hf.
  - apply find_first_Some in Hf as [Hin Hb]. apply list_elem_of_fmap in Hin as (cs & -> & Hcs).
    pose proof Hb as Hb'. unfold is_broken in Hb. apply bool_decide_eq_true in Hb. rewrite Hb.
    split; (split; [done|]); [|naive_solver]. intros (_ & _ & _ & _ & Hall). apply Hall in Hcs.
    apply container_not_broken with (name := pod_Name pod) in Hcs. congruence.
  - rewrite find_first_None in Hf. cbn. split; (split; [|]); try naive_solver. intros _. split_and!; try done; [eauto|].
    intros cs Hcs. apply (container_not_broken (pod_Name pod)), Hf, list_elem_of_fmap. eauto.
Qed.
End recovery_props.

(** The Deployments show the workload gone, or wanting nothing. *)
Definition workload_absent (im : IncidentMemory) `{QuantityOps} (ds : list Deployment) : Prop :=
  Resolve ds (incidentWorkloadName im) = Ok None \/
  exists d r, Resolve ds (incidentWorkloadName im) = Ok (Some (d, r)) /\ (default 1%Z (dp_Replicas d) <= 0)%Z.

Lemma verifyAbsentWorkload_recovered `{ClientReads W} (im : IncidentMemory) (namespace : string) (w : W) :
  Recovered (verifyAbsentWorkload im namespace w).1 = true <->
  exists ds, (listDeployments (mkListOptions (Some namespace) []) w).1 = Ok ds /\ workload_absent im ds.
Proof.
  unfold verifyAbsentWorkload, mbind, io_bind. rewrite (read_pair (listDeployments _) w (listDeployments_reads _ _)).
  destruct (listDeployments _ w).1 as [ds|e]; cbn [fst mret io_ret]; [|split; [done|by intros (? & [=] & _)]].
  unfold absent_evidence, workload_absent. destruct (Resolve ds (incidentWorkloadName im)) as [[[d r]|]|e] eqn:Hr.
  - destruct (Z.ltb_spec 0 (default 1%Z (dp_Replicas d))) as [Hlt|Hge]; cbn.
    + split; [done|]. intros (ds' & [= <-] & Hd). rewrite Hr in Hd. destruct Hd as [[=]|(d' & r' & [= <- <-] & Hle)]. lia.
    + split; [|done]. intros _. exists ds. rewrite Hr. split; [done|]. right. eauto.
  - cbn. split; [|done]. intros _. exists ds. rewrite Hr. split; [done|by left].
  - cbn. split; [done|]. intros (ds' & [= <-] & Hd). rewrite Hr in Hd. naive_solver.
Qed.

(** Looking does not touch the cluster. *)
Lemma verifyRecovery_reads `{ClientReads W} (im : IncidentMemory) (now : time) (w : W) : (verifyRecovery im now w).2 = w.
Proof.
  unfold verifyRecovery. destruct (_ =? ""); [done|].
  unfold workloadPods, verifyAbsentWorkload, mbind, io_bind, iobind, wrap_io, iok.
  rewrite (read_pair (listPods _) w (listPods_reads _ _)).
  destruct (listPods _ w).1 as [all|e]; cbn [wrap_err map_err]; [|done].
  destruct (find_first is_broken _); [done|]. destruct (_ =? 0)%nat; [|done].
  by rewrite (read_pair (listDeployments _) w (listDeployments_reads _ _)).
Qed.

(** C10. An incident closes only on something observed.  [verifyRecovery] answers
    "recovered" exactly when its namespace is known, its pods could be listed,
    and either some of them is seen live, Ready and restart-free for the whole
    stability window and every other is so too or says nothing, or none says
    anything and the Deployments, also listed, show the workload gone or scaled
    to zero.  Any read error, any restart inside the window and any pod not yet
    stable keeps the incident open. *)
Theorem verifyRecovery_recovered_iff `{ClientReads W} (im : IncidentMemory) (now : time) (w : W) :
  Recovered (verifyRecovery im now w).1 = true <->
  incidentNamespace im <> "" /\
  exists all, (listPods (mkListOptions (Some (incidentNamespace im)) []) w).1 = Ok all /\
    let pods := List.filter (workload_pod im (incidentNamespace im)) all in
    (forall pod, pod ∈ pods -> pod_steady pod now \/ pod_silent pod) /\
    ((exists pod, pod ∈ pods /\ pod_steady pod now) \/
     (forall pod, pod ∈ pods -> pod_silent pod) /\
     exists ds, (listDeployments (mkListOptions (Some (incidentNamespace im)) []) w).1 = Ok ds /\
       workload_absent im ds).
Proof.
  unfold verifyRecovery. destruct (String.eqb_spec (incidentNamespace im) "") as [He|He].
  { rewrite He. cbn. naive_solver. }
  unfold workloadPods, mbind, io_bind, iobind, wrap_io, iok.
  rewrite (read_pair (listPods _) w (listPods_reads _ _)).
  destruct (listPods _ w).1 as [all|e]; cbn [wrap_err map_err];
    [|split; [done|by intros (_ & ? & [=] & _)]].
  set (pods := List.filter _ all). set (ev := fun pod => podRecoveryEvidence pod now).
  assert (Hrec : forall pod, Recovered (ev pod) = true <-> pod_steady pod now).
  { intros pod. unfold Recovered. rewrite bool_decide_eq_true. apply podRecoveryEvidence_verdict. }
  assert (Hsil : forall pod, re_verdict (ev pod) = verdictUnknown <-> pod_silent pod)
    by (intros pod; apply podRecoveryEvidence_verdict).
  assert (Hbr : forall pod, is_broken (ev pod) = false <-> pod_steady pod now \/ pod_silent pod).
  { intros pod. rewrite <- Hrec, <- Hsil. unfold is_broken, Recovered. rewrite bool_decide_eq_false, bool_decide_eq_true.
    destruct (re_verdict (ev pod)); naive_solver. }
  fold ev. destruct (find_first is_broken (map ev pods)) as [e|] eqn:Hf.
  { apply find_first_Some in Hf as [(pod & -> & Hpod)%list_elem_of_fmap Hb]. split.
    - cbn. unfold Recovered, is_broken in *. rewrite !bool_decide_eq_true in *. congruence.
    - intros (_ & all' & [= <-] & Hall & _). apply Hall, Hbr in Hpod. congruence. }
  rewrite find_first_None in Hf. assert (Hall : forall pod, pod ∈ pods -> pod_steady pod now \/ pod_silent pod).
  { intros pod Hpod. apply Hbr, Hf, list_elem_of_fmap. eauto. }
  destruct (List.filter Recovered (map ev pods)) as [|e l] eqn:Hc; cbn [length Nat.eqb].
  - rewrite bfilter_none in Hc. assert (Hno : forall pod, pod ∈ pods -> ~ pod_steady pod now).
    { intros pod Hpod Hs. apply Hrec in Hs. rewrite Hc in Hs; [done|]. apply list_elem_of_fmap. eauto. }
    assert (Hquiet : forall pod, pod ∈ pods -> pod_silent pod).
    { intros pod Hpod. destruct (Hall pod Hpod); [by destruct (Hno pod)|done]. }
    rewrite verifyAbsentWorkload_recovered. split.
    + intros Hab. split; [done|]. exists all. split_and!; [done..|]. by right.
    + intros (_ & all' & [= <-] & _ & [(pod & Hpod & Hs)|(_ & Hd)]); [by destruct (Hno pod Hpod)|done].
  - cbn. split; [|done]. intros _. split; [done|]. exists all. split_and!; [done..|]. left.
    assert (Hin : e ∈ List.filter Recovered (map ev pods)) by (rewrite Hc; left).
    apply list_elem_of_In, filter_In in Hin as [Hin He']. apply list_elem_of_In, list_elem_of_fmap in Hin as (pod & -> & Hpod).
    exists pod. split; [done|]. by apply Hrec.
Qed.

(** ** Witnesses *)

#[local] Existing Instance int_quantity.

Definition ex_incident (name persona ns phase : string) (lastSeen : time) : IncidentMemory :=
  mkIM (mkMeta name ns {["dorgu.io/phase" := phase]} 0%Z None 0)
    (mkIMSpec (mkPersonaRef "ApplicationPersona" persona ns) "persona" "health" "critical"
       (mkDetectionInfo "OOMKilled" "rule-based" lastSeen lastSeen []) None [] None)
    (mkIMStatus phase 1 None []).
Definition ex_ready_pod (name : string) (since : time) : Pod :=
  mkPod (mkMeta name "shop" ∅ 0%Z None 0) [] "node-1" [] [] "Running" "" "" [mkPodCondition "Ready" "True" since] [] [] "".
Definition ex_recovering (since : time) : Mem :=
  mkMem _ (60 * minute)%Z ∅ ∅ ∅ [] ∅ [ex_ready_pod "api-1" since] [] [] None.

(** Ready for ten minutes closes; Ready for two does not. *)
Lemma verifyRecovery_recovered_iff_witness :
  let im := ex_incident "im" "api" "shop" "Detected" 0%Z in
  Recovered (verifyRecovery im (60 * minute)%Z (ex_recovering (50 * minute)%Z)).1 = true /\
  Recovered (verifyRecovery im (60 * minute)%Z (ex_recovering (58 * minute)%Z)).1 = false.
Proof.
  intros im. split; [|vm_compute; reflexivity].
  assert (Hs : pod_steady (ex_ready_pod "api-1" (50 * minute)%Z) (60 * minute)%Z).
  { split; [reflexivity|]. split; [discriminate|]. split; [discriminate|]. split.
    - eexists. split; [reflexivity|]. split; [reflexivity|]. vm_compute. discriminate.
    - intros cs []%not_elem_of_nil. }
  apply verifyRecovery_recovered_iff. split; [discriminate|]. eexists. split; [reflexivity|]. split.
  - intros pod Hpod. left. apply list_elem_of_singleton in Hpod as ->. exact Hs.
  - left. exists (ex_ready_pod "api-1" (50 * minute)%Z). split; [left|exact Hs].
Defined.
