(* ===== verification/IncidentController.v ===== *)
(** * The incident controller (internal/controller/incident_controller.go): labels,
    conditions, and the persona's incident counters. *)

From S2P Require Import Prelude GoString GoNum Json ApiTypes KubeTypes Client Retry RemediationController.
From Stdlib Require Import String Ascii.
From stdpp Require Import strings.
Open Scope string_scope.

Definition ConditionDetected : string := "Detected".
Definition ConditionResolved : string := "Resolved".
Definition ConditionRecurring : string := "Recurring".
Definition LabelPersonaKind : string := "dorgu.io/persona-kind".
Definition LabelPersonaName : string := "dorgu.io/persona-name".
Definition LabelPersonaNamespace : string := "dorgu.io/persona-namespace".
Definition LabelCategory : string := "dorgu.io/category".
Definition LabelSeverity : string := "dorgu.io/severity".
Definition LabelSignal : string := "dorgu.io/signal".
Definition LabelAttribution : string := "dorgu.io/attribution".
Definition AttributionPersona : string := "persona".
Definition AttributionUnattributed : string := "unattributed".
Definition PhaseDetected : string := "Detected".
Definition PhaseInvestigating : string := "Investigating".

Definition im_Labels (im : IncidentMemory) : gmap string string := m_Labels (im_Meta im).
Definition im_Conditions (im : IncidentMemory) : list Condition := ims_Conditions (im_Status im).
Definition set_labels (l : gmap string string) (im : IncidentMemory) : IncidentMemory :=
  let m := im_Meta im in
  mkIM (mkMeta (m_Name m) (m_Namespace m) l (m_CreationTimestamp m) (m_DeletionTimestamp m) (m_ResourceVersion m))
    (im_Spec im) (im_Status im).
Definition im_set_conditions (cs : list Condition) (im : IncidentMemory) : IncidentMemory :=
  let s := im_Status im in
  mkIM (im_Meta im) (im_Spec im) (mkIMStatus (ims_Phase s) (ims_OccurrenceCount s) (ims_LastOccurrence s) cs).

#[export] Instance Condition_eq_dec : EqDecision Condition.
Proof. solve_decision. Defined.

(** ** Labels *)

Definition expected_labels (im : IncidentMemory) : list (string * string) :=
  let spec := im_Spec im in
  [ (LabelPersonaKind, pr_Kind (im_PersonaRef spec)); (LabelPersonaName, pr_Name (im_PersonaRef spec));
    (LabelPersonaNamespace, pr_Namespace (im_PersonaRef spec)); (LabelCategory, im_Category spec);
    (LabelSeverity, im_Severity spec); (LabelSignal, di_Signal (im_Detection spec)) ]
  ++ (if (im_Attribution spec =? "") then [] else [(LabelAttribution, im_Attribution spec)])
  ++ (if (im_Phase im =? "") then [] else [(LabelPhase, im_Phase im)]).

(** One turn of the loop: an absent label reads as the empty string. *)
Definition ensure_label (st : gmap string string * bool) (kv : string * string) : gmap string string * bool :=
  if (mget st.1 kv.1 =? kv.2) then st else (<[kv.1 := kv.2]> st.1, true).

(** [ensureLabels]: the incident with its labels, and whether any changed. *)
Definition ensureLabels (im : IncidentMemory) : IncidentMemory * bool :=
  let '(labels, changed) := foldl ensure_label (im_Labels im, false) (expected_labels im) in
  (set_labels labels im, changed).

(** ** Conditions *)

Definition active_phase (phase : string) : bool := (phase =? PhaseDetected) || (phase =? PhaseInvestigating).

(** Status, reason and message of the three conditions. *)
Definition detected_condition (im : IncidentMemory) : string * string * string :=
  if active_phase (im_Phase im)
  then (ConditionTrue, "SignalActive", "Incident detected: " ++ di_Signal (im_Detection (im_Spec im)))
  else (ConditionFalse, "NotDetected", "Incident is not in detected state").
Definition resolved_condition (im : IncidentMemory) : string * string * string :=
  if (im_Phase im =? PhaseResolved) then (ConditionTrue, "SignalCleared", "Incident has been resolved")
  else (ConditionFalse, "NotResolved", "Incident is not resolved").
Definition recurring_condition (im : IncidentMemory) : string * string * string :=
  if (1 <? ims_OccurrenceCount (im_Status im))%Z
  then (ConditionTrue, "MultipleOccurrences",
        "Incident has occurred " ++ fmt_d (ims_OccurrenceCount (im_Status im)) ++ " times")
  else (ConditionFalse, "FirstOccurrence", "This is the first occurrence").

Definition set_triple (now : time) (condType : string) (c : string * string * string) (cs : list Condition)
  : list Condition := let '(status, reason, message) := c in setCondition now condType status reason message cs.

Definition conditions_at (t1 t2 t3 : time) (im : IncidentMemory) : list Condition :=
  set_triple t3 ConditionRecurring (recurring_condition im)
    (set_triple t2 ConditionResolved (resolved_condition im)
       (set_triple t1 ConditionDetected (detected_condition im) (im_Conditions im))).

(** ** The persona's counters *)

Definition ap_set_status (s : ApplicationPersonaStatus) (p : ApplicationPersona) : ApplicationPersona :=
  mkAP (ap_Meta p) (ap_Spec p) s (ap_Annotations p).
Definition set_incident_counts (active : Z) (latest : option time) (s : ApplicationPersonaStatus) : ApplicationPersonaStatus :=
  mkAPStatus (apst_Deployments s) active latest (apst_Phase s) (apst_LastUpdated s) (apst_Health s) (apst_Validation s)
    (apst_Learned s) (apst_ArgoCD s) (apst_Conditions s).

Definition count_active (incidents : list IncidentMemory) : Z :=
  foldl (fun n incident => if (im_Phase incident =? PhaseResolved) then n else wrap32 (n + 1)) 0%Z incidents.

Definition later (latest : option time) (incident : IncidentMemory) : option time :=
  match ims_LastOccurrence (im_Status incident) with
  | None => latest
  | Some t => match latest with
              | None => Some t
              | Some l => if t_after t l then Some t else latest
              end
  end.
Definition latest_occurrence (incidents : list IncidentMemory) : option time := foldl later None incidents.

Definition timeEqual (a b : option time) : bool :=
  match a, b with
  | None, None => true
  | Some a, Some b => (a =? b)%Z
  | _, _ => false
  end.

Section incident_controller.
Context `{Client W} `{Retry W}.

Definition updateConditions (im : IncidentMemory) : io W IncidentMemory :=
  let! t1 := clock in
  let! t2 := clock in
  let! t3 := clock in
  mret (im_set_conditions (conditions_at t1 t2 t3 im) im).

Definition syncPersonaStatus (im : IncidentMemory) : io W (result error unit) :=
  let ref := im_PersonaRef (im_Spec im) in
  let* incidents := wrap_io "listing incidents" (listIncidents (mkListOptions (Some (im_Namespace im))
      [(LabelPersonaKind, "ApplicationPersona"); (LabelPersonaName, pr_Name ref)])) in
  let activeCount := count_active incidents in
  let latestTime := latest_occurrence incidents in
  RetryOnConflict
    (let* current := getPersona (mkKey (pr_Name ref) (pr_Namespace ref)) in
     if (apst_ActiveIncidents (ap_Status current) =? activeCount)%Z
        && timeEqual (apst_LastIncidentTime (ap_Status current)) latestTime
     then iok tt
     else let* _ := updateStatusPersona (ap_set_status (set_incident_counts activeCount latestTime (ap_Status current)) current) in iok tt).

(** The condition write: re-fetched and re-derived on each attempt. *)
Definition write_conditions (key : ObjectKey) : io W (result error IncidentMemory) :=
  RetryOnConflict
    (let* fresh := getIncident key in
     let! updated := updateConditions fresh in
     updateStatusIncident updated).

Definition Incident_Reconcile (key : ObjectKey) : io W (result error Result) :=
  let! fetched := getIncident key in
  match fetched with
  | Err e => if is_not_found e then iok no_requeue else ierr e
  | Ok im =>
      let '(labelled, changed) := ensureLabels im in
      let* im := (if changed then wrap_io "updating labels" (updateIncident labelled) else iok labelled) in
      let! updated := updateConditions im in
      let* im := (if bool_decide (im_Conditions im = im_Conditions updated) then iok updated
                  else wrap_io "updating conditions" (write_conditions key)) in
      (if (pr_Kind (im_PersonaRef (im_Spec im)) =? "ApplicationPersona")
          && negb (im_Attribution (im_Spec im) =? AttributionUnattributed)
       then let! _ := syncPersonaStatus im in iok no_requeue
       else iok no_requeue)
  end.
End incident_controller.

(** ** Properties *)

Lemma ensure_label_elsewhere kvs st k :
  k ∉ kvs.*1 -> (foldl ensure_label st kvs).1 !! k = st.1 !! k.
Proof.
  revert st. induction kvs as [|kv kvs IH]; intros st; [done|]. simpl. rewrite not_elem_of_cons. intros [Hne Hk].
  rewrite IH by done. unfold ensure_label. destruct (_ =? _); [done|]. simpl. by rewrite lookup_insert_ne.
Qed.

Lemma ensure_label_changed kvs st : st.2 = true -> (foldl ensure_label st kvs).2 = true.
Proof.
  revert st. induction kvs as [|kv kvs IH]; intros st Hs; [done|]. simpl. apply IH. unfold ensure_label. by destruct (_ =? _).
Qed.

Lemma ensure_labels_spec kvs st : NoDup kvs.*1 ->
  let out := foldl ensure_label st kvs in
  (forall kv, kv ∈ kvs -> mget out.1 kv.1 = kv.2) /\
  ((forall kv, kv ∈ kvs -> mget st.1 kv.1 = kv.2) -> out = st) /\
  (out.2 = true <-> st.2 = true \/ exists kv, kv ∈ kvs /\ mget st.1 kv.1 <> kv.2).
Proof.
  revert st. induction kvs as [|kv kvs IH]; intros st; cbn [foldl fmap list_fmap].
  { intros _. split_and!; [by intros kv ?%not_elem_of_nil|done|]. split; [by left|].
    by intros [?|(? & ?%not_elem_of_nil & _)]. }
  intros [Hk Hnd]%NoDup_cons. set (st' := ensure_label st kv).
  assert (Hst' : mget st'.1 kv.1 = kv.2).
  { unfold st', ensure_label. destruct (String.eqb_spec (mget st.1 kv.1) kv.2) as [He|He]; [done|].
    unfold mget. simpl. by rewrite lookup_insert_eq. }
  assert (Hother : forall kv', kv' ∈ kvs -> mget st'.1 kv'.1 = mget st.1 kv'.1).
  { intros kv' Hkv'. unfold st', ensure_label. destruct (_ =? _); [done|]. unfold mget. simpl. rewrite lookup_insert_ne; [done|].
    intros Heq. apply Hk. rewrite Heq. by apply list_elem_of_fmap_2. }
  destruct (IH st' Hnd) as (Hall & Hsame & Hch). split_and!.
  - intros kv' [->|Hin]%elem_of_cons; [|by apply Hall]. unfold mget. by rewrite ensure_label_elsewhere.
  - intros Hst. assert (st' = st) as Hs.
    { unfold st', ensure_label. rewrite Hst by (by left). by rewrite String.eqb_refl. }
    rewrite Hsame; [done|]. intros kv' Hin. rewrite Hs. apply Hst. by right.
  - rewrite Hch. setoid_rewrite elem_of_cons. unfold st', ensure_label at 1.
    destruct (String.eqb_spec (mget st.1 kv.1) kv.2) as [He|He]; simpl.
    + split; [intros [?|(kv' & Hin & Hn)]; [by left|]|intros [?|(kv' & [->|Hin] & Hn)]; [by left|done|]].
      * right. exists kv'. rewrite <- (Hother kv') by done. auto.
      * right. exists kv'. by rewrite Hother.
    + split; [|by left]. intros _. right. exists kv. auto.
Qed.

Lemma expected_labels_nodup im : NoDup (expected_labels im).*1.
Proof.
  unfold expected_labels. rewrite !fmap_app.
  destruct (im_Attribution (im_Spec im) =? ""), (im_Phase im =? ""); cbn [fmap list_fmap fst app];
    apply (bool_decide_unpack _); vm_compute; exact I.
Qed.

(** Label maintenance converges: after [ensureLabels] every expected label
    reads as the spec says, every other label is as it was, "changed" is
    reported exactly when some label differed, and a second pass changes
    nothing, so the controller does not write in a loop. *)
Theorem ensureLabels_converges (im : IncidentMemory) :
  let '(im', changed) := ensureLabels im in
  (forall k v, (k, v) ∈ expected_labels im -> mget (im_Labels im') k = v) /\
  (forall k, k ∉ (expected_labels im).*1 -> im_Labels im' !! k = im_Labels im !! k) /\
  im_Spec im' = im_Spec im /\ im_Status im' = im_Status im /\
  (changed = true <-> exists k v, (k, v) ∈ expected_labels im /\ mget (im_Labels im) k <> v) /\
  ensureLabels im' = (im', false).
Proof.
  unfold ensureLabels. destruct (ensure_labels_spec (expected_labels im) (im_Labels im, false) (expected_labels_nodup im))
    as (Hall & _ & Hch). pose proof (ensure_label_elsewhere (expected_labels im) (im_Labels im, false)) as Hel.
  destruct (foldl ensure_label (im_Labels im, false) (expected_labels im)) as [labels changed]. cbn [fst snd] in *.
  split; [intros k v Hin; exact (Hall _ Hin)|]. split; [exact Hel|]. split; [done|]. split; [done|]. split.
  - rewrite Hch. split; [intros [?|([k v] & ? & ?)]; [done|]; eauto|intros (k & v & ? & ?); right; by exists (k, v)].
  - change (expected_labels (set_labels labels im)) with (expected_labels im).
    change (im_Labels (set_labels labels im)) with labels.
    destruct (ensure_labels_spec (expected_labels im) (labels, false) (expected_labels_nodup im)) as (_ & Hsame & _).
    rewrite Hsame; [done|]. exact Hall.
Qed.

(** No update storm: deriving the conditions of an incident a second time
    changes nothing, at whatever time, so a reconcile that wrote them is not
    followed by another write; and the conditions say what the phase and the
    occurrence count say. *)
Theorem conditions_converge (t1 t2 t3 u1 u2 u3 : time) (im : IncidentMemory) :
  let once := im_set_conditions (conditions_at t1 t2 t3 im) im in
  conditions_at u1 u2 u3 once = conditions_at t1 t2 t3 im /\
  exists d r n, condition_of ConditionDetected (im_Conditions once) = Some d /\
    condition_of ConditionResolved (im_Conditions once) = Some r /\
    condition_of ConditionRecurring (im_Conditions once) = Some n /\
    (c_Status d = ConditionTrue <-> im_Phase im = PhaseDetected \/ im_Phase im = PhaseInvestigating) /\
    (c_Status r = ConditionTrue <-> im_Phase im = PhaseResolved) /\
    (c_Status n = ConditionTrue <-> (1 < ims_OccurrenceCount (im_Status im))%Z).
Proof.
  cbv zeta. set (once := im_set_conditions _ im).
  assert (Hsame : forall condType c now cs, (forall k, condition_of condType cs = Some k ->
    c_Status k = c.1.1 -> c_Reason k = c.1.2 -> set_triple now condType c cs = cs)).
  { intros condType [[st re] msg] now cs k Hk Hst Hre. unfold set_triple.
    by apply (setCondition_kept now condType st re msg cs k). }
  assert (Hget : forall condType c now cs, exists k, condition_of condType (set_triple now condType c cs) = Some k /\
    c_Status k = c.1.1 /\ c_Reason k = c.1.2).
  { intros condType [[st re] msg] now cs. destruct (setCondition_same now condType st re msg cs) as (k & ? & _ & ? & ?). by exists k. }
  assert (Hoth : forall condType c now cs ty, ty <> condType ->
    condition_of ty (set_triple now condType c cs) = condition_of ty cs).
  { intros condType [[st re] msg] now cs ty Hne. by apply setCondition_other. }
  set (d := detected_condition im). set (r := resolved_condition im). set (n := recurring_condition im).
  destruct (Hget ConditionDetected d t1 (im_Conditions im)) as (kd & Hd & Hds & Hdr).
  destruct (Hget ConditionResolved r t2 (set_triple t1 ConditionDetected d (im_Conditions im))) as (kr & Hr & Hrs & Hrr).
  destruct (Hget ConditionRecurring n t3 (set_triple t2 ConditionResolved r (set_triple t1 ConditionDetected d (im_Conditions im))))
    as (kn & Hn & Hns & Hnr).
  assert (Hd' : condition_of ConditionDetected (conditions_at t1 t2 t3 im) = Some kd).
  { unfold conditions_at. rewrite !Hoth by (intros Heq; vm_compute in Heq; discriminate Heq). exact Hd. }
  assert (Hr' : condition_of ConditionResolved (conditions_at t1 t2 t3 im) = Some kr).
  { unfold conditions_at. rewrite Hoth by (intros Heq; vm_compute in Heq; discriminate Heq). exact Hr. }
  split.
  - change (set_triple u3 ConditionRecurring n (set_triple u2 ConditionResolved r
      (set_triple u1 ConditionDetected d (conditions_at t1 t2 t3 im))) = conditions_at t1 t2 t3 im).
    rewrite (Hsame ConditionDetected d u1 _ kd) by done. rewrite (Hsame ConditionResolved r u2 _ kr) by done.
    by rewrite (Hsame ConditionRecurring n u3 _ kn).
  - exists kd, kr, kn. split_and!; try done.
    + rewrite Hds. unfold d, detected_condition, active_phase.
      destruct (String.eqb_spec (im_Phase im) PhaseDetected), (String.eqb_spec (im_Phase im) PhaseInvestigating); simpl; naive_solver.
    + rewrite Hrs. unfold r, resolved_condition. destruct (String.eqb_spec (im_Phase im) PhaseResolved); simpl; naive_solver.
    + rewrite Hns. unfold n, recurring_condition. destruct (Z.ltb_spec 1 (ims_OccurrenceCount (im_Status im))); simpl; naive_solver lia.
Qed.
