(* ===== verification/HealthCheck.v ===== *)
(** * The health-check loop (internal/controller/healthcheck_reconciler.go,
    rejection_cooldown.go): signals become incidents, incidents ask for
    remediations, and recovered incidents close.

    The event store and emitter, and the proposer, are interfaces here: the loop
    only logs what they return. What the loop broadcasts is in
    Protocol.v, what it counts in Harness.v. *)

From S2P Require Import Prelude GoString GoNum Sha256 Json ApiTypes KubeTypes Client Retry Signals Correlator.
From S2P Require Import Diagnosis DiagnosisEngine Safety RemediationController Recovery IncidentController.
From Stdlib Require Import String Ascii.
From stdpp Require Import strings.
Open Scope string_scope.

Definition ResolutionGracePeriod : duration := (5 * minute)%Z.
Definition MaxIncidentNameLength : nat := 253.
Definition incidentNameOverhead : nat := 18.
Definition ReasonDiagnosisDiscarded : string := "DorguDiagnosisDiscarded".

(** [events.InternalEvent] (internal/events/types.go), the fields the loop sets. *)
Record InternalEvent := mkEvent {
  ev_ID : string;
  ev_Severity : string;
  ev_Category : string;
  ev_Source : string;
  ev_Reason : string;
  ev_Message : string;
  ev_InvolvedObject : ResourceReference;
  ev_PersonaRef : option PersonaReference;
  ev_EventTime : time;
  ev_K8sEventUID : string;
}.

Class EventSink (W : Type) := {
  StoreEvent : InternalEvent -> io W (result error unit);
  EmitEvent : InternalEvent -> io W (result error unit);
}.

(** [remediation.ProposalResult]. *)
Record ProposalResult := mkProposal {
  pp_Action : option RemediationAction;
  pp_SkipReason : string;
  pp_Proposed : bool;
}.
Definition Proposer (W : Type) : Type := Diagnosis -> IncidentMemory -> io W (result error ProposalResult).

(** ** Names *)

(** ASCII letters, digits and hyphens; upper case is lowered, the rest becomes a hyphen. *)
Definition sanitize_byte (c : ascii) : ascii :=
  if is_lower c || is_digit c || Ascii.eqb c "-" then c else if is_upper c then to_lower_byte c else "-"%char.
Definition sanitizeName (s : string) : string := str_map sanitize_byte s.
Definition truncate (s : string) (maxLen : nat) : string :=
  if (String.length s <=? maxLen)%nat then s else str_take maxLen s.

Definition maxSegmentLen : nat := Nat.div (MaxIncidentNameLength - incidentNameOverhead) 3.
Definition name_hash (namespace persona signal : string) : string :=
  fmt_x (firstn 6 (Sum256 (namespace ++ "/" ++ persona ++ "/" ++ signal))).
Definition generateIncidentName (namespace persona signal : string) : string :=
  "im-" ++ truncate (sanitizeName namespace) maxSegmentLen ++ "-" ++ truncate (sanitizeName persona) maxSegmentLen
  ++ "-" ++ truncate (sanitizeName signal) maxSegmentLen ++ "-" ++ name_hash namespace persona signal.

(** ** The subject of an incident *)

Record incidentSubject := mkSubject { su_personaRef : PersonaReference; su_unattributed : bool; su_namespace : string }.

Definition personaSubject (ref : PersonaReference) : incidentSubject := mkSubject ref false (pr_Namespace ref).

Definition incidentSubjectFor (group : SignalGroup) : option incidentSubject :=
  if (sg_Scope group =? ScopePersona) then
    match sg_PersonaRef group with
    | None => None
    | Some ref =>
        let subject := personaSubject ref in
        Some (if (su_namespace subject =? "") then mkSubject ref false (sg_Namespace group) else subject)
    end
  else if (sg_Scope group =? ScopeUnattributed) then
    Some (mkSubject (mkPersonaRef "ApplicationPersona" (sg_Workload group) (sg_Namespace group)) true (sg_Namespace group))
  else None.

Definition attribution (s : incidentSubject) : string :=
  if su_unattributed s then AttributionUnattributed else AttributionPersona.
Definition incidentNameKey (s : incidentSubject) : string :=
  if su_unattributed s then pr_Name (su_personaRef s) ++ "-unattributed" else pr_Name (su_personaRef s).
Definition matchesIncident (s : incidentSubject) (im : IncidentMemory) : bool :=
  if (im_Attribution (im_Spec im) =? "") then negb (su_unattributed s)
  else (im_Attribution (im_Spec im) =? attribution s).

Definition primarySignalType (diag : Diagnosis) : string :=
  match d_Contributing diag with c :: _ => sig_Type (cg_Signal c) | [] => "Unknown" end.

Definition signal_key (ref : PersonaReference) (category signal : string) : string :=
  pr_Kind ref ++ "/" ++ pr_Namespace ref ++ "/" ++ pr_Name ref ++ "/" ++ category ++ "/" ++ signal.
Definition signalKey (subject : incidentSubject) (diag : Diagnosis) : string :=
  signal_key (su_personaRef subject) (d_Category diag) (primarySignalType diag).
Definition incidentSignalKey (im : IncidentMemory) : string :=
  signal_key (im_PersonaRef (im_Spec im)) (im_Category (im_Spec im)) (di_Signal (im_Detection (im_Spec im))).

(** ** What is written on an incident *)

Definition buildRootCause (diag : Diagnosis) : option RootCauseInfo :=
  if f_eq (d_Confidence diag) f_zero && (d_Summary diag =? "") then None
  else Some (mkRootCause (d_Summary diag) (fmt_f 2 (d_Confidence diag)) (d_Provider diag)
         (map (fun cs => mkContributingInfo (sig_Type (cg_Signal cs)) (cg_Detail cs)) (d_Contributing diag))).

Definition annotateUnattributed (rc : option RootCauseInfo) (subject : incidentSubject) : option RootCauseInfo :=
  match rc with
  | None => None
  | Some rc =>
      if negb (su_unattributed subject) then Some rc else
      Some (mkRootCause (trim_space (rc_Summary rc) ++ " No ApplicationPersona in namespace " ++ su_namespace subject
              ++ " claims workload " ++ pr_Name (su_personaRef subject)
              ++ ", so this incident is recorded against the workload and Dorgu will not propose a remediation for it. Run "
              ++ dquote ++ "dorgu persona import -n " ++ su_namespace subject ++ dquote ++ " to onboard it.")
           (rc_Confidence rc) (rc_Provider rc) (rc_Contributing rc))
  end.

Definition toResourceRefs (refs : list ResourceReference) : list ResourceReference :=
  map (fun ref => mkResourceRef (rr_Kind ref) (rr_Name ref) (rr_Namespace ref) "affected") refs.

(** The confidence on record; absent or unreadable reads as zero. *)
Definition existing_confidence (rc : option RootCauseInfo) : f64 :=
  match rc with Some rc => default f_zero (ParseFloat (rc_Confidence rc)) | None => f_zero end.

Definition refreshed_root_cause (old : option RootCauseInfo) (subject : incidentSubject) (diag : Diagnosis)
  : option RootCauseInfo :=
  if f_lt f_zero (d_Confidence diag) && f_le (existing_confidence old) (d_Confidence diag)
  then annotateUnattributed (buildRootCause diag) subject else old.

Definition applyDiagnosisToSpec (im : IncidentMemory) (subject : incidentSubject) (diag : Diagnosis) (now : time)
  : IncidentMemory :=
  let s := im_Spec im in
  let d := im_Detection s in
  let attr := if (im_Attribution s =? "") then attribution subject else im_Attribution s in
  let labels := if (mget (im_Labels im) LabelAttribution =? "") then <[LabelAttribution := attr]> (im_Labels im)
                else im_Labels im in
  im_set_spec (mkIMSpec (im_PersonaRef s) attr (im_Category s) (im_Severity s)
      (mkDetectionInfo (di_Signal d) (di_Source d) (di_FirstSeen d) now (toResourceRefs (d_AffectedResources diag)))
      (refreshed_root_cause (im_RootCause s) subject diag) (im_RelatedResources s) (im_Resolution s))
    (set_labels labels im).

Definition new_incident (subject : incidentSubject) (diag : Diagnosis) (now : time) : IncidentMemory :=
  let primarySignal := primarySignalType diag in
  let namespace := if (su_namespace subject =? "") then "default" else su_namespace subject in
  mkIM (mkMeta (generateIncidentName namespace (incidentNameKey subject) primarySignal) namespace
         {[LabelPersonaKind := pr_Kind (su_personaRef subject); LabelPersonaName := pr_Name (su_personaRef subject);
           LabelPersonaNamespace := namespace; LabelCategory := d_Category diag; LabelSeverity := d_Severity diag;
           LabelSignal := primarySignal; LabelPhase := PhaseDetected; LabelAttribution := attribution subject]}
         0%Z None 0)
    (mkIMSpec (su_personaRef subject) (attribution subject) (d_Category diag) (d_Severity diag)
       (mkDetectionInfo primarySignal (d_Provider diag) now now (toResourceRefs (d_AffectedResources diag)))
       (annotateUnattributed (buildRootCause diag) subject) [] None)
    (mkIMStatus "" 0 None []).

Definition initial_status (now : time) (im : IncidentMemory) : IncidentMemory :=
  mkIM (im_Meta im) (im_Spec im) (mkIMStatus PhaseDetected 1 (Some now) (im_Conditions im)).
Definition one_more (now : time) (im : IncidentMemory) : IncidentMemory :=
  let s := im_Status im in
  mkIM (im_Meta im) (im_Spec im)
    (mkIMStatus (ims_Phase s) (wrap32 (ims_OccurrenceCount s + 1)) (Some now) (ims_Conditions s)).
Definition resolved_spec (evidence : recoveryEvidence) (im : IncidentMemory) : IncidentMemory :=
  im_set_resolution (Some (mkResolution (resolutionAction evidence) None None "resolved" None))
    (im_set_label LabelPhase PhaseResolved im).

Definition object_key (im : IncidentMemory) : ObjectKey := mkKey (im_Name im) (im_Namespace im).

(** ** Rejections *)

Definition targetUnchanged (diag : Diagnosis) (incident : IncidentMemory) : bool :=
  (primarySignalType diag =? di_Signal (im_Detection (im_Spec incident))).
Definition severityEscalated (diag : Diagnosis) (incident : IncidentMemory) : bool :=
  (SeverityRank (im_Severity (im_Spec incident)) <? SeverityRank (d_Severity diag))%Z.
Definition rejectionTime (ra : RemediationAction) : option time :=
  option_map c_LastTransitionTime
    (find_first (fun c => (c_Type c =? ConditionRejected) && negb (t_is_zero (c_LastTransitionTime c))) (ra_Conditions ra)).

(** The four tests a rejection must pass before its time is looked at. *)
Definition rejection_applies (diag : Diagnosis) (incident : IncidentMemory) (ra : RemediationAction) : bool :=
  (ra_Phase ra =? RemediationPhaseRejected) && (ir_Name (ra_IncidentRef (ra_Spec ra)) =? im_Name incident)
  && targetUnchanged diag incident && negb (severityEscalated diag incident).

Definition unstamped_text (ra : RemediationAction) : string :=
  "remediation " ++ ra_Name ra ++ " was rejected and its cooldown has not been timestamped yet".
Definition cooling_text (ra : RemediationAction) (elapsed : duration) : string :=
  "remediation " ++ ra_Name ra ++ " was rejected " ++ fmt_duration (d_round elapsed second)
  ++ " ago; not re-proposing for another " ++ fmt_duration (d_round (wrap64 (RejectionCooldown - elapsed)) second).

(** ** The loop *)

Section health.
Context `{Client W} `{Retry W} `{SortSlice} `{EventSink W}.

(** The loop over the listed actions: the clock is read for a stamped rejection. *)
Fixpoint first_rejection (diag : Diagnosis) (incident : IncidentMemory) (ras : list RemediationAction) : io W string :=
  match ras with
  | [] => mret ""
  | ra :: rest =>
      if negb (rejection_applies diag incident ra) then first_rejection diag incident rest else
      match rejectionTime ra with
      | None => mret (unstamped_text ra)
      | Some rejectedAt =>
          let! now := clock in
          let elapsed := t_sub now rejectedAt in
          if (elapsed <? RejectionCooldown)%Z then mret (cooling_text ra elapsed)
          else first_rejection diag incident rest
      end
  end.

Definition rejection_opts (diag : Diagnosis) (ref : PersonaReference) (incident : IncidentMemory) : ListOptions :=
  let namespace := if (im_Namespace incident =? "") then pr_Namespace ref else im_Namespace incident in
  mkListOptions (if (namespace =? "") then None else Some namespace)
    (if (pr_Name ref =? "") then [] else [(LabelPersonaName, pr_Name ref)]).

(** [rejectionSuppressesProposal]: the empty string lets the proposal proceed. *)
Definition rejectionSuppressesProposal (diag : Diagnosis) (incident : option IncidentMemory) : io W (result error string) :=
  match incident, d_PersonaRef diag with
  | None, _ | _, None => iok ""
  | Some incident, Some ref =>
      let* ras := wrap_io ("listing RemediationActions for incident " ++ im_Name incident)
                    (listRA (rejection_opts diag ref incident)) in
      let! reason := first_rejection diag incident ras in
      iok reason
  end.

Definition matching_opts (subject : incidentSubject) (diag : Diagnosis) : ListOptions :=
  mkListOptions (if (su_namespace subject =? "") then None else Some (su_namespace subject))
    [(LabelPersonaKind, pr_Kind (su_personaRef subject)); (LabelPersonaName, pr_Name (su_personaRef subject));
     (LabelCategory, d_Category diag); (LabelSignal, primarySignalType diag)].

Definition findMatchingIncident (subject : incidentSubject) (diag : Diagnosis) : io W (result error (option IncidentMemory)) :=
  let* incidents := wrap_io "listing IncidentMemories" (listIncidents (matching_opts subject diag)) in
  iok (find_first (fun im => negb (im_Phase im =? PhaseResolved) && matchesIncident subject im) incidents).

Definition providerSuffix (provider : string) : string := if (provider =? "") then "" else " " ++ provider.

(** The Unix time of the zero time, in nanoseconds. *)
Definition unix_nano (t : time) : Z := wrap64 (t - 62135596800 * second).

Definition discarded_event (now1 now2 : time) (im : IncidentMemory) (diag : Diagnosis) (stage : string) (cause : error)
  : InternalEvent :=
  mkEvent ("diagnosis-discarded-" ++ im_Name im ++ "-" ++ fmt_d (unix_nano now1)) SeverityCritical (im_Category (im_Spec im))
    "healthcheck-reconciler" ReasonDiagnosisDiscarded
    ("discarded the" ++ providerSuffix (d_Provider diag) ++ " diagnosis for " ++ im_Name im ++ " after " ++ stage
     ++ " failed: " ++ err_string cause ++ ". The analysis was produced and paid for but is not recorded.")
    (mkResourceRef "IncidentMemory" (im_Name im) (im_Namespace im) "") (d_PersonaRef diag) now2 "".

(** [reportDiscardedDiagnosis]: recorded and emitted, then returned as the error. *)
Definition reportDiscardedDiagnosis {A} (im : IncidentMemory) (diag : Diagnosis) (stage : string) (cause : error)
  : io W (result error A) :=
  let! now1 := clock in
  let! now2 := clock in
  let surfaced := discarded_event now1 now2 im diag stage cause in
  let! _ := StoreEvent surfaced in
  let! _ := EmitEvent surfaced in
  ierr (ErrWrap (stage ++ " for IncidentMemory " ++ im_Name im) cause).

(** A retried write whose failure is a lost diagnosis. *)
Definition or_discard {A} (im : IncidentMemory) (diag : Diagnosis) (stage : string) (write : io W (result error A))
  : io W (result error A) :=
  let! r := write in
  match r with
  | Ok a => iok a
  | Err cause => reportDiscardedDiagnosis im diag stage cause
  end.

Definition updateExistingIncident (im : IncidentMemory) (subject : incidentSubject) (diag : Diagnosis) (now : time)
  : io W (result error IncidentMemory) :=
  let* im := or_discard im diag "recording the root cause" (retryIncidentWrite (fun _ =>
      let* fresh := getIncident (object_key im) in
      updateIncident (applyDiagnosisToSpec fresh subject diag now))) in
  or_discard im diag "recording the occurrence count" (retryIncidentWrite (fun _ =>
    let* fresh := getIncident (object_key im) in
    updateStatusIncident (one_more now fresh))).

Definition signal_event (id message : string) (cs : ContributingSignal) : InternalEvent :=
  let s := cg_Signal cs in
  mkEvent id (sig_Severity s) (sig_Category s) (sig_Source s) "" message
    (mkResourceRef (rr_Kind (sig_Resource s)) (rr_Name (sig_Resource s)) (rr_Namespace (sig_Resource s)) "")
    (sig_PersonaRef s) (sig_DetectedAt s) "".

Fixpoint each_event (f : InternalEvent -> io W (result error unit)) (l : list InternalEvent) : io W unit :=
  match l with [] => mret tt | e :: rest => let! _ := f e in each_event f rest end.

Definition storeSignalEvents (diag : Diagnosis) (im : IncidentMemory) : io W unit :=
  each_event StoreEvent (map (fun cs => signal_event
    (im_Name im ++ "-" ++ sig_Type (cg_Signal cs) ++ "-" ++ fmt_d (unix_nano (sig_DetectedAt (cg_Signal cs))))
    (sig_Message (cg_Signal cs)) cs) (d_Contributing diag)).
Definition emitK8sEvents (diag : Diagnosis) : io W unit :=
  each_event EmitEvent (map (fun cs => signal_event "" (d_Summary diag ++ ": " ++ sig_Message (cg_Signal cs)) cs)
    (d_Contributing diag)).

(** [createIncident] of the reconciler; [createIncident] is the client's call. *)
Definition fileIncident (subject : incidentSubject) (diag : Diagnosis) (now : time) : io W (result error unit) :=
  let im := new_incident subject diag now in
  let! created := createIncident im in
  match created with
  | Err createErr =>
      if is_already_exists createErr then
        let* existing := or_discard im diag "adopting the incident that already existed"
                           (retryIncidentWrite (fun _ => getIncident (object_key im))) in
        let* _ := updateExistingIncident existing subject diag now in
        iok tt
      else ierr (ErrWrap "creating IncidentMemory" createErr)
  | Ok created =>
      let* _ := or_discard im diag "setting the initial incident status" (retryIncidentWrite (fun attempt =>
          let* current := (if (0 <? attempt)%nat then getIncident (object_key im) else iok created) in
          updateStatusIncident (initial_status now current))) in
      let! _ := storeSignalEvents diag im in
      if (d_Severity diag =? SeverityWarning) || (d_Severity diag =? SeverityCritical)
      then let! _ := emitK8sEvents diag in iok tt
      else iok tt
  end.

(** The incident a diagnosis is recorded on; after a creation it is looked up
    again, and a failed look-up reads as none. *)
Definition record_diagnosis (subject : incidentSubject) (diag : Diagnosis) (now : time)
  : io W (result error (option IncidentMemory)) :=
  let* existing := wrap_io "finding matching incident" (findMatchingIncident subject diag) in
  match existing with
  | Some existing => let* im := updateExistingIncident existing subject diag now in iok (Some im)
  | None =>
      let* _ := fileIncident subject diag now in
      let! found := findMatchingIncident subject diag in
      iok (match found with Ok im => im | Err _ => None end)
  end.

(** A proposal is asked for once no rejection stands; failing to read the
    rejections counts as one standing. *)
Definition propose_remediation (propose : Proposer W) (diag : Diagnosis) (incident : IncidentMemory) : io W unit :=
  let! suppressed := rejectionSuppressesProposal diag (Some incident) in
  match suppressed with
  | Err _ => mret tt
  | Ok reason => if negb (reason =? "") then mret tt else let! _ := propose diag incident in mret tt
  end.

Definition processDiagnosis (proposer : option (Proposer W)) (subject : incidentSubject) (diag : Diagnosis)
    (active : gset string) : io W (result error unit * gset string) :=
  let active := {[signalKey subject diag]} ∪ active in
  let! now := clock in
  let! recorded := record_diagnosis subject diag now in
  match recorded with
  | Err e => mret (Err e, active)
  | Ok incident =>
      if su_unattributed subject then mret (Ok tt, active) else
      match proposer, incident with
      | Some propose, Some incident =>
          if (im_Phase incident =? PhaseResolved) then mret (Ok tt, active)
          else let! _ := propose_remediation propose diag incident in mret (Ok tt, active)
      | _, _ => mret (Ok tt, active)
      end
  end.

Fixpoint process_diagnoses (proposer : option (Proposer W)) (subject : incidentSubject) (diagnoses : list Diagnosis)
    (attempted discarded : nat) (active : gset string) : io W (nat * nat * gset string) :=
  match diagnoses with
  | [] => mret (attempted, discarded, active)
  | diag :: rest =>
      let! (r, active) := processDiagnosis proposer subject diag active in
      process_diagnoses proposer subject rest (S attempted) (if is_ok r then discarded else S discarded) active
  end.

Definition processGroup (providers : list (DiagnosisProvider W)) (proposer : option (Proposer W)) (group : SignalGroup)
    (active : gset string) : io W (nat * nat * gset string) :=
  let! diagnoses := Analyze providers (sg_Signals group) in
  match diagnoses with
  | Err _ => mret (0, 0, active)
  | Ok diagnoses =>
      match incidentSubjectFor group with
      | None => mret (0, 0, active)
      | Some subject => process_diagnoses proposer subject diagnoses 0 0 active
      end
  end.

(** ** Closing incidents *)

Definition superseding (im other : IncidentMemory) : bool :=
  negb ((im_Name other =? im_Name im) || (im_Phase other =? PhaseResolved)).

Definition supersededByPersona (im : IncidentMemory) : io W (option recoveryEvidence) :=
  if negb (im_Attribution (im_Spec im) =? AttributionUnattributed) then mret None else
  let namespace := incidentNamespace im in
  if (namespace =? "") then mret None else
  let workloadName := incidentWorkloadName im in
  let! attributed := listIncidents (mkListOptions (Some namespace)
      [(LabelPersonaKind, "ApplicationPersona"); (LabelPersonaName, workloadName); (LabelAttribution, AttributionPersona)]) in
  mret match attributed with
       | Err _ => None
       | Ok items => option_map (fun other => healthy ("superseded: workload " ++ workloadName
             ++ " is now tracked by incident " ++ im_Name other ++ ", which is open against its persona"))
           (find_first (superseding im) items)
       end.

Definition resolutionEvidence (im : IncidentMemory) (now : time) : io W recoveryEvidence :=
  let! superseded := supersededByPersona im in
  match superseded with
  | Some evidence => mret evidence
  | None => verifyRecovery im now
  end.

Definition markResolved (im : IncidentMemory) (evidence : recoveryEvidence) : io W (result error unit) :=
  let* im := wrap_io "recording the resolution" (retryIncidentWrite (fun _ =>
      let* fresh := getIncident (object_key im) in
      updateIncident (resolved_spec evidence fresh))) in
  let* _ := wrap_io "recording the resolved phase" (retryIncidentWrite (fun _ =>
      let* im := getIncident (object_key im) in
      updateStatusIncident (im_set_phase PhaseResolved im))) in
  iok tt.

(** One incident of the sweep. *)
Definition resolve_one (active : gset string) (now : time) (im : IncidentMemory) : io W unit :=
  if bool_decide (incidentSignalKey im ∈ active) then mret tt else
  if (t_sub now (di_LastSeen (im_Detection (im_Spec im))) <? ResolutionGracePeriod)%Z then mret tt else
  let! evidence := resolutionEvidence im now in
  if negb (Recovered evidence) then mret tt
  else let! _ := markResolved im evidence in mret tt.

Fixpoint resolve_all (active : gset string) (now : time) (incidents : list IncidentMemory) : io W unit :=
  match incidents with
  | [] => mret tt
  | im :: rest => let! _ := resolve_one active now im in resolve_all active now rest
  end.

Definition phase_opts (phase : string) : ListOptions := mkListOptions None [(LabelPhase, phase)].

Definition resolveCleared (active : gset string) : io W (result error unit) :=
  let* detected := wrap_io "listing active IncidentMemories" (listIncidents (phase_opts PhaseDetected)) in
  let* investigating := wrap_io "listing investigating IncidentMemories" (listIncidents (phase_opts PhaseInvestigating)) in
  let! now := clock in
  let! _ := resolve_all active now (detected ++ investigating)%list in
  iok tt.

(** ** One cycle *)

Fixpoint process_groups (providers : list (DiagnosisProvider W)) (proposer : option (Proposer W))
    (groups : list SignalGroup) (attempted discarded : nat) (active : gset string) : io W (nat * nat * gset string) :=
  match groups with
  | [] => mret (attempted, discarded, active)
  | group :: rest =>
      let! (a, d, active) := processGroup providers proposer group active in
      process_groups providers proposer rest (attempted + a) (discarded + d) active
  end.

(** [reconcile]: detect, group, diagnose and record, then close what recovered.
    The counts are what the cycle's summary logs. *)
Definition health_reconcile (detection : io W (result error (list Signal))) (providers : list (DiagnosisProvider W))
    (proposer : option (Proposer W)) : io W (nat * nat) :=
  let! collected := detection in
  match collected with
  | Err _ => mret (0, 0)
  | Ok signals =>
      let! (attempted, discarded, active) := process_groups providers proposer (GroupSignals signals) 0 0 ∅ in
      let! _ := resolveCleared active in
      mret (attempted, discarded)
  end.
End health.

(** ** Properties: names and identity *)

Definition name_byte (c : ascii) : bool := is_lower c || is_digit c || Ascii.eqb c "-".

Lemma sanitize_byte_ok c : name_byte (sanitize_byte c) = true.
Proof. destruct c as [[] [] [] [] [] [] [] []]; vm_compute; reflexivity. Qed.
Lemma sanitizeName_bytes s : str_exists (fun c => negb (name_byte c)) (sanitizeName s) = false.
Proof. induction s as [|c s IH]; [done|]. cbn. by rewrite sanitize_byte_ok. Qed.
Lemma truncate_bytes p s n : str_exists p s = false -> str_exists p (truncate s n) = false.
Proof. intros Hs. unfold truncate. destruct (_ <=? _)%nat; [done|]. by apply str_exists_take. Qed.
Lemma truncate_length s n : (String.length (truncate s n) <= n)%nat.
Proof. unfold truncate. destruct (Nat.leb_spec (String.length s) n); [done|apply str_take_length]. Qed.

Lemma hex_digit_name_byte n : (n < 16)%N -> name_byte (hex_digit n) = true.
Proof.
  intros Hn. assert (Hall : Forall (fun n => name_byte (hex_digit n) = true) (map N.of_nat (seq 0 16)))
    by repeat constructor. rewrite Forall_forall in Hall. apply Hall, list_elem_of_fmap.
  exists (N.to_nat n). split; [by rewrite N2Nat.id|]. apply elem_of_seq. lia.
Qed.
Lemma fmt_x_name_bytes l : Forall (fun b => 0 <= b < 256)%Z l ->
  str_exists (fun c => negb (name_byte c)) (fmt_x l) = false.
Proof.
  induction 1 as [|b l Hb Hl IH]; [done|]. cbn [fmt_x foldr hex_byte String.append str_exists].
  change (foldr _ _ l) with (fmt_x l). rewrite IH. pose proof (Z.mod_pos_bound b 16). assert (b `div` 16 < 16)%Z by (apply Z.div_lt_upper_bound; lia).
  by rewrite !hex_digit_name_byte by lia.
Qed.

(** The generated name is a valid Kubernetes object name for any input: at
    most 253 bytes, lower-case letters, digits and hyphens only, starting with
    the fixed prefix and ending in all twelve hex digits of the hash of the
    untruncated segments, which truncation therefore never cuts. *)
Theorem generateIncidentName_valid (namespace persona signal : string) :
  let name := generateIncidentName namespace persona signal in
  (String.length name <= MaxIncidentNameLength)%nat /\
  str_exists (fun c => negb (name_byte c)) name = false /\
  exists middle, name = "im-" ++ middle ++ "-" ++ name_hash namespace persona signal /\
    String.length (name_hash namespace persona signal) = 12%nat.
Proof.
  cbv zeta. destruct (Sum256_shape (namespace ++ "/" ++ persona ++ "/" ++ signal)) as [Hlen Hbytes].
  assert (Hh : String.length (name_hash namespace persona signal) = 12%nat).
  { unfold name_hash. rewrite fmt_x_length, length_firstn, Hlen. done. }
  unfold generateIncidentName. set (a := truncate (sanitizeName namespace) _).
  set (b := truncate (sanitizeName persona) _). set (c := truncate (sanitizeName signal) _).
  assert (Hp : forall s, str_exists (fun c => negb (name_byte c)) (truncate (sanitizeName s) maxSegmentLen) = false)
    by (intros s; apply truncate_bytes, sanitizeName_bytes).
  split; [|split].
  - rewrite !str_length_app, Hh. pose proof (truncate_length (sanitizeName namespace) maxSegmentLen).
    pose proof (truncate_length (sanitizeName persona) maxSegmentLen).
    pose proof (truncate_length (sanitizeName signal) maxSegmentLen).
    fold a in H. fold b in H0. fold c in H1. change maxSegmentLen with 78%nat in *.
    change (String.length "im-") with 3%nat. change (String.length "-") with 1%nat.
    change MaxIncidentNameLength with 253%nat. lia.
  - rewrite !str_exists_app. unfold a, b, c. rewrite !Hp. cbn [orb]. unfold name_hash.
    rewrite fmt_x_name_bytes; [done|]. by apply Forall_take.
  - exists (a ++ "-" ++ b ++ "-" ++ c). split; [|done]. by rewrite !str_app_assoc.
Qed.

(** What the operator's own writers do to an incident: the health loop, the
    incident controller and the remediation controller, one constructor per
    write.  Phases, resolutions and conditions may be anything. *)
Inductive written (im : IncidentMemory) : IncidentMemory -> Prop :=
| written_diagnosis subject diag now : written im (applyDiagnosisToSpec im subject diag now)
| written_initial now : written im (initial_status now im)
| written_occurrence now : written im (one_more now im)
| written_resolved evidence : written im (resolved_spec evidence im)
| written_resolution r : written im (im_set_resolution r im)
| written_phase_label : written im (im_set_label LabelPhase PhaseResolved im)
| written_phase p : written im (im_set_phase p im)
| written_labels : written im (ensureLabels im).1
| written_conditions cs : written im (im_set_conditions cs im).

(** The labels and spec fields by which the loop knows an incident again. *)
Record identified (subject : incidentSubject) (diag : Diagnosis) (im0 im : IncidentMemory) : Prop := {
  id_key : object_key im = object_key im0;
  id_persona : im_PersonaRef (im_Spec im) = su_personaRef subject;
  id_attribution : im_Attribution (im_Spec im) = attribution subject;
  id_category : im_Category (im_Spec im) = d_Category diag;
  id_severity : im_Severity (im_Spec im) = im_Severity (im_Spec im0);
  id_signal : di_Signal (im_Detection (im_Spec im)) = primarySignalType diag;
  id_firstSeen : di_FirstSeen (im_Detection (im_Spec im)) = di_FirstSeen (im_Detection (im_Spec im0));
  id_labels kv : kv ∈ lo_Labels (matching_opts subject diag) -> im_Labels im !! kv.1 = Some kv.2;
}.

Lemma attribution_nonempty subject : attribution subject <> "".
Proof. unfold attribution. by destruct (su_unattributed subject). Qed.

Lemma ensure_label_present st kv k v :
  st.1 !! k = Some v -> (k = kv.1 -> v = kv.2) -> (ensure_label st kv).1 !! k = Some v.
Proof.
  intros Hk Hv. unfold ensure_label. destruct (_ =? _); [done|]. cbn. destruct (decide (k = kv.1)) as [->|Hne].
  - rewrite lookup_insert_eq. f_equal. symmetry. by apply Hv.
  - by rewrite lookup_insert_ne.
Qed.
Lemma ensure_labels_present kvs st k v :
  st.1 !! k = Some v -> (forall kv, kv ∈ kvs -> k = kv.1 -> v = kv.2) -> (foldl ensure_label st kvs).1 !! k = Some v.
Proof.
  revert st. induction kvs as [|kv kvs IH]; intros st Hk Hall; [done|]. cbn. apply IH.
  - apply ensure_label_present; [done|]. apply Hall. left.
  - intros kv' Hin. apply Hall. by right.
Qed.

(** The label values [ensureLabels] wants are the ones the loop selects by. *)
Lemma expected_labels_agree subject diag im0 im kv kv' :
  identified subject diag im0 im -> kv ∈ lo_Labels (matching_opts subject diag) -> kv' ∈ expected_labels im ->
  kv.1 = kv'.1 -> kv.2 = kv'.2.
Proof.
  intros [Hk Hp Ha Hc Hs Hsig Hf Hl] Hin Hin' Heq. unfold expected_labels in Hin'.
  rewrite Hp, Hc, Hsig in Hin'. destruct (_ =? ""), (_ =? "");
    rewrite ?app_nil_r in Hin'; cbn [app] in Hin';
    repeat (apply elem_of_cons in Hin' as [->|Hin']; [|]); try (by apply elem_of_nil in Hin');
    repeat (apply elem_of_cons in Hin as [->|Hin]; [|]); try (by apply elem_of_nil in Hin);
    try done; vm_compute in Heq; discriminate Heq.
Qed.

Lemma identified_written subject diag im0 im im' :
  identified subject diag im0 im -> written im im' -> identified subject diag im0 im'.
Proof.
  intros Hid Hw. pose proof Hid as [Hk Hp Ha Hc Hs Hsig Hf Hl]. destruct Hw; try by constructor.
  - constructor; try done.
    + cbn. rewrite Ha. destruct (String.eqb_spec (attribution subject) ""); [by destruct (attribution_nonempty subject)|done].
    + intros kv Hin. cbn. destruct (mget (im_Labels im) LabelAttribution =? ""); [|by apply Hl].
      cbn. rewrite lookup_insert_ne; [by apply Hl|]. intros Heq.
      repeat (apply elem_of_cons in Hin as [->|Hin]; [vm_compute in Heq; discriminate Heq|]). by apply elem_of_nil in Hin.
  - constructor; try done. intros kv Hin. cbn. rewrite lookup_insert_ne; [by apply Hl|]. intros Heq.
    repeat (apply elem_of_cons in Hin as [->|Hin]; [vm_compute in Heq; discriminate Heq|]). by apply elem_of_nil in Hin.
  - constructor; try done. intros kv Hin. cbn. rewrite lookup_insert_ne; [by apply Hl|]. intros Heq.
    repeat (apply elem_of_cons in Hin as [->|Hin]; [vm_compute in Heq; discriminate Heq|]). by apply elem_of_nil in Hin.
  - unfold ensureLabels. destruct (foldl ensure_label _ _) as [labels changed] eqn:Hfold.
    constructor; try done. intros [k v] Hin. cbn. change labels with (labels, changed).1. rewrite <- Hfold.
    apply ensure_labels_present; [apply (Hl _ Hin)|]. intros kv' Hin' Heq.
    by apply (expected_labels_agree subject diag im0 im (k, v) kv').
Qed.

Lemma identified_new subject diag now : identified subject diag (new_incident subject diag now) (new_incident subject diag now).
Proof.
  constructor; try done. intros kv Hin.
  repeat (apply elem_of_cons in Hin as [->|Hin]; [vm_compute; reflexivity|]). by apply elem_of_nil in Hin.
Qed.

(** C28. An incident keeps its identity under every write of the operator.
    However the health loop, the incident controller and the remediation
    controller update a filed incident, the selector and the attribution test
    that look it up still find it, its signal key is still the key of the
    diagnosis that raised it (so an active incident is never mistaken for a
    silent one), its severity and first sighting are the ones stamped at
    creation, and no subject of the other attribution ever adopts it. *)
Theorem incident_identity_invariant (subject : incidentSubject) (diag : Diagnosis) (now : time) (im : IncidentMemory) :
  rtc written (new_incident subject diag now) im ->
  selects (matching_opts subject diag) (im_Meta im) = true /\
  (forall subject', matchesIncident subject' im = true <-> su_unattributed subject' = su_unattributed subject) /\
  incidentSignalKey im = signalKey subject diag /\
  object_key im = object_key (new_incident subject diag now) /\
  im_Severity (im_Spec im) = d_Severity diag /\ di_FirstSeen (im_Detection (im_Spec im)) = now.
Proof.
  intros Hw. assert (Hid : identified subject diag (new_incident subject diag now) im).
  { revert Hw. generalize (identified_new subject diag now). generalize (new_incident subject diag now) at 2 3.
    intros im1 Hid Hw. induction Hw; eauto using identified_written. }
  destruct Hid as [Hk Hp Ha Hc Hs Hsig Hf Hl]. split_and!; try done.
  - unfold selects. apply andb_true_iff. split.
    + cbn. destruct (String.eqb_spec (su_namespace subject) "") as [He|He]; [done|].
      unfold object_key in Hk. injection Hk as _ Hns. unfold im_Namespace in Hns. rewrite Hns. cbn.
      destruct (String.eqb_spec (su_namespace subject) ""); [done|]. apply String.eqb_refl.
    + apply forallb_forall. intros kv Hin. apply bool_decide_eq_true, Hl. by apply list_elem_of_In.
  - intros subject'. unfold matchesIncident. rewrite Ha.
    destruct (String.eqb_spec (attribution subject) ""); [by destruct (attribution_nonempty subject)|].
    rewrite String.eqb_eq. unfold attribution. destruct (su_unattributed subject), (su_unattributed subject'); done.
  - unfold incidentSignalKey, signalKey. by rewrite Hp, Hc, Hsig.
Qed.

(** ** Properties: rejections and proposals *)

(** A rejection that still holds at the given time. *)
Definition standing_rejection (now : time) (diag : Diagnosis) (incident : IncidentMemory) (ra : RemediationAction) : Prop :=
  ra_Phase ra = RemediationPhaseRejected /\ ir_Name (ra_IncidentRef (ra_Spec ra)) = im_Name incident /\
  primarySignalType diag = di_Signal (im_Detection (im_Spec incident)) /\
  (SeverityRank (d_Severity diag) <= SeverityRank (im_Severity (im_Spec incident)))%Z /\
  (rejectionTime ra = None \/ exists at_, rejectionTime ra = Some at_ /\ (t_sub now at_ < RejectionCooldown)%Z).

Section health_props.
Context `{ClientReads W} `{Retry W} `{SortSlice} `{EventSink W}.

Lemma rejection_applies_iff diag incident ra :
  rejection_applies diag incident ra = true <->
  ra_Phase ra = RemediationPhaseRejected /\ ir_Name (ra_IncidentRef (ra_Spec ra)) = im_Name incident /\
  primarySignalType diag = di_Signal (im_Detection (im_Spec incident)) /\
  (SeverityRank (d_Severity diag) <= SeverityRank (im_Severity (im_Spec incident)))%Z.
Proof.
  unfold rejection_applies, targetUnchanged, severityEscalated.
  rewrite !andb_true_iff, negb_true_iff, Z.ltb_ge, !String.eqb_eq. tauto.
Qed.

Lemma cooling_text_nonempty ra e : cooling_text ra e <> "".
Proof. done. Qed.

Lemma first_rejection_spec diag incident ras (w : W) :
  (first_rejection diag incident ras w).2 = w /\
  ((first_rejection diag incident ras w).1 = "" <->
   forall ra, ra ∈ ras -> ~ standing_rejection (clock w).1 diag incident ra).
Proof.
  induction ras as [|ra ras [IHw IHs]]; cbn [first_rejection].
  { split; [done|]. split; [by intros _ ? ?%not_elem_of_nil|done]. }
  assert (Hskip : ~ standing_rejection (clock w).1 diag incident ra ->
    ((first_rejection diag incident ras w).1 = "" <->
     forall ra', ra' ∈ ra :: ras -> ~ standing_rejection (clock w).1 diag incident ra')).
  { intros Hno. rewrite IHs. setoid_rewrite elem_of_cons. naive_solver. }
  unfold standing_rejection in *. pose proof (rejection_applies_iff diag incident ra) as Happ.
  destruct (rejection_applies diag incident ra); cbn [negb].
  - destruct (rejectionTime ra) as [at_|] eqn:Hat.
    + unfold mbind, io_bind. rewrite (read_pair clock w (clock_reads w)). cbn beta iota zeta.
      destruct (Z.ltb_spec (t_sub (clock w).1 at_) RejectionCooldown) as [Hlt|Hge]; cbn.
      * split; [done|]. split; [by intros ?%cooling_text_nonempty|]. intros Hall. destruct (Hall ra); [left|]. naive_solver.
      * split; [done|]. apply Hskip. intros (_ & _ & _ & _ & [[=]|(a & [= <-] & ?)]). lia.
    + split; [done|]. split; [done|]. intros Hall. destruct (Hall ra); [left|]. naive_solver.
  - split; [done|]. apply Hskip. naive_solver.
Qed.

(** Whether a proposal may be asked for in this world. *)
Definition may_propose (w : W) (diag : Diagnosis) (incident : IncidentMemory) : Prop :=
  forall ref, d_PersonaRef diag = Some ref ->
  exists ras, (listRA (rejection_opts diag ref incident) w).1 = Ok ras /\
    forall ra, ra ∈ ras -> ~ standing_rejection (clock w).1 diag incident ra.

Lemma rejectionSuppressesProposal_spec diag incident (w : W) :
  (rejectionSuppressesProposal diag (Some incident) w).2 = w /\
  ((rejectionSuppressesProposal diag (Some incident) w).1 = Ok "" <-> may_propose w diag incident).
Proof.
  unfold rejectionSuppressesProposal, may_propose. destruct (d_PersonaRef diag) as [ref|]; [|split; [done|naive_solver]].
  unfold iobind, wrap_io. rewrite (read_pair (listRA _) w (listRA_reads _ _)).
  destruct (listRA _ w).1 as [ras|e] eqn:Hl; cbn [wrap_err map_err].
  - unfold mbind, io_bind. destruct (first_rejection_spec diag incident ras w) as [Hw Hs].
    destruct (first_rejection diag incident ras w) as [reason w']. cbn in *. split; [done|]. split.
    + intros [= ->] r' [= <-]. exists ras. split; [done|]. by apply Hs.
    + intros Hall. destruct (Hall ref eq_refl) as (ras' & Hl' & Hno). rewrite Hl in Hl'. injection Hl' as <-.
      f_equal. by apply Hs.
  - split; [done|]. split; [done|]. intros Hall. destruct (Hall ref eq_refl) as (? & Hl' & _). congruence.
Qed.

(** C8. A remediation is asked for exactly when it should be.  After the
    diagnosis is recorded, the proposer is called, once, on that diagnosis and
    its incident, if the subject is attributed, an open incident was found and
    no rejection still stands (or the diagnosis names no persona); in every
    other case, an unreadable rejection history included, the cycle ends in the
    world the recording left, with no proposal.  The signal key is marked active
    either way, and only a failure to record is reported. *)
Theorem processDiagnosis_proposes (propose : Proposer W) (subject : incidentSubject) (diag : Diagnosis)
    (active : gset string) (w : W) :
  let '(recorded, w1) := record_diagnosis subject diag (clock w).1 w in
  let out := processDiagnosis (Some propose) subject diag active w in
  out.1.2 = {[signalKey subject diag]} ∪ active /\
  (forall e, out.1.1 = Err e <-> recorded = Err e) /\
  ((exists im, recorded = Ok (Some im) /\ su_unattributed subject = false /\ im_Phase im <> PhaseResolved /\
      may_propose w1 diag im /\ out.2 = (propose diag im w1).2) \/
   ~ (exists im, recorded = Ok (Some im) /\ su_unattributed subject = false /\ im_Phase im <> PhaseResolved /\
      may_propose w1 diag im) /\ out.2 = w1).
Proof.
  unfold processDiagnosis. unfold mbind, io_bind. rewrite (read_pair clock w (clock_reads w)). cbn [fst].
  destruct (record_diagnosis subject diag (clock w).1 w) as [[[im|]|e] w1]; cbn beta iota zeta; cycle 1.
  { destruct (su_unattributed subject); (split; [done|]; split; [done|]); right; (split; [naive_solver|done]). }
  { split; [done|]. split; [naive_solver|]. right. split; [naive_solver|done]. }
  destruct (su_unattributed subject). { split; [done|]. split; [done|]. right. split; [naive_solver|done]. }
  destruct (String.eqb_spec (im_Phase im) PhaseResolved) as [Hr|Hr].
  { split; [done|]. split; [done|]. right. split; [naive_solver|done]. }
  unfold propose_remediation, mbind, io_bind. destruct (rejectionSuppressesProposal_spec diag im w1) as [Hw Hs].
  destruct (rejectionSuppressesProposal diag (Some im) w1) as [[reason|e] w2]; cbn [fst snd] in *; subst w2.
  - destruct (String.eqb_spec reason "") as [->|Hne]; cbn [negb].
    + destruct (propose diag im w1) as [p w2] eqn:Hp. cbn. split; [done|]. split; [done|]. left. exists im.
      rewrite Hp. repeat (split; [done|]). split; [by apply Hs|done].
    + cbn. split; [done|]. split; [done|]. right. split; [|done]. intros (im' & [= <-] & _ & _ & Hm). apply Hs in Hm. congruence.
  - cbn. split; [done|]. split; [done|]. right. split; [|done]. intros (im' & [= <-] & _ & _ & Hm). apply Hs in Hm. congruence.
Qed.

(** ** Properties: closing *)

(** An open incident of the workload's persona now tracks the outage. *)
Definition handed_over (im : IncidentMemory) (w : W) : Prop :=
  im_Attribution (im_Spec im) = AttributionUnattributed /\ incidentNamespace im <> "" /\
  exists items other, (listIncidents (mkListOptions (Some (incidentNamespace im))
      [(LabelPersonaKind, "ApplicationPersona"); (LabelPersonaName, incidentWorkloadName im);
       (LabelAttribution, AttributionPersona)]) w).1 = Ok items /\
    other ∈ items /\ im_Name other <> im_Name im /\ im_Phase other <> PhaseResolved.

(** What closing an incident takes: no diagnosis of this cycle names it, it has
    been silent for the grace period, and it was handed over or seen recovered. *)
Definition closable (active : gset string) (now : time) (im : IncidentMemory) (w : W) : Prop :=
  (incidentSignalKey im ∉ active) /\
  (ResolutionGracePeriod <= t_sub now (di_LastSeen (im_Detection (im_Spec im))))%Z /\
  (handed_over im w \/ Recovered (verifyRecovery im now w).1 = true).

Lemma superseding_iff im other :
  superseding im other = true <-> im_Name other <> im_Name im /\ im_Phase other <> PhaseResolved.
Proof. unfold superseding. rewrite negb_true_iff, orb_false_iff, !String.eqb_neq. done. Qed.

Lemma supersededByPersona_spec (im : IncidentMemory) (w : W) :
  (supersededByPersona im w).2 = w /\
  (forall ev, (supersededByPersona im w).1 = Some ev -> Recovered ev = true) /\
  (is_Some (supersededByPersona im w).1 <-> handed_over im w).
Proof.
  unfold supersededByPersona, handed_over.
  destruct (String.eqb_spec (im_Attribution (im_Spec im)) AttributionUnattributed) as [Ha|Ha]; cbn [negb];
    [|split; [done|]; split; [done|]; split; [by intros [? [=]]|tauto]].
  destruct (String.eqb_spec (incidentNamespace im) "") as [Hn|Hn];
    [split; [done|]; split; [done|]; split; [by intros [? [=]]|tauto]|].
  unfold mbind, io_bind. rewrite (read_pair (listIncidents _) w (listIncidents_reads _ _)).
  destruct (listIncidents _ w).1 as [items|e]; cbn [fst snd mret io_ret];
    [|split; [done|]; split; [done|]; split; [by intros [? [=]]|by intros (_ & _ & ? & ? & [=] & _)]].
  split; [done|]. destruct (find_first (superseding im) items) as [other|] eqn:Hf; cbn.
  - split; [by intros ev [= <-]|]. apply find_first_Some in Hf as [Hin [Hne Hph]%superseding_iff].
    split; [intros _|by eauto]. split; [done|]. split; [done|]. by exists items, other.
  - split; [done|]. rewrite find_first_None in Hf. split; [by intros [? [=]]|].
    intros (_ & _ & items' & other & [= <-] & Hin & Hs). apply Hf in Hin.
    apply superseding_iff in Hs. congruence.
Qed.

Lemma resolutionEvidence_spec (im : IncidentMemory) (now : time) (w : W) :
  (resolutionEvidence im now w).2 = w /\
  (Recovered (resolutionEvidence im now w).1 = true <-> handed_over im w \/ Recovered (verifyRecovery im now w).1 = true).
Proof.
  unfold resolutionEvidence, mbind, io_bind. destruct (supersededByPersona_spec im w) as (Hw & Hrec & Hiff).
  destruct (supersededByPersona im w) as [[ev|] w1]; cbn [fst snd] in *; subst w1.
  - split; [done|]. split; [intros _; left; apply Hiff; eauto|intros _; by apply Hrec].
  - split; [apply verifyRecovery_reads|]. split; [by right|]. intros [Hh|?]; [|done].
    apply Hiff in Hh as [? [=]].
Qed.

(** The sweep as it should be: each listed incident in turn, closed if closable. *)
Inductive sweep (active : gset string) (now : time) : list IncidentMemory -> W -> W -> Prop :=
| sweep_done w : sweep active now [] w w
| sweep_close im evidence rest w w' :
    closable active now im w -> Recovered evidence = true ->
    sweep active now rest (markResolved im evidence w).2 w' -> sweep active now (im :: rest) w w'
| sweep_keep im rest w w' :
    ~ closable active now im w -> sweep active now rest w w' -> sweep active now (im :: rest) w w'.

Lemma resolve_one_step (active : gset string) (now : time) (im : IncidentMemory) (w : W) :
  closable active now im w /\
    (exists ev, Recovered ev = true /\ (resolve_one active now im w).2 = (markResolved im ev w).2) \/
  ~ closable active now im w /\ (resolve_one active now im w).2 = w.
Proof.
  unfold resolve_one, closable. case_bool_decide as Ha; [right; split; [tauto|done]|].
  destruct (Z.ltb_spec (t_sub now (di_LastSeen (im_Detection (im_Spec im)))) ResolutionGracePeriod);
    [right; split; [intros (_ & ? & _); lia|done]|].
  unfold mbind, io_bind. destruct (resolutionEvidence_spec im now w) as [Hw Hiff].
  destruct (resolutionEvidence im now w) as [ev w1]; cbn [fst snd] in *; subst w1.
  destruct (Recovered ev) eqn:Hev; cbn [negb].
  - left. split; [tauto|]. exists ev. split; [done|]. by destruct (markResolved im ev w).
  - right. split; [|done]. intros (_ & _ & Hd). apply Hiff in Hd. done.
Qed.

Lemma resolve_all_sweep (active : gset string) (now : time) (incidents : list IncidentMemory) (w : W) :
  sweep active now incidents w (resolve_all active now incidents w).2.
Proof.
  revert w. induction incidents as [|im rest IH]; intros w; [constructor|]. cbn [resolve_all]. unfold mbind at 1, io_bind at 1.
  destruct (resolve_one_step active now im w) as [(Hc & ev & Hev & Hw)|[Hc Hw]];
    destruct (resolve_one active now im w) as [[] w1]; cbn [snd] in Hw; subst w1.
  - by eapply sweep_close.
  - by apply sweep_keep.
Qed.

(** C9. The sweep closes exactly what it should.  Over the incidents labelled
    Detected and Investigating, in listing order, each is closed if at its turn
    no diagnosis of the cycle names it, it has been silent for the whole grace
    period, and either its workload is seen recovered or an open incident of
    the workload's persona has taken over; every other incident is left as it
    is.  When either listing fails nothing is closed at all. *)
Theorem resolveCleared_sweep (active : gset string) (w : W) :
  let now := (clock w).1 in
  match (listIncidents (phase_opts PhaseDetected) w).1, (listIncidents (phase_opts PhaseInvestigating) w).1 with
  | Ok detected, Ok investigating =>
      sweep active now (detected ++ investigating)%list w (resolveCleared active w).2 /\ (resolveCleared active w).1 = Ok tt
  | _, _ => (resolveCleared active w).2 = w /\ is_ok (resolveCleared active w).1 = false
  end.
Proof.
  unfold resolveCleared, iobind, wrap_io.
  rewrite (read_pair (listIncidents (phase_opts PhaseDetected)) w (listIncidents_reads _ _)).
  destruct (listIncidents (phase_opts PhaseDetected) w).1 as [detected|e]; cbn [fst snd wrap_err map_err]; [|done].
  rewrite (read_pair (listIncidents (phase_opts PhaseInvestigating)) w (listIncidents_reads _ _)).
  destruct (listIncidents (phase_opts PhaseInvestigating) w).1 as [investigating|e]; cbn [fst snd wrap_err map_err]; [|done].
  unfold mbind, io_bind. rewrite (read_pair clock w (clock_reads w)). cbn [fst].
  pose proof (resolve_all_sweep active (clock w).1 (detected ++ investigating)%list w) as Hs.
  by destruct (resolve_all active (clock w).1 (detected ++ investigating)%list w) as [[] w1].
Qed.
End health_props.

(** ** Recurrence *)

Section recurrence.
Context `{QuantityOps} `{EventSink Mem}.

Lemma mem_findMatching_none (subject : incidentSubject) (diag : Diagnosis) (w : Mem) :
  (forall k im, mem_incidents w !! k = Some im -> selects (matching_opts subject diag) (im_Meta im) = true ->
     matchesIncident subject im = true -> im_Phase im = PhaseResolved) ->
  findMatchingIncident subject diag w = (Ok None, w).
Proof.
  intros Hno. unfold findMatchingIncident, iobind, wrap_io, iok. cbn. f_equal. f_equal. apply find_first_None.
  intros im [Hin Hsel]%list_elem_of_In%filter_In. apply list_elem_of_In, list_elem_of_fmap in Hin as ([k im'] & -> & Hin).
  apply elem_of_map_to_list in Hin. cbn in *. apply andb_false_iff.
  destruct (matchesIncident subject im') eqn:Hm; [left|by right].
  rewrite (Hno k im') by done. done.
Qed.

(** A retried write that succeeds at once. *)
Lemma discard_ok {A} (im : IncidentMemory) (diag : Diagnosis) (stage : string) (f : nat -> io Mem (result error A))
    (a : A) (w w' : Mem) :
  f 0%nat w = (Ok a, w') -> or_discard im diag stage (retryIncidentWrite f) w = (Ok a, w').
Proof.
  intros Hf. unfold or_discard, mbind, io_bind, retryIncidentWrite.
  rewrite (OnError_stops 6 retriableIncidentWriteError f w (Ok a) w'); [done|lia|done|done].
Qed.

(** The incident the two writes of [updateExistingIncident] leave. *)
Definition refolded (subject : incidentSubject) (diag : Diagnosis) (now : time) (old : IncidentMemory) : IncidentMemory :=
  one_more now (applyDiagnosisToSpec old subject diag now).

Lemma put_incident_twice (a b : IncidentMemory) (w : Mem) :
  object_key a = object_key b -> put_incident a (put_incident b w) = put_incident a w.
Proof.
  intros Hk. unfold put_incident. cbn. change (meta_key (im_Meta a)) with (object_key a).
  change (meta_key (im_Meta b)) with (object_key b). by rewrite Hk, insert_insert_eq.
Qed.

Lemma mem_updateExisting (subject : incidentSubject) (diag : Diagnosis) (now : time) (old : IncidentMemory) (w : Mem) :
  mem_faults w = [] -> mem_incidents w !! object_key old = Some old ->
  updateExistingIncident old subject diag now w
  = (Ok (refolded subject diag now old), put_incident (refolded subject diag now old) w).
Proof.
  intros Hf Hold. set (im1 := applyDiagnosisToSpec old subject diag now). unfold updateExistingIncident, iobind at 1.
  rewrite (discard_ok _ _ _ _ im1 w (put_incident im1 w)).
  2:{ unfold iobind. cbn. rewrite Hold. unfold mem_write, pop_fault. rewrite Hf. unfold spec_incident.
      change (meta_key _) with (object_key old). by rewrite Hold. }
  apply discard_ok. unfold iobind. cbn. change (object_key im1) with (object_key old).
  change (meta_key (im_Meta im1)) with (object_key old). rewrite lookup_insert_eq. unfold mem_write, pop_fault.
  change (mem_faults (put_incident im1 w)) with (mem_faults w). rewrite Hf. f_equal. unfold status_incident. cbn.
  change (meta_key _) with (object_key old). rewrite lookup_insert_eq. by rewrite (put_incident_twice _ im1).
Qed.

(** C27. A finding.  An outage that returns after its incident was resolved is
    never open again: the name is a function of the namespace, the subject and
    the signal, so the creation meets the resolved record, and the diagnosis is
    folded into it.  The record stays Resolved, its count goes up, and the
    proposer is not consulted, whatever it would have said. *)
Theorem recurrence_stays_resolved (propose : Proposer Mem) (subject : incidentSubject) (diag : Diagnosis)
    (active : gset string) (old : IncidentMemory) (w : Mem) :
  let key := object_key (new_incident subject diag (mem_now w)) in
  mem_faults w = [] -> mem_incidents w !! key = Some old -> object_key old = key -> im_Phase old = PhaseResolved ->
  (forall k im, mem_incidents w !! k = Some im -> selects (matching_opts subject diag) (im_Meta im) = true ->
     matchesIncident subject im = true -> im_Phase im = PhaseResolved) ->
  exists new, processDiagnosis (Some propose) subject diag active w
      = ((Ok tt, {[signalKey subject diag]} ∪ active), put_incident new w) /\
    object_key new = key /\ im_Phase new = PhaseResolved /\
    ims_OccurrenceCount (im_Status new) = wrap32 (ims_OccurrenceCount (im_Status old) + 1).
Proof.
  cbv zeta. intros Hf Hold Hkey Hph Hno. set (new := refolded subject diag (mem_now w) old). exists new.
  split; [|by split_and!]. unfold processDiagnosis, mbind at 1, io_bind at 1. cbn [clock mem_client].
  unfold mbind at 1, io_bind at 1, record_diagnosis, iobind at 1, wrap_io. rewrite mem_findMatching_none by done.
  cbn [wrap_err map_err]. unfold iobind at 1, fileIncident, mbind at 1, io_bind at 1.
  change (createIncident ?im ?w) with (match mem_incidents w !! meta_key (im_Meta im) with
    | Some _ => (Err (ErrAPI AlreadyExists "already exists"), w)
    | None => mem_write (put_incident (mkIM (im_Meta im) (im_Spec im) no_status)) im w end).
  change (meta_key (im_Meta ?im)) with (object_key im). rewrite Hold. cbn beta iota.
  change (is_already_exists (ErrAPI AlreadyExists "already exists")) with true. cbn beta iota.
  unfold iobind at 1. rewrite (discard_ok _ _ _ _ old w w).
  2:{ cbn. unfold mem_get. by rewrite Hold. }
  unfold iobind at 1. rewrite mem_updateExisting by (rewrite ?Hkey; done). fold new. unfold iok at 1, mbind at 1, io_bind at 1.
  rewrite mem_findMatching_none.
  2:{ intros k im. cbn. intros [[<- <-]|[_ Hin]]%lookup_insert_Some; [done|]. by apply (Hno k). }
  unfold iok. by destruct (su_unattributed subject).
Qed.
End recurrence.

(** ** Witnesses *)

#[local] Existing Instance int_quantity.
#[local] Instance quiet_events : EventSink Mem := {| StoreEvent _ := iok tt; EmitEvent _ := iok tt |}.

Definition ex_subject : incidentSubject := personaSubject (mkPersonaRef "ApplicationPersona" "api" "shop").
Definition ex_new : IncidentMemory := new_incident ex_subject (ex_diagnosis "OOM" "rule-based" f_one) (60 * minute)%Z.
Definition ex_now (incidents : gmap ObjectKey IncidentMemory) : Mem :=
  mkMem _ (60 * minute)%Z ∅ ∅ incidents [] ∅ [] [] [] None.

Example incident_name : im_Name ex_new = "im-shop-api-unknown-2d61101a24b6".
Proof. vm_compute. reflexivity. Qed.

Lemma incident_identity_invariant_witness :
  let im := (ensureLabels (resolved_spec (healthy "seen") ex_new)).1 in
  incidentSignalKey im = "ApplicationPersona/shop/api/health/Unknown" /\ im_Severity (im_Spec im) = SeverityCritical.
Proof.
  intros im. destruct (incident_identity_invariant ex_subject (ex_diagnosis "OOM" "rule-based" f_one) (60 * minute)%Z im)
    as (_ & _ & Hk & _ & Hs & _).
  - eapply rtc_l; [apply written_resolved|]. eapply rtc_l; [apply written_labels|]. apply rtc_refl.
  - split; [exact Hk|exact Hs].
Defined.


(** A proposer that files an action. *)
Definition ex_proposed : RemediationAction :=
  ex_ra "fix-api" "Pending" None None None [].
Definition ex_propose : Proposer Mem := fun _ _ w => (Ok (mkProposal (Some ex_proposed) "" true), put_ra ex_proposed w).

Lemma processDiagnosis_proposes_witness :
  let out := processDiagnosis (Some ex_propose) ex_subject (ex_diagnosis "OOM" "rule-based" f_one) ∅ (ex_now ∅) in
  out.1.2 = {["ApplicationPersona/shop/api/health/Unknown"]} ∪ ∅ /\ out.1.1 = Ok tt /\ size (mem_ra out.2) = 1.
Proof.
  intros out. pose proof (processDiagnosis_proposes ex_propose ex_subject (ex_diagnosis "OOM" "rule-based" f_one) ∅ (ex_now ∅)) as Hp.
  destruct (record_diagnosis _ _ _ _) as [recorded w1]. destruct Hp as [Hk _]. split; [exact Hk|].
  split; vm_compute; reflexivity.
Defined.

Definition ex_old : IncidentMemory := im_set_phase PhaseResolved ex_new.

Lemma recurrence_stays_resolved_witness :
  let diag := ex_diagnosis "OOM" "rule-based" f_one in
  exists new, processDiagnosis (Some ex_propose) ex_subject diag ∅ (ex_now {[object_key ex_new := ex_old]})
      = ((Ok tt, {[signalKey ex_subject diag]} ∪ ∅), put_incident new (ex_now {[object_key ex_new := ex_old]})) /\
    im_Phase new = PhaseResolved.
Proof.
  intros diag. destruct (recurrence_stays_resolved ex_propose ex_subject diag ∅ ex_old (ex_now {[object_key ex_new := ex_old]}))
    as (new & Hout & _ & Hph & _).
  - reflexivity.
  - apply lookup_singleton_eq.
  - reflexivity.
  - reflexivity.
  - intros k im Hk _ _. change (({[object_key ex_new := ex_old]} : gmap ObjectKey IncidentMemory) !! k = Some im) in Hk. apply lookup_singleton_Some in Hk as [_ <-]. reflexivity.
  - exists new. split; [exact Hout|exact Hph].
Defined.

(** Two silent incidents of the same age: one workload is back, one still crashes. *)
Definition ex_two : Mem :=
  mkMem _ (60 * minute)%Z ∅ ∅
    {[mkKey "a" "shop" := ex_incident "a" "api" "shop" "Detected" 0%Z; mkKey "b" "shop" := ex_incident "b" "web" "shop" "Detected" 0%Z]}
    [] ∅ [ex_ready_pod "api-1" (50 * minute)%Z; ex_ready_pod "web-1" (58 * minute)%Z] [] [] None.
Definition phase_of (name : string) (w : Mem) : option string := im_Phase <$> mem_incidents w !! mkKey name "shop".

Lemma resolveCleared_sweep_witness :
  (exists listed, sweep ∅ (60 * minute)%Z listed ex_two (resolveCleared ∅ ex_two).2 /\ length listed = 2%nat) /\
  phase_of "a" (resolveCleared ∅ ex_two).2 = Some PhaseResolved /\ phase_of "b" (resolveCleared ∅ ex_two).2 = Some PhaseDetected.
Proof.
  split; [|split; vm_compute; reflexivity]. pose proof (resolveCleared_sweep ∅ ex_two) as Hs.
  eexists. split; [exact (proj1 Hs)|]. vm_compute. reflexivity.
Defined.
