(* ===== verification/Sizing.v ===== *)
(** * Sizing a resource change (internal/remediation/proposer.go): which field a
    diagnosis calls for, the value it gets, and what a rollback restores.

    The baseline is the live container's limit whenever the workload resolved;
    the pre-patch state is the persona's own, because the persona is what the
    patch rewrites. *)

From S2P Require Import Prelude GoString GoNum Json ApiTypes KubeTypes Steps Client Safety Signals Diagnosis Executor Ownership Grounding HealthCheck.
From Stdlib Require Import String Ascii.
From stdpp Require Import strings.
Open Scope string_scope.

Definition defaultNamespace : string := "default".
Definition memoryIncreaseWarning : f64 := f_lit 15 10.
Definition memoryIncreaseCritical : f64 := f_lit 20 10.
Definition cpuIncreaseWarning : f64 := f_lit 125 100.
Definition cpuIncreaseCritical : f64 := f_lit 15 10.
Definition maxResourceMultiplier : f64 := f_lit 20 10.

Definition resourcePathMemory : string := "spec.resources.limits.memory".
Definition resourcePathCPU : string := "spec.resources.limits.cpu".

(** ** What a diagnosis calls for *)

Definition memorySignals : list string := [SignalOOMKilled; SignalMemorySaturationCrit; SignalMemorySaturationHigh].
Definition cpuSignals : list string := [SignalCPUSaturationHigh; SignalCPUSaturationCritical].
Definition is_one_of (types : list string) (t : string) : bool := existsb (String.eqb t) types.

Definition hasOOMCorrelation (diag : Diagnosis) : bool :=
  existsb (fun cs => is_one_of memorySignals (sig_Type (cg_Signal cs))) (d_Contributing diag).

(** [diagnosisTargetPath]: the field, or the empty string. *)
Definition diagnosisTargetPath (diag : Diagnosis) : string :=
  let t := primarySignalType diag in
  if is_one_of memorySignals t then resourcePathMemory
  else if is_one_of cpuSignals t then resourcePathCPU
  else if (t =? SignalCrashLoopBackOff) then (if hasOOMCorrelation diag then resourcePathMemory else "")
  else "".

Definition touches (patch : option raw_json) (target : string) : bool :=
  match patch with Some raw => patchTouchesPath raw target | None => false end.

Definition remediationTargetsPath (ra : RemediationAction) (target : string) : bool :=
  if touches (ad_Patch (ra_Action (ra_Spec ra))) target then true
  else existsb (fun step => touches (st_Patch step) target) (ra_Steps (ra_Spec ra)).

(** ** The numbers *)

Definition increaseMultiplier (key severity : string) : f64 :=
  let '(warning, critical) := if (key =? resourceKeyCPU) then (cpuIncreaseWarning, cpuIncreaseCritical)
                              else (memoryIncreaseWarning, memoryIncreaseCritical) in
  f_min (if (severity =? SeverityCritical) then critical else warning) maxResourceMultiplier.

Definition personaLimits (persona : option ApplicationPersona) : option ResourceValues :=
  match persona with
  | None => None
  | Some p => match aps_Resources (ap_Spec p) with None => None | Some r => rsc_Limits r end
  end.

Definition personaLimit (persona : option ApplicationPersona) (key : string) : string :=
  match personaLimits persona with
  | None => ""
  | Some limits => if (key =? resourceKeyCPU) then rv_CPU limits else rv_Memory limits
  end.

Definition hasObservedLimits (ref : option WorkloadRef) : bool :=
  resolved ref && match ref with
                  | Some r => match wr_ObservedResources r with
                              | Some o => match or_Limits o with Some _ => true | None => false end
                              | None => false
                              end
                  | None => false
                  end.

Record resourceAdjustment := mkAdjustment {
  rsa_patch : option (gmap string json);
  rsa_prePatch : option (gmap string json);
  rsa_explanation : string;
  rsa_skipReason : string;
}.
Definition no_adjustment : resourceAdjustment := mkAdjustment None None "" "".

Definition limitIncreaseExplanation (diag : Diagnosis) (ref : option WorkloadRef) (key baseline newValue : string)
    (multiplier : f64) (groundedInLive : bool) : string :=
  let percent := fmul (fsub multiplier f_one) (f_of_Z 100) in
  let change := "Increase the " ++ key ++ " limit from " ++ baseline ++ " to " ++ newValue ++ " (a " ++ fmt_f 0 percent
    ++ "% increase) after a " ++ primarySignalType diag ++ " signal at " ++ d_Severity diag ++ " severity. " ++ baseline in
  match groundedInLive, ref with
  | true, Some r => change ++ " is the live limit read from container " ++ fmt_q (wr_Container r) ++ " on Deployment "
                      ++ wr_Namespace r ++ "/" ++ wr_Name r ++ "."
  | _, _ => change ++ " is the limit recorded in the persona: the live Deployment could not be read, so the running value may differ."
  end.

(** The parser's error; its text is the library's. *)
Definition ErrQuantity : error := ErrText "quantities must match the quantity format".

Section sizing.
Context `{QuantityOps}.

Definition scaleQuantity (qty : Quantity) (multiplier : f64) (key : string) : string :=
  if (key =? resourceKeyCPU) then q_MilliString (f_trunc (fmul (f_of_Z (q_MilliValue qty)) multiplier))
  else q_BinaryString (f_trunc (fmul (f_of_Z (q_Value qty)) multiplier)).

(** The baseline: a live value, the persona's, a reason to skip, or nothing. *)
Inductive baseline_source :=
| LiveLimit (v : string)
| PersonaLimit (v : string)
| SkipBecause (reason : string)
| NothingKnown.

Definition pick_baseline (persona : option ApplicationPersona) (ref : option WorkloadRef) (key : string) : baseline_source :=
  match observedValue ref (pathPrefixLimits ++ key) with
  | Some live => LiveLimit live
  | None =>
      match (if resolved ref then ref else None) with
      | Some r => SkipBecause ("container " ++ fmt_q (wr_Container r) ++ " on Deployment " ++ wr_Name r ++ " does not set a "
                    ++ key ++ " limit, so raising one would introduce a field the workload has never had")
      | None => if (personaLimit persona key =? "") then NothingKnown else PersonaLimit (personaLimit persona key)
      end
  end.

Definition limit_map (key value : string) : option (gmap string json) := buildNestedMap ["spec"; "resources"; "limits"; key; value].

Definition sized (diag : Diagnosis) (persona : option ApplicationPersona) (ref : option WorkloadRef) (key baseline : string)
    (groundedInLive : bool) : result error resourceAdjustment :=
  match ParseQuantity baseline with
  | None => Err (ErrWrap ("parsing " ++ key ++ " quantity " ++ fmt_q baseline) ErrQuantity)
  | Some qty =>
      let multiplier := increaseMultiplier key (d_Severity diag) in
      let newValue := scaleQuantity qty multiplier key in
      let rollbackValue := if (personaLimit persona key =? "") then baseline else personaLimit persona key in
      Ok (mkAdjustment (limit_map key newValue) (limit_map key rollbackValue)
            (limitIncreaseExplanation diag ref key baseline newValue multiplier groundedInLive) "")
  end.

Definition calculateLimitIncrease (diag : Diagnosis) (persona : option ApplicationPersona) (ref : option WorkloadRef) (key : string)
  : result error resourceAdjustment :=
  match pick_baseline persona ref key with
  | LiveLimit baseline => sized diag persona ref key baseline true
  | PersonaLimit baseline => sized diag persona ref key baseline false
  | SkipBecause reason => Ok (mkAdjustment None None "" reason)
  | NothingKnown => Ok no_adjustment
  end.

Definition calculateResourceChange (diag : Diagnosis) (persona : option ApplicationPersona) (ref : option WorkloadRef)
  : result error resourceAdjustment :=
  let t := primarySignalType diag in
  if is_one_of memorySignals t then calculateLimitIncrease diag persona ref resourceKeyMemory
  else if is_one_of cpuSignals t then calculateLimitIncrease diag persona ref resourceKeyCPU
  else if (t =? SignalCrashLoopBackOff) then
    (if hasOOMCorrelation diag then calculateLimitIncrease diag persona ref resourceKeyMemory else Ok no_adjustment)
  else Ok no_adjustment.
End sizing.

(** ** Properties *)

Lemma multiplier_bounds key severity :
  f_lt f_one (increaseMultiplier key severity) = true /\ f_le (increaseMultiplier key severity) MaxBlastRadiusMultiplier = true.
Proof.
  unfold increaseMultiplier. destruct (key =? resourceKeyCPU), (severity =? SeverityCritical); split; vm_compute; reflexivity.
Qed.

Definition limit_keys : list string := [resourceKeyMemory; resourceKeyCPU].

Lemma target_keys diag : diagnosisTargetPath diag = "" \/ exists key, key ∈ limit_keys /\ diagnosisTargetPath diag = pathPrefixLimits ++ key.
Proof.
  unfold diagnosisTargetPath, limit_keys.
  assert (exists key, key ∈ [resourceKeyMemory; resourceKeyCPU] /\ resourcePathMemory = pathPrefixLimits ++ key) by (exists resourceKeyMemory; split; [by left|done]).
  assert (exists key, key ∈ [resourceKeyMemory; resourceKeyCPU] /\ resourcePathCPU = pathPrefixLimits ++ key) by (exists resourceKeyCPU; split; [by right; left|done]).
  destruct (is_one_of memorySignals _); [by right|]. destruct (is_one_of cpuSignals _); [by right|].
  destruct (_ =? SignalCrashLoopBackOff); [|by left]. destruct (hasOOMCorrelation diag); [by right|by left].
Qed.

Lemma limit_map_eq key v : limit_map key v = Some {["spec" := nested ["resources"; "limits"; key] (JStr v)]}.
Proof. reflexivity. Qed.

Lemma limit_map_paths key v m : key ∈ limit_keys -> limit_map key v = Some m ->
  patchLeafPaths (RawDoc (JObj m)) = [pathPrefixLimits ++ key].
Proof.
  rewrite limit_map_eq. intros Hk [= <-].
  apply elem_of_cons in Hk as [->|[->|?%not_elem_of_nil]%elem_of_cons]; [vm_compute; reflexivity..|done].
Qed.

Lemma append_nonempty p k : p <> "" -> p ++ k <> "".
Proof. by destruct p. Qed.

Lemma append_inj_l (p a b : string) : p ++ a = p ++ b -> a = b.
Proof. apply str_app_inv_head. Qed.

Section sizing_props.
Context `{QuantityOps}.

(** The one mapping from signals to fields: the change is sized for the target
    path, or there is none. *)
Lemma change_targets diag persona ref :
  (diagnosisTargetPath diag = "" /\ calculateResourceChange diag persona ref = Ok no_adjustment) \/
  exists key, key ∈ limit_keys /\ diagnosisTargetPath diag = pathPrefixLimits ++ key /\
    calculateResourceChange diag persona ref = calculateLimitIncrease diag persona ref key.
Proof.
  unfold diagnosisTargetPath, calculateResourceChange.
  assert (resourceKeyMemory ∈ limit_keys) by by left. assert (resourceKeyCPU ∈ limit_keys) by (by right; left).
  destruct (is_one_of memorySignals _); [right; by exists resourceKeyMemory|].
  destruct (is_one_of cpuSignals _); [right; by exists resourceKeyCPU|].
  destruct (_ =? SignalCrashLoopBackOff); [|by left].
  destruct (hasOOMCorrelation diag); [right; by exists resourceKeyMemory|by left].
Qed.

(** The value the change is measured from. *)
Definition baseline_of (persona : option ApplicationPersona) (ref : option WorkloadRef) (key : string) : option string :=
  if resolved ref then observedValue ref (pathPrefixLimits ++ key) else nonempty_value (personaLimit persona key).

Lemma observed_resolved ref p v : observedValue ref p = Some v -> resolved ref = true.
Proof. unfold observedValue. destruct ref as [r|]; [|done]. by destruct (resolved (Some r)). Qed.

Lemma pick_baseline_spec persona ref key baseline :
  (pick_baseline persona ref key = LiveLimit baseline \/ pick_baseline persona ref key = PersonaLimit baseline) <->
  baseline_of persona ref key = Some baseline.
Proof.
  unfold pick_baseline, baseline_of, nonempty_value. destruct (observedValue ref _) as [live|] eqn:Ho.
  - rewrite (observed_resolved _ _ _ Ho). naive_solver.
  - destruct ref as [r|].
    + destruct (resolved (Some r)); [naive_solver|]. destruct (personaLimit persona key =? ""); naive_solver.
    + cbn. destruct (personaLimit persona key =? ""); naive_solver.
Qed.

Lemma sized_of_patch diag persona ref key adj m :
  calculateLimitIncrease diag persona ref key = Ok adj -> rsa_patch adj = Some m ->
  exists baseline live, baseline_of persona ref key = Some baseline /\ sized diag persona ref key baseline live = Ok adj.
Proof.
  unfold calculateLimitIncrease. intros Hc Hm. pose proof (pick_baseline_spec persona ref key) as Hp.
  destruct (pick_baseline persona ref key) as [v|v|why|] eqn:E.
  - exists v, true. split; [by apply Hp; left|done].
  - exists v, false. split; [by apply Hp; right|done].
  - by injection Hc as <-.
  - by injection Hc as <-.
Qed.

Lemma sized_fields diag persona ref key baseline live adj : sized diag persona ref key baseline live = Ok adj ->
  exists qty, ParseQuantity baseline = Some qty /\
    rsa_patch adj = limit_map key (scaleQuantity qty (increaseMultiplier key (d_Severity diag)) key) /\
    rsa_prePatch adj = limit_map key (if (personaLimit persona key =? "") then baseline else personaLimit persona key).
Proof. unfold sized. destruct (ParseQuantity baseline) as [qty|]; [|done]. intros [= <-]. by exists qty. Qed.

(** A sized change is a change to the diagnosed field. *)
Lemma sized_touches diag persona ref adj m : calculateResourceChange diag persona ref = Ok adj -> rsa_patch adj = Some m ->
  patchTouchesPath (RawDoc (JObj m)) (diagnosisTargetPath diag) = true.
Proof.
  intros Hc Hm. destruct (change_targets diag persona ref) as [[_ Hn]|(key & Hk & Ht & Hl)]; [rewrite Hn in Hc; by injection Hc as <-|].
  rewrite Hl in Hc. destruct (sized_of_patch _ _ _ _ _ _ Hc Hm) as (baseline & live & _ & Hs).
  apply sized_fields in Hs as (qty & _ & Hpatch & _). rewrite Hpatch in Hm. unfold patchTouchesPath.
  rewrite (limit_map_paths _ _ _ Hk Hm), Ht. cbn [existsb]. by rewrite String.eqb_refl.
Qed.

(** C11. Every change the rules size is sized from what runs.  A change carries a
    patch exactly when a limit to start from is known and parses; that limit is
    the live container's whenever the workload resolved, whatever the persona
    says; the patch sets the diagnosed field and no other, to the limit times a
    factor above 1 and at most the 2x cap; and the recorded prior value is at
    that same field. *)
Theorem calculateResourceChange_grounded (diag : Diagnosis) (persona : option ApplicationPersona) (ref : option WorkloadRef)
    (adj : resourceAdjustment) (m : gmap string json) :
  calculateResourceChange diag persona ref = Ok adj -> rsa_patch adj = Some m ->
  exists key baseline qty multiplier prior,
    diagnosisTargetPath diag = pathPrefixLimits ++ key /\
    baseline_of persona ref key = Some baseline /\ ParseQuantity baseline = Some qty /\
    f_lt f_one multiplier = true /\ f_le multiplier MaxBlastRadiusMultiplier = true /\
    patchLeafPaths (RawDoc (JObj m)) = [diagnosisTargetPath diag] /\
    json_at ["spec"; "resources"; "limits"; key] (JObj m) = Some (JStr (scaleQuantity qty multiplier key)) /\
    rsa_prePatch adj = limit_map key prior /\
    prior = (if (personaLimit persona key =? "") then baseline else personaLimit persona key).
Proof.
  intros Hc Hm. destruct (change_targets diag persona ref) as [[_ Hn]|(key & Hk & Ht & Hl)]; [rewrite Hn in Hc; by injection Hc as <-|].
  rewrite Hl in Hc. destruct (sized_of_patch _ _ _ _ _ _ Hc Hm) as (baseline & live & Hb & Hs).
  apply sized_fields in Hs as (qty & Hq & Hpatch & Hpre). rewrite Hpatch in Hm.
  exists key, baseline, qty, (increaseMultiplier key (d_Severity diag)), (if (personaLimit persona key =? "") then baseline else personaLimit persona key).
  destruct (multiplier_bounds key (d_Severity diag)) as [Hlo Hhi]. rewrite Ht. split_and!; try done.
  - by eapply limit_map_paths.
  - rewrite limit_map_eq in Hm. injection Hm as <-. cbn [json_at]. rewrite lookup_singleton_eq. cbn. apply (json_at_nested ["resources"; "limits"; key]).
Qed.

End sizing_props.

(** ** Witnesses *)

#[local] Existing Instance int_quantity.

(** An application that runs out of memory at a limit of 100. *)
Definition ex_api_ref : PersonaReference := mkPersonaRef "ApplicationPersona" "api" "shop".
Definition ex_oom_signal : Signal :=
  mkSignal SignalOOMKilled SeverityCritical "health" "pod" "OOMKilled" (mkResourceRef "Pod" "api-1" "shop" "") (Some ex_api_ref)
    None None 0%Z ∅.
Definition ex_oom : Diagnosis :=
  mkDiagnosis "the container runs out of memory" (f_lit 90 100) "rule-based" "health" SeverityCritical (Some ex_api_ref) []
    [mkContributing ex_oom_signal ""] "resource-adjustment" 0%Z.
Definition ex_api : Deployment :=
  mkDeployment (mkMeta "api" "shop" {["app.kubernetes.io/name" := "api"]} 0%Z None 0) ∅ [] (Some 1%Z) None
    [mkContainer "api" "api:1" {["memory" := 100%Z]} ∅ None None None] 1%Z 1%Z [] [] None.
Definition ex_shop : Mem :=
  mkMem _ (2000 * second)%Z ∅ {[mkKey "api" "shop" := ex_limited "100"]} ∅ [] {[mkKey "api" "shop" := ex_api]} [] [] [] None.

Definition ex_sized : resourceAdjustment :=
  match calculateResourceChange ex_oom (Some (ex_limited "100")) None with Ok adj => adj | Err _ => no_adjustment end.

Lemma calculateResourceChange_grounded_witness :
  exists key baseline, diagnosisTargetPath ex_oom = pathPrefixLimits ++ key /\ baseline_of (Some (ex_limited "100")) None key = Some baseline /\
    patchLeafPaths (ex_patch "200") = ["spec.resources.limits.memory"].
Proof.
  assert (Hc : calculateResourceChange ex_oom (Some (ex_limited "100")) None = Ok ex_sized) by (vm_compute; reflexivity).
  assert (Hm : rsa_patch ex_sized = Some {["spec" := nested ["resources"; "limits"; "memory"] (JStr "200")]}) by (vm_compute; reflexivity).
  destruct (calculateResourceChange_grounded ex_oom (Some (ex_limited "100")) None ex_sized _ Hc Hm)
    as (key & baseline & qty & mu & prior & Hk & Hb & _ & _ & _ & Hp & _).
  exists key, baseline. split; [exact Hk|]. split; [exact Hb|exact Hp].
Defined.

