(* ===== verification/Planner.v ===== *)
(** * Planning with a model (internal/remediation/planner: types.go, context.go,
    workload.go, claude.go).

    [BuildContext] gathers what the model is shown; [PlanRemediation] asks for a
    plan and retries a malformed answer once.  The HTTP transport and the
    decoding of the answer's envelope are parameters ([Transport], [PlanCodec]);
    PlanPrompt.v builds the prompt and is the transport over HTTP. *)

From S2P Require Import Prelude GoString GoNum Json ApiTypes KubeTypes Client Signals Diagnosis Executor.
From Stdlib Require Import String Ascii.
From stdpp Require Import strings.
Open Scope string_scope.

(** ** types.go *)

Section types.
Context `{QuantityOps}.

Record WorkloadContext := mkWorkloadContext {
  wx_Ref : WorkloadRef;
  wx_Replicas : Z;
  wx_ReadyReplicas : Z;
  wx_PriorImages : list string;
}.

Record RemediationContext := mkRemediationContext {
  rx_Diagnosis : Diagnosis;
  rx_Signals : list Signal;
  rx_AppPersona : option ApplicationPersona;
  rx_Workload : option WorkloadContext;
  rx_ClusterPersona : option ClusterPersona;
  rx_PastIncidents : list IncidentMemory;
  rx_PastRemediations : list RemediationAction;
}.
End types.

Record PlannedStep := mkPlanned {
  ps_Order : Z;
  ps_Type : string;
  ps_Description : string;
  ps_Rationale : string;
  ps_Risk : string;
  ps_Patch : raw_json;       (* RawEmpty: no patch *)
  ps_Command : string;
}.

Record RemediationPlan := mkPlan {
  pl_RootCause : string;
  pl_Confidence : f64;
  pl_Steps : list PlannedStep;
}.

(** The [Planner] interface; [None] is a nil plan. *)
Class Planner `{QuantityOps} (W : Type) := PlanRemediation : RemediationContext -> io W (result error (option RemediationPlan)).

(** ** context.go *)

Definition planLabelPersonaName : string := "dorgu.io/persona-name".
Definition MaxPastIncidents : nat := 10.
Definition planKindApplicationPersona : string := "ApplicationPersona".

Definition personaReference (diag : Diagnosis) (incident : IncidentMemory) : option PersonaReference :=
  match d_PersonaRef diag with
  | Some ref => Some ref
  | None => let ref := im_PersonaRef (im_Spec incident) in if (pr_Name ref =? "") then None else Some ref
  end.

Definition signalsFromDiagnosis (diag : Diagnosis) : list Signal := map cg_Signal (d_Contributing diag).

Definition personaNamespace (ref : PersonaReference) : string :=
  if (pr_Namespace ref =? "") then "default" else pr_Namespace ref.

Definition incidentRecency (im : IncidentMemory) : time :=
  match ims_LastOccurrence (im_Status im) with Some t => t | None => m_CreationTimestamp (im_Meta im) end.

(** [sort.SliceStable], most recent first, then the cap. *)
Definition recency_leb (a b : IncidentMemory) : bool := negb (t_after (incidentRecency b) (incidentRecency a)).
Definition recent_incidents (items : list IncidentMemory) : list IncidentMemory :=
  take MaxPastIncidents (insertion_sort recency_leb items).

(** [add]: the first action under each namespace/name. *)
Definition ra_seen_key (ra : RemediationAction) : string := ra_Namespace ra ++ "/" ++ ra_Name ra.
Definition add_remediation (out : list RemediationAction) (ra : RemediationAction) : list RemediationAction :=
  if existsb (fun o => (ra_seen_key o =? ra_seen_key ra)) out then out else (out ++ [ra])%list.

(** The reference an incident's resolution gives, when it stays in the
    persona's namespace. *)
Definition trusted_reference (ref : PersonaReference) (incident : IncidentMemory) : option ObjectKey :=
  match im_Resolution (im_Spec incident) with
  | None => None
  | Some res =>
      match rs_RemediationRef res with
      | None => None
      | Some rr =>
          if (rmr_Name rr =? "") then None else
          let namespace := if (rmr_Namespace rr =? "") then im_Namespace incident else rmr_Namespace rr in
          if negb (namespace =? personaNamespace ref) then None else Some (mkKey (rmr_Name rr) namespace)
      end
  end.

Section context.
Context `{Client W}.

Definition loadAppPersona (ref : PersonaReference) : io W (result error ApplicationPersona) :=
  if negb (pr_Kind ref =? "") && negb (pr_Kind ref =? planKindApplicationPersona) then
    ierr (ErrText ("unsupported persona kind " ++ fmt_q (pr_Kind ref) ++ " for remediation planning"))
  else
    wrap_io ("getting ApplicationPersona " ++ personaNamespace ref ++ "/" ++ pr_Name ref)
      (getPersona (mkKey (pr_Name ref) (personaNamespace ref))).

Definition loadClusterPersona : io W (option ClusterPersona) :=
  let! list := listClusterPersonas in
  mret (match list with Ok (cp :: _) => Some cp | _ => None end).

Definition persona_opts (ref : PersonaReference) : ListOptions :=
  mkListOptions (Some (personaNamespace ref)) [(planLabelPersonaName, pr_Name ref)].

Definition loadPastIncidents (ref : PersonaReference) : io W (list IncidentMemory) :=
  let! list := listIncidents (persona_opts ref) in
  mret (match list with Ok items => recent_incidents items | Err _ => [] end).

Fixpoint referenced_remediations (ref : PersonaReference) (incidents : list IncidentMemory) (out : list RemediationAction)
  : io W (list RemediationAction) :=
  match incidents with
  | [] => mret out
  | incident :: rest =>
      match trusted_reference ref incident with
      | None => referenced_remediations ref rest out
      | Some key =>
          let! ra := getRA key in
          referenced_remediations ref rest (match ra with Ok ra => add_remediation out ra | Err _ => out end)
      end
  end.

Definition loadPastRemediations (ref : PersonaReference) (incidents : list IncidentMemory) : io W (list RemediationAction) :=
  let! out := referenced_remediations ref incidents [] in
  let! list := listRA (persona_opts ref) in
  mret (match list with Ok items => foldl add_remediation out items | Err _ => out end).

(** [BuildContext]; [None] is the nil incident. *)
Definition BuildContext (diag : Diagnosis) (incident : option IncidentMemory) : io W (result error RemediationContext) :=
  match incident with
  | None => ierr (ErrText "incident is required to build remediation context")
  | Some incident =>
      match personaReference diag incident with
      | None => ierr (ErrText "no persona reference available to build remediation context")
      | Some ref =>
          let* appPersona := wrap_io "loading application persona" (loadAppPersona ref) in
          let! clusterPersona := loadClusterPersona in
          let! pastIncidents := loadPastIncidents ref in
          let! pastRemediations := loadPastRemediations ref pastIncidents in
          iok (mkRemediationContext diag (signalsFromDiagnosis diag) (Some appPersona) None clusterPersona
                 pastIncidents pastRemediations)
      end
  end.
End context.

(** ** workload.go *)

Definition AnnotationImportedImage : string := "dorgu.io/imported-image".

Definition keep_image (currentImage : string) (out : list string) (c : string) : list string :=
  if (c =? "") || (c =? currentImage) || existsb (String.eqb c) out then out else (out ++ [c])%list.

Definition image_candidates (persona : ApplicationPersona) : list string :=
  mget (ap_Annotations persona) AnnotationImportedImage
  :: match apst_Deployments (ap_Status persona) with Some d => [dt_LastSuccessful d; dt_Current d] | None => [] end.

Definition priorImages (persona : option ApplicationPersona) (currentImage : string) : list string :=
  match persona with
  | None => []
  | Some persona => foldl (keep_image currentImage) [] (image_candidates persona)
  end.

Definition NewWorkloadContext `{QuantityOps} (ref : option WorkloadRef) (deploy : option Deployment)
    (persona : option ApplicationPersona) : option WorkloadContext :=
  match ref with
  | None => None
  | Some r =>
      if (wr_Name r =? "") then None else
      Some (mkWorkloadContext r
        (match deploy with Some d => default 0%Z (dp_Replicas d) | None => 0%Z end)
        (match deploy with Some d => dp_ReadyReplicas d | None => 0%Z end)
        (priorImages persona (wr_ObservedImage r)))
  end.

(** ** claude.go *)

Definition maxParseRetries : nat := 1.
Definition planToolName : string := "submit_remediation_plan".
Definition ErrMalformedPlan : error := ErrText "planner: malformed structured output from model".

Record claudeContent := mkContent { cc_Type : string; cc_Name : string; cc_Input : raw_json }.
Record rawStep := mkRawStep {
  rw_Order : Z; rw_Type : string; rw_Description : string; rw_Rationale : string; rw_Risk : string;
  rw_Patch : option json;      (* the field as the model wrote it *)
  rw_Command : string;
}.
Record rawPlan := mkRawPlan { rp_RootCause : string; rp_Confidence : f64; rp_Steps : list rawStep }.

(** [encoding/json] on the answer: the envelope's blocks, a tool input, and the
    document a text holds ([json.Valid]). *)
Class PlanCodec := {
  decode_envelope : string -> result string (list claudeContent);
  decode_plan : raw_json -> result string rawPlan;
  json_text : string -> option json;
}.

(** One HTTP exchange: the status code and the body, or a transport error. *)
Class Transport `{QuantityOps} (W : Type) := post_plan : RemediationContext -> io W (result error (Z * string)).

(** What one attempt can come to: [parseErr] may be retried, [callErr] not. *)
Inductive attempt :=
| Planned (plan : RemediationPlan)
| ParseErr (why : string)
| CallErr (e : error).

Section claude.
Context `{PlanCodec}.

(** [(p *planPatch) UnmarshalJSON]: a JSON text or the object itself; anything
    else is no patch. *)
Definition plan_patch (data : option json) : raw_json :=
  match data with
  | None => RawEmpty
  | Some JNull => RawEmpty
  | Some (JStr encoded) =>
      if (encoded =? "") then RawEmpty
      else match json_text encoded with Some v => RawDoc v | None => RawEmpty end
  | Some (JObj m) => RawDoc (JObj m)
  | Some _ => RawEmpty
  end.

Definition to_planned (s : rawStep) : PlannedStep :=
  mkPlanned (rw_Order s) (rw_Type s) (rw_Description s) (rw_Rationale s) (rw_Risk s) (plan_patch (rw_Patch s)) (rw_Command s).
Definition toPlan (r : rawPlan) : RemediationPlan :=
  mkPlan (rp_RootCause r) (rp_Confidence r) (map to_planned (rp_Steps r)).

Definition is_plan_block (b : claudeContent) : bool := (cc_Type b =? "tool_use") && (cc_Name b =? planToolName).

Definition extractPlan (content : list claudeContent) : result string RemediationPlan :=
  match find_first is_plan_block content with
  | None => Err ("no " ++ planToolName ++ " tool_use block in response")
  | Some block =>
      match decode_plan (cc_Input block) with
      | Err e => Err ("unmarshal tool input: " ++ e)
      | Ok raw => Ok (toPlan raw)
      end
  end.

Context `{Transport W}.

Definition callOnce (rc : RemediationContext) : io W attempt :=
  let! resp := post_plan rc in
  mret (match resp with
        | Err e => CallErr e
        | Ok (status, body) =>
            if negb (status =? 200)%Z then
              CallErr (ErrText ("planner: API returned status " ++ fmt_d status ++ ": " ++ body))
            else match decode_envelope body with
                 | Err e => ParseErr ("unmarshal response envelope: " ++ e)
                 | Ok content => match extractPlan content with Err e => ParseErr e | Ok plan => Planned plan end
                 end
        end).

(** The loop, one attempt per unit: [maxParseRetries + 1] of them. *)
Fixpoint attempt_loop (attempts : nat) (rc : RemediationContext) (lastErr : string) : io W (result error (option RemediationPlan)) :=
  match attempts with
  | O => ierr (ErrText (err_string ErrMalformedPlan ++ ": " ++ lastErr))
  | S attempts' =>
      let! r := callOnce rc in
      match r with
      | CallErr e => ierr e
      | Planned plan => iok (Some plan)
      | ParseErr e => attempt_loop attempts' rc e
      end
  end.

Definition Claude_PlanRemediation (rc : RemediationContext) : io W (result error (option RemediationPlan)) :=
  attempt_loop (S maxParseRetries) rc "".
End claude.

(** ** Properties *)

Lemma recency_total x y : recency_leb x y = true \/ recency_leb y x = true.
Proof. unfold recency_leb, t_after. destruct (Z.ltb_spec (incidentRecency x) (incidentRecency y)); [right|by left]. apply negb_true_iff, Z.ltb_ge. lia. Qed.
Lemma recency_trans x y z : recency_leb x y = true -> recency_leb y z = true -> recency_leb x z = true.
Proof. unfold recency_leb, t_after. rewrite !negb_true_iff, !Z.ltb_ge. lia. Qed.

Lemma StronglySorted_weaken {A} (R S : A -> A -> Prop) l : (forall x y, R x y -> S x y) -> StronglySorted R l -> StronglySorted S l.
Proof. intros HRS. induction 1 as [|a l _ IH Ha]; constructor; [done|]. eapply Forall_impl; [exact Ha|]. auto. Qed.

(** The model sees at most ten incidents, the most recent ones: nothing shown is
    older than anything left out. *)
Theorem recent_incidents_top (items : list IncidentMemory) :
  exists rest, recent_incidents items ++ rest ≡ₚ items /\
  length (recent_incidents items) = Nat.min MaxPastIncidents (length items) /\
  StronglySorted (fun a b => incidentRecency b <= incidentRecency a)%Z (recent_incidents items) /\
  forall a b, a ∈ recent_incidents items -> b ∈ rest -> (incidentRecency b <= incidentRecency a)%Z.
Proof.
  set (l := insertion_sort recency_leb items). exists (drop MaxPastIncidents l).
  assert (Hs : StronglySorted (fun a b => incidentRecency b <= incidentRecency a)%Z l).
  { eapply StronglySorted_weaken; [|apply insertion_sort_sorted; [apply recency_total|apply recency_trans]].
    intros a b. unfold recency_leb, t_after. rewrite negb_true_iff, Z.ltb_ge. lia. }
  unfold recent_incidents. fold l. split; [rewrite take_drop; apply insertion_sort_perm|].
  split; [rewrite length_take; unfold l; by rewrite (Permutation_length (insertion_sort_perm recency_leb items))|].
  rewrite <- (take_drop MaxPastIncidents l) in Hs. split; [by apply StronglySorted_app_1_l in Hs|].
  intros a b Ha Hb. by eapply (StronglySorted_app_1_elem_of (fun a b => incidentRecency b <= incidentRecency a)%Z).
Qed.

(** ** What the context can read *)

Section noninterference.
Context `{ClientReads W}.

(** Two clusters that answer alike about one namespace and the cluster's own
    persona, whatever else they hold. *)
Record agree_in (ns : string) (w w' : W) : Prop := {
  agree_persona name : (getPersona (mkKey name ns) w).1 = (getPersona (mkKey name ns) w').1;
  agree_ra name : (getRA (mkKey name ns) w).1 = (getRA (mkKey name ns) w').1;
  agree_incidents labels : (listIncidents (mkListOptions (Some ns) labels) w).1 = (listIncidents (mkListOptions (Some ns) labels) w').1;
  agree_ras labels : (listRA (mkListOptions (Some ns) labels) w).1 = (listRA (mkListOptions (Some ns) labels) w').1;
  agree_cluster : (listClusterPersonas w).1 = (listClusterPersonas w').1;
}.

(** Equal answers on two worlds, each left as it was. *)
Definition same_read {A} (m : io W A) (w w' : W) : Prop := exists a, m w = (a, w) /\ m w' = (a, w').

Lemma same_read_intro {A} (m : io W A) w w' : (m w).2 = w -> (m w').2 = w' -> (m w).1 = (m w').1 -> same_read m w w'.
Proof. intros Ha Hb Hc. exists (m w).1. rewrite (read_pair m w), (read_pair m w') by done. cbn. by rewrite Hc. Qed.
Lemma same_read_ret {A} (a : A) w w' : same_read (mret a) w w'.
Proof. by exists a. Qed.
Lemma same_read_bind {A B} (m : io W A) (f : A -> io W B) w w' :
  same_read m w w' -> (forall a, same_read (f a) w w') -> same_read (let! x := m in f x) w w'.
Proof.
  intros (a & Hm & Hm') Hf. destruct (Hf a) as (b & Hb & Hb'). exists b. cbn. unfold mbind, io_bind. by rewrite Hm, Hm'.
Qed.
Lemma same_read_iobind {E A B} (m : io W (result E A)) (f : A -> io W (result E B)) w w' :
  same_read m w w' -> (forall a, same_read (f a) w w') -> same_read (iobind m f) w w'.
Proof.
  intros ([a|e] & Hm & Hm') Hf; unfold same_read, iobind; rewrite Hm, Hm'; [|by exists (Err e)]. apply Hf.
Qed.
Lemma same_read_wrap {A} s (m : io W (result error A)) w w' : same_read m w w' -> same_read (wrap_io s m) w w'.
Proof. intros (a & Hm & Hm'). unfold same_read, wrap_io. rewrite Hm, Hm'. by eexists. Qed.

Lemma trusted_reference_ns ref incident key : trusted_reference ref incident = Some key -> key_Namespace key = personaNamespace ref.
Proof.
  unfold trusted_reference. destruct (im_Resolution _) as [res|]; [|done]. destruct (rs_RemediationRef res) as [rr|]; [|done].
  destruct (rmr_Name rr =? ""); [done|]. cbv zeta. set (ns := if (rmr_Namespace rr =? "") then _ else _).
  destruct (String.eqb_spec ns (personaNamespace ref)); cbn [negb]; [|done]. by intros [= <-].
Qed.

Context (ns : string) (w w' : W) (Hagree : agree_in ns w w').

Lemma referenced_same ref incidents out : personaNamespace ref = ns -> same_read (referenced_remediations ref incidents out) w w'.
Proof.
  intros Hns. revert out. induction incidents as [|im rest IH]; intros out; cbn [referenced_remediations]; [apply same_read_ret|].
  destruct (trusted_reference ref im) as [key|] eqn:Hk; [|apply IH]. apply trusted_reference_ns in Hk.
  apply same_read_bind; [|intros r; apply IH]. destruct key as [name kns]. cbn in Hk. subst kns. rewrite Hns.
  apply same_read_intro; [apply getRA_reads..|]. apply Hagree.
Qed.

Lemma BuildContext_same ref diag incident :
  personaReference diag incident = Some ref -> personaNamespace ref = ns -> same_read (BuildContext diag (Some incident)) w w'.
Proof.
  intros Href Hns. unfold BuildContext. rewrite Href. apply same_read_iobind.
  { apply same_read_wrap. unfold loadAppPersona. destruct (negb _ && negb _); [by eexists|]. apply same_read_wrap.
    rewrite Hns. apply same_read_intro; [apply getPersona_reads..|]. apply Hagree. }
  intros persona. apply same_read_bind.
  { apply same_read_bind; [|intros; apply same_read_ret]. apply same_read_intro; [apply listClusterPersonas_reads..|]. apply Hagree. }
  intros cp. apply same_read_bind.
  { apply same_read_bind; [|intros; apply same_read_ret]. unfold persona_opts. rewrite Hns.
    apply same_read_intro; [apply listIncidents_reads..|]. apply Hagree. }
  intros incidents. apply same_read_bind; [|intros; by eexists].
  apply same_read_bind; [by apply referenced_same|]. intros out. apply same_read_bind; [|intros; apply same_read_ret].
  unfold persona_opts. rewrite Hns. apply same_read_intro; [apply listRA_reads..|]. apply Hagree.
Qed.
End noninterference.


(** ** Images and attempts *)

Lemma keep_image_fold current l : forall out, NoDup out -> (forall c, c ∈ out -> c <> "" /\ c <> current) ->
  NoDup (foldl (keep_image current) out l) /\
  (forall c, c ∈ foldl (keep_image current) out l <-> c ∈ out \/ c ∈ l /\ c <> "" /\ c <> current).
Proof.
  induction l as [|x l IH]; intros out Hnd Hout; cbn [foldl].
  { split; [done|]. intros c. split; [by left|]. intros [|[?%not_elem_of_nil _]]; done. }
  unfold keep_image at 2 4. destruct (String.eqb_spec x ""), (String.eqb_spec x current), (existsb (String.eqb x) out) eqn:Hx; cbn [orb];
    try (destruct (IH out Hnd Hout) as [H1 H2]; split; [done|]; intros c; rewrite H2, elem_of_cons; split; [tauto|];
         intros [|[[->|] ?]]; [by left|left|by right]; try tauto; apply existsb_elem in Hx as (y & Hy & Hxy);
         apply String.eqb_eq in Hxy as ->; done).
  assert (Hn : x ∉ out) by (rewrite existsb_not_elem in Hx; intros Hin; specialize (Hx x Hin); by rewrite String.eqb_refl in Hx).
  destruct (IH (out ++ [x])%list) as [H1 H2].
  - apply NoDup_app. split_and!; [done| |apply NoDup_singleton]. intros y Hy ->%list_elem_of_singleton. done.
  - intros c [Hc| ->%list_elem_of_singleton]%elem_of_app; [by apply Hout|done].
  - split; [done|]. intros c. rewrite H2, elem_of_app, list_elem_of_singleton, elem_of_cons. naive_solver.
Qed.

(** The only prior versions the planner may name are ones the cluster recorded:
    the imported image and the deployments' own history, each once, none of them
    the image that is running. *)
Theorem priorImages_recorded (persona : ApplicationPersona) (current : string) :
  NoDup (priorImages (Some persona) current) /\
  forall c, c ∈ priorImages (Some persona) current <-> c ∈ image_candidates persona /\ c <> "" /\ c <> current.
Proof.
  destruct (keep_image_fold current (image_candidates persona) []) as [H1 H2]; [apply NoDup_nil_2|by intros c ?%not_elem_of_nil|].
  split; [done|]. intros c. unfold priorImages. rewrite H2. split; [intros [?%not_elem_of_nil|]; done|by right].
Qed.

Section attempts.
Context `{PlanCodec} `{Transport W}.

(** The model is asked at most twice: a plan or a transport failure ends the
    exchange at once, a malformed answer buys one more attempt, and a second one
    ends it with an error, so the caller falls back to the rules. *)
Theorem Claude_two_attempts (rc : RemediationContext) (w : W) :
  let '(first, w1) := callOnce rc w in
  let '(second, w2) := callOnce rc w1 in
  Claude_PlanRemediation rc w =
    match first, second with
    | Planned plan, _ => (Ok (Some plan), w1)
    | CallErr e, _ => (Err e, w1)
    | ParseErr _, Planned plan => (Ok (Some plan), w2)
    | ParseErr _, CallErr e => (Err e, w2)
    | ParseErr _, ParseErr why => (Err (ErrText ("planner: malformed structured output from model: " ++ why)), w2)
    end.
Proof.
  destruct (callOnce rc w) as [first w1] eqn:Hr1, (callOnce rc w1) as [second w2] eqn:Hr2.
  unfold Claude_PlanRemediation, maxParseRetries. cbn [attempt_loop]. unfold mbind, io_bind. rewrite Hr1.
  destruct first; [done| |done]. rewrite Hr2. by destruct second.
Qed.
End attempts.

(** ** Witnesses *)

#[local] Existing Instance int_quantity.

Definition ex_planned_incident : IncidentMemory :=
  mkIM (mkMeta "im-1" "shop" ∅ 0%Z None 0)
    (mkIMSpec (mkPersonaRef "ApplicationPersona" "api" "shop") "" "health" "critical" (mkDetectionInfo "OOMKilled" "pod" 0%Z 0%Z []) None [] None)
    (mkIMStatus "Detected" 1 None []).
Definition ex_planned_diagnosis : Diagnosis :=
  mkDiagnosis "" f_one "rule-based" "health" "critical" (Some (mkPersonaRef "ApplicationPersona" "api" "shop")) [] [] "" 0%Z.
(** Another namespace holds an incident that names the same persona. *)
Definition ex_planning (foreign : gmap ObjectKey IncidentMemory) : Mem :=
  mkMem _ 0%Z ∅ {[mkKey "api" "shop" := ex_limited "100"]} foreign [] ∅ [] [] [] None.
Definition ex_foreign : IncidentMemory :=
  mkIM (mkMeta "im-1" "bank" {["dorgu.io/persona-name" := "api"]} 0%Z None 0) (im_Spec ex_planned_incident) (im_Status ex_planned_incident).

