(* ===== verification/Plan.v ===== *)
(** * From a model's plan to a RemediationAction (internal/remediation:
    proposer_ai.go and proposer_ai_appliable.go).

    The model authors the explanation; what reaches the cluster is decided here:
    patches are filtered and capped against the live workload, a plan that
    applies nothing for a diagnosed resource change gets the rules' own patch or
    is refused, and every surface is scrubbed before the action is created. *)

From S2P Require Import Prelude GoString GoNum Sha256 Json ApiTypes KubeTypes Steps Client Safety Signals Diagnosis Executor.
From S2P Require Import Ownership Grounding Prose Disclosure Refused Workload HealthCheck Sizing Planner.
From Stdlib Require Import String Ascii.
From stdpp Require Import strings.
Open Scope string_scope.

Definition PlanSourceAIAnthropic : string := "ai-anthropic".
Definition PlanSourceRuleBased : string := "rule-based".
Definition defaultHealthCheckAfter : duration := (10 * minute)%Z.
Definition maxActionNameLength : nat := 253.
Definition actionNameOverhead : nat := 18.

(** ** Names *)

Definition sanitize_action_byte (c : ascii) : ascii :=
  if is_lower c || is_digit c || Ascii.eqb c "-" then c else if is_upper c then to_lower_byte c else "-"%char.
Definition sanitizeActionName (s : string) : string := str_map sanitize_action_byte s.
Definition truncateStr (s : string) (maxLen : nat) : string :=
  if (String.length s <=? maxLen)%nat then s else str_take maxLen s.

Definition action_name (incident : IncidentMemory) (actionType : string) (now : time) : string :=
  let hashInput := im_Namespace incident ++ "/" ++ im_Name incident ++ "/" ++ actionType ++ "/" ++ fmt_d (unix_nano now) in
  let hashStr := fmt_x (firstn 6 (Sum256 hashInput)) in
  let maxSegmentLen := Nat.div (maxActionNameLength - actionNameOverhead) 3 in
  let persona := truncateStr (sanitizeActionName (pr_Name (im_PersonaRef (im_Spec incident)))) maxSegmentLen in
  let action := truncateStr (sanitizeActionName actionType) maxSegmentLen in
  "ra-" ++ persona ++ "-" ++ action ++ "-" ++ hashStr.

(** [generateActionName]: the time of the call is hashed in. *)
Definition generateActionName `{Client W} (incident : IncidentMemory) (actionType : string) : io W string :=
  let! now := clock in mret (action_name incident actionType now).

(** [fmt.Sprintf("%v", reasons)] on a slice of strings. *)
Definition fmt_v_strings (l : list string) : string := "[" ++ strings_join " " l ++ "]".
Definition violation_reason (v : SafetyViolation) : string := "[" ++ sv_Rule v ++ "] " ++ sv_Message v.

(** ** Field updates of a step *)

Definition set_safety (l : list StepSafety) (s : RemediationStep) : RemediationStep :=
  mkStep (st_Order s) (st_ID s) (st_Type s) (st_Description s) (st_Rationale s) (st_Risk s) (st_AutoExecutable s)
    (st_Command s) (st_Patch s) (st_PrePatchState s) l.
Definition set_patches (patch pre : option raw_json) (auto : bool) (s : RemediationStep) : RemediationStep :=
  set_pre pre (set_patch patch auto s).
Definition set_auto (auto : bool) (s : RemediationStep) : RemediationStep := set_patch (st_Patch s) auto s.
Definition set_order (order : Z) (id : string) (s : RemediationStep) : RemediationStep :=
  mkStep order id (st_Type s) (st_Description s) (st_Rationale s) (st_Risk s) (st_AutoExecutable s)
    (st_Command s) (st_Patch s) (st_PrePatchState s) (st_Safety s).
Definition set_type (t : string) (s : RemediationStep) : RemediationStep :=
  mkStep (st_Order s) (st_ID s) t (st_Description s) (st_Rationale s) (st_Risk s) (st_AutoExecutable s)
    (st_Command s) (st_Patch s) (st_PrePatchState s) (st_Safety s).

Definition is_persona_update (s : RemediationStep) : bool := (st_Type s =? StepTypePersonaUpdate).
(** The steps the operator would apply itself. *)
Definition operator_step (s : RemediationStep) : bool := st_AutoExecutable s && is_persona_update s.

(** ** The words of a verdict *)

Definition formatRatio (ratio : f64) : string := fmt_f 1 ratio ++ "x".

Definition dorguAuthoredDescription (base : string) (safety : list StepSafety) : string :=
  strings_join " " ((if (base =? "") then "This step applies nothing." else base) :: map ss_Message safety).

Definition describeStepPatch (patch : option raw_json) : string :=
  match patch with
  | None => ""
  | Some raw =>
      if raw_len0 raw then "" else
      let values := patchLeafValues raw in
      if decide (values = ∅) then ""
      else "Set " ++ humanFieldList (omap (fun field => v ← values !! field; Some (field ++ " to " ++ v))
                                       (sort_strings (map_keys values))) ++ " on the ApplicationPersona."
  end.

Definition guardedRationale : string :=
  "Dorgu decides what its guardrails permit, so the outcome above is Dorgu's own arithmetic against the workload it observed, not the plan's account of it.".

Definition derivedRationale (safety : list StepSafety) : string :=
  if existsb (fun s => (ss_Verdict s =? SafetyVerdictClamped)) safety then guardedRationale
  else "The plan named this resource change without a patch Dorgu could apply, so Dorgu sized it with the same calculation the rule-based path uses, against the workload it observed.".

Definition blastRadiusRejectedMessage (s : StepSafety) : string :=
  "Blast-radius guardrail: the plan asked to set " ++ ss_Field s ++ " to " ++ ss_Requested s ++ ", which is " ++ ss_Ratio s
  ++ " the current " ++ ss_Baseline s ++ ". The ceiling is " ++ ss_MaxRatio s
  ++ ", so this field is refused and nothing will be applied for it.".

Definition blastRadiusClampedMessage (s : StepSafety) : string :=
  "Blast-radius guardrail: the plan asked to set " ++ ss_Field s ++ " to " ++ ss_Requested s ++ ", which is " ++ ss_Ratio s
  ++ " the current " ++ ss_Baseline s ++ ". The ceiling is " ++ ss_MaxRatio s ++ ", so Dorgu will apply " ++ ss_Permitted s
  ++ " instead, which may not be enough on its own.".

Definition derivedMessage (field permitted : string) : string :=
  "The plan named a change to " ++ field ++ " but carried no patch Dorgu could apply, so Dorgu sized it to " ++ permitted
  ++ " from the workload it observed.".

Definition set_message (m : string) (s : StepSafety) : StepSafety :=
  mkStepSafety (ss_Rule s) (ss_Verdict s) (ss_Field s) (ss_Baseline s) (ss_Requested s) (ss_Permitted s) (ss_Ratio s) (ss_MaxRatio s) m.

(** ** The pre-patch snapshot *)

(** [mirrorExistingPaths]: the current values at the patch's paths. *)
Fixpoint mirrorExistingPaths (patch : json) (current : gmap string json) : gmap string json :=
  match patch with
  | JObj pm => map_fold (fun key patchVal out =>
      match current !! key with
      | None => out
      | Some curVal =>
          match patchVal, curVal with
          | JObj _, JObj curChild =>
              let child := mirrorExistingPaths patchVal curChild in
              if decide (child = ∅) then out else <[key := JObj child]> out
          | _, _ => <[key := curVal]> out
          end
      end) ∅ pm
  | _ => ∅
  end.

Definition snapshotPrePatch `{SpecCodec} (persona : option ApplicationPersona) (patch : raw_json) : option raw_json :=
  match persona with
  | None => None
  | Some persona =>
      match unmarshal_map patch with
      | Err _ => None
      | Ok patchMap =>
          let snap := mirrorExistingPaths (JObj patchMap) {["spec" := JObj (marshal_spec (ap_Spec persona))]} in
          if decide (snap = ∅) then None else Some (RawDoc (JObj snap))
      end
  end.

(** ** Mapping the model's steps *)

(** One verdict per resource key the live container does not set. *)
Definition absent_verdict (values : gmap string string) (ref : WorkloadRef) (field : string) : StepSafety :=
  mkStepSafety SafetyRuleAbsentField SafetyVerdictRejected field "" (mget values field) "" "" ""
    ("Left out: container " ++ fmt_q (wr_Container ref) ++ " on " ++ wr_Name ref ++ " does not set " ++ last_segment field
     ++ " today, so Dorgu will not introduce it as a side effect of another fix. Ask for it as its own change.").

Definition recordAbsentFields (requested : raw_json) (dropped : list string) (ref : WorkloadRef) (step : RemediationStep) : RemediationStep :=
  let values := patchLeafValues requested in
  set_safety (st_Safety step ++ map (absent_verdict values ref) dropped)%list step.

Definition advisoryCommand (ps : PlannedStep) : string :=
  if (ps_Type ps =? StepTypePersonaUpdate) then "" else SanitizeStepCommand (ps_Command ps).

(** [len(ps.Patch) > 0 && json.Valid(ps.Patch)]. *)
Definition usable_patch (patch : raw_json) : bool := match patch with RawDoc _ => true | _ => false end.

Definition mapPlannedStep `{SpecCodec} (persona : option ApplicationPersona) (ref : WorkloadRef) (ps : PlannedStep) : RemediationStep :=
  let is_update := (ps_Type ps =? StepTypePersonaUpdate) in
  let step := mkStep (ps_Order ps) ("step-" ++ fmt_d (ps_Order ps)) (ps_Type ps) (ps_Description ps) (ps_Rationale ps)
                (ps_Risk ps) is_update (advisoryCommand ps) None None [] in
  if is_update && usable_patch (ps_Patch ps) then
    let requested := ps_Patch ps in
    let '(patch, dropped) := dropAbsentResourceKeys (Some requested) (Some ref) in
    let step := match dropped with
                | [] => step
                | _ => recordAbsentFields requested dropped ref (set_rationale (appendNote (st_Rationale step) (absentKeyNote ref dropped)) step)
                end in
    match patch with
    | Some raw => set_patches (Some raw) (snapshotPrePatch persona raw) (st_AutoExecutable step) step
    | None => set_patches None (st_PrePatchState step) false step
    end
  else if is_update then set_auto false step
  else step.

Definition mapPlannedSteps `{SpecCodec} (plan : RemediationPlan) (persona : option ApplicationPersona) (ref : WorkloadRef) : list RemediationStep :=
  map (mapPlannedStep persona ref) (pl_Steps plan).

(** ** Assembling the action *)

Definition formatConfidence (c : f64) : string :=
  let c := if f_lt c f_zero then f_zero else c in
  let c := if f_lt f_one c then f_one else c in
  fmt_f 2 c.

(** [setBackCompatAction]: the legacy action is the first step the operator
    would apply, or a notification. *)
Definition backCompatDetail (steps : list RemediationStep) : RemediationActionDetail :=
  match find_first operator_step steps with
  | Some step => mkActionDetail StepTypePersonaUpdate (st_Patch step) (st_PrePatchState step)
  | None => mkActionDetail ActionTypeNotification None None
  end.
Definition setBackCompatAction (action : RemediationAction) : RemediationAction :=
  set_action (backCompatDetail (ra_Steps (ra_Spec action))) action.

Definition pending_status : RemediationActionStatus := mkRAStatus phasePending "" None None "" [] 0 [].

(** What both planning paths put on an action. *)
Definition action_meta (name namespace : string) (ref : PersonaReference) : ObjectMeta :=
  mkMeta name namespace
    {["dorgu.io/persona-kind" := pr_Kind ref; "dorgu.io/persona-name" := pr_Name ref; "dorgu.io/persona-namespace" := namespace]}
    0%Z None 0.
Definition action_approval : option ApprovalSpec := Some (mkApproval true None None).
Definition action_rollback : option RemediationRollbackSpec := Some (mkRollbackSpec true (Some defaultHealthCheckAfter) 1).
Definition action_namespace (ref : PersonaReference) : string :=
  if (pr_Namespace ref =? "") then defaultNamespace else pr_Namespace ref.
Definition incident_ref (incident : IncidentMemory) : IncidentReference := mkIncidentRef (im_Name incident) (im_Namespace incident).

Definition plan_action (ref : PersonaReference) (incident : IncidentMemory) (plan : RemediationPlan)
    (steps : list RemediationStep) (workloadRef : WorkloadRef) (name : string) : RemediationAction :=
  setBackCompatAction
    (mkRA (action_meta name (action_namespace ref) ref)
       (mkRASpec (incident_ref incident) ref 2 (mkActionDetail "" None None) steps PlanSourceAIAnthropic (pl_RootCause plan)
          (planExplanation steps) (formatConfidence (pl_Confidence plan)) (Some workloadRef) action_approval action_rollback)
       no_action_status).

Definition buildPlanAction `{Client W} (ref : PersonaReference) (incident : IncidentMemory) (plan : RemediationPlan)
    (steps : list RemediationStep) (workloadRef : WorkloadRef) : io W RemediationAction :=
  let! name := generateActionName incident "ai-remediation" in
  mret (plan_action ref incident plan steps workloadRef name).

(** ** The guardrails, step by step *)

Definition probe_spec (d : RemediationActionDetail) (action : RemediationAction) : RemediationAction :=
  set_action d (set_steps [] action).

Definition probeActionForStep (action : RemediationAction) (step : RemediationStep) (ref : WorkloadRef) : RemediationAction :=
  let pre := match groundedPrePatch (st_Patch step) (Some ref) with Some g => Some g | None => st_PrePatchState step end in
  probe_spec (mkActionDetail StepTypePersonaUpdate (st_Patch step) pre) action.
Definition probeAdvisoryAction (action : RemediationAction) : RemediationAction :=
  probe_spec (mkActionDetail ActionTypeNotification None None) action.

Definition RuleBlastRadius : string := "blast-radius".
Definition is_blast_radius (v : SafetyViolation) : bool := (sv_Rule v =? RuleBlastRadius).

(** [globalSeen] and [globalReasons] together: the keys, in order, with their text. *)
Definition add_global (globals : list (string * string)) (v : SafetyViolation) : list (string * string) :=
  let key := sv_Rule v ++ "|" ++ sv_Message v in
  if existsb (fun g => (g.1 =? key)) globals then globals else (globals ++ [(key, violation_reason v)])%list.

Definition refusal_entry (v : SafetyViolation) : StepSafety :=
  match sv_BlastRadius v with
  | None => mkStepSafety SafetyRuleBlastRadius SafetyVerdictRejected "" "" "" "" "" "" (sv_Message v)
  | Some d =>
      let entry := mkStepSafety SafetyRuleBlastRadius SafetyVerdictRejected (br_Field d) (br_Baseline d) (br_Requested d) ""
                     (formatRatio (br_Ratio d)) (formatRatio (br_MaxRatio d)) (sv_Message v) in
      set_message (blastRadiusRejectedMessage entry) entry
  end.
Definition refused_fields (refusals : list SafetyViolation) : list string :=
  omap (fun v => br_Field <$> sv_BlastRadius v) refusals.

Definition refuseStepFields (step : RemediationStep) (refusals : list SafetyViolation) : RemediationStep :=
  match refusals with
  | [] => step
  | _ =>
      let safety := (st_Safety step ++ map refusal_entry refusals)%list in
      let fields := refused_fields refusals in
      let patch := prunePatchPaths (st_Patch step) fields in
      let pre := prunePatchPaths (st_PrePatchState step) fields in
      set_step_text (st_Command step) (dorguAuthoredDescription (describeStepPatch patch) safety) guardedRationale
        (set_safety safety (set_patches patch pre (match patch with None => false | Some _ => st_AutoExecutable step end) step))
  end.

Section safety.
Context `{Client W} (sc : SafetyCheckerImpl).

(** The loop over the steps; [checkedAny] is whether any step was checked. *)
Fixpoint check_steps (action : RemediationAction) (ref : WorkloadRef) (steps : list RemediationStep)
    (globals : list (string * string)) (checkedAny : bool)
  : io W (result error (list RemediationStep * list (string * string) * bool)) :=
  match steps with
  | [] => iok ([], globals, checkedAny)
  | step :: rest =>
      if negb (operator_step step) then
        let* (steps', globals, checkedAny) := check_steps action ref rest globals checkedAny in
        iok (step :: steps', globals, checkedAny)
      else
        let* result := Check sc (probeActionForStep action step ref) in
        let refusals := List.filter is_blast_radius (sr_Violations result) in
        let globals := foldl add_global globals (List.filter (fun v => negb (is_blast_radius v)) (sr_Violations result)) in
        let* (steps', globals, checkedAny) := check_steps action ref rest globals true in
        iok (refuseStepFields step refusals :: steps', globals, checkedAny)
  end.

(** [applyStepSafety]: the action with its refusals recorded, and the reason to
    skip the whole proposal, if any. *)
Definition applyStepSafety (action : RemediationAction) (ref : WorkloadRef) : io W (result error (RemediationAction * string)) :=
  let* (steps, globals, checkedAny) := check_steps action ref (ra_Steps (ra_Spec action)) [] false in
  let* globals := (if (checkedAny : bool) then iok globals
                   else let* result := Check sc (probeAdvisoryAction action) in
                        iok (foldl add_global globals (sr_Violations result))) in
  iok (set_steps steps action,
       match globals with [] => "" | _ => "safety check failed: " ++ fmt_v_strings (map snd globals) end).
End safety.

(** ** A plan that heals, or none *)

Definition step_touches (target : string) (step : RemediationStep) : bool := operator_step step && touches (st_Patch step) target.

Definition appliesDiagnosedChange (action : RemediationAction) (target : string) : bool :=
  if existsb (step_touches target) (ra_Steps (ra_Spec action)) then true
  else match ra_Steps (ra_Spec action) with
       | _ :: _ => false
       | [] => (ad_Type (ra_Action (ra_Spec action)) =? ActionTypePersonaUpdate) && touches (ad_Patch (ra_Action (ra_Spec action))) target
       end.

Definition assertAppliableWhenResourceDiagnosed (action : RemediationAction) (diag : Diagnosis) (ruleEngineDeclined : bool) : option error :=
  let target := diagnosisTargetPath diag in
  if ruleEngineDeclined || (target =? "") || appliesDiagnosedChange action target then None
  else Some (ErrText ("refusing to persist a plan that applies nothing for a diagnosed change to " ++ target
                ++ ": no step carries an appliable persona-update patch for it")).

Definition hasBlastRadiusRefusal (safety : list StepSafety) : bool :=
  existsb (fun s => (ss_Rule s =? SafetyRuleBlastRadius) && (ss_Verdict s =? SafetyVerdictRejected)) safety.

Fixpoint first_index {A} (p : A -> bool) (l : list A) : option nat :=
  match l with [] => None | x :: l' => if p x then Some 0%nat else S <$> first_index p l' end.

(** [personaUpdateStep]: where in the plan the derived patch belongs. *)
Definition personaUpdateStep (steps : list RemediationStep) : option nat :=
  match first_index (fun s => is_persona_update s && hasBlastRadiusRefusal (st_Safety s)) steps with
  | Some i => Some i
  | None => first_index is_persona_update steps
  end.

Definition mergePatches (base overlay : option raw_json) : option raw_json :=
  match base with
  | None => overlay
  | Some b =>
      if raw_len0 b then overlay else
      match overlay with
      | None => base
      | Some o =>
          if raw_len0 o then base else
          match unmarshal_map b with
          | Err _ => overlay
          | Ok baseMap => match unmarshal_map o with
                          | Err _ => base
                          | Ok overlayMap => Some (RawDoc (JObj (mergeMaps baseMap overlayMap)))
                          end
          end
      end
  end.

(** A refusal the derived patch settles. *)
Definition settles (derived : gmap string string) (s : StepSafety) : bool :=
  match derived !! ss_Field s with
  | Some _ => (ss_Rule s =? SafetyRuleBlastRadius) && (ss_Verdict s =? SafetyVerdictRejected)
  | None => false
  end.
Definition clamp_entry (derived : gmap string string) (s : StepSafety) : StepSafety :=
  if settles derived s then
    let s' := mkStepSafety (ss_Rule s) SafetyVerdictClamped (ss_Field s) (ss_Baseline s) (ss_Requested s) (mget derived (ss_Field s))
                (ss_Ratio s) (ss_MaxRatio s) (ss_Message s) in
    set_message (blastRadiusClampedMessage s') s'
  else s.
Definition derived_entry (derived : gmap string string) (field : string) : StepSafety :=
  mkStepSafety SafetyRulePlanValidation SafetyVerdictDerived field "" "" (mget derived field) "" ""
    (derivedMessage field (mget derived field)).

Definition recordDerivedValues (safety : list StepSafety) (derived : gmap string string) : list StepSafety :=
  let settled := map ss_Field (List.filter (settles derived) safety) in
  (map (clamp_entry derived) safety
   ++ map (derived_entry derived) (List.filter (fun f => negb (existsb (String.eqb f) settled)) (sort_strings (map_keys derived))))%list.

Definition installDerivedPatch (patch prePatch : raw_json) (explanation : string) (step : RemediationStep) : RemediationStep :=
  let safety := recordDerivedValues (st_Safety step) (patchLeafValues patch) in
  set_step_text "" (dorguAuthoredDescription explanation safety) (derivedRationale safety)
    (set_safety safety (set_type StepTypePersonaUpdate
      (set_patches (mergePatches (st_Patch step) (Some patch)) (mergePatches (st_PrePatchState step) (Some prePatch)) true step))).

Definition marshal_map (m : option (gmap string json)) : raw_json :=
  match m with Some m => RawDoc (JObj m) | None => RawDoc JNull end.

(** [ensureAppliableResourcePlan]: the action, and whether the rule engine
    declines to size a change. *)
Definition ensureAppliableResourcePlan `{QuantityOps} (action : RemediationAction) (diag : Diagnosis)
    (persona : option ApplicationPersona) (ref : WorkloadRef) : result error (RemediationAction * bool) :=
  let target := diagnosisTargetPath diag in
  if (target =? "") || appliesDiagnosedChange action target then Ok (action, false) else
  match calculateResourceChange diag persona (Some ref) with
  | Err e => Err (ErrWrap "sizing a resource change for an unappliable AI plan" e)
  | Ok change =>
      if negb (rsa_skipReason change =? "") then Ok (action, true) else
      match rsa_patch change with
      | None => Ok (action, true)
      | Some m =>
          let steps := ra_Steps (ra_Spec action) in
          match personaUpdateStep steps with
          | None => Err (ErrText ("AI plan for a diagnosed change to " ++ target
                      ++ " contains no persona-update step, the only kind the operator can apply"))
          | Some i => Ok (set_steps (alter (installDerivedPatch (RawDoc (JObj m)) (marshal_map (rsa_prePatch change)) (rsa_explanation change)) i steps) action, false)
          end
      end
  end.

(** A persona-update step with nothing to write and nothing to say. *)
Definition patchless (s : RemediationStep) : bool :=
  is_persona_update s && negb (hasPatch (st_Patch s)) && match st_Safety s with [] => true | _ => false end.

Definition renumber (steps : list RemediationStep) : list RemediationStep :=
  imap (fun i s => set_order (wrap32 (Z.of_nat i + 1)) ("step-" ++ fmt_d (Z.of_nat i + 1)) s) steps.

Definition dropPatchlessPersonaUpdates (action : RemediationAction) : RemediationAction * nat :=
  let steps := ra_Steps (ra_Spec action) in
  let kept := List.filter (fun s => negb (patchless s)) steps in
  match (length steps - length kept)%nat with
  | O => (action, O)
  | dropped => (set_steps (renumber kept) action, dropped)
  end.

Definition enforceAutoExecutableInvariant (action : RemediationAction) : RemediationAction :=
  set_steps (map (fun s => if st_AutoExecutable s && negb (is_persona_update s) then set_auto false s else s) (ra_Steps (ra_Spec action))) action.

Definition set_explanation (e : string) (action : RemediationAction) : RemediationAction :=
  set_prose (ra_PlanSummary (ra_Spec action)) e (ra_Confidence (ra_Spec action)) action.

(** ** [proposeWithPlanner] *)

(** Everything between the guardrails and the write, in order. *)
Definition finish_plan `{QuantityOps} (ref : WorkloadRef) (action : RemediationAction) : RemediationAction :=
  let action := setBackCompatAction action in
  let action := enforceAutoExecutableInvariant action in
  let action := applyOwnershipShaping action ref in
  let action := stripWorkloadWriteCommands action (Some ref) in
  let action := set_explanation (planExplanation (ra_Steps (ra_Spec action))) action in
  let action := (discloseGroundedBlastRadiusClamp action (Some ref)).1 in
  let action := (scrubRefusedValues action).1 in
  (scrubFabricatedGuardrailClaims action).1.

(** [Create], then the initial status; a failed status write is only logged. *)
Definition persist_action `{Client W} (action : RemediationAction) : io W (result error ProposalResult) :=
  let* created := wrap_io "creating RemediationAction" (createRA action) in
  let pending := set_status created pending_status in
  let! updated := updateStatusRA pending in
  iok (mkProposal (Some (match updated with Ok a => a | Err _ => pending end)) "" true).

Section planner.
Context `{Client W} `{SpecCodec} `{!Planner W} (sc : SafetyCheckerImpl).

(** From the model's plan to the action that is written, or an error, or a skip. *)
Definition settle_plan (diag : Diagnosis) (persona : option ApplicationPersona) (workloadRef : WorkloadRef)
    (action : RemediationAction) : result error RemediationAction :=
  match ensureAppliableResourcePlan action diag persona workloadRef with
  | Err e => Err e
  | Ok (action, ruleEngineDeclined) =>
      let '(action, dropped) := dropPatchlessPersonaUpdates action in
      match dropped, ra_Steps (ra_Spec action) with
      | S _, [] => Err (ErrText "AI plan had nothing left after removing persona-update steps with no patch")
      | _, _ =>
          let action := finish_plan workloadRef action in
          match assertAppliableWhenResourceDiagnosed action diag ruleEngineDeclined with
          | Some e => Err e
          | None => Ok action
          end
      end
  end.

Definition with_workload (rc : RemediationContext) (wc : option WorkloadContext) : RemediationContext :=
  mkRemediationContext (rx_Diagnosis rc) (rx_Signals rc) (rx_AppPersona rc) wc (rx_ClusterPersona rc)
    (rx_PastIncidents rc) (rx_PastRemediations rc).

(** [ref] is the diagnosis's persona reference, which the caller has checked. *)
Definition proposeWithPlanner (diag : Diagnosis) (ref : PersonaReference) (incident : option IncidentMemory)
    (obs : option Observation) (workloadRef : WorkloadRef) : io W (result error ProposalResult) :=
  let* rc := wrap_io "building remediation context" (BuildContext diag incident) in
  let rc := with_workload rc (NewWorkloadContext (Some workloadRef) (ob_Deployment <$> obs) (rx_AppPersona rc)) in
  let* plan := wrap_io "planning remediation" (PlanRemediation rc) in
  match plan, incident with
  | Some plan, Some incident =>
      match pl_Steps plan with
      | [] => ierr (ErrText "planner returned an empty plan")
      | _ =>
          let steps := mapPlannedSteps plan (rx_AppPersona rc) workloadRef in
          let! action := buildPlanAction ref incident plan steps workloadRef in
          let* (action, skip) := wrap_io "safety check" (applyStepSafety sc action workloadRef) in
          if negb (skip =? "") then iok (mkProposal None skip false)
          else match settle_plan diag (rx_AppPersona rc) workloadRef action with
               | Err e => ierr e
               | Ok action => persist_action action
               end
      end
  | _, _ => ierr (ErrText "planner returned an empty plan")
  end.
End planner.
