(* ===== verification/PlanSafety.v ===== *)
(** * What is true of every plan that is written (internal/remediation:
    proposeWithPlanner of proposer_ai.go, stage by stage).

    Each stage relates the plan it is given to the plan it returns; the facts a
    written plan must have are carried through the later stages by that
    relation. *)

From S2P Require Import Prelude GoString GoNum Json ApiTypes KubeTypes Steps KubectlVerb Client Safety Signals Diagnosis Executor.
From S2P Require Import Ownership Grounding Prose Disclosure Refused Workload HealthCheck Sizing Planner Plan.
From Stdlib Require Import String Ascii.
From stdpp Require Import strings.
Open Scope string_scope.

(** ** How a stage may change a step *)

(** Never promoted, never retyped, its command kept or dropped, its verdicts
    kept. *)
Record step_le (s s' : RemediationStep) : Prop := {
  sl_type : st_Type s' = st_Type s;
  sl_auto : st_AutoExecutable s' = true -> st_AutoExecutable s = true;
  sl_command : st_Command s' = "" \/ st_Command s' = st_Command s;
  sl_safety : st_Safety s' = st_Safety s;
}.

#[export] Instance step_le_refl : Reflexive step_le.
Proof. intros s. split; auto. Qed.
#[export] Instance step_le_trans : Transitive step_le.
Proof.
  intros a b c [T1 A1 C1 S1] [T2 A2 C2 S2]. split; [congruence|auto| |congruence].
  destruct C2 as [|Hc]; [by left|]. destruct C1 as [Hb|Hb]; [left|right]; congruence.
Qed.

Definition steps_of (action : RemediationAction) : list RemediationStep := ra_Steps (ra_Spec action).
Definition plan_le (a b : RemediationAction) : Prop := Forall2 step_le (steps_of a) (steps_of b).

#[export] Instance plan_le_trans : Transitive plan_le.
Proof. intros a b c. unfold plan_le. apply transitivity. Qed.

Lemma plan_le_map f a b : steps_of b = map f (steps_of a) -> (forall s, step_le s (f s)) -> plan_le a b.
Proof. intros Hb Hf. unfold plan_le. rewrite Hb. clear Hb. induction (steps_of a); cbn; by constructor. Qed.
Lemma plan_le_same a b : steps_of b = steps_of a -> plan_le a b.
Proof. intros Hb. apply (plan_le_map id); [by rewrite Hb, map_id|done]. Qed.

Lemma plan_le_effect a b : map step_effect (steps_of b) = map step_effect (steps_of a) -> plan_le a b.
Proof.
  unfold plan_le. generalize (steps_of a) (steps_of b). intros l. induction l as [|s l IH]; intros [|s' l']; [by constructor|done|done|].
  cbn. intros [= H1 H2 H3 H4 H5 H6 H7 H8 H9 Hl]. constructor; [|by apply IH]. split; [done|by rewrite H5|by right|done].
Qed.

Lemma plan_le_in a b s' : plan_le a b -> s' ∈ steps_of b -> exists s, s ∈ steps_of a /\ step_le s s'.
Proof.
  unfold plan_le. intros HF (i & Hi)%list_elem_of_lookup. destruct (Forall2_lookup_r _ _ _ _ _ HF Hi) as (s & Hs & Hle).
  exists s. split; [by eapply list_elem_of_lookup_2|done].
Qed.

Lemma plan_le_safety a b : plan_le a b -> map st_Safety (steps_of b) = map st_Safety (steps_of a).
Proof. unfold plan_le. induction 1 as [|s s' l l' Hs _ IH]; [done|]. cbn. by rewrite IH, (sl_safety _ _ Hs). Qed.

Lemma plan_le_refused `{QuantityOps} a b : plan_le a b -> refusedValues b = refusedValues a.
Proof. intros Hle. unfold refusedValues. fold (steps_of a) (steps_of b). by rewrite (plan_le_safety a b). Qed.
Lemma plan_le_no_verdict a b : plan_le a b -> no_verdict b = no_verdict a.
Proof.
  unfold plan_le, no_verdict. fold (steps_of a) (steps_of b). induction 1 as [|s s' l l' Hs _ IH]; [done|].
  cbn. by rewrite IH, (sl_safety _ _ Hs).
Qed.

(** Facts a later stage cannot undo. *)
Definition only_personas_auto (a : RemediationAction) : Prop :=
  forall s, s ∈ steps_of a -> st_AutoExecutable s = true -> st_Type s = StepTypePersonaUpdate.
Definition no_workload_writes (a : RemediationAction) : Prop :=
  forall s, s ∈ steps_of a -> writesWorkload (st_Command s) = false.
Definition offers_nothing_refused `{QuantityOps} (a : RemediationAction) : Prop :=
  forall s, s ∈ steps_of a -> offersRefusedValue (st_Command s) (refusedValues a) = false.

Lemma only_personas_auto_le a b : plan_le a b -> only_personas_auto a -> only_personas_auto b.
Proof. intros Hle Ha s' Hs' Hauto. destruct (plan_le_in a b s' Hle Hs') as (s & Hs & [Ht Hau _ _]). rewrite Ht. apply Ha; auto. Qed.
Lemma no_workload_writes_le a b : plan_le a b -> no_workload_writes a -> no_workload_writes b.
Proof. intros Hle Ha s' Hs'. destruct (plan_le_in a b s' Hle Hs') as (s & Hs & [_ _ [->| ->] _]); [done|by apply Ha]. Qed.

Lemma offers_empty `{QuantityOps} refused : offersRefusedValue "" refused = false.
Proof. apply existsb_not_elem. intros r _. unfold mentionsRefusedValue. by rewrite orb_true_r. Qed.
Lemma offers_nothing_le `{QuantityOps} a b : plan_le a b -> offers_nothing_refused a -> offers_nothing_refused b.
Proof.
  intros Hle Ha s' Hs'. rewrite (plan_le_refused a b) by done.
  destruct (plan_le_in a b s' Hle Hs') as (s & Hs & [_ _ [->| ->] _]); [apply offers_empty|by apply Ha].
Qed.

(** ** The stages *)

Section stages.
Context `{QuantityOps}.

Lemma backcompat_le a : plan_le a (setBackCompatAction a).
Proof. by apply plan_le_same. Qed.

Lemma enforce_le a : plan_le a (enforceAutoExecutableInvariant a).
Proof. eapply plan_le_map; [done|]. intros s. cbn beta. destruct (st_AutoExecutable s && negb (is_persona_update s)); [|reflexivity]. split; cbn; [done..|by right|done]. Qed.
Lemma enforce_only a : only_personas_auto (enforceAutoExecutableInvariant a).
Proof.
  intros s Hs Hauto. apply list_elem_of_fmap in Hs as (s0 & -> & _). unfold is_persona_update in *.
  destruct (String.eqb_spec (st_Type s0) StepTypePersonaUpdate) as [He|Hne]; [by destruct (st_AutoExecutable s0)|].
  by destruct (st_AutoExecutable s0) eqn:E; cbn in Hauto; [|congruence].
Qed.

Lemma reshape_le ref changes reason s : step_le s (Ownership.reshape ref changes reason s).
Proof. unfold Ownership.reshape. destruct (reshaped s); [|reflexivity]. split; cbn; [done..|by left|done]. Qed.
Lemma shaping_le a ref : plan_le a (applyOwnershipShaping a ref).
Proof.
  unfold applyOwnershipShaping. destruct (negb _); [by apply plan_le_same|]. cbv zeta.
  eapply plan_le_map; [done|]. intros s. apply reshape_le.
Qed.

Lemma strip_le a ref : plan_le a (stripWorkloadWriteCommands a ref).
Proof.
  unfold stripWorkloadWriteCommands. destruct (negb _); [by apply plan_le_same|]. eapply plan_le_map; [done|].
  intros s. unfold strip_command. destruct (writesWorkload _); [|reflexivity]. split; cbn; [done..|by left|done].
Qed.
Lemma strip_no_writes a ref : WorkloadRef_IsOwned ref = true -> no_workload_writes (stripWorkloadWriteCommands a ref).
Proof.
  intros Ho s. unfold stripWorkloadWriteCommands. rewrite Ho. intros (s0 & -> & _)%list_elem_of_fmap.
  unfold strip_command. by destruct (writesWorkload (st_Command s0)) eqn:E.
Qed.

Lemma disclose_le a ref : plan_le a (discloseGroundedBlastRadiusClamp a ref).1.
Proof. apply plan_le_effect, disclosure_effects. Qed.

Lemma scrubRefused_le a : plan_le a (scrubRefusedValues a).1.
Proof.
  unfold plan_le. apply Forall2_same_length_lookup. split.
  - unfold steps_of. rewrite scrub_steps. destruct (refusedValues a); [done|]. by rewrite length_map.
  - intros i s s' Hs Hs'. apply scrubbed_lookup in Hs' as (s0 & Hs0 & (Hf & Hc & _ & Ha & _)). unfold steps_of in Hs. rewrite Hs in Hs0.
    injection Hs0 as <-. unfold step_frame in Hf. injection Hf as _ _ Ht _ _ Hsf. split; try done. destruct Hc as [|[? _]]; [by left|by right].
Qed.
Lemma scrubRefused_clean a : offers_nothing_refused (scrubRefusedValues a).1.
Proof.
  intros s' (i & Hi)%list_elem_of_lookup. rewrite (plan_le_refused _ _ (scrubRefused_le a)).
  apply scrubbed_lookup in Hi as (s & _ & (_ & Hc & _)). destruct Hc as [->|[-> Ho]]; [apply offers_empty|exact Ho].
Qed.

Lemma scrubFabricated_le a : plan_le a (scrubFabricatedGuardrailClaims a).1.
Proof. apply plan_le_effect. apply scrub_fabricated_facts. Qed.
Lemma scrubFabricated_quiet a : let out := (scrubFabricatedGuardrailClaims a).1 in
  no_verdict out = true -> forall text, text ∈ surfaces out -> assertsGuardrailVerdict text = false.
Proof.
  cbv zeta. rewrite (plan_le_no_verdict _ _ (scrubFabricated_le a)). apply scrub_fabricated_facts.
Qed.
End stages.

(** ** What no stage rewrites *)

Definition envelope (a : RemediationAction) : ObjectMeta * IncidentReference * PersonaReference * (string * Z) * option WorkloadRef * option ApprovalSpec * option RemediationRollbackSpec :=
  let s := ra_Spec a in (ra_Meta a, ra_IncidentRef s, ra_PersonaRef s, (ra_PlanSource s, ra_TrustLevel s), ra_WorkloadRef s, ra_Approval s, ra_Rollback s).

Section envelopes.
Context `{QuantityOps}.

Lemma shaping_envelope a ref : envelope (applyOwnershipShaping a ref) = envelope a.
Proof. unfold applyOwnershipShaping. by destruct (negb _). Qed.
Lemma strip_envelope a ref : envelope (stripWorkloadWriteCommands a ref) = envelope a.
Proof. unfold stripWorkloadWriteCommands. by destruct (negb _). Qed.
Lemma disclose_envelope a ref : envelope (discloseGroundedBlastRadiusClamp a ref).1 = envelope a.
Proof. unfold discloseGroundedBlastRadiusClamp, discloseBlastRadiusClamp. by destruct (clamped_fields _). Qed.
Lemma scrubRefused_envelope a : envelope (scrubRefusedValues a).1 = envelope a.
Proof.
  unfold scrubRefusedValues. destruct (refusedValues a) as [|r rs]; [done|]. cbv zeta.
  by destruct (scrub_detail _ _), (redactRefusedProse (ra_PlanSummary _) _ _), (redactRefusedProse (ra_Explanation _) _ _).
Qed.
Lemma scrubFabricated_envelope a : envelope (scrubFabricatedGuardrailClaims a).1 = envelope a.
Proof.
  unfold scrubFabricatedGuardrailClaims. destruct (negb _); [done|]. cbv zeta.
  by destruct (dropGuardrailClaims (ra_PlanSummary _)), (dropGuardrailClaims (ra_Explanation _)).
Qed.
End envelopes.

(** ** The legacy action is a step the plan shows *)

(** What decides whether the operator applies a step, and what it would apply. *)
Definition op_view (s : RemediationStep) : bool * option raw_json * option raw_json := (operator_step s, st_Patch s, st_PrePatchState s).

Definition coherent (a : RemediationAction) : Prop :=
  ad_Type (ra_Action (ra_Spec a)) = StepTypePersonaUpdate ->
  exists s, s ∈ steps_of a /\ operator_step s = true /\
    ad_Patch (ra_Action (ra_Spec a)) = st_Patch s /\ ad_PrePatchState (ra_Action (ra_Spec a)) = st_PrePatchState s.

Lemma coherent_view a b : map op_view (steps_of b) = map op_view (steps_of a) -> ra_Action (ra_Spec b) = ra_Action (ra_Spec a) -> coherent a -> coherent b.
Proof.
  intros Hv Hd Ha Ht. rewrite Hd in *. destruct (Ha Ht) as (s & Hs & Ho & Hp & Hpre).
  assert (op_view s ∈ map op_view (steps_of b)) as Hin by (rewrite Hv; by apply list_elem_of_fmap_2).
  apply list_elem_of_fmap in Hin as (s' & Hs' & Hin). injection Hs' as E1 E2 E3. exists s'. split_and!; congruence.
Qed.

Lemma core_view l l' : map step_core l = map step_core l' -> map op_view l = map op_view l'.
Proof.
  revert l'. induction l as [|s l IH]; intros [|s' l']; [done..|]. cbn. intros [= E1 E2 E3 E4 E5 E6 E7 E8 Hl].
  f_equal; [|by apply IH]. unfold op_view, operator_step, is_persona_update. by rewrite E3, E5, E6, E7.
Qed.
Lemma effect_view l l' : map step_effect l = map step_effect l' -> map op_view l = map op_view l'.
Proof.
  revert l'. induction l as [|s l IH]; intros [|s' l']; [done..|]. cbn. intros [= E1 E2 E3 E4 E5 E6 E7 E8 E9 Hl].
  f_equal; [|by apply IH]. unfold op_view, operator_step, is_persona_update. by rewrite E3, E5, E7, E8.
Qed.

Lemma backcompat_coherent a : coherent (setBackCompatAction a).
Proof.
  unfold coherent, setBackCompatAction, backCompatDetail. change (steps_of (set_action ?d a)) with (steps_of a).
  fold (steps_of a). destruct (find_first operator_step (steps_of a)) as [s|] eqn:Hf; [|done]. intros _.
  apply find_first_Some in Hf as [Hs Ho]. exists s. done.
Qed.

Lemma enforce_coherent a : coherent a -> coherent (enforceAutoExecutableInvariant a).
Proof.
  apply coherent_view; [|done]. unfold enforceAutoExecutableInvariant, steps_of. cbn [set_steps set_plan ra_Spec ra_Steps].
  rewrite map_map. apply map_ext. intros s. unfold op_view, operator_step.
  destruct (st_AutoExecutable s) eqn:E1, (is_persona_update s) eqn:E2; cbn; rewrite ?E1, ?E2; try done.
Qed.

Lemma shaping_coherent a ref : coherent a -> coherent (applyOwnershipShaping a ref).
Proof.
  unfold applyOwnershipShaping. destruct (negb _); [done|]. apply coherent_view; [|done]. apply core_view.
  unfold steps_of. cbn [set_plan ra_Spec ra_Steps]. rewrite map_map. apply map_ext. intros s. unfold Ownership.reshape. by destruct (reshaped s).
Qed.
Lemma strip_coherent a ref : coherent a -> coherent (stripWorkloadWriteCommands a ref).
Proof.
  unfold stripWorkloadWriteCommands. destruct (negb _); [done|]. apply coherent_view; [|done]. apply core_view.
  unfold steps_of. cbn [set_plan ra_Spec ra_Steps]. rewrite map_map. apply map_ext. intros s. unfold strip_command. by destruct (writesWorkload _).
Qed.

Section coherence.
Context `{QuantityOps}.

Lemma disclose_coherent a ref : coherent a -> coherent (discloseGroundedBlastRadiusClamp a ref).1.
Proof. apply coherent_view; [apply effect_view|]; apply disclosure_effects. Qed.
Lemma scrubFabricated_coherent a : coherent a -> coherent (scrubFabricatedGuardrailClaims a).1.
Proof. destruct (scrub_fabricated_facts a) as (_ & _ & He & Hd & _). apply coherent_view; [by apply effect_view|done]. Qed.

Lemma scrubStep_patch refused s : let '(pruned, changed) := pruneRefusedLeaves (st_Patch s) refused in
  let s' := (scrubStep refused s).1 in
  st_Patch s' = (if changed then pruned else st_Patch s) /\
  st_AutoExecutable s' = (if changed then match pruned with None => false | Some _ => st_AutoExecutable s end else st_AutoExecutable s).
Proof.
  unfold scrubStep. destruct (scrub_patch refused s) as [s1 n1] eqn:H1. pose proof (scrub_command_spec refused s1) as H2.
  destruct (scrub_command refused s1) as [s2 n2]. pose proof (scrub_prose_spec refused s2) as H3.
  destruct (scrub_prose refused s2) as [s3 n3]. cbn [fst] in *. cbv zeta in *. destruct H2 as (_ & Hp & Ha & _).
  unfold step_effect in H3. injection H3 as _ _ _ _ Ha3 _ Hp3 _ _. rewrite Ha3, Hp3, Ha, Hp. unfold scrub_patch in H1.
  destruct (pruneRefusedLeaves (st_Patch s) refused) as [pruned []]; injection H1 as <- _; done.
Qed.

Lemma scrubRefused_coherent a : coherent a -> coherent (scrubRefusedValues a).1.
Proof.
  intros Ha. unfold coherent. rewrite scrub_detail_eq. unfold steps_of. rewrite scrub_steps.
  destruct (refusedValues a) as [|r rs]; [exact Ha|]. set (refused := r :: rs). set (d := ra_Action (ra_Spec a)).
  unfold scrub_detail. destruct (pruneRefusedLeaves (ad_Patch d) refused) as [pruned changed] eqn:Hp.
  assert (Hstep : forall s, s ∈ steps_of a -> operator_step s = true -> ad_Patch d = st_Patch s ->
    (changed = true -> pruned <> None) ->
    (scrubStep refused s).1 ∈ map (fun s => (scrubStep refused s).1) (ra_Steps (ra_Spec a)) /\
    operator_step (scrubStep refused s).1 = true /\ st_Patch (scrubStep refused s).1 = (if changed then pruned else st_Patch s) /\
    st_PrePatchState (scrubStep refused s).1 = st_PrePatchState s).
  { intros s Hs Ho Hd Hnn. split; [by apply (list_elem_of_fmap_2 (fun s => (scrubStep refused s).1))|].
    pose proof (scrubStep_patch refused s) as Hsp. rewrite <- Hd, Hp in Hsp. destruct Hsp as [Hpatch Hauto].
    destruct (scrubStep_spec refused s) as [Hf _]. unfold step_frame in Hf. injection Hf as _ _ Ht _ Hpre _.
    split; [|split; [by rewrite Hpatch; destruct changed|done]]. unfold operator_step, is_persona_update in *.
    rewrite Ht, Hauto. destruct changed; [|done]. destruct pruned; [done|]. by destruct (Hnn eq_refl). }
  destruct changed.
  - destruct pruned as [raw|]; [|done]. cbn [fst ad_Type ad_Patch ad_PrePatchState]. intros Ht.
    destruct (Ha Ht) as (s & Hs & Ho & Hd & Hpre). destruct (Hstep s Hs Ho Hd) as (Hin & Ho' & Hpatch & Hpre'); [done|].
    exists (scrubStep refused s).1. split_and!; try done. by rewrite Hpre'.
  - cbn [fst]. intros Ht. destruct (Ha Ht) as (s & Hs & Ho & Hd & Hpre). destruct (Hstep s Hs Ho Hd) as (Hin & Ho' & Hpatch & Hpre'); [done|].
    exists (scrubStep refused s).1. split_and!; try done; [by rewrite Hpatch|by rewrite Hpre'].
Qed.
End coherence.

(** ** A plan that may be written *)

Definition rule_engine_declines `{QuantityOps} (diag : Diagnosis) : Prop :=
  exists persona ref adj, calculateResourceChange diag persona ref = Ok adj /\ (rsa_skipReason adj <> "" \/ rsa_patch adj = None).

Record sanctioned `{QuantityOps} (diag : Diagnosis) (a : RemediationAction) : Prop := {
  sn_auto : only_personas_auto a;
  sn_commands : offers_nothing_refused a;
  sn_owned : WorkloadRef_IsOwned (ra_WorkloadRef (ra_Spec a)) = true -> no_workload_writes a;
  sn_quiet : no_verdict a = true -> forall text, text ∈ surfaces a -> assertsGuardrailVerdict text = false;
  sn_legacy : steps_of a <> [] -> coherent a;
  sn_heals : diagnosisTargetPath diag = "" \/ appliesDiagnosedChange a (diagnosisTargetPath diag) = true \/ rule_engine_declines diag;
  sn_approval : ra_Approval (ra_Spec a) = action_approval;
  sn_target : d_PersonaRef diag = Some (ra_PersonaRef (ra_Spec a));
}.

Section finish.
Context `{QuantityOps}.

(** The stages of [finish_plan], each named. *)
Lemma finish_plan_facts ref a : let out := finish_plan ref a in
  only_personas_auto out /\ offers_nothing_refused out /\ (WorkloadRef_IsOwned (Some ref) = true -> no_workload_writes out) /\
  (no_verdict out = true -> forall text, text ∈ surfaces out -> assertsGuardrailVerdict text = false) /\
  coherent out /\ envelope out = envelope a.
Proof.
  cbv zeta. unfold finish_plan. cbv zeta. set (a1 := setBackCompatAction a). set (a2 := enforceAutoExecutableInvariant a1).
  set (a3 := applyOwnershipShaping a2 ref). set (a4 := stripWorkloadWriteCommands a3 (Some ref)).
  set (a5 := set_explanation _ a4). set (a6 := (discloseGroundedBlastRadiusClamp a5 (Some ref)).1).
  set (a7 := (scrubRefusedValues a6).1). set (a8 := (scrubFabricatedGuardrailClaims a7).1).
  assert (L45 : plan_le a4 a5) by by apply plan_le_same. pose proof (disclose_le a5 (Some ref)) as L56. fold a6 in L56.
  pose proof (scrubRefused_le a6) as L67. fold a7 in L67. pose proof (scrubFabricated_le a7) as L78. fold a8 in L78.
  assert (L48 : plan_le a4 a8) by (etransitivity; [exact L45|]; etransitivity; [exact L56|]; etransitivity; [exact L67|exact L78]).
  assert (L28 : plan_le a2 a8) by (etransitivity; [apply shaping_le|]; etransitivity; [apply strip_le|exact L48]).
  split; [|split; [|split; [|split; [|split]]]].
  - apply (only_personas_auto_le _ _ L28), enforce_only.
  - apply (offers_nothing_le _ _ L78), scrubRefused_clean.
  - intros Ho. by apply (no_workload_writes_le _ _ L48), strip_no_writes.
  - apply scrubFabricated_quiet.
  - apply scrubFabricated_coherent, scrubRefused_coherent, disclose_coherent.
    apply (coherent_view a4); [done|done|]. apply strip_coherent, shaping_coherent, enforce_coherent, backcompat_coherent.
  - unfold a8, a7, a6. rewrite scrubFabricated_envelope, scrubRefused_envelope, disclose_envelope.
    change (envelope a5) with (envelope a4). unfold a4, a3. by rewrite strip_envelope, shaping_envelope.
Qed.

Lemma drop_envelope a : envelope (dropPatchlessPersonaUpdates a).1 = envelope a.
Proof. unfold dropPatchlessPersonaUpdates. cbv zeta. by destruct (length (ra_Steps (ra_Spec a)) - _)%nat. Qed.

Lemma settle_plan_sanctioned diag persona ref a out :
  d_PersonaRef diag = Some (ra_PersonaRef (ra_Spec a)) -> ra_Approval (ra_Spec a) = action_approval ->
  ra_WorkloadRef (ra_Spec a) = Some ref ->
  settle_plan diag persona ref a = Ok out -> sanctioned diag out.
Proof.
  intros Hp Hap Hw. unfold settle_plan.
  destruct (ensureAppliableResourcePlan a diag persona ref) as [[a1 declined]|e] eqn:He; [|done].
  assert (H1 : envelope a1 = envelope a /\ (declined = true -> rule_engine_declines diag)).
  { unfold ensureAppliableResourcePlan in He. cbv zeta in He. destruct (_ || _); [by injection He as <- <-|].
    destruct (calculateResourceChange diag persona (Some ref)) as [change|] eqn:Hc; [|done].
    destruct (String.eqb_spec (rsa_skipReason change) "") as [Hs|Hs]; cbn [negb] in He.
    - destruct (rsa_patch change) as [m|] eqn:Hm; [|injection He as <- <-; split; [done|intros _; exists persona, (Some ref), change; split; [done|by right]]].
      destruct (personaUpdateStep _); [|done]. injection He as <- <-. done.
    - injection He as <- <-. split; [done|]. intros _. exists persona, (Some ref), change. split; [done|by left]. }
  destruct H1 as [He1 Hdec]. destruct (dropPatchlessPersonaUpdates a1) as [a2 dropped] eqn:Hd.
  assert (He2 : envelope a2 = envelope a1).
  { pose proof (drop_envelope a1) as He2. by rewrite Hd in He2. }
  assert (Hgen : match assertAppliableWhenResourceDiagnosed (finish_plan ref a2) diag declined with Some e => Err e | None => Ok (finish_plan ref a2) end = Ok out -> sanctioned diag out).
  { destruct (assertAppliableWhenResourceDiagnosed _ _ _) eqn:Has; [done|]. intros [= <-].
    destruct (finish_plan_facts ref a2) as (F1 & F2 & F3 & F4 & F5 & F6). rewrite He2, He1 in F6.
    set (o := finish_plan ref a2) in *. clearbody o. unfold envelope in F6. injection F6 as _ _ E3 _ _ E5 E6 _.
    constructor; [exact F1|exact F2|rewrite E5, Hw; exact F3|exact F4|intros _; exact F5| |by rewrite E6|by rewrite E3].
    unfold assertAppliableWhenResourceDiagnosed in Has. cbv zeta in Has.
    destruct declined; [right; right; by apply Hdec|]. destruct (String.eqb_spec (diagnosisTargetPath diag) ""); [by left|].
    destruct (appliesDiagnosedChange _ _); [by right; left|done]. }
  destruct dropped; [exact Hgen|]. destruct (ra_Steps (ra_Spec a2)); [done|exact Hgen].
Qed.
End finish.
