(* ===== verification/Schema.v ===== *)
(** * The CRD's schema (validation markers of api/v1/remediationaction_types.go)
    and the plans that meet it (internal/remediation).

    The API server checks these rules on every write.  A model's plan is shaped
    to meet the ones Dorgu is responsible for, whatever the model answered: a
    step's type, order and risk are the model's own and are not among them, and
    the reference to the workload is the subject of StatusSchema.v. *)

From S2P Require Import Prelude GoString GoNum Sha256 Json ApiTypes KubeTypes Steps Client Retry Writes Safety Signals Diagnosis Executor.
From S2P Require Import Ownership Grounding Prose Disclosure Refused Workload HealthCheck Sizing Planner Plan PlanSafety.
From Stdlib Require Import String Ascii.
From stdpp Require Import strings.
Open Scope string_scope.

(** ** The rules *)

(** [MaxLength=1024] and the rule "step command must be a kubectl invocation". *)
Definition command_ok (c : string) : Prop :=
  c = "" \/ (exists rest, c = "kubectl " ++ rest) /\ (String.length c <= 1024)%nat.
Definition entry_ok (s : StepSafety) : Prop :=
  ss_Rule s ∈ ["blast-radius"; "plan-validation"; "absent-field"] /\ ss_Verdict s ∈ ["clamped"; "rejected"; "derived"].
Record step_ok (s : RemediationStep) : Prop := {
  so_command : command_ok (st_Command s);
  so_entries : Forall entry_ok (st_Safety s);
}.
Definition action_types : list string := ["persona-update"; "notification"; "git-pr"].

Definition plain_byte (c : ascii) : bool := is_lower c || is_digit c.

(** A Kubernetes object name: RFC 1123 bytes, a letter first and last not a
    hyphen, at most 253 of them. *)
Record name_ok (name : string) : Prop := {
  no_length : (String.length name <= 253)%nat;
  no_bytes : str_exists (fun c => negb (name_byte c)) name = false;
  no_ends : exists middle hash, name = "ra-" ++ middle ++ "-" ++ hash /\ String.length hash = 12%nat /\
              str_exists (fun c => negb (plain_byte c)) hash = false;
}.

Record in_schema (a : RemediationAction) : Prop := {
  is_name : name_ok (ra_Name a);
  is_namespace : ra_Namespace a <> "";
  is_trust : (0 <= ra_TrustLevel (ra_Spec a) <= 5)%Z;
  is_action : ad_Type (ra_Action (ra_Spec a)) ∈ action_types;
  is_source : ra_PlanSource (ra_Spec a) ∈ [""; "rule-based"; "ai-anthropic"];
  is_auto : forall s, s ∈ ra_Steps (ra_Spec a) -> st_AutoExecutable s = true -> st_Type s = "persona-update";
  is_steps : Forall step_ok (ra_Steps (ra_Spec a));
}.

(** ** Names *)

Lemma hex_digit_plain n : (n < 16)%N -> plain_byte (hex_digit n) = true.
Proof.
  intros Hn. assert (Hall : Forall (fun n => plain_byte (hex_digit n) = true) (map N.of_nat (seq 0 16))) by repeat constructor.
  rewrite Forall_forall in Hall. apply Hall, list_elem_of_fmap. exists (N.to_nat n). split; [by rewrite N2Nat.id|]. apply elem_of_seq. lia.
Qed.
Lemma fmt_x_plain l : Forall (fun b => 0 <= b < 256)%Z l -> str_exists (fun c => negb (plain_byte c)) (fmt_x l) = false.
Proof.
  induction 1 as [|b l Hb Hl IH]; [done|]. cbn [fmt_x foldr hex_byte String.append str_exists].
  change (foldr _ _ l) with (fmt_x l). rewrite IH. pose proof (Z.mod_pos_bound b 16). assert (b `div` 16 < 16)%Z by (apply Z.div_lt_upper_bound; lia).
  by rewrite !hex_digit_plain by lia.
Qed.
Lemma plain_name s : str_exists (fun c => negb (plain_byte c)) s = false -> str_exists (fun c => negb (name_byte c)) s = false.
Proof.
  induction s as [|c s IH]; [done|]. cbn [str_exists]. intros [Hc Hs]%orb_false_iff. rewrite (IH Hs), orb_false_r.
  apply negb_false_iff in Hc. unfold plain_byte in Hc. unfold name_byte. by rewrite Hc.
Qed.

Lemma action_name_ok incident actionType now : name_ok (action_name incident actionType now).
Proof.
  unfold action_name. set (input := im_Namespace incident ++ _). destruct (Sum256_shape input) as [Hlen Hbytes].
  set (hash := fmt_x (firstn 6 (Sum256 input))). cbv zeta.
  change (sanitizeActionName ?s) with (sanitizeName s). change (truncateStr ?s ?n) with (truncate s n).
  set (p := truncate _ _). set (t := truncate _ _).
  assert (Hh : String.length hash = 12%nat) by (unfold hash; rewrite fmt_x_length, length_firstn, Hlen; done).
  assert (Hp : str_exists (fun c => negb (name_byte c)) p = false) by apply truncate_bytes, sanitizeName_bytes.
  assert (Ht : str_exists (fun c => negb (name_byte c)) t = false) by apply truncate_bytes, sanitizeName_bytes.
  assert (Hx : str_exists (fun c => negb (plain_byte c)) hash = false) by apply fmt_x_plain, Forall_take, Hbytes.
  constructor.
  - rewrite !str_length_app, Hh. unfold p, t. repeat match goal with |- context [String.length (truncate ?s ?n)] =>
      pose proof (truncate_length s n); generalize dependent (String.length (truncate s n)) end. intros. cbn in *. lia.
  - rewrite !str_exists_app, Hp, Ht, (plain_name hash) by done. reflexivity.
  - exists (p ++ "-" ++ t), hash. split_and!; [by rewrite !str_app_assoc|done|done].
Qed.

(** ** Steps *)

Definition steps_ok (a : RemediationAction) : Prop := Forall step_ok (steps_of a).

Lemma sanitized_command c : command_ok (SanitizeStepCommand c).
Proof.
  unfold SanitizeStepCommand, command_ok. set (t := trim_space c). destruct (t =? ""); [by left|].
  destruct (Nat.ltb_spec MaxStepCommandLength (String.length t)); [by left|].
  destruct (has_prefix t stepCommandPrefix) eqn:Hp; cbn [negb]; [|by left]. destruct (contains_any _ _); [by left|]. right. split; [|done].
  apply has_prefix_spec in Hp as [rest Hrest]. by exists rest.
Qed.

Lemma step_le_ok s s' : step_le s s' -> step_ok s -> step_ok s'.
Proof. intros [_ _ Hc Hs] [Ho He]. constructor; [destruct Hc as [->| ->]; [by left|done]|by rewrite Hs]. Qed.
Lemma plan_le_ok a b : plan_le a b -> steps_ok a -> steps_ok b.
Proof.
  unfold steps_ok. rewrite !Forall_forall. intros Hle Ha s' Hs'. destruct (plan_le_in a b s' Hle Hs') as (s & Hs & Hss).
  by eapply step_le_ok, Ha.
Qed.

Lemma mapped_step_ok `{SpecCodec} persona ref ps : step_ok (mapPlannedStep persona ref ps).
Proof.
  assert (Hc : command_ok (advisoryCommand ps)) by (unfold advisoryCommand; destruct (_ =? _); [by left|apply sanitized_command]).
  unfold mapPlannedStep. cbv zeta. destruct (_ =? _); cbn [andb]; [|by constructor; [|constructor]].
  destruct (usable_patch _); [|by constructor; [|constructor]]. destruct (dropAbsentResourceKeys _ _) as [patch dropped].
  assert (Hsafety : Forall entry_ok (map (absent_verdict (patchLeafValues (ps_Patch ps)) ref) dropped)).
  { apply Forall_forall. intros e (f & -> & _)%list_elem_of_fmap. split; cbn; [by right; right; left|by right; left]. }
  destruct dropped as [|f fs], patch as [raw|]; constructor; first [exact Hc|exact Hsafety|constructor].
Qed.
Lemma mapped_steps_ok `{SpecCodec} plan persona ref : Forall step_ok (mapPlannedSteps plan persona ref).
Proof. apply Forall_forall. intros s (ps & -> & _)%list_elem_of_fmap. apply mapped_step_ok. Qed.

Lemma refused_step_ok step refusals : step_ok step -> step_ok (refuseStepFields step refusals).
Proof.
  intros [Hc He]. unfold refuseStepFields. destruct refusals as [|v vs]; [by constructor|]. set (refusals := v :: vs).
  constructor; [exact Hc|]. cbn [set_step_text set_safety st_Safety]. apply Forall_app. split; [done|].
  apply Forall_forall. intros e (x & -> & _)%list_elem_of_fmap. unfold refusal_entry.
  destruct (sv_BlastRadius x); (split; cbn; [by left|by right; left]).
Qed.

Lemma installed_step_ok patch pre explanation step : step_ok step -> step_ok (installDerivedPatch patch pre explanation step).
Proof.
  intros [_ He]. unfold installDerivedPatch. cbv zeta. constructor; [by left|]. cbn [set_step_text set_safety st_Safety].
  unfold recordDerivedValues. apply Forall_app. split.
  - apply Forall_forall. intros e (x & -> & Hx)%list_elem_of_fmap. rewrite Forall_forall in He. destruct (He x Hx) as [Hr Hv].
    unfold clamp_entry. destruct (settles _ x); [|done]. split; [exact Hr|]. cbn. by left.
  - apply Forall_forall. intros e (x & -> & Hx)%list_elem_of_fmap. split; cbn; [by right; left|by right; right; left].
Qed.

Section safety.
Context `{Client W} (sc : SafetyCheckerImpl).

Lemma check_steps_ok action ref steps globals checkedAny :
  Forall step_ok steps -> returns (fun r => Forall step_ok r.1.1) (check_steps sc action ref steps globals checkedAny).
Proof.
  revert globals checkedAny. induction steps as [|s steps IH]; intros globals checkedAny Hs; cbn [check_steps]; [by apply returns_iok|].
  apply Forall_cons in Hs as [Hs Hrest]. destruct (negb (operator_step s)).
  - eapply returns_iobind; [by apply IH|]. intros [[steps' globals'] any] Hok. apply returns_iok. by constructor.
  - eapply returns_iobind; [apply returns_any|]. intros r _. eapply returns_iobind; [by apply IH|]. intros [[steps' globals'] any] Hok.
    apply returns_iok. constructor; [by apply refused_step_ok|exact Hok].
Qed.
Lemma applyStepSafety_ok action ref : steps_ok action -> returns (fun r => envelope r.1 = envelope action /\ steps_ok r.1) (applyStepSafety sc action ref).
Proof.
  intros Ha. unfold applyStepSafety. eapply returns_iobind; [by apply check_steps_ok|]. intros [[steps globals] checkedAny] Hok.
  eapply returns_iobind; [apply returns_any|]. intros globals' _. by apply returns_iok.
Qed.
End safety.

(** ** The stages of a plan *)

Section settle.
Context `{QuantityOps}.

Lemma finish_plan_le ref a : plan_le a (finish_plan ref a).
Proof.
  unfold finish_plan. cbv zeta. etransitivity; [apply backcompat_le|]. etransitivity; [apply enforce_le|].
  etransitivity; [apply shaping_le|]. etransitivity; [apply strip_le|]. etransitivity; [|apply scrubFabricated_le].
  etransitivity; [|apply scrubRefused_le]. etransitivity; [|apply disclose_le]. by apply plan_le_same.
Qed.

Definition detail_ok (a : RemediationAction) : Prop := ad_Type (ra_Action (ra_Spec a)) ∈ ["persona-update"; "notification"].

Lemma finish_plan_detail ref a : detail_ok (finish_plan ref a).
Proof.
  unfold finish_plan. cbv zeta. set (a1 := setBackCompatAction a). assert (H1 : detail_ok a1).
  { unfold a1, detail_ok, setBackCompatAction, backCompatDetail. destruct (find_first _ _); cbn; [by left|by right; left]. }
  clearbody a1. set (a2 := applyOwnershipShaping _ ref). assert (H2 : detail_ok a2).
  { unfold a2, applyOwnershipShaping. by destruct (negb _). }
  clearbody a2. set (a3 := stripWorkloadWriteCommands _ _). assert (H3 : detail_ok a3).
  { unfold a3, stripWorkloadWriteCommands. by destruct (negb _). }
  clearbody a3. set (a4 := set_explanation _ a3). set (a5 := (discloseGroundedBlastRadiusClamp a4 _).1). assert (H5 : detail_ok a5).
  { unfold detail_ok, a5. destruct (disclosure_effects a4 (Some ref)) as [_ ->]. exact H3. }
  clearbody a5. set (a6 := (scrubRefusedValues a5).1). assert (H6 : detail_ok a6).
  { unfold detail_ok, a6. rewrite scrub_detail_eq. destruct (refusedValues a5); [exact H5|]. unfold scrub_detail.
    destruct (pruneRefusedLeaves _ _) as [pruned []]; [|exact H5]. destruct pruned; [exact H5|]. cbn. by right; left. }
  clearbody a6. destruct (scrub_fabricated_facts a6) as (_ & _ & _ & Hd & _). unfold detail_ok. by rewrite Hd.
Qed.

Lemma ensured_ok a diag persona ref a' declined :
  ensureAppliableResourcePlan a diag persona ref = Ok (a', declined) -> steps_ok a -> steps_ok a'.
Proof.
  unfold ensureAppliableResourcePlan. cbv zeta. destruct (_ || _); [by intros [= <- _]|].
  destruct (calculateResourceChange _ _ _) as [change|]; [|done]. destruct (negb _); [by intros [= <- _]|].
  destruct (rsa_patch change); [|by intros [= <- _]]. destruct (personaUpdateStep _) as [i|]; [|done]. intros [= <- _] Ha.
  unfold steps_ok, steps_of in *. cbn [set_steps set_plan ra_Spec ra_Steps]. apply Forall_alter; [done|].
  intros s _ Hs. by apply installed_step_ok.
Qed.

Lemma dropped_ok a : steps_ok a -> steps_ok (dropPatchlessPersonaUpdates a).1.
Proof.
  intros Ha. unfold dropPatchlessPersonaUpdates. cbv zeta. destruct (_ - _)%nat; [done|]. cbn [fst].
  unfold steps_ok, steps_of in *. cbn [set_steps set_plan ra_Spec ra_Steps]. unfold renumber. apply Forall_lookup. intros i s.
  rewrite list_lookup_imap. intros (s0 & Hs0 & ->)%fmap_Some. apply list_elem_of_lookup_2, list_elem_of_In, filter_In in Hs0 as [Hs0 _].
  rewrite Forall_forall in Ha. apply list_elem_of_In, Ha in Hs0 as [Hc He]. by constructor.
Qed.

Lemma settled_ok diag persona ref a out : settle_plan diag persona ref a = Ok out -> steps_ok a -> steps_ok out /\ detail_ok out /\ envelope out = envelope a.
Proof.
  unfold settle_plan. destruct (ensureAppliableResourcePlan a diag persona ref) as [[a1 declined]|] eqn:He; [|done]. intros Hout Ha.
  pose proof (ensured_ok _ _ _ _ _ _ He Ha) as H1. pose proof (dropped_ok a1 H1) as H2. pose proof (drop_envelope a1) as E2.
  assert (E1 : envelope a1 = envelope a).
  { unfold ensureAppliableResourcePlan in He. cbv zeta in He. destruct (_ || _); [by injection He as <- _|].
    destruct (calculateResourceChange _ _ _) as [change|]; [|done]. destruct (negb _); [by injection He as <- _|].
    destruct (rsa_patch change); [|by injection He as <- _]. destruct (personaUpdateStep _); [|done]. by injection He as <- _. }
  destruct (dropPatchlessPersonaUpdates a1) as [a2 dropped]. cbn [fst] in *.
  assert (Hf : out = finish_plan ref a2).
  { destruct dropped; [|destruct (ra_Steps _); [done|]]; destruct (assertAppliableWhenResourceDiagnosed _ _ _); try done; by injection Hout. }
  subst out. destruct (finish_plan_facts ref a2) as (_ & _ & _ & _ & _ & F6).
  split; [by eapply plan_le_ok; [apply finish_plan_le|]|]. split; [apply finish_plan_detail|]. by rewrite F6, E2.
Qed.
End settle.
