(* ===== verification/Proposer.v ===== *)
(** * The proposer (internal/remediation/proposer.go, proposer_mode.go, and
    observeWorkload of proposer_grounding.go).

    One diagnosis becomes at most one RemediationAction: the gates run first,
    then the planner when there is one and the diagnosis may be shown to it, and
    the rules when the planner fails or may not be asked. *)

From S2P Require Import Prelude GoString GoNum Json ApiTypes KubeTypes Steps Client Retry Writes Safety Signals Diagnosis DiagnosisEngine Executor.
From S2P Require Import Ownership Grounding Prose Disclosure Refused Workload HealthCheck Sizing Planner Plan.
From Stdlib Require Import String Ascii.
From stdpp Require Import strings.
Open Scope string_scope.

(** ** proposer_mode.go *)

Definition skipReasonObserveMode : string :=
  "selfHealing.mode=observe " ++ String (ascii_of_N 226) (String (ascii_of_N 128) (String (ascii_of_N 148) "")) ++ " proposal suppressed".

Definition declared_mode (cp : ClusterPersona) : option string :=
  match cp_SelfHealing cp with
  | Some sh => if (shp_Mode sh =? "") then None else Some (shp_Mode sh)
  | None => None
  end.

(** ** The deduplication gate *)

Definition activePhases : list string := [""; phasePending; phaseApproved; phaseApplying; phaseVerifying].
Definition is_active (ra : RemediationAction) : bool := existsb (String.eqb (ra_Phase ra)) activePhases.

(** Why an existing action makes the proposal redundant. *)
Definition blocking_reason (diag : Diagnosis) (ref : PersonaReference) (incident : IncidentMemory) (ra : RemediationAction) : option string :=
  let targetPath := diagnosisTargetPath diag in
  if negb (is_active ra) then None
  else if (ir_Name (ra_IncidentRef (ra_Spec ra)) =? im_Name incident) then
    Some ("active remediation already exists for incident " ++ im_Name incident)
  else if negb (targetPath =? "") && remediationTargetsPath ra targetPath then
    Some ("active remediation already exists for persona " ++ pr_Name ref ++ " targeting " ++ targetPath ++ " (via " ++ ra_Name ra ++ ")")
  else None.

Definition dedup_opts (ref : PersonaReference) (incident : IncidentMemory) : ListOptions :=
  let namespace := if (im_Namespace incident =? "") then pr_Namespace ref else im_Namespace incident in
  mkListOptions (if (namespace =? "") then None else Some namespace)
    (if (pr_Name ref =? "") then [] else [("dorgu.io/persona-name", pr_Name ref)]).

Definition rule_action (ref : PersonaReference) (incident : IncidentMemory) (diag : Diagnosis) (workloadRef : WorkloadRef)
    (patch prePatch : raw_json) (explanation name : string) : RemediationAction :=
  mkRA (action_meta name (action_namespace ref) ref)
    (mkRASpec (incident_ref incident) ref 2 (mkActionDetail "persona-update" (Some patch) (Some prePatch)) [] "" ""
       explanation (fmt_f 2 (d_Confidence diag)) (Some workloadRef) action_approval action_rollback)
    no_action_status.

Definition skip (reason : string) : ProposalResult := mkProposal None reason false.

Section proposer.
Context `{Client W} `{SpecCodec} (sc : SafetyCheckerImpl).

Definition selfHealingMode : io W string :=
  let! r := listClusterPersonas in
  mret (match r with
        | Err _ => SelfHealingModePropose
        | Ok cps => default SelfHealingModePropose (head (omap declared_mode cps))
        end).

(** The suppression reason; only observe suppresses. *)
Definition proposalSuppressedByMode : io W string :=
  let! mode := selfHealingMode in
  mret (if (mode =? SelfHealingModeObserve) then skipReasonObserveMode else "").

Definition activeRemediationExists (diag : Diagnosis) (ref : PersonaReference) (incident : IncidentMemory) : io W (result error string) :=
  let* items := wrap_io ("listing existing RemediationActions for incident " ++ im_Name incident) (listRA (dedup_opts ref incident)) in
  iok (default "" (head (omap (blocking_reason diag ref incident) items))).

(** [observeWorkload]: a cluster that cannot be read is an unresolved workload. *)
Definition observeWorkload (ref : PersonaReference) : io W (option Observation * WorkloadRef) :=
  let! now := clock in
  let! obs := Observe (action_namespace ref) (pr_Name ref) in
  mret (match obs with
        | Ok (Some o) => (Some o, Ref (Some o) now)
        | _ => (None, UnresolvedRef now)
        end).

Definition getApplicationPersona (ref : PersonaReference) : io W (result error ApplicationPersona) :=
  if negb (pr_Kind ref =? kindApplicationPersona) then
    ierr (ErrText ("unsupported persona kind for resource adjustment: " ++ pr_Kind ref))
  else
    wrap_io ("getting ApplicationPersona " ++ action_namespace ref ++ "/" ++ pr_Name ref)
      (getPersona (mkKey (pr_Name ref) (action_namespace ref))).

Definition safety_skip (violations : list SafetyViolation) : string :=
  "safety check failed: " ++ fmt_v_strings (map violation_reason violations).

(** [proposeResourceAdjustment]. *)
Definition proposeResourceAdjustment (diag : Diagnosis) (ref : PersonaReference) (incident : IncidentMemory) (workloadRef : WorkloadRef)
  : io W (result error ProposalResult) :=
  let* persona := wrap_io "getting application persona" (getApplicationPersona ref) in
  match personaLimits (Some persona), hasObservedLimits (Some workloadRef) with
  | None, false => iok (skip "persona has no resource limits configured")
  | _, _ =>
      match calculateResourceChange diag (Some persona) (Some workloadRef) with
      | Err e => ierr (ErrWrap "calculating resource change" e)
      | Ok change =>
          if negb (rsa_skipReason change =? "") then iok (skip (rsa_skipReason change)) else
          match rsa_patch change with
          | None => iok (skip "no applicable resource adjustment")
          | Some m =>
              let! name := generateActionName incident (d_SuggestedAction diag) in
              let action := rule_action ref incident diag workloadRef (RawDoc (JObj m)) (marshal_map (rsa_prePatch change)) (rsa_explanation change) name in
              let action := (discloseGroundedBlastRadiusClamp action (Some workloadRef)).1 in
              let* safetyResult := wrap_io "safety check" (Check sc (groundedSafetyProbe action (Some workloadRef))) in
              if negb (sr_Allowed safetyResult) then iok (skip (safety_skip (sr_Violations safetyResult)))
              else persist_action (scrubFabricatedGuardrailClaims action).1
          end
      end
  end.

Definition propose_by_rules (diag : Diagnosis) (ref : PersonaReference) (incident : IncidentMemory) (workloadRef : WorkloadRef)
  : io W (result error ProposalResult) :=
  if (d_SuggestedAction diag =? "resource-adjustment") then proposeResourceAdjustment diag ref incident workloadRef
  else if (d_SuggestedAction diag =? "restart") then iok (skip "restart remediation not automated in Phase 2b")
  else iok (skip ("unsupported action type: " ++ d_SuggestedAction diag)).

(** [withholdFromModel]. *)
Definition withholdFromModel (diag : Diagnosis) : io W bool :=
  let! r := ProtectedNamespace (Some (NamespaceProtected (Some sc))) diag in mret r.2.

(** The planner first, unless the diagnosis is withheld from it; its failure
    falls through to the rules. *)
Definition plan_or_rules (planner : option (Planner W)) (diag : Diagnosis) (ref : PersonaReference) (incident : IncidentMemory)
    (obs : option Observation) (workloadRef : WorkloadRef) : io W (result error ProposalResult) :=
  match planner with
  | None => propose_by_rules diag ref incident workloadRef
  | Some planner =>
      let! withheld := withholdFromModel diag in
      if (withheld : bool) then propose_by_rules diag ref incident workloadRef else
      let! planned := proposeWithPlanner (Planner0 := planner) sc diag ref (Some incident) obs workloadRef in
      match planned with
      | Ok result => iok result
      | Err _ => propose_by_rules diag ref incident workloadRef
      end
  end.

(** [Propose].  The incident is the one just recorded: the callers never pass
    nil. *)
Definition Propose (planner : option (Planner W)) (diag : Diagnosis) (incident : IncidentMemory) : io W (result error ProposalResult) :=
  match d_PersonaRef diag with
  | None => iok (skip "diagnosis has no persona reference")
  | Some ref =>
      let! suppressed := proposalSuppressedByMode in
      if negb (suppressed =? "") then iok (skip suppressed) else
      let! violation := NamespaceDenied (Some sc) (pr_Namespace ref) in
      match violation with
      | Some v => iok (skip (safety_skip [v]))
      | None =>
          let* reason := activeRemediationExists diag ref incident in
          if negb (reason =? "") then iok (skip reason) else
          let! (obs, workloadRef) := observeWorkload ref in
          plan_or_rules planner diag ref incident obs workloadRef
      end
  end.
End proposer.

(** ** Properties: the gates *)

Section gates.
Context `{ClientReads W} `{SpecCodec} (sc : SafetyCheckerImpl).

Lemma selfHealingMode_run w : selfHealingMode w = ((selfHealingMode w).1, w).
Proof. apply read_pair. unfold selfHealingMode, mbind, io_bind. rewrite (read_pair listClusterPersonas w) by apply listClusterPersonas_reads. done. Qed.

Lemma suppressed_run w : proposalSuppressedByMode w =
  (if ((selfHealingMode w).1 =? SelfHealingModeObserve) then skipReasonObserveMode else "", w).
Proof. unfold proposalSuppressedByMode, mbind, io_bind. by rewrite selfHealingMode_run. Qed.

Lemma active_run diag ref incident w : activeRemediationExists diag ref incident w =
  (match (listRA (dedup_opts ref incident) w).1 with
   | Err e => Err (ErrWrap ("listing existing RemediationActions for incident " ++ im_Name incident) e)
   | Ok items => Ok (default "" (head (omap (blocking_reason diag ref incident) items)))
   end, w).
Proof.
  unfold activeRemediationExists, iobind, wrap_io. rewrite (read_pair (listRA _) w) by apply listRA_reads.
  by destruct (listRA (dedup_opts ref incident) w).1.
Qed.

(** An action that already covers this proposal. *)
Definition covers (diag : Diagnosis) (incident : IncidentMemory) (ra : RemediationAction) : Prop :=
  ra_Phase ra ∈ activePhases /\
  (ir_Name (ra_IncidentRef (ra_Spec ra)) = im_Name incident \/
   diagnosisTargetPath diag <> "" /\ remediationTargetsPath ra (diagnosisTargetPath diag) = true).

Lemma is_active_spec ra : is_active ra = true <-> ra_Phase ra ∈ activePhases.
Proof.
  unfold is_active. rewrite existsb_elem. split; [|intros Hin; exists (ra_Phase ra); by rewrite String.eqb_refl].
  by intros (p & Hp & ->%String.eqb_eq).
Qed.

Lemma blocking_covers diag ref incident ra :
  (exists reason, blocking_reason diag ref incident ra = Some reason /\ reason <> "") <-> covers diag incident ra.
Proof.
  unfold blocking_reason, covers. rewrite <- is_active_spec. destruct (is_active ra); cbn [negb]; [|naive_solver].
  destruct (String.eqb_spec (ir_Name (ra_IncidentRef (ra_Spec ra))) (im_Name incident)) as [He|He].
  { split; [intros _; split; [done|by left]|]. intros _. eexists. by split. }
  destruct (String.eqb_spec (diagnosisTargetPath diag) "") as [Ht|Ht]; cbn [negb andb]; [naive_solver|].
  destruct (remediationTargetsPath ra _); [|naive_solver]. split; [intros _; split; [done|by right]|]. intros _. eexists. by split.
Qed.

Lemma blocked_iff diag ref incident items :
  default "" (head (omap (blocking_reason diag ref incident) items)) <> "" <-> exists ra, ra ∈ items /\ covers diag incident ra.
Proof.
  induction items as [|ra items IH]; [split; [done|by intros (? & ?%not_elem_of_nil & _)]|].
  rewrite omap_cons. destruct (blocking_reason diag ref incident ra) as [reason|] eqn:Hb.
  - assert (Hc : covers diag incident ra).
    { apply (blocking_covers diag ref). exists reason. split; [done|]. unfold blocking_reason in Hb.
      destruct (negb (is_active ra)); [done|]. destruct (_ =? im_Name incident); [by injection Hb as <-|].
      destruct (negb _ && _); [by injection Hb as <-|done]. }
    split; [intros _; exists ra; by split; [left|]|]. intros _. cbn. apply (blocking_covers diag ref) in Hc as (r & Hr & Hne). congruence.
  - rewrite IH. split; intros (x & Hx & Hc); [exists x; by split; [right|]|].
    apply elem_of_cons in Hx as [->|Hx]; [|by exists x]. apply (blocking_covers diag ref) in Hc as (r & Hr & _). congruence.
Qed.

(** What must hold before any planning is done. *)
Definition may_plan (diag : Diagnosis) (ref : PersonaReference) (incident : IncidentMemory) (w : W) : Prop :=
  (selfHealingMode w).1 <> SelfHealingModeObserve /\
  (NamespaceDenied (Some sc) (pr_Namespace ref) w).1 = None /\
  exists items, (listRA (dedup_opts ref incident) w).1 = Ok items /\ forall ra, ra ∈ items -> ~ covers diag incident ra.

(** C7. The gates come before any planning.  In observe mode, in a namespace the
    deny list does not clear, when the existing actions cannot be read, or when
    one of them is under way for this incident or this field, the cluster is
    left as it was and the planner, whatever it is, is not asked; past all of
    them, the plan is made on the workload as observed. *)
Theorem Propose_gated (planner : option (Planner W)) (diag : Diagnosis) (ref : PersonaReference) (incident : IncidentMemory) (w : W) :
  d_PersonaRef diag = Some ref ->
  (may_plan diag ref incident w ->
   Propose sc planner diag incident w =
     (let! (obs, workloadRef) := observeWorkload ref in plan_or_rules sc planner diag ref incident obs workloadRef) w) /\
  (~ may_plan diag ref incident w ->
   exists r, (forall planner', Propose sc planner' diag incident w = (r, w)) /\
     forall result, r = Ok result -> pp_Proposed result = false /\ pp_Action result = None).
Proof.
  intros Href. unfold Propose, may_plan. rewrite Href.
  assert (Hs : forall B (f : string -> io W B), (let! x := proposalSuppressedByMode in f x) w =
    f (if ((selfHealingMode w).1 =? SelfHealingModeObserve) then skipReasonObserveMode else "") w).
  { intros B f. unfold mbind, io_bind. by rewrite suppressed_run. }
  assert (Hn : forall B (f : option SafetyViolation -> io W B), (let! x := NamespaceDenied (Some sc) (pr_Namespace ref) in f x) w =
    f (NamespaceDenied (Some sc) (pr_Namespace ref) w).1 w).
  { intros B f. unfold mbind, io_bind. by rewrite NamespaceDenied_run. }
  rewrite Hs. setoid_rewrite Hs. destruct (String.eqb_spec (selfHealingMode w).1 SelfHealingModeObserve) as [Hm|Hm].
  { split; [by intros [? _]|]. intros _. eexists. split; [reflexivity|]. by intros ? [= <-]. }
  cbn [negb String.eqb]. rewrite Hn. setoid_rewrite Hn. destruct (NamespaceDenied (Some sc) (pr_Namespace ref) w).1 as [v|].
  { split; [by intros (_ & ? & _)|]. intros _. eexists. split; [reflexivity|]. by intros ? [= <-]. }
  unfold iobind. setoid_rewrite active_run. destruct (listRA (dedup_opts ref incident) w).1 as [items|e].
  2: { split; [by intros (_ & _ & ? & ? & _)|]. intros _. eexists. split; [reflexivity|done]. }
  pose proof (blocked_iff diag ref incident items) as Hb.
  destruct (String.eqb_spec (default "" (head (omap (blocking_reason diag ref incident) items))) "") as [He|He]; cbn [negb].
  - split; [done|]. intros []. split; [done|]. split; [done|]. exists items. split; [done|]. intros ra Hra Hc. apply Hb in He; [done|]. by exists ra.
  - split; [intros (_ & _ & items' & [= <-] & Hno); apply Hb in He as (ra & Hra & Hc); by destruct (Hno ra)|].
    intros _. eexists. split; [reflexivity|]. by intros ? [= <-].
Qed.

Lemma ProtectedNamespace_run diag w :
  exists p, ProtectedNamespace (Some (NamespaceProtected (Some sc))) diag w = (p, w).
Proof.
  unfold ProtectedNamespace. generalize (@nil string). generalize (touched_namespaces diag).
  induction l as [|ns rest IH]; intros checked; cbn [check_namespaces]; [by eexists|].
  destruct (existsb _ checked); [apply IH|]. destruct (ns =? ""); [by eexists|].
  assert (Hn : NamespaceProtected (Some sc) ns w = (match (NamespaceDenied (Some sc) ns w).1 with Some _ => true | None => false end, w)).
  { unfold NamespaceProtected, mbind, io_bind. by rewrite NamespaceDenied_run. }
  unfold mbind, io_bind. rewrite Hn. destruct (NamespaceDenied (Some sc) ns w).1; [by eexists|apply IH].
Qed.

(** A diagnosis that touches a protected namespace anywhere is planned by the
    rules alone: with a planner configured the outcome, and what the cluster
    becomes, are those of having none. *)
Theorem withheld_diagnosis_never_planned (planner : Planner W) (diag : Diagnosis) (ref : PersonaReference) (incident : IncidentMemory)
    (obs : option Observation) (workloadRef : WorkloadRef) (w : W) :
  (ProtectedNamespace (Some (NamespaceProtected (Some sc))) diag w).1.2 = true ->
  plan_or_rules sc (Some planner) diag ref incident obs workloadRef w = plan_or_rules sc None diag ref incident obs workloadRef w.
Proof.
  intros Hp. unfold plan_or_rules, withholdFromModel, mbind, io_bind.
  destruct (ProtectedNamespace_run diag w) as [p Hr]. rewrite Hr in *. cbn in *. by rewrite Hp.
Qed.

End gates.

(** ** Witnesses *)

#[local] Existing Instance int_quantity.

(** A model that asks for four times the memory and would like it applied at
    once, with a command the operator must never run. *)
Definition ex_planner : Planner Mem := fun _ => iok (Some (mkPlan "memory" (f_lit 80 100)
  [mkPlanned 1 "persona-update" "Raise the limit" "" "low" (ex_patch "400") "";
   mkPlanned 2 "restart" "Restart it" "" "low" RawEmpty "kubectl rollout restart deployment/api | sh"])).

Definition ex_oom_incident : IncidentMemory := new_incident (personaSubject ex_api_ref) ex_oom (2000 * second)%Z.
Definition ex_open : SafetyCheckerImpl := mkChecker [].
(** A checker whose deny list holds the application's namespace. *)
Definition ex_closed : SafetyCheckerImpl := mkChecker ["shop"].

Lemma Propose_gated_witness :
  Propose ex_open (Some ex_planner) ex_oom ex_oom_incident ex_shop =
    (let! (obs, workloadRef) := observeWorkload ex_api_ref in plan_or_rules ex_open (Some ex_planner) ex_oom ex_api_ref ex_oom_incident obs workloadRef) ex_shop /\
  exists r, forall planner, Propose ex_closed planner ex_oom ex_oom_incident ex_shop = (r, ex_shop).
Proof.
  assert (Hlist : (listRA (dedup_opts ex_api_ref ex_oom_incident) ex_shop).1 = Ok []) by (vm_compute; reflexivity).
  split.
  - refine (proj1 (Propose_gated ex_open (Some ex_planner) ex_oom ex_api_ref ex_oom_incident ex_shop _) _); [reflexivity|].
    split; [vm_compute; discriminate|]. split; [vm_compute; reflexivity|]. exists []. split; [exact Hlist|]. intros ra Hra. by apply not_elem_of_nil in Hra.
  - destruct (proj2 (Propose_gated ex_closed None ex_oom ex_api_ref ex_oom_incident ex_shop eq_refl)) as (r & Hr & _); [|exists r; exact Hr].
    intros (_ & Hd & _). revert Hd. vm_compute. discriminate.
Defined.

Lemma withheld_diagnosis_never_planned_witness :
  plan_or_rules ex_closed (Some ex_planner) ex_oom ex_api_ref ex_oom_incident None (UnresolvedRef 0%Z) ex_shop
  = plan_or_rules ex_closed None ex_oom ex_api_ref ex_oom_incident None (UnresolvedRef 0%Z) ex_shop.
Proof. apply (withheld_diagnosis_never_planned ex_closed). vm_compute. reflexivity. Defined.

Definition ex_failing : Planner Mem := fun _ => ierr (ErrText "529 overloaded").

Definition ex_attempt : result error ProposalResult * Mem :=
  proposeWithPlanner (Planner0 := ex_failing) ex_open ex_oom ex_api_ref (Some ex_oom_incident) None (UnresolvedRef 0%Z) ex_shop.

