(* ===== verification/Sanction.v ===== *)
(** * Everything the loop creates is sanctioned: the composition of the
    proposer with the health-check cycle.

    [sanctioned] (PlanSafety.v) is what a RemediationAction must satisfy to be
    written.  It is carried through both planning paths, then through the cycle
    of HealthCheck.v that calls the proposer. *)

From S2P Require Import Prelude GoString GoNum Json ApiTypes KubeTypes Steps Client Retry Writes Safety Signals Diagnosis DiagnosisEngine Executor.
From S2P Require Import Correlator Ownership Grounding Prose Disclosure Refused Workload Recovery HealthCheck Sizing Planner Plan PlanSafety Schema Proposer.
From Stdlib Require Import String Ascii.
From stdpp Require Import strings.
Open Scope string_scope.

Section proposals.
Context `{ClientReads W} `{SpecCodec} (sc : SafetyCheckerImpl) (I : W -> Prop).

(** The writes of a proposal: only a sanctioned action that meets the CRD's
    schema may be created. *)
Context (creates : forall diag a, sanctioned diag a -> in_schema a -> preserves I (createRA a)).
Context (status_write : forall a, preserves I (updateStatusRA (set_status a pending_status))).

(** ** Reads *)

Lemma preserves_NamespaceDenied s ns : preserves I (NamespaceDenied s ns).
Proof. apply preserves_read. intros w. by rewrite NamespaceDenied_run. Qed.
Lemma preserves_Check action : preserves I (Check sc action).
Proof.
  unfold Check, checkRateLimit, checkConcurrent, checkFailedCooldown, checkDenyList, getMaxRemediationsPerHour,
    listRecentActions, listPersonaActions. preserve. apply preserves_NamespaceDenied.
Qed.
Lemma preserves_named {B} incident t (f : string -> io W B) :
  (forall name, name_ok name -> preserves I (f name)) -> preserves I (let! name := generateActionName incident t in f name).
Proof.
  intros Hf w Hw. unfold generateActionName, mbind, io_bind. pose proof (preserves_clock I w Hw) as Hc.
  destruct (clock w) as [now w1]. apply Hf; [apply action_name_ok|exact Hc].
Qed.
Lemma preserves_built {B} ref incident plan steps workloadRef (f : RemediationAction -> io W B) :
  (forall name, name_ok name -> preserves I (f (plan_action ref incident plan steps workloadRef name))) ->
  preserves I (let! action := buildPlanAction ref incident plan steps workloadRef in f action).
Proof.
  intros Hf w Hw. pose proof (preserves_named incident "ai-remediation" (fun name => f (plan_action ref incident plan steps workloadRef name)) Hf w Hw) as Hn.
  unfold buildPlanAction, generateActionName, mbind, io_bind in *. by destruct (clock w).
Qed.
Lemma preserves_observe ref : preserves I (observeWorkload ref).
Proof. unfold observeWorkload, Observe. preserve. Qed.
Lemma preserves_referenced ref incidents out : preserves I (referenced_remediations ref incidents out).
Proof. revert out. induction incidents as [|im rest IH]; intros out; cbn [referenced_remediations]; preserve; auto. Qed.
Lemma preserves_BuildContext diag incident : preserves I (BuildContext diag incident).
Proof.
  unfold BuildContext, loadAppPersona, loadClusterPersona, loadPastIncidents, loadPastRemediations. preserve.
  all: try apply preserves_referenced.
Qed.

Lemma preserves_check_steps action ref steps globals checkedAny : preserves I (check_steps sc action ref steps globals checkedAny).
Proof.
  revert globals checkedAny. induction steps as [|s steps IH]; intros globals checkedAny; cbn [check_steps]; [apply preserves_iok|].
  destruct (negb (operator_step s)).
  - apply preserves_iobind; [apply IH|]. intros [[??]?]. apply preserves_iok.
  - apply preserves_iobind; [apply preserves_Check|]. intros r. apply preserves_iobind; [apply IH|]. intros [[??]?]. apply preserves_iok.
Qed.
Lemma preserves_applyStepSafety action ref : preserves I (applyStepSafety sc action ref).
Proof.
  unfold applyStepSafety. apply preserves_iobind; [apply preserves_check_steps|]. intros [[steps globals] []]; preserve; apply preserves_Check.
Qed.
(** ** Writes *)

Lemma preserves_persist diag a : sanctioned diag a -> in_schema a -> preserves I (persist_action a).
Proof. intros Ha Hs. unfold persist_action. preserve. Qed.

Lemma disclosed_rule_action diag ref incident workloadRef m pre explanation name out :
  d_PersonaRef diag = Some ref ->
  patchTouchesPath (RawDoc (JObj m)) (diagnosisTargetPath diag) = true ->
  out = (scrubFabricatedGuardrailClaims (discloseGroundedBlastRadiusClamp
           (rule_action ref incident diag workloadRef (RawDoc (JObj m)) pre explanation name) (Some workloadRef)).1).1 ->
  name_ok name -> sanctioned diag out /\ in_schema out.
Proof.
  intros Href Ht -> Hname. set (a := rule_action _ _ _ _ _ _ _ _). set (b := (discloseGroundedBlastRadiusClamp a (Some workloadRef)).1).
  assert (Hsteps : steps_of (scrubFabricatedGuardrailClaims b).1 = []).
  { destruct (disclosure_effects a (Some workloadRef)) as [Hb _]. destruct (scrub_fabricated_facts b) as (_ & _ & Hs & _).
    fold b in Hb. unfold steps_of. rewrite Hb in Hs. change (map step_effect (ra_Steps (ra_Spec a))) with (@nil (Z * string * string * string * bool * string * option raw_json * option raw_json * list StepSafety)) in Hs.
    by destruct (ra_Steps (ra_Spec (scrubFabricatedGuardrailClaims b).1)). }
  assert (Hact : ra_Action (ra_Spec (scrubFabricatedGuardrailClaims b).1) = ra_Action (ra_Spec a)).
  { destruct (disclosure_effects a (Some workloadRef)) as [_ Hb]. destruct (scrub_fabricated_facts b) as (_ & _ & _ & Hd & _). by rewrite Hd. }
  assert (Henv : envelope (scrubFabricatedGuardrailClaims b).1 = envelope a) by by rewrite scrubFabricated_envelope; apply disclose_envelope.
  pose proof (scrubFabricated_quiet b) as Hq. set (o := (scrubFabricatedGuardrailClaims b).1) in *. clearbody o b.
  unfold envelope in Henv. injection Henv as E1 _ E3 E4 E4' E5 E6 _. fold (steps_of o) in Hsteps. split; cycle 1.
  { constructor; fold (steps_of o); unfold ra_Name, ra_Namespace; rewrite ?Hsteps, ?E1, ?E4, ?E4', ?Hact; [exact Hname| |done|by left|by left|by intros ? ?%not_elem_of_nil|constructor].
    unfold action_namespace. destruct (String.eqb_spec (pr_Namespace ref) ""); done. }
  constructor; [intros s|intros s|intros _ s|exact Hq|by rewrite Hsteps| |by rewrite E6|by rewrite E3];
    try (rewrite Hsteps; by intros ?%not_elem_of_nil).
  right. left. unfold appliesDiagnosedChange. fold (steps_of o). rewrite Hsteps. cbn [existsb]. rewrite Hact. exact Ht.
Qed.

Lemma preserves_proposeResourceAdjustment diag ref incident workloadRef :
  d_PersonaRef diag = Some ref -> preserves I (proposeResourceAdjustment sc diag ref incident workloadRef).
Proof.
  intros Href. unfold proposeResourceAdjustment. apply preserves_iobind.
  { unfold getApplicationPersona. preserve. }
  intros persona.
  assert (Hmain : preserves I (match calculateResourceChange diag (Some persona) (Some workloadRef) with
    | Err e => ierr (ErrWrap "calculating resource change" e)
    | Ok change =>
        if negb (rsa_skipReason change =? "") then iok (skip (rsa_skipReason change)) else
        match rsa_patch change with
        | None => iok (skip "no applicable resource adjustment")
        | Some m =>
            let! name := generateActionName incident (d_SuggestedAction diag) in
            let action := rule_action ref incident diag workloadRef (RawDoc (JObj m)) (marshal_map (rsa_prePatch change)) (rsa_explanation change) name in
            let action := (discloseGroundedBlastRadiusClamp action (Some workloadRef)).1 in
            let* safetyResult := wrap_io "safety check" (Check sc (groundedSafetyProbe action (Some workloadRef))) in
            if negb (sr_Allowed safetyResult) then iok (skip (safety_skip (sr_Violations safetyResult)))
            else persist_action (scrubFabricatedGuardrailClaims action).1
        end
    end)).
  { destruct (calculateResourceChange _ _ _) as [change|e] eqn:Hc; [|apply preserves_ierr].
    destruct (negb (rsa_skipReason change =? "")); [apply preserves_iok|]. destruct (rsa_patch change) as [m|] eqn:Hm; [|apply preserves_iok].
    apply preserves_named. intros name Hname. cbv zeta.
    apply preserves_iobind; [apply preserves_wrap, preserves_Check|]. intros r. destruct (negb _); [apply preserves_iok|].
    refine (match disclosed_rule_action diag ref incident workloadRef m _ _ _ _ Href _ eq_refl Hname with conj Hs1 Hs2 => preserves_persist diag _ Hs1 Hs2 end).
    by eapply sized_touches. }
  destruct (personaLimits (Some persona)), (hasObservedLimits (Some workloadRef)); try exact Hmain. apply preserves_iok.
Qed.

Lemma preserves_by_rules diag ref incident workloadRef :
  d_PersonaRef diag = Some ref -> preserves I (propose_by_rules sc diag ref incident workloadRef).
Proof.
  intros Href. unfold propose_by_rules. destruct (_ =? _); [by apply preserves_proposeResourceAdjustment|].
  destruct (_ =? _); apply preserves_iok.
Qed.

Lemma preserves_with_planner (planner : Planner W) diag ref incident obs workloadRef :
  d_PersonaRef diag = Some ref -> (forall rc, preserves I (@PlanRemediation _ W planner rc)) ->
  preserves I (proposeWithPlanner (Planner0 := planner) sc diag ref (Some incident) obs workloadRef).
Proof.
  intros Href Hplan. unfold proposeWithPlanner. apply preserves_iobind; [apply preserves_wrap, preserves_BuildContext|].
  intros rc. apply preserves_iobind; [apply preserves_wrap, Hplan|]. intros [plan|]; [|apply preserves_ierr].
  destruct (pl_Steps plan) as [|ps pss]; [apply preserves_ierr|]. cbv zeta.
  set (rc' := with_workload rc _). set (steps := mapPlannedSteps plan (rx_AppPersona rc') workloadRef).
  apply preserves_built. intros name Hname. set (a := plan_action ref incident plan steps workloadRef name).
  eapply preserves_iobind_with.
  { apply preserves_wrap, preserves_applyStepSafety. }
  { apply returns_wrap, applyStepSafety_ok, mapped_steps_ok. }
  intros [a' skip'] [He Hok]. cbn [fst] in *. destruct (negb _); [apply preserves_iok|].
  destruct (settle_plan diag _ workloadRef a') as [out|e] eqn:Hs; [|apply preserves_ierr].
  destruct (settled_ok _ _ _ _ _ Hs Hok) as (Hsteps & Hdetail & Hout). rewrite He in Hout.
  unfold envelope in He. injection He as _ _ E3 _ _ E5 E6 _. unfold envelope in Hout. injection Hout as F1 _ _ F4 F4' _ _ _.
  assert (Hsan : sanctioned diag out) by (eapply settle_plan_sanctioned; [| | |exact Hs]; [by rewrite E3|by rewrite E6|by rewrite E5]).
  apply (preserves_persist diag); [exact Hsan|]. constructor; unfold ra_Name, ra_Namespace; rewrite ?F1, ?F4, ?F4'.
  - exact Hname.
  - cbn. unfold action_namespace. destruct (String.eqb_spec (pr_Namespace ref) ""); done.
  - done.
  - apply elem_of_cons in Hdetail as [->| ->%list_elem_of_singleton]; [by left|by right; left].
  - by right; right; left.
  - apply Hsan.
  - exact Hsteps.
Qed.

Lemma preserves_Propose (planner : option (Planner W)) diag incident :
  (forall p rc, planner = Some p -> preserves I (@PlanRemediation _ W p rc)) -> preserves I (Propose sc planner diag incident).
Proof.
  intros Hplan. unfold Propose. destruct (d_PersonaRef diag) as [ref|] eqn:Href; [|apply preserves_iok].
  apply preserves_bind. { unfold proposalSuppressedByMode, selfHealingMode. preserve. }
  intros suppressed. destruct (negb _); [apply preserves_iok|]. apply preserves_bind; [apply preserves_NamespaceDenied|].
  intros [v|]; [apply preserves_iok|]. apply preserves_iobind. { unfold activeRemediationExists. preserve. }
  intros reason. destruct (negb _); [apply preserves_iok|]. apply preserves_bind; [apply preserves_observe|].
  intros [obs workloadRef]. unfold plan_or_rules. destruct planner as [p|]; [|by apply preserves_by_rules].
  apply preserves_bind.
  { apply preserves_read. intros w. unfold withholdFromModel, mbind, io_bind. by destruct (ProtectedNamespace_run sc diag w) as [? ->]. }
  intros [|]; [by apply preserves_by_rules|]. apply preserves_bind; [by apply preserves_with_planner; [|intros; apply Hplan]|].
  intros [r|e]; [apply preserves_iok|by apply preserves_by_rules].
Qed.
End proposals.

(** ** The cycle *)

Section cycle.
Context `{ClientReads W} `{RetryLaws W} `{SortSlice} `{EventSink W} (I : W -> Prop).

(** Everything the cycle writes besides proposals preserves the invariant. *)
Record cycle_writes : Prop := {
  cw_create im : preserves I (createIncident im);
  cw_update im : preserves I (updateIncident im);
  cw_status im : preserves I (updateStatusIncident im);
  cw_store e : preserves I (StoreEvent e);
  cw_emit e : preserves I (EmitEvent e);
}.
Context (writes : cycle_writes).

Lemma preserves_each_event f l : (forall e, preserves I (f e)) -> preserves I (each_event f l).
Proof. intros Hf. induction l as [|e l IH]; cbn [each_event]; preserve. Qed.
Lemma preserves_or_discard {A} im diag stage (write : io W (result error A)) : preserves I write -> preserves I (or_discard im diag stage write).
Proof.
  intros Hw. destruct writes. unfold or_discard, reportDiscardedDiagnosis. preserve.
Qed.
Lemma preserves_retried {A} (f : nat -> io W (result error A)) : (forall n, preserves I (f n)) -> preserves I (retryIncidentWrite f).
Proof. intros Hf. by apply preserves_incident_retry. Qed.
Lemma preserves_discard_retry {A} im diag stage (f : nat -> io W (result error A)) :
  (forall n, preserves I (f n)) -> preserves I (or_discard im diag stage (retryIncidentWrite f)).
Proof. intros Hf. by apply preserves_or_discard, preserves_retried. Qed.
Lemma preserves_updateExisting im subject diag now : preserves I (updateExistingIncident im subject diag now).
Proof.
  destruct writes. unfold updateExistingIncident.
  apply preserves_iobind; intros; apply preserves_discard_retry; intros; preserve.
Qed.
Lemma preserves_fileIncident subject diag now : preserves I (fileIncident subject diag now).
Proof.
  destruct writes. unfold fileIncident. cbv zeta. apply preserves_bind; [done|]. intros [created|e].
  - apply preserves_iobind; [apply preserves_discard_retry; intros; preserve|]. intros _.
    apply preserves_bind; [by apply preserves_each_event|]. intros _. destruct (_ || _); [|apply preserves_iok].
    apply preserves_bind; [by apply preserves_each_event|]. intros _. apply preserves_iok.
  - destruct (is_already_exists e); [|apply preserves_ierr].
    apply preserves_iobind; [apply preserves_discard_retry; intros; preserve|]. intros existing.
    apply preserves_iobind; [apply preserves_updateExisting|]. intros. apply preserves_iok.
Qed.
Lemma preserves_find subject diag : preserves I (findMatchingIncident subject diag).
Proof. unfold findMatchingIncident. preserve. Qed.
Lemma preserves_record subject diag now : preserves I (record_diagnosis subject diag now).
Proof.
  unfold record_diagnosis. apply preserves_iobind; [apply preserves_wrap, preserves_find|]. intros [existing|].
  - apply preserves_iobind; [apply preserves_updateExisting|]. intros. apply preserves_iok.
  - apply preserves_iobind; [apply preserves_fileIncident|]. intros _. apply preserves_bind; [apply preserves_find|]. intros. apply preserves_iok.
Qed.

Lemma preserves_first_rejection diag incident ras : preserves I (first_rejection diag incident ras).
Proof. induction ras as [|ra ras IH]; cbn [first_rejection]; preserve. Qed.
Lemma preserves_rejections diag incident : preserves I (rejectionSuppressesProposal diag incident).
Proof.
  unfold rejectionSuppressesProposal. destruct incident, (d_PersonaRef diag); try apply preserves_iok.
  apply preserves_iobind; [preserve|]. intros ras. apply preserves_bind; [apply preserves_first_rejection|]. intros. apply preserves_iok.
Qed.

Context (proposer : option (HealthCheck.Proposer W)) (proposals : forall p diag im, proposer = Some p -> preserves I (p diag im)).

Lemma preserves_processDiagnosis subject diag active : preserves I (processDiagnosis proposer subject diag active).
Proof.
  unfold processDiagnosis. cbv zeta. apply preserves_bind; [apply preserves_clock|]. intros now.
  apply preserves_bind; [apply preserves_record|]. intros [incident|e]; [|apply preserves_ret].
  destruct (su_unattributed subject); [apply preserves_ret|]. destruct proposer as [p|], incident as [im|]; try apply preserves_ret.
  destruct (_ =? _); [apply preserves_ret|]. unfold propose_remediation. apply preserves_bind; [|intros; apply preserves_ret].
  apply preserves_bind; [apply preserves_rejections|]. intros [reason|e]; [|apply preserves_ret].
  destruct (negb _); [apply preserves_ret|]. apply preserves_bind; [by eapply proposals|]. intros. apply preserves_ret.
Qed.
Lemma preserves_diagnoses subject diagnoses a d active : preserves I (process_diagnoses proposer subject diagnoses a d active).
Proof.
  revert a d active. induction diagnoses as [|diag rest IH]; intros a d active; cbn [process_diagnoses]; [apply preserves_ret|].
  apply preserves_bind; [apply preserves_processDiagnosis|]. intros [r active']. apply IH.
Qed.

Context (providers : list (DiagnosisProvider W)) (diagnosing : forall p signals, p ∈ providers -> preserves I (prov_Diagnose p signals)).

Lemma preserves_providers ps stage signals : (forall p, p ∈ ps -> p ∈ providers) -> preserves I (run_providers stage ps signals).
Proof.
  revert stage. induction ps as [|p ps IH]; intros stage Hps; cbn [run_providers]; [apply preserves_iok|].
  apply preserves_iobind; [apply preserves_wrap, diagnosing, Hps; by left|]. intros ds.
  apply preserves_iobind; [apply IH; intros q Hq; apply Hps; by right|]. intros. apply preserves_iok.
Qed.
Lemma preserves_group group active : preserves I (processGroup providers proposer group active).
Proof.
  unfold processGroup. apply preserves_bind.
  { unfold Analyze. destruct (sg_Signals group); [apply preserves_iok|]. apply preserves_iobind; [by apply preserves_providers|]. intros. apply preserves_iok. }
  intros [diagnoses|e]; [|apply preserves_ret]. destruct (incidentSubjectFor group); [apply preserves_diagnoses|apply preserves_ret].
Qed.
Lemma preserves_groups groups a d active : preserves I (process_groups providers proposer groups a d active).
Proof.
  revert a d active. induction groups as [|g groups IH]; intros a d active; cbn [process_groups]; [apply preserves_ret|].
  apply preserves_bind; [apply preserves_group|]. intros [[a' d'] active']. apply IH.
Qed.

Lemma preserves_markResolved im evidence : preserves I (markResolved im evidence).
Proof.
  destruct writes. unfold markResolved.
  apply preserves_iobind; [apply preserves_wrap, preserves_retried; intros; preserve|]. intros im'.
  apply preserves_iobind; [apply preserves_wrap, preserves_retried; intros; preserve|]. intros. apply preserves_iok.
Qed.
Lemma preserves_resolve_one active now im : preserves I (resolve_one active now im).
Proof.
  unfold resolve_one. destruct (bool_decide _); [apply preserves_ret|]. destruct (_ <? _)%Z; [apply preserves_ret|].
  apply preserves_bind.
  { unfold resolutionEvidence, supersededByPersona, verifyRecovery, verifyAbsentWorkload, workloadPods. preserve. }
  intros evidence. destruct (negb _); [apply preserves_ret|]. apply preserves_bind; [apply preserves_markResolved|]. intros. apply preserves_ret.
Qed.
Lemma preserves_resolve_all active now ims : preserves I (resolve_all active now ims).
Proof. induction ims as [|im ims IH]; cbn [resolve_all]; [apply preserves_ret|]. apply preserves_bind; [apply preserves_resolve_one|done]. Qed.
Lemma preserves_resolveCleared active : preserves I (resolveCleared active).
Proof. unfold resolveCleared. preserve. apply preserves_resolve_all. Qed.

Lemma preserves_cycle detection : preserves I detection -> preserves I (health_reconcile detection providers proposer).
Proof.
  intros Hd. unfold health_reconcile. apply preserves_bind; [done|]. intros [signals|e]; [|apply preserves_ret].
  apply preserves_bind; [apply preserves_groups|]. intros [[a d] active]. apply preserves_bind; [apply preserves_resolveCleared|].
  intros. apply preserves_ret.
Qed.
End cycle.

(** ** The loop and the proposer together, on a cluster in memory *)

Section composition.
Context `{QuantityOps} `{!SpecCodec} `{!Retry Mem} `{!RetryLaws (W := Mem)} `{!SortSlice} `{!EventSink Mem} (sc : SafetyCheckerImpl).

(** A computation that writes no RemediationAction. *)
Definition leaves_actions {A} (m : io Mem A) : Prop := forall w, mem_ra (m w).2 = mem_ra w.

(** Every stored action has a property; one that does not read the status is
    kept by the writes of the loop. *)
Definition stored (Q : RemediationAction -> Prop) (w : Mem) : Prop := forall k a, mem_ra w !! k = Some a -> Q a.
Definition status_free (Q : RemediationAction -> Prop) : Prop := forall a st, Q a -> Q (mkRA (ra_Meta a) (ra_Spec a) st).

Lemma stored_leaves Q {A} (m : io Mem A) : leaves_actions m -> preserves (stored Q) m.
Proof. intros Hm w Hw. unfold stored. by rewrite Hm. Qed.
Lemma mem_write_keeps {A} Q (f : Mem -> Mem) (a : A) :
  preserves (stored Q) (fun w => (tt, f w)) -> preserves (stored Q) (mem_write f a).
Proof.
  intros Hf w Hw. specialize (Hf). unfold mem_write, pop_fault. destruct (mem_faults w) as [|[e|] fs]; cbn; [by apply Hf|exact Hw|].
  apply Hf. exact Hw.
Qed.
Lemma stored_put Q a w st : status_free Q -> stored Q w -> Q a -> stored Q (put_ra (mkRA (ra_Meta a) (ra_Spec a) st) w).
Proof. intros Hq Hw Ha k b. cbn. intros [[_ <-]|[_ Hb]]%lookup_insert_Some; [by apply Hq|by apply (Hw k)]. Qed.
Lemma stored_create Q a : status_free Q -> Q a -> preserves (stored Q) (createRA a).
Proof.
  intros Hq Ha w Hw. cbn [createRA mem_client]. destruct (mem_ra w !! _); [done|]. revert w Hw. apply mem_write_keeps. intros w Hw.
  by apply stored_put.
Qed.
Lemma stored_status Q a : status_free Q -> preserves (stored Q) (updateStatusRA a).
Proof.
  intros Hq. apply mem_write_keeps. intros w Hw. cbn [snd]. unfold status_ra. destruct (mem_ra w !! _) as [old|] eqn:Ho; [|done].
  apply stored_put; [done|done|by eapply Hw].
Qed.

Lemma incident_writes_leave im :
  leaves_actions (createIncident im) /\ leaves_actions (updateIncident im) /\ leaves_actions (updateStatusIncident im).
Proof.
  split_and!; intros w; cbn; [destruct (mem_incidents w !! _); [done|]|..]; unfold mem_write, pop_fault;
    destruct (mem_faults w) as [|[e|] fs]; cbn; try done; unfold spec_incident, status_incident; cbn; by destruct (mem_incidents w !! _).
Qed.

(** An action is accounted for if it was stored before, up to its status, or is
    one that may be created. *)
Definition accounted_action (before : gmap ObjectKey RemediationAction) (a : RemediationAction) : Prop :=
  (exists k a0, before !! k = Some a0 /\ ra_Meta a = ra_Meta a0 /\ ra_Spec a = ra_Spec a0) \/
  (exists diag, sanctioned diag a /\ in_schema a).

Lemma in_schema_status_free : status_free in_schema.
Proof. intros a st []. by constructor. Qed.
Lemma accounted_status_free before : status_free (accounted_action before).
Proof.
  intros a st [(k & a0 & Hk & Hm & Hs)|(diag & [] & Hi)]; [left; by exists k, a0|right; exists diag].
  split; [by constructor|by apply in_schema_status_free].
Qed.

(** What a cycle may reach: nothing but the proposer writes an action. *)
Record collaborators_leave_actions (detection : io Mem (result error (list Signal))) (providers : list (DiagnosisProvider Mem))
    (planner : option (Planner Mem)) : Prop := {
  la_detection : leaves_actions detection;
  la_providers p signals : p ∈ providers -> leaves_actions (prov_Diagnose p signals);
  la_planner p rc : planner = Some p -> leaves_actions (@PlanRemediation _ Mem p rc);
  la_sink e : leaves_actions (StoreEvent e) /\ leaves_actions (EmitEvent e);
}.

Lemma cycle_stored Q detection providers planner :
  status_free Q -> (forall diag a, sanctioned diag a -> in_schema a -> Q a) -> collaborators_leave_actions detection providers planner ->
  preserves (stored Q) (health_reconcile detection providers (Some (Propose sc planner))).
Proof.
  intros Hq Hs [Hdet Hprov Hplan Hev]. apply (preserves_cycle (stored Q)).
  - constructor; intros x; apply stored_leaves; first [apply Hev|apply incident_writes_leave].
  - intros p diag im [= <-]. apply preserves_Propose.
    + intros d a Hd Hi. apply stored_create; [done|by apply (Hs d)].
    + intros a. by apply stored_status.
    + intros p rc Hp. by apply stored_leaves, Hplan.
  - intros p signals Hp. by apply stored_leaves, Hprov.
  - by apply stored_leaves.
Qed.

(** The whole cycle, with the proposer it is wired to.  Whatever the collectors
    report, the diagnosis providers conclude and the model answers, so long as
    they do not themselves write RemediationActions: after the cycle every
    action in the cluster was there before with the same content, or is
    sanctioned for some diagnosis and meets the CRD's schema.  Only persona
    updates may be applied by the operator, nothing offers a value the
    guardrails refused or a write to an owned workload, no prose claims a verdict
    Dorgu did not give, a diagnosed resource change is really applied unless the
    rules decline to size it, and a human must approve. *)
Theorem cycle_creates_only_sanctioned (detection : io Mem (result error (list Signal))) (providers : list (DiagnosisProvider Mem))
    (planner : option (Planner Mem)) (w : Mem) :
  collaborators_leave_actions detection providers planner ->
  forall k a, mem_ra (health_reconcile detection providers (Some (Propose sc planner)) w).2 !! k = Some a ->
    (exists k0 a0, mem_ra w !! k0 = Some a0 /\ ra_Meta a = ra_Meta a0 /\ ra_Spec a = ra_Spec a0) \/
    (exists diag, sanctioned diag a /\ in_schema a).
Proof.
  intros Hc. apply (cycle_stored (accounted_action (mem_ra w))); [apply accounted_status_free|by right; exists diag|done|].
  intros k a Ha. left. by exists k, a.
Qed.

End composition.

(** ** Witnesses *)

#[local] Existing Instance int_quantity.

Definition ex_detect : io Mem (result error (list Signal)) := iok [ex_oom_signal].
Definition ex_provider : DiagnosisProvider Mem := mkProvider "rule-based" (fun _ => iok [ex_oom]).

#[local] Instance quiet_sink : EventSink Mem := {| StoreEvent _ := iok tt; EmitEvent _ := iok tt |}.
Definition ex_cycle (planner : option (Planner Mem)) : Mem :=
  (health_reconcile ex_detect [ex_provider] (Some (Propose (mkChecker []) planner)) ex_shop).2.
Definition created (w : Mem) : list (string * raw_json * string) :=
  map (fun a => (ra_Name a, default RawEmpty (ad_Patch (ra_Action (ra_Spec a))), ra_PlanSource (ra_Spec a))) (map snd (map_to_list (mem_ra w))).

(** The rules double the limit; the model's fourfold increase is cut down to the
    same patch, by the same rules. *)
Example cycle_by_rules : created (ex_cycle None) = [("ra-api-resource-adjustment-72418d378560", ex_patch "200", "")].
Proof. vm_compute. reflexivity. Qed.
Example cycle_by_model : created (ex_cycle (Some ex_planner)) = [("ra-api-ai-remediation-a1a45e5dc11b", ex_patch "200", "ai-anthropic")].
Proof. vm_compute. reflexivity. Qed.

Lemma ex_collaborators : collaborators_leave_actions ex_detect [ex_provider] (Some ex_planner).
Proof.
  constructor.
  - intros w. reflexivity.
  - intros p signals Hp w. apply list_elem_of_singleton in Hp. rewrite Hp. reflexivity.
  - intros p rc Hp w. injection Hp as <-. reflexivity.
  - intros e. split; intros w; reflexivity.
Qed.

Lemma cycle_creates_only_sanctioned_witness :
  exists a, mem_ra (ex_cycle (Some ex_planner)) !! mkKey "ra-api-ai-remediation-a1a45e5dc11b" "shop" = Some a /\
    exists diag, sanctioned diag a /\ in_schema a.
Proof.
  assert (Ha : exists a, mem_ra (ex_cycle (Some ex_planner)) !! mkKey "ra-api-ai-remediation-a1a45e5dc11b" "shop" = Some a)
    by (vm_compute; eexists; reflexivity).
  assert (Hall : forall k a, mem_ra (ex_cycle (Some ex_planner)) !! k = Some a ->
    (exists k0 a0, mem_ra ex_shop !! k0 = Some a0 /\ ra_Meta a = ra_Meta a0 /\ ra_Spec a = ra_Spec a0) \/
    (exists diag, sanctioned diag a /\ in_schema a)).
  { clear Ha. unfold ex_cycle. refine (cycle_creates_only_sanctioned (mkChecker []) ex_detect [ex_provider] (Some ex_planner) ex_shop ex_collaborators). }
  revert Ha Hall. generalize (mem_ra (ex_cycle (Some ex_planner))). intros stored [a Ha] Hall. exists a. split; [exact Ha|].
  destruct (Hall _ a Ha) as [(k0 & a0 & Hk & _)|Hd]; [|exact Hd]. change (mem_ra ex_shop) with (∅ : gmap ObjectKey RemediationAction) in Hk.
  rewrite lookup_empty in Hk. congruence.
Defined.

(** Two cycles in a row. *)
Definition ex_two_cycles : Mem :=
  Nat.iter 2 (fun w => (health_reconcile ex_detect [ex_provider] (Some (Propose (mkChecker []) (Some ex_planner))) w).2) ex_shop.

(** A model may write a dotted key instead of nested objects.  Every check that
    reads patches by path takes it for the memory limit, so the plan counts as
    applying the diagnosed change; the executor, which needs a [spec] key, can
    apply none of it. *)
Definition ex_dotted : raw_json := RawDoc (JObj {["spec.resources.limits.memory" := JStr "150"]}).
Definition ex_dotted_planner : Planner Mem := fun _ => iok (Some (mkPlan "memory" (f_lit 80 100)
  [mkPlanned 1 "persona-update" "Raise the limit" "" "low" ex_dotted ""])).

Example dotted_plan_applies_nothing :
  created (ex_cycle (Some ex_dotted_planner)) = [("ra-api-ai-remediation-a1a45e5dc11b", ex_dotted, "ai-anthropic")] /\
  patchTouchesPath ex_dotted (diagnosisTargetPath ex_oom) = true /\
  patched_spec (ex_limits "api" "100") ex_dotted = Err (ErrText "patch must contain a 'spec' key").
Proof. split_and!; vm_compute; reflexivity. Qed.

(** Nor can a value refused at such a key be pruned: the path is split at its
    dots to find the leaf. *)
Example dotted_refusal_stays :
  prunePatchPaths (Some ex_dotted) (patchLeafPaths ex_dotted) = Some ex_dotted.
Proof. vm_compute. reflexivity. Qed.
