(* ===== verification/Events.v ===== *)
(** * Cluster events and what they are filed as (internal/events/classifier.go,
    and the naming of store.go).

    A Kubernetes Event becomes an InternalEvent by a static rule table; what is
    stored is named by a hash of what it is about.  Times are formatted in UTC,
    the zone of the operator's container. *)

From S2P Require Import Prelude GoString GoNum Sha256 Json ApiTypes KubeTypes Client Signals HealthCheck.
From Stdlib Require Import String Ascii.
From stdpp Require Import strings.
Open Scope string_scope.

(** ** [time.Format] *)

(** The proleptic Gregorian date of a day counted from 0001-01-01. *)
Definition civil_date (days : Z) : Z * Z * Z :=
  (let z := days + 306 in
   let era := z `div` 146097 in
   let doe := z `mod` 146097 in
   let yoe := (doe - doe `div` 1460 + doe `div` 36524 - doe `div` 146096) `div` 365 in
   let doy := doe - (365 * yoe + yoe `div` 4 - yoe `div` 100) in
   let mp := (5 * doy + 2) `div` 153 in
   let d := doy - (153 * mp + 2) `div` 5 + 1 in
   let m := if mp <? 10 then mp + 3 else mp - 9 in
   (yoe + era * 400 + (if m <=? 2 then 1 else 0), m, d))%Z.

Definition fmt_clock (secs : Z) : string :=
  pad_left 2 (secs `div` 3600) ++ ":" ++ pad_left 2 ((secs `div` 60) `mod` 60) ++ ":" ++ pad_left 2 (secs `mod` 60).
Definition fmt_date (days : Z) : string :=
  let '(y, m, d) := civil_date days in pad_left 4 y ++ "-" ++ pad_left 2 m ++ "-" ++ pad_left 2 d.

(** [time.RFC3339] and [time.RFC3339Nano], which drops trailing zeros. *)
Definition RFC3339 (t : time) : string :=
  let secs := (t `div` second)%Z in fmt_date (secs `div` 86400) ++ "T" ++ fmt_clock (secs `mod` 86400) ++ "Z".
Definition RFC3339Nano (t : time) : string :=
  let secs := (t `div` second)%Z in
  fmt_date (secs `div` 86400) ++ "T" ++ fmt_clock (secs `mod` 86400)
  ++ match trim_zeros (pad_left 9 (t `mod` second)) with "" => "" | f => "." ++ f end ++ "Z".

Example rfc3339_zero : RFC3339 0%Z = "0001-01-01T00:00:00Z".
Proof. vm_compute. reflexivity. Qed.
Example rfc3339_leap : RFC3339Nano ((62135596800 + 1709210096) * second + 120 * millisecond)%Z = "2024-02-29T12:34:56.12Z".
Proof. vm_compute. reflexivity. Qed.

(** ** corev1.Event *)

Record K8sEvent := mkK8sEvent {
  ke_Name : string;
  ke_UID : string;
  ke_Type : string;
  ke_Reason : string;
  ke_Message : string;
  ke_Component : string;                 (* source.component *)
  ke_ReportingController : string;
  ke_InvolvedObject : ResourceReference;
  ke_LastTimestamp : time;
  ke_CreationTimestamp : time;
}.
Definition EventTypeNormal : string := "Normal".
Definition EventTypeWarning : string := "Warning".

Definition OperatorEventSource : string := "dorgu-operator".

(** ** classifier.go *)

Record classificationRule := mkRule { cl_sev : string; cl_category : string; cl_match : K8sEvent -> bool }.

Definition reasonEquals (reason : string) (event : K8sEvent) : bool := (ke_Reason event =? reason).
Definition failed_with (text : string) (event : K8sEvent) : bool := (ke_Reason event =? "Failed") && contains (ke_Message event) text.

Definition defaultRules : list classificationRule :=
  [ mkRule SeverityCritical CategoryResource (reasonEquals "OOMKilling");
    mkRule SeverityCritical CategoryHealth (reasonEquals "BackOff");
    mkRule SeverityWarning CategoryDeployment (failed_with "ImagePullBackOff");
    mkRule SeverityWarning CategoryDeployment (failed_with "ErrImagePull");
    mkRule SeverityCritical CategoryResource (reasonEquals "Evicted");
    mkRule SeverityWarning CategoryResource (reasonEquals "FailedScheduling");
    mkRule SeverityCritical CategoryNode (reasonEquals "NodeNotReady");
    mkRule SeverityWarning CategoryNode (reasonEquals "MemoryPressure");
    mkRule SeverityWarning CategoryNode (reasonEquals "DiskPressure");
    mkRule SeverityWarning CategoryNode (reasonEquals "PIDPressure");
    mkRule SeverityCritical CategoryNode (reasonEquals "NetworkUnavailable");
    mkRule SeverityWarning CategoryDependency (reasonEquals "FailedMount");
    mkRule SeverityWarning CategoryHealth (reasonEquals "Unhealthy");
    mkRule SeverityInfo CategoryScaling (reasonEquals "ScalingReplicaSet");
    mkRule SeverityInfo CategoryDeployment (reasonEquals "SuccessfulCreate") ].

Definition isSelfRecorded (event : K8sEvent) : bool :=
  (ke_Component event =? OperatorEventSource) || (ke_ReportingController event =? OperatorEventSource).

Definition generateEventID (event : K8sEvent) : string :=
  let o := ke_InvolvedObject event in
  fmt_x (firstn 8 (Sum256 (rr_Namespace o ++ "/" ++ rr_Kind o ++ "/" ++ rr_Name o ++ "/" ++ ke_Reason event ++ "/"
                           ++ RFC3339 (ke_LastTimestamp event)))).

(** The first of the two recorded times that is set. *)
Definition recorded_time (event : K8sEvent) : time :=
  if t_is_zero (ke_LastTimestamp event) then ke_CreationTimestamp event else ke_LastTimestamp event.

Definition internal_event (event : K8sEvent) (severity category : string) (eventTime : time) : InternalEvent :=
  let o := ke_InvolvedObject event in
  mkEvent (generateEventID event) severity category (ke_Component event) (ke_Reason event) (ke_Message event)
    (mkResourceRef (rr_Kind o) (rr_Name o) (rr_Namespace o) "") None eventTime (ke_UID event).

(** What the table says of an event: its severity and category, or nothing. *)
Definition classification (event : K8sEvent) : option (string * string) :=
  if isSelfRecorded event then None else
  match find_first (fun rule => cl_match rule event) defaultRules with
  | Some rule => Some (cl_sev rule, cl_category rule)
  | None => if (ke_Type event =? EventTypeWarning) then Some (SeverityInfo, CategoryHealth) else None
  end.

Section classify.
Context `{Client W}.

Definition toInternalEvent (event : K8sEvent) (severity category : string) : io W InternalEvent :=
  if t_is_zero (recorded_time event) then let! now := clock in mret (internal_event event severity category now)
  else mret (internal_event event severity category (recorded_time event)).

(** [Classify]; [None] is the nil event, or one that is discarded. *)
Definition Classify (event : option K8sEvent) : io W (option InternalEvent) :=
  match event with
  | None => mret None
  | Some event =>
      match classification event with
      | None => mret None
      | Some (severity, category) => let! ev := toInternalEvent event severity category in mret (Some ev)
      end
  end.
End classify.

(** ** Names (store.go) *)

Definition MaxK8sNameLength : nat := 253.
Definition sanitizeK8sName (s : string) : string := str_map sanitize_byte s.

Definition crd_hash (event : InternalEvent) : string :=
  fmt_x (firstn 6 (Sum256 (ev_Category event ++ "/" ++ ev_Reason event ++ "/" ++ RFC3339Nano (ev_EventTime event)))).
Definition crd_name (event : InternalEvent) : string :=
  let o := ev_InvolvedObject event in
  "de-" ++ rr_Namespace o ++ "-" ++ sanitizeK8sName (rr_Kind o) ++ "-" ++ sanitizeK8sName (rr_Name o) ++ "-" ++ crd_hash event.
Definition generateCRDName (event : InternalEvent) : string :=
  let name := crd_name event in
  if (MaxK8sNameLength <? String.length name)%nat then str_take MaxK8sNameLength name else name.

(** [dedupKey]: what a record is about. *)
Definition dedupKey (event : InternalEvent) : string :=
  let o := ev_InvolvedObject event in
  ev_Source event ++ "/" ++ rr_Namespace o ++ "/" ++ rr_Name o ++ "/" ++ ev_Category event ++ "/" ++ ev_Reason event.

(** ** Properties *)

Definition event_severities : list string := [SeverityInfo; SeverityWarning; SeverityCritical].
Definition event_categories : list string :=
  [CategoryResource; CategoryScaling; CategoryHealth; CategorySecurity; CategoryDeployment; CategoryDependency; CategoryNode; CategoryControlPlane].

Lemma classification_typed event sev cat : classification event = Some (sev, cat) -> sev ∈ event_severities /\ cat ∈ event_categories.
Proof.
  unfold classification. destruct (isSelfRecorded event); [done|].
  destruct (find_first _ defaultRules) as [rule|] eqn:Hf.
  - intros [= <- <-]. apply find_first_Some in Hf as [Hin _]. clear -Hin.
    unfold defaultRules in Hin. repeat (apply elem_of_cons in Hin as [->|Hin]; [split; cbn; set_solver|]). by apply not_elem_of_nil in Hin.
  - destruct (_ =? _); [|done]. intros [= <- <-]. split; set_solver.
Qed.

(** A rule decides an event when it matches and no earlier rule does. *)
Definition decides (rule : classificationRule) (event : K8sEvent) : Prop :=
  exists before after, defaultRules = (before ++ rule :: after)%list /\ cl_match rule event = true /\
    forall r, r ∈ before -> cl_match r event = false.

(** What enters the pipeline.  An event is filed exactly when the operator did
    not record it itself and either a rule matches, in which case the first one
    that does decides, or it is an unmatched Warning, filed as health
    information; whatever is filed has a severity and a category the CRD
    admits. *)
Theorem classification_iff (event : K8sEvent) (sev cat : string) :
  (classification event = Some (sev, cat) <->
   (ke_Component event <> OperatorEventSource /\ ke_ReportingController event <> OperatorEventSource) /\
   ((exists rule, decides rule event /\ sev = cl_sev rule /\ cat = cl_category rule) \/
    (forall r, r ∈ defaultRules -> cl_match r event = false) /\ ke_Type event = EventTypeWarning /\ sev = SeverityInfo /\ cat = CategoryHealth)) /\
  (classification event = Some (sev, cat) -> sev ∈ event_severities /\ cat ∈ event_categories).
Proof.
  split; [|apply classification_typed]. unfold classification, isSelfRecorded.
  destruct (String.eqb_spec (ke_Component event) OperatorEventSource); [split; [done|by intros [[? _] _]]|].
  destruct (String.eqb_spec (ke_ReportingController event) OperatorEventSource); [split; [done|by intros [[_ ?] _]]|]. cbn [orb].
  destruct (find_first _ defaultRules) as [rule|] eqn:Hf.
  - pose proof Hf as (before & after & Hd)%find_first_split. split.
    + intros [= <- <-]. split; [done|]. left. exists rule. split; [|done]. by exists before, after.
    + intros [_ [(rule' & (b & a & Hd') & -> & ->)|[Hno _]]].
      * assert (find_first (fun r => cl_match r event) defaultRules = Some rule') as Hf' by (apply find_first_split; by exists b, a).
        rewrite Hf in Hf'. by injection Hf' as <-.
      * apply find_first_Some in Hf as [Hin Hm]. rewrite Hno in Hm; done.
  - pose proof Hf as Hnone. rewrite find_first_None in Hnone.
    destruct (String.eqb_spec (ke_Type event) EventTypeWarning) as [Hw|Hw].
    + split; [intros [= <- <-]; split; [done|by right]|]. intros [_ [(rule & (b & a & Hd & Hm & _) & _)|(_ & _ & -> & ->)]]; [|done].
      rewrite Hnone in Hm; [done|]. rewrite Hd. apply elem_of_app. right. left.
    + split; [done|]. intros [_ [(rule & (b & a & Hd & Hm & _) & _)|(_ & ? & _)]]; [|done].
      rewrite Hnone in Hm; [done|]. rewrite Hd. apply elem_of_app. right. left.
Qed.

(** ** Names *)

Lemma crd_hash_length event : String.length (crd_hash event) = 12%nat.
Proof.
  unfold crd_hash. destruct (Sum256_shape (ev_Category event ++ "/" ++ ev_Reason event ++ "/" ++ RFC3339Nano (ev_EventTime event))) as [Hl _].
  rewrite fmt_x_length, length_firstn, Hl. done.
Qed.

Lemma str_take_app n s t : (n <= String.length s)%nat -> str_take n (s ++ t) = str_take n s.
Proof. revert n. induction s as [|c s IH]; intros [|n] Hn; cbn in *; try done; [lia|]. f_equal. apply IH. lia. Qed.

(** What the name says besides the hash. *)
Definition crd_subject (event : InternalEvent) : string :=
  let o := ev_InvolvedObject event in
  "de-" ++ rr_Namespace o ++ "-" ++ sanitizeK8sName (rr_Kind o) ++ "-" ++ sanitizeK8sName (rr_Name o) ++ "-".

Lemma crd_name_subject event : crd_name event = crd_subject event ++ crd_hash event.
Proof. unfold crd_name, crd_subject. by rewrite !str_app_assoc. Qed.

(** C39. The length of a record's name, and what the truncation costs.  A name is
    never longer than the API server admits.  When the object's namespace, kind
    and name leave room it ends in the whole hash of the category, reason and
    time.  When they do not, the hash is what is cut: once the object alone
    fills the name, every event about it has the same name, whatever happened
    and whenever. *)
Theorem generateCRDName_bounds (event : InternalEvent) :
  (String.length (generateCRDName event) <= MaxK8sNameLength)%nat /\
  ((String.length (crd_subject event) + 12 <= MaxK8sNameLength)%nat -> generateCRDName event = crd_subject event ++ crd_hash event) /\
  ((MaxK8sNameLength <= String.length (crd_subject event))%nat ->
   forall event', ev_InvolvedObject event' = ev_InvolvedObject event -> generateCRDName event' = generateCRDName event).
Proof.
  assert (Hlen : String.length (crd_name event) = (String.length (crd_subject event) + 12)%nat)
    by (rewrite crd_name_subject, str_length_app, crd_hash_length; done).
  unfold generateCRDName. split; [|split].
  - destruct (Nat.ltb_spec MaxK8sNameLength (String.length (crd_name event))); [apply str_take_length|done].
  - intros Hroom. destruct (Nat.ltb_spec MaxK8sNameLength (String.length (crd_name event))); [lia|apply crd_name_subject].
  - intros Hfull event' Ho. assert (Hsub : crd_subject event' = crd_subject event) by (unfold crd_subject; by rewrite Ho).
    assert (Hlen' : String.length (crd_name event') = (String.length (crd_subject event) + 12)%nat)
      by (rewrite crd_name_subject, str_length_app, crd_hash_length, Hsub; done).
    rewrite Hlen, Hlen'. destruct (Nat.ltb_spec MaxK8sNameLength (String.length (crd_subject event) + 12)); [|lia].
    rewrite !crd_name_subject, Hsub, !str_take_app by done. done.
Qed.

(** *** What a dedup key tells apart *)

Lemma dedupKey_inj e e' :
  slash_free (ev_Source e) -> slash_free (ev_Source e') ->
  slash_free (rr_Namespace (ev_InvolvedObject e)) -> slash_free (rr_Namespace (ev_InvolvedObject e')) ->
  slash_free (rr_Name (ev_InvolvedObject e)) -> slash_free (rr_Name (ev_InvolvedObject e')) ->
  slash_free (ev_Category e) -> slash_free (ev_Category e') ->
  dedupKey e = dedupKey e' ->
  ev_Source e = ev_Source e' /\ rr_Namespace (ev_InvolvedObject e) = rr_Namespace (ev_InvolvedObject e') /\
  rr_Name (ev_InvolvedObject e) = rr_Name (ev_InvolvedObject e') /\ ev_Category e = ev_Category e' /\ ev_Reason e = ev_Reason e'.
Proof.
  unfold dedupKey. intros S1 S2 N1 N2 M1 M2 C1 C2 Hk.
  apply slash_split in Hk as [-> Hk]; [|done..]. apply slash_split in Hk as [-> Hk]; [|done..].
  apply slash_split in Hk as [-> Hk]; [|done..]. by apply slash_split in Hk as [-> ->].
Qed.
