(* ===== verification/EventStore.v ===== *)
(** * Recording events and pruning the records (internal/events/store.go,
    cleanup.go).

    The store's deduplication map is the operator's own memory: it is part of
    the world, behind [EventMemory], beside the cluster.  The mutex around it
    makes each check-and-set one step. *)

From S2P Require Import Prelude GoString GoNum Sha256 Json ApiTypes KubeTypes Client Signals Correlator Diagnosis HealthCheck Events.
From Stdlib Require Import String Ascii.
From stdpp Require Import strings.
Open Scope string_scope.

Definition maxDedupEntries : nat := 1000.
Definition DefaultDedupWindow : duration := (5 * minute)%Z.
Definition DefaultTTL : duration := (24 * hour)%Z.
Definition DefaultCleanupInterval : duration := (30 * minute)%Z.
Definition DefaultCleanupBatchSize : nat := 200.
Definition DefaultMaxRecords : Z := 2000.

Record DorguEventSpec := mkDESpec {
  des_Severity : string;
  des_Category : string;
  des_Source : string;
  des_Message : string;
  des_InvolvedObject : ResourceReference;
  des_PersonaRef : option PersonaReference;
  des_EventTime : time;
  des_K8sEventRef : string;
  des_TTL : option duration;
}.
Record DorguEvent := mkDE { de_Meta : ObjectMeta; de_Spec : DorguEventSpec }.
Definition de_key (de : DorguEvent) : ObjectKey := mkKey (m_Name (de_Meta de)) (m_Namespace (de_Meta de)).

(** The event records' API, and the recorder behind [kubectl get events]. *)
Class EventClient (W : Type) := {
  createDorguEvent : DorguEvent -> io W (result error unit);
  listDorguEvents : io W (result error (list DorguEvent));
  deleteDorguEvent : DorguEvent -> io W (result error unit);
}.

(** The deduplication map: the last time each key was recorded. *)
Class EventMemory (W : Type) := { dedup_map : W -> gmap string time; set_dedup_map : gmap string time -> W -> W }.

(** ** store.go *)

Record HybridEventStore := mkStore { st_dedupWindow : duration; st_ttl : duration }.
Definition WithDedupWindow (d : duration) (s : HybridEventStore) : HybridEventStore := mkStore d (st_ttl s).
Definition WithTTL (d : duration) (s : HybridEventStore) : HybridEventStore := mkStore (st_dedupWindow s) d.
Definition NewEventStore (opts : list (HybridEventStore -> HybridEventStore)) : HybridEventStore :=
  foldl (fun s opt => opt s) (mkStore DefaultDedupWindow DefaultTTL) opts.

(** The record that is written for an event. *)
Definition dorgu_event (s : HybridEventStore) (event : InternalEvent) : DorguEvent :=
  let o := ev_InvolvedObject event in
  let namespace := if (rr_Namespace o =? "") then "default" else rr_Namespace o in
  mkDE (mkMeta (generateCRDName event) namespace ∅ 0%Z None 0)
    (mkDESpec (ev_Severity event) (ev_Category event) (ev_Source event) (ev_Message event)
       (mkResourceRef (rr_Kind o) (rr_Name o) (rr_Namespace o) "") (ev_PersonaRef event) (ev_EventTime event)
       (ev_K8sEventUID event) (Some (st_ttl s))).

(** The entries the clean-up keeps. *)
Definition prune_dedup (window : duration) (now : time) (dedup : gmap string time) : gmap string time :=
  filter (fun kt => (window <? t_sub now kt.2)%Z = false) dedup.

Section store.
Context `{Client W} `{EventClient W} `{EventMemory W} (s : HybridEventStore).

Definition get_dedup : io W (gmap string time) := fun w => (dedup_map w, w).
Definition put_dedup (m : gmap string time) : io W unit := fun w => (tt, set_dedup_map m w).

(** [checkAndMarkSeen]: whether the key is a duplicate; if not, it is marked. *)
Definition checkAndMarkSeen (key : string) : io W bool :=
  let! dedup := get_dedup in
  let! duplicate := match dedup !! key with
                    | Some lastSeen => let! now := clock in mret (t_sub now lastSeen <? st_dedupWindow s)%Z
                    | None => mret false
                    end in
  if (duplicate : bool) then mret true else
  let! seen := clock in
  let dedup := <[key := seen]> dedup in
  if (maxDedupEntries <? size dedup)%nat then
    let! now := clock in
    let! _ := put_dedup (prune_dedup (st_dedupWindow s) now dedup) in
    mret false
  else
    let! _ := put_dedup dedup in
    mret false.

(** [persistCRD]: a record already under the name is this record. *)
Definition persistCRD (event : InternalEvent) : io W (result error unit) :=
  let de := dorgu_event s event in
  let! r := createDorguEvent de in
  match r with
  | Ok _ => iok tt
  | Err e => if is_already_exists e then iok tt
             else ierr (ErrWrap ("creating DorguEvent " ++ m_Namespace (de_Meta de) ++ "/" ++ m_Name (de_Meta de)) e)
  end.

(** [Store]; [None] is the nil event. *)
Definition Store (event : option InternalEvent) : io W (result error unit) :=
  match event with
  | None => iok tt
  | Some event =>
      let! duplicate := checkAndMarkSeen (dedupKey event) in
      if (duplicate : bool) then iok tt else wrap_io "persisting DorguEvent CRD" (persistCRD event)
  end.
End store.

(** ** cleanup.go *)

Record Cleaner := mkCleaner { cl_interval : duration; cl_batchSize : nat; cl_retention : duration; cl_maxRecords : Z }.
Definition WithCleanupInterval (d : duration) (c : Cleaner) : Cleaner := mkCleaner d (cl_batchSize c) (cl_retention c) (cl_maxRecords c).
Definition WithBatchSize (n : nat) (c : Cleaner) : Cleaner := mkCleaner (cl_interval c) n (cl_retention c) (cl_maxRecords c).
Definition WithRetention (d : duration) (c : Cleaner) : Cleaner := mkCleaner (cl_interval c) (cl_batchSize c) d (cl_maxRecords c).
Definition WithMaxRecords (n : Z) (c : Cleaner) : Cleaner := mkCleaner (cl_interval c) (cl_batchSize c) (cl_retention c) n.
Definition NewCleaner (opts : list (Cleaner -> Cleaner)) : Cleaner :=
  foldl (fun c opt => opt c) (mkCleaner DefaultCleanupInterval DefaultCleanupBatchSize DefaultTTL DefaultMaxRecords) opts.

(** [isExpired]: the record's own TTL wins. *)
Definition isExpired (fallbackTTL : duration) (now : time) (de : DorguEvent) : bool :=
  t_after now (t_add (des_EventTime (de_Spec de)) (default fallbackTTL (des_TTL (de_Spec de)))).

Definition older (a b : DorguEvent) : bool := t_before (des_EventTime (de_Spec a)) (des_EventTime (de_Spec b)).

(** [selectForDeletion]: the expired, and the oldest of the rest over the cap. *)
Definition selectForDeletion `{SortSlice} (c : Cleaner) (items : list DorguEvent) (now : time) : list DorguEvent * list DorguEvent :=
  let expired := List.filter (isExpired (cl_retention c) now) items in
  let kept := List.filter (fun de => negb (isExpired (cl_retention c) now de)) items in
  if ((cl_maxRecords c <=? 0) || (Z.of_nat (length kept) <=? cl_maxRecords c))%Z then (expired, [])
  else (expired, take (length kept - Z.to_nat (cl_maxRecords c)) (sort_slice older kept)).

Section cleanup.
Context `{Client W} `{EventClient W} `{SortSlice} (c : Cleaner).

(** The deletions, a failure being logged and passed over; how many went. *)
Fixpoint delete_each (doomed : list DorguEvent) : io W nat :=
  match doomed with
  | [] => mret 0%nat
  | de :: rest =>
      let! r := deleteDorguEvent de in
      let! n := delete_each rest in
      mret (match r with
            | Err e => if is_not_found e then S n else n
            | Ok _ => S n
            end)
  end.

(** [cleanup]: one cycle; the number of records gone. *)
Definition cleanup : io W (result error nat) :=
  let* items := wrap_io "listing DorguEvents" listDorguEvents in
  let! now := clock in
  let '(expired, surplus) := selectForDeletion c items now in
  let doomed := (expired ++ surplus)%list in
  let doomed := if (cl_batchSize c <? length doomed)%nat then take (cl_batchSize c) doomed else doomed in
  let! deleted := delete_each doomed in
  iok deleted.
End cleanup.

(** ** Properties: deduplication *)

Class EventMemoryLaws `{EventMemory W} `{EventClient W} : Prop := {
  dedup_set m w : dedup_map (set_dedup_map m w) = m;
  dedup_create de w : dedup_map (createDorguEvent de w).2 = dedup_map w;   (* the API server is not the operator's memory *)
}.

Section dedup.
Context `{ClientReads W} `{!EventClient W} `{!EventMemory W} `{!EventMemoryLaws (W := W)} (s : HybridEventStore).

Definition after_mark (window : duration) (now : time) (key : string) (m : gmap string time) : gmap string time :=
  let m := <[key := now]> m in if (maxDedupEntries <? size m)%nat then prune_dedup window now m else m.
Definition duplicate (window : duration) (now : time) (key : string) (m : gmap string time) : bool :=
  match m !! key with Some last => (t_sub now last <? window)%Z | None => false end.

Lemma checkAndMarkSeen_run key w :
  checkAndMarkSeen s key w =
  (if duplicate (st_dedupWindow s) (clock w).1 key (dedup_map w) then (true, w)
   else (false, set_dedup_map (after_mark (st_dedupWindow s) (clock w).1 key (dedup_map w)) w)).
Proof.
  assert (Hc : forall B (f : time -> io W B), (let! x := clock in f x) w = f (clock w).1 w).
  { intros B f. unfold mbind, io_bind. by rewrite (read_pair clock w (clock_reads w)). }
  unfold checkAndMarkSeen, after_mark. unfold mbind at 1, io_bind at 1, get_dedup. unfold mbind at 1, io_bind at 1.
  assert (Hd : (match dedup_map w !! key with
     | Some lastSeen => let! now := clock in mret (t_sub now lastSeen <? st_dedupWindow s)%Z
     | None => mret false end) w = (duplicate (st_dedupWindow s) (clock w).1 key (dedup_map w), w)).
  { unfold duplicate. destruct (dedup_map w !! key); [by rewrite Hc|done]. }
  rewrite Hd. destruct (duplicate _ _ _ _); [reflexivity|]. cbn beta iota.
  rewrite Hc. destruct (maxDedupEntries <? _)%nat; [by rewrite Hc|done].
Qed.

(** A run of the check: between two calls the cluster and the clock may move,
    the map does not.  Each entry is the time, the key and the verdict. *)
Inductive marks : list (time * string * bool) -> W -> W -> Prop :=
| marks_nil w : marks [] w w
| marks_call t key dup w1 w2 w3 w4 trace :
    (clock w1).1 = t -> checkAndMarkSeen s key w1 = (dup, w2) -> dedup_map w3 = dedup_map w2 -> marks trace w3 w4 ->
    marks ((t, key, dup) :: trace) w1 w4.

Lemma marks_step t key dup w1 w3 w4 trace :
  (clock w1).1 = t -> duplicate (st_dedupWindow s) t key (dedup_map w1) = dup ->
  dedup_map w3 = (if dup then dedup_map w1 else after_mark (st_dedupWindow s) t key (dedup_map w1)) ->
  marks trace w3 w4 -> marks ((t, key, dup) :: trace) w1 w4.
Proof.
  intros Ht Hd Hm Hrest. pose proof (checkAndMarkSeen_run key w1) as Hrun. rewrite Ht, Hd in Hrun.
  destruct dup; refine (marks_call _ _ _ _ _ _ _ _ Ht Hrun _ Hrest); [exact Hm|by rewrite dedup_set].
Qed.

(** The map holds, for each key recorded within the window, its latest record. *)
Record remembers (recorded : list (time * string)) (T : time) (m : gmap string time) : Prop := {
  rm_sound k t : m !! k = Some t -> (t, k) ∈ recorded;
  rm_past (t : time) k : (t, k) ∈ recorded -> (t <= T)%Z;
  rm_complete (t : time) k : (t, k) ∈ recorded -> (exists t' : time, m !! k = Some t' /\ (t <= t')%Z) \/ (st_dedupWindow s <= t_sub T t)%Z;
}.

Lemma duplicate_iff recorded T now key m : remembers recorded T m -> (T <= now)%Z ->
  duplicate (st_dedupWindow s) now key m = true <-> exists t : time, (t, key) ∈ recorded /\ (t_sub now t < st_dedupWindow s)%Z.
Proof.
  intros [Hs Hp Hc] HT. unfold duplicate. split.
  - destruct (m !! key) as [t|] eqn:Ht; [|done]. intros Hlt%Z.ltb_lt. exists t. split; [by apply Hs|done].
  - intros (t & Hin & Hlt). destruct (Hc t key Hin) as [(t' & -> & Ht')|Hout].
    + apply Z.ltb_lt. pose proof (t_sub_le now now t' t). pose proof (t_sub_le now now t t'). unfold t_sub in *. lia.
    + pose proof (t_sub_le T now t t). lia.
Qed.

Lemma remembers_mark recorded T now key m : remembers recorded T m -> (T <= now)%Z ->
  remembers ((now, key) :: recorded) now (after_mark (st_dedupWindow s) now key m).
Proof.
  intros [Hs Hp Hc] HT. assert (Hins : remembers ((now, key) :: recorded) now (<[key := now]> m)).
  { constructor.
    - intros k t. rewrite lookup_insert_Some. intros [[<- <-]|[_ Hk]]; [left|right; by apply Hs].
    - intros t k [[= -> ->]|Hin]%elem_of_cons; [lia|]. apply Hp in Hin. lia.
    - intros t k [[= -> ->]|Hin]%elem_of_cons; [left; exists now; rewrite lookup_insert_eq; split; [done|lia]|].
      destruct (decide (k = key)) as [->|Hne]; [left; exists now; rewrite lookup_insert_eq; split; [done|]; apply Hp in Hin; lia|].
      destruct (Hc t k Hin) as [(t' & Hm & Ht')|Hout]; [left; exists t'; by rewrite lookup_insert_ne|right].
      pose proof (t_sub_le T now t t). lia. }
  unfold after_mark. destruct (maxDedupEntries <? _)%nat; [|exact Hins]. destruct Hins as [Hs' Hp' Hc']. unfold prune_dedup. constructor.
  - intros k t. rewrite map_lookup_filter_Some. intros [Hk _]. by apply Hs'.
  - exact Hp'.
  - intros t k Hin. destruct (Hc' t k Hin) as [(t' & Hm & Ht')|Hout]; [|by right].
    destruct (Z.ltb_spec (st_dedupWindow s) (t_sub now t')) as [Hlt|Hge].
    + right. pose proof (t_sub_le now now t' t). lia.
    + left. exists t'. split; [|done]. apply map_lookup_filter_Some. split; [done|]. cbn. by apply Z.ltb_ge.
Qed.

Lemma marks_exact trace w w' : marks trace w w' -> forall recorded T,
  remembers recorded T (dedup_map w) -> StronglySorted Z.le (T :: map (fun c => c.1.1) trace) ->
  forall i t key dup, trace !! i = Some (t, key, dup) ->
    (dup = true <-> exists t', ((t', key) ∈ recorded \/ exists j, (j < i)%nat /\ trace !! j = Some (t', key, false)) /\ (t_sub t t' < st_dedupWindow s)%Z).
Proof.
  induction 1 as [w|? key dup w1 w2 w3 w4 trace <- Hcall Hmap Hrest IH]; intros recorded T Hr Hsorted i t k d Hi; [done|].
  rewrite checkAndMarkSeen_run in Hcall. cbn [map] in Hsorted. apply StronglySorted_inv in Hsorted as [Hsorted HT].
  apply Forall_cons in HT as [HT Hrest']. pose proof (duplicate_iff _ _ _ key _ Hr HT) as Hd.
  destruct i as [|i].
  { injection Hi as <- <- <-. destruct (duplicate _ _ _ _); injection Hcall as <- _.
    - split; [|done]. intros _. destruct Hd as [Hd _]. destruct Hd as (t' & Hin & Hlt); [done|]. exists t'. split; [by left|done].
    - split; [done|]. intros (t' & [Hin|(j & ? & _)] & Hlt); [|lia]. apply Hd. by exists t'. }
  cbn [lookup list_lookup] in Hi. destruct (duplicate _ _ _ _) eqn:Hdup; injection Hcall as <- <-.
  - rewrite (IH recorded T); [|by rewrite Hmap|apply StronglySorted_inv in Hsorted as [Htail _]; by constructor|exact Hi].
    split; intros (t' & [Hin|(j & Hj & Hjt)] & Hlt); exists t'; (split; [|done]); [by left|right; exists (S j); split; [lia|done]|by left|].
    destruct j as [|j]; [done|]. right. exists j. split; [lia|done].
  - rewrite (IH ((fst (clock w1), key) :: recorded) (fst (clock w1))); [|rewrite Hmap, dedup_set; by apply remembers_mark with T|done|exact Hi].
    split; intros (t' & [Hin|(j & Hj & Hjt)] & Hlt); exists t'; (split; [|done]).
    + apply elem_of_cons in Hin as [[= -> ->]|Hin]; [right; exists 0%nat; split; [lia|done]|by left].
    + right. exists (S j). split; [lia|done].
    + left. by right.
    + destruct j as [|j]; [left; injection Hjt as <- <-; left|right; exists j; split; [lia|done]].
Qed.

(** C15. Deduplication, exactly.  Over any run of checks on a clock that does not go
    back, starting from a fresh store, an event is suppressed if and only if an
    event with the same key was recorded less than the window before it: the
    pruning of a full map never forgets a key too early, and a suppressed event
    does not push the window further. *)
Theorem dedup_exact (trace : list (time * string * bool)) (w w' : W) :
  dedup_map w = ∅ -> marks trace w w' -> StronglySorted Z.le (map (fun c => c.1.1) trace) ->
  forall i t key dup, trace !! i = Some (t, key, dup) ->
    (dup = true <-> exists j t', (j < i)%nat /\ trace !! j = Some (t', key, false) /\ (t_sub t t' < st_dedupWindow s)%Z).
Proof.
  intros Hempty Hm Hsorted i t key dup Hi. destruct trace as [|[[t0 k0] d0] trace]; [done|].
  rewrite (marks_exact _ _ _ Hm [] t0); [| | |exact Hi].
  - split; [intros (t' & [?%not_elem_of_nil|(j & Hj & Hjt)] & Hlt); [done|by exists j, t']|].
    intros (j & t' & Hj & Hjt & Hlt). exists t'. split; [right; by exists j|done].
  - rewrite Hempty. constructor; [by intros k u; rewrite lookup_empty|by intros u k ?%not_elem_of_nil..].
  - cbn [map] in *. constructor; [done|]. apply StronglySorted_inv in Hsorted as [_ Hle]. constructor; [cbn; lia|exact Hle].
Qed.

Lemma marked_lookup window now key m : (0 <= window)%Z -> after_mark window now key m !! key = Some now.
Proof.
  intros Hw. unfold after_mark. destruct (maxDedupEntries <? _)%nat; [|by rewrite lookup_insert_eq].
  unfold prune_dedup. apply map_lookup_filter_Some. rewrite lookup_insert_eq. split; [done|]. cbn. apply Z.ltb_ge. unfold t_sub, min_int64, max_int64. lia.
Qed.

Lemma Store_unfold event w :
  Store s (Some event) w =
  (if duplicate (st_dedupWindow s) (clock w).1 (dedupKey event) (dedup_map w) then (Ok tt, w)
   else wrap_io "persisting DorguEvent CRD" (persistCRD s event)
          (set_dedup_map (after_mark (st_dedupWindow s) (clock w).1 (dedupKey event) (dedup_map w)) w)).
Proof.
  unfold Store, mbind, io_bind. rewrite checkAndMarkSeen_run. by destruct (duplicate _ _ _ _).
Qed.

Lemma persist_keeps event w : dedup_map (wrap_io "persisting DorguEvent CRD" (persistCRD s event) w).2 = dedup_map w.
Proof.
  unfold wrap_io, persistCRD, mbind, io_bind. pose proof (dedup_create (dorgu_event s event) w) as Hc.
  destruct (createDorguEvent _ w) as [[u|e] w1]; cbn in Hc |- *; [done|]. by destruct (is_already_exists e).
Qed.

(** A record is marked as seen before it is written, whatever becomes of the
    write.  Within the window any event with the same key is reported as stored
    and nothing is written for it: the retry of a record whose creation failed,
    and an event about something else that only shares the key. *)
Theorem same_key_swallowed (event event' : InternalEvent) (w w' : W) :
  dedupKey event' = dedupKey event ->
  duplicate (st_dedupWindow s) (clock w).1 (dedupKey event) (dedup_map w) = false ->
  dedup_map w' = dedup_map (Store s (Some event) w).2 ->
  ((clock w).1 <= (clock w').1)%Z -> (t_sub (clock w').1 (clock w).1 < st_dedupWindow s)%Z ->
  Store s (Some event') w' = (Ok tt, w').
Proof.
  intros Hk Hnew Hmap Hle Hlt. rewrite Store_unfold, Hk. unfold duplicate at 1. rewrite Hmap, Store_unfold, Hnew, persist_keeps, dedup_set.
  rewrite marked_lookup by (unfold t_sub, min_int64, max_int64 in Hlt; lia). by apply Z.ltb_lt in Hlt as ->.
Qed.

(** The events the health-check loop stores for the signals of a diagnosis have
    no reason, so two signals of one collector about one pod share their key
    whatever their types. *)
Lemma signal_events_share_key id id' text text' cs cs' :
  sig_Source (cg_Signal cs) = sig_Source (cg_Signal cs') -> sig_Category (cg_Signal cs) = sig_Category (cg_Signal cs') ->
  rr_Namespace (sig_Resource (cg_Signal cs)) = rr_Namespace (sig_Resource (cg_Signal cs')) ->
  rr_Name (sig_Resource (cg_Signal cs)) = rr_Name (sig_Resource (cg_Signal cs')) ->
  dedupKey (signal_event id text cs) = dedupKey (signal_event id' text' cs').
Proof. unfold dedupKey, signal_event. cbn. congruence. Qed.
End dedup.

(** ** Properties: pruning *)

Lemma bfilter_split {A} (p : A -> bool) (l : list A) :
  (List.filter p l ++ List.filter (fun a => negb (p a)) l)%list ≡ₚ l.
Proof.
  induction l as [|a l IH]; [done|]. cbn. destruct (p a); cbn; [by rewrite IH|]. rewrite <- Permutation_middle. by rewrite IH.
Qed.
Lemma bfilter_length_perm {A} (p : A -> bool) (l l' : list A) : l ≡ₚ l' -> length (List.filter p l) = length (List.filter p l').
Proof.
  induction 1 as [|x l l' _ IH|x y l|? ? ? _ IH1 _ IH2]; cbn; [done| | |congruence]; [destruct (p x); cbn; congruence|].
  by destruct (p x), (p y).
Qed.
Lemma bfilter_all {A} (p : A -> bool) (l : list A) b : (forall a, a ∈ l -> p a = b) -> List.filter p l = if b then l else [].
Proof.
  intros Hl. induction l as [|a l IH]; [by destruct b|]. cbn. rewrite (Hl a) by left. rewrite IH by (intros; apply Hl; by right). by destruct b.
Qed.

Section select.
Context `{SortSliceSpec} (c : Cleaner) (now : time).

Definition expired_at : DorguEvent -> bool := isExpired (cl_retention c) now.

Lemma older_weak : weak_order (fun _ => True) older.
Proof.
  unfold older, t_before. split; [intros x y _ _|intros x y z _ _ _]; rewrite ?Z.ltb_lt, ?Z.ltb_ge; lia.
Qed.

Lemma select_split items : let '(expired, surplus) := selectForDeletion c items now in
  exists survivors,
    ((expired ++ surplus) ++ survivors)%list ≡ₚ items /\ expired = List.filter expired_at items /\
    (forall de, de ∈ (surplus ++ survivors)%list -> expired_at de = false) /\
    ((0 < cl_maxRecords c)%Z -> length survivors = Nat.min (length (surplus ++ survivors)%list) (Z.to_nat (cl_maxRecords c))) /\
    ((cl_maxRecords c <= 0)%Z -> surplus = []) /\
    (forall a b, a ∈ surplus -> b ∈ survivors -> (des_EventTime (de_Spec a) <= des_EventTime (de_Spec b))%Z).
Proof.
  unfold selectForDeletion. cbv zeta. set (kept := List.filter (fun de => negb (isExpired (cl_retention c) now de)) items). set (expired := List.filter (isExpired (cl_retention c) now) items).
  assert (Hsplit : (expired ++ kept)%list ≡ₚ items) by apply bfilter_split.
  assert (Hkept : forall de, de ∈ kept -> expired_at de = false).
  { intros de Hin. apply list_elem_of_In, filter_In in Hin as [_ Hin]. by apply negb_true_iff in Hin. }
  destruct (Z.leb_spec (cl_maxRecords c) 0) as [Hmax|Hmax]; cbn [orb].
  { exists kept. rewrite app_nil_r. split_and!; try done; [lia|by intros a b ?%not_elem_of_nil]. }
  destruct (Z.leb_spec (Z.of_nat (length kept)) (cl_maxRecords c)) as [Hlen|Hlen].
  { exists kept. rewrite app_nil_r. split_and!; try done; [cbn; lia|by intros a b ?%not_elem_of_nil]. }
  set (n := (length kept - Z.to_nat (cl_maxRecords c))%nat). pose proof (sort_slice_perm older kept) as Hp.
  exists (drop n (sort_slice older kept)). rewrite <- app_assoc, take_drop. split_and!; try done.
  - by rewrite Hp.
  - intros de. rewrite Hp. apply Hkept.
  - rewrite (Permutation_length Hp). rewrite length_drop, (Permutation_length Hp). unfold n. lia.
  - lia.
  - intros a b Ha Hb. pose proof (sort_slice_sorted (fun _ => True) older kept older_weak ltac:(by apply Forall_true)) as Hs.
    rewrite <- (take_drop n (sort_slice older kept)) in Hs.
    assert (Hab : older b a = false) by (by eapply (StronglySorted_app_1_elem_of (fun a b => older b a = false))). unfold older, t_before in Hab. by apply Z.ltb_ge in Hab.
Qed.

(** What a cycle selects.  Every record past its own TTL, or past the
    operator's retention when it has none, and no other is selected for its
    age; of the rest exactly as many as exceed the cap, when there is one, and
    those the oldest: nothing selected for the cap is newer than anything that
    is kept. *)
Theorem selectForDeletion_spec (items : list DorguEvent) :
  let '(expired, surplus) := selectForDeletion c items now in
  exists survivors,
    ((expired ++ surplus) ++ survivors)%list ≡ₚ items /\
    (forall de, de ∈ expired <-> de ∈ items /\ (des_EventTime (de_Spec de) + default (cl_retention c) (des_TTL (de_Spec de)) < now)%Z) /\
    (forall de, de ∈ survivors -> (now <= des_EventTime (de_Spec de) + default (cl_retention c) (des_TTL (de_Spec de)))%Z) /\
    ((0 < cl_maxRecords c)%Z -> length survivors = Nat.min (length (surplus ++ survivors)%list) (Z.to_nat (cl_maxRecords c))) /\
    ((cl_maxRecords c <= 0)%Z -> surplus = []) /\
    (forall a b, a ∈ surplus -> b ∈ survivors -> (des_EventTime (de_Spec a) <= des_EventTime (de_Spec b))%Z).
Proof.
  pose proof (select_split items) as Hs. destruct (selectForDeletion c items now) as [expired surplus].
  destruct Hs as (survivors & Hperm & -> & Hun & Hlen & Hnone & Hold). exists survivors. split_and!; try done.
  - intros de. rewrite list_elem_of_In, filter_In, <- list_elem_of_In. unfold expired_at, isExpired, t_after, t_add. by rewrite Z.ltb_lt.
  - intros de Hde. assert (Hf : expired_at de = false) by (apply Hun, elem_of_app; by right).
    unfold expired_at, isExpired, t_after, t_add in Hf. by apply Z.ltb_ge in Hf.
Qed.

(** How much there is to delete, by counting. *)
Definition backlog (items : list DorguEvent) : nat :=
  length (List.filter expired_at items) +
  (if (cl_maxRecords c <=? 0)%Z then 0 else length (List.filter (fun de => negb (expired_at de)) items) - Z.to_nat (cl_maxRecords c)).

Lemma select_backlog items : let '(expired, surplus) := selectForDeletion c items now in length (expired ++ surplus)%list = backlog items.
Proof.
  unfold selectForDeletion, backlog, expired_at. cbv zeta. set (kept := List.filter (fun de => negb (isExpired (cl_retention c) now de)) items).
  destruct (Z.leb_spec (cl_maxRecords c) 0); cbn [orb]; [rewrite app_nil_r; lia|].
  destruct (Z.leb_spec (Z.of_nat (length kept)) (cl_maxRecords c)); cbn beta iota; [rewrite app_nil_r; lia|].
  rewrite length_app, length_take, (Permutation_length (sort_slice_perm older kept)). lia.
Qed.

Lemma backlog_perm l l' : l ≡ₚ l' -> backlog l = backlog l'.
Proof. intros Hp. unfold backlog. by rewrite !(bfilter_length_perm _ _ _ Hp). Qed.

Lemma backlog_after items b : let '(expired, surplus) := selectForDeletion c items now in
  exists rest, (take b (expired ++ surplus) ++ rest)%list ≡ₚ items /\ backlog rest = (backlog items - b)%nat.
Proof.
  pose proof (select_split items) as Hs. pose proof (select_backlog items) as Hb.
  destruct (selectForDeletion c items now) as [expired surplus]. destruct Hs as (survivors & Hperm & Hexp & Hun & Hlen & Hnone & _).
  exists (drop b (expired ++ surplus) ++ survivors)%list. rewrite app_assoc, take_drop. split; [done|].
  assert (He : forall de, de ∈ expired -> expired_at de = true).
  { intros de Hin. rewrite Hexp in Hin. by apply list_elem_of_In, filter_In in Hin as [_ ?]. }
  assert (Hex : List.filter expired_at (drop b (expired ++ surplus) ++ survivors)%list = drop b expired).
  { rewrite drop_app, !List.filter_app. rewrite (bfilter_all expired_at (drop b expired) true), (bfilter_all _ (drop _ surplus) false), (bfilter_all _ survivors false).
    - by rewrite !app_nil_r.
    - intros a Ha. apply Hun, elem_of_app. by right.
    - intros a Ha. apply Hun, elem_of_app. left. by eapply subseteq_drop.
    - intros a Ha. apply He. by eapply subseteq_drop. }
  assert (Hne : List.filter (fun de => negb (expired_at de)) (drop b (expired ++ surplus) ++ survivors)%list = (drop (b - length expired) surplus ++ survivors)%list).
  { rewrite drop_app, !List.filter_app. rewrite (bfilter_all _ (drop b expired) false), (bfilter_all _ (drop _ surplus) true), (bfilter_all _ survivors true).
    - done.
    - intros a Ha. apply negb_true_iff, Hun, elem_of_app. by right.
    - intros a Ha. apply negb_true_iff, Hun, elem_of_app. left. by eapply subseteq_drop.
    - intros a Ha. apply negb_false_iff, He. by eapply subseteq_drop. }
  unfold backlog at 1. rewrite Hex, Hne, <- Hb, !length_app, !length_drop.
  destruct (Z.leb_spec (cl_maxRecords c) 0) as [Hmax|Hmax]; [rewrite (Hnone Hmax); cbn; lia|].
  specialize (Hlen Hmax). rewrite length_app in Hlen. lia.
Qed.
End select.

(** ** A cluster in memory, with the operator's own memory beside it *)

Record EvMem `{QuantityOps} := mkEvMem {
  em_mem : Mem;
  em_dedup : gmap string time;
  em_events : gmap ObjectKey DorguEvent;
  em_faults : list (option api_error);   (* one entry per write of a record *)
}.

Section evmem.
Context `{QuantityOps}.

#[export] Instance evmem_client : Client EvMem :=
  lift_client em_mem (fun m w => mkEvMem _ m (em_dedup w) (em_events w) (em_faults w)).
#[export] Instance evmem_reads : ClientReads (W := EvMem).
Proof. apply lift_client_reads. by intros []. Qed.

Definition ev_write (f : gmap ObjectKey DorguEvent -> gmap ObjectKey DorguEvent) : io EvMem (result error unit) := fun w =>
  match em_faults w with
  | Some k :: fs => (Err (ErrAPI k "the write was refused"), mkEvMem _ (em_mem w) (em_dedup w) (em_events w) fs)
  | None :: fs => (Ok tt, mkEvMem _ (em_mem w) (em_dedup w) (f (em_events w)) fs)
  | [] => (Ok tt, mkEvMem _ (em_mem w) (em_dedup w) (f (em_events w)) [])
  end.
#[export] Instance evmem_events : EventClient EvMem := {
  createDorguEvent de w := match em_events w !! de_key de with
                           | Some _ => (Err (ErrAPI AlreadyExists "already exists"), w)
                           | None => ev_write (<[de_key de := de]>) w
                           end;
  listDorguEvents w := (Ok (map snd (map_to_list (em_events w))), w);
  deleteDorguEvent de w := match em_events w !! de_key de with
                           | None => (not_found, w)
                           | Some _ => ev_write (delete (de_key de)) w
                           end;
}.
#[export] Instance evmem_memory : EventMemory EvMem := {
  dedup_map := em_dedup;
  set_dedup_map m w := mkEvMem _ (em_mem w) m (em_events w) (em_faults w);
}.
#[export] Instance evmem_memory_laws : EventMemoryLaws (W := EvMem).
Proof.
  split; [done|]. intros de w. cbn. destruct (em_events w !! _); [done|]. unfold ev_write. by destruct (em_faults w) as [|[k|] fs].
Qed.

(** The records are filed under their own names, and no write is refused. *)
Record healthy_records (w : EvMem) : Prop := {
  hr_keyed k de : em_events w !! k = Some de -> de_key de = k;
  hr_faults : em_faults w = [];
}.
Definition records (w : EvMem) : list DorguEvent := map snd (map_to_list (em_events w)).

Lemma records_elem w de : healthy_records w -> de ∈ records w <-> em_events w !! de_key de = Some de.
Proof.
  intros Hh. unfold records. rewrite list_elem_of_fmap. split.
  - intros ([k de'] & -> & Hin%elem_of_map_to_list). cbn. by rewrite (hr_keyed _ Hh _ _ Hin).
  - intros Hl. exists (de_key de, de). split; [done|]. by apply elem_of_map_to_list.
Qed.

Lemma delete_record w de rest : healthy_records w -> de :: rest ≡ₚ records w ->
  exists w', deleteDorguEvent de w = (Ok tt, w') /\ healthy_records w' /\ rest ≡ₚ records w' /\ em_mem w' = em_mem w.
Proof.
  intros Hh Hp. assert (Hl : em_events w !! de_key de = Some de) by (apply records_elem; [done|]; rewrite <- Hp; left).
  exists (mkEvMem _ (em_mem w) (em_dedup w) (delete (de_key de) (em_events w)) []). cbn. rewrite Hl. unfold ev_write. rewrite (hr_faults _ Hh).
  split; [done|]. split; [constructor; [|done]; intros k d; cbn; intros [_ Hk]%lookup_delete_Some; by apply Hh|]. split; [|done].
  assert (Hr : records w ≡ₚ de :: map snd (map_to_list (delete (de_key de) (em_events w)))).
  { unfold records. by rewrite <- (map_to_list_delete _ _ _ Hl). }
  rewrite Hr in Hp. by apply Permutation_cons_inv in Hp.
Qed.

Lemma delete_records doomed w rest : healthy_records w -> (doomed ++ rest)%list ≡ₚ records w ->
  exists w', delete_each doomed w = (length doomed, w') /\ healthy_records w' /\ rest ≡ₚ records w' /\ em_mem w' = em_mem w.
Proof.
  revert w. induction doomed as [|de doomed IH]; intros w Hh Hp; [by exists w|]. cbn [app] in Hp.
  destruct (delete_record w de _ Hh Hp) as (w1 & Hd & Hh1 & Hp1 & Hm1). destruct (IH w1 Hh1 Hp1) as (w2 & Hd2 & Hh2 & Hp2 & Hm2).
  exists w2. split_and!; [|done|done|congruence]. cbn [delete_each]. unfold mbind, io_bind. by rewrite Hd, Hd2.
Qed.

Context `{SortSliceSpec} (c : Cleaner).

(** Cleaning cycles, one after the other. *)
Fixpoint cycles (n : nat) (w : EvMem) : EvMem := match n with O => w | S n => cycles n (cleanup c w).2 end.

Lemma cleanup_cycle w : healthy_records w ->
  healthy_records (cleanup c w).2 /\ em_mem (cleanup c w).2 = em_mem w /\
  backlog c (mem_now (em_mem w)) (records (cleanup c w).2) = (backlog c (mem_now (em_mem w)) (records w) - cl_batchSize c)%nat.
Proof.
  intros Hh. set (now := mem_now (em_mem w)). unfold cleanup, iobind, wrap_io. cbn [listDorguEvents evmem_events map_err].
  fold (records w). change (wrap_err "listing DorguEvents" (Ok (records w))) with (@Ok error _ (records w)). cbn beta iota.
  assert (Hc : forall B (f : time -> io EvMem B), (let! x := clock in f x) w = f now w) by (intros; by destruct w as [[] ? ? ?]).
  rewrite Hc. pose proof (backlog_after c now (records w) (cl_batchSize c)) as Hb. pose proof (select_backlog c now (records w)) as Hlen.
  destruct (selectForDeletion c (records w) now) as [expired surplus]. destruct Hb as (rest & Hp & Hrest).
  set (doomed := if (_ <? _)%nat then _ else _). assert (Hd : doomed = take (cl_batchSize c) (expired ++ surplus)).
  { unfold doomed. destruct (Nat.ltb_spec (cl_batchSize c) (length (expired ++ surplus)%list)); [done|]. by rewrite take_ge. }
  rewrite <- Hd in Hp. destruct (delete_records doomed w rest Hh Hp) as (w' & Hdel & Hh' & Hp' & Hm').
  unfold mbind, io_bind. rewrite Hdel. cbn [snd iok]. split_and!; [done|done|]. by rewrite <- (backlog_perm c now _ _ Hp').
Qed.

(** C24. Pruning reaches its bounds.  When no delete is refused, each cycle takes a
    whole batch off the backlog, so enough cycles clear it however large it is;
    after them no record is past its time and the cap, if there is one, holds. *)
Theorem cleanup_drains (n : nat) (w : EvMem) :
  healthy_records w -> (backlog c (mem_now (em_mem w)) (records w) <= n * cl_batchSize c)%nat ->
  let w' := cycles n w in
  (forall de, de ∈ records w' -> isExpired (cl_retention c) (mem_now (em_mem w)) de = false) /\
  ((0 < cl_maxRecords c)%Z -> (Z.of_nat (size (em_events w')) <= cl_maxRecords c)%Z).
Proof.
  cbv zeta. set (now := mem_now (em_mem w)). intros Hh Hb.
  assert (Hn : healthy_records (cycles n w) /\ backlog c now (records (cycles n w)) = 0%nat).
  { unfold now in *. clear now. revert w Hh Hb. induction n as [|n IH]; intros w Hh Hb; [split; [done|]; cbn in *; lia|]. cbn [cycles].
    destruct (cleanup_cycle w Hh) as (Hh' & Hm & Hb'). rewrite <- Hm. apply IH; [done|]. rewrite Hm, Hb'. lia. }
  destruct Hn as [Hh' Hz]. unfold backlog in Hz. split.
  - intros de Hde. destruct (isExpired (cl_retention c) now de) eqn:He; [|done]. exfalso.
    assert (Hin : de ∈ List.filter (expired_at c now) (records (cycles n w))) by (apply list_elem_of_In, filter_In; by rewrite <- list_elem_of_In).
    destruct (List.filter (expired_at c now) (records (cycles n w))); [by apply not_elem_of_nil in Hin|]. cbn in Hz. lia.
  - intros Hmax. destruct (Z.leb_spec (cl_maxRecords c) 0); [lia|].
    pose proof (Permutation_length (bfilter_split (expired_at c now) (records (cycles n w)))) as Hsum. rewrite length_app in Hsum.
    assert (Hsize : size (em_events (cycles n w)) = length (records (cycles n w))) by (unfold records; by rewrite length_map, length_map_to_list). lia.
Qed.
End evmem.

(** ** Witnesses *)

#[local] Existing Instance int_quantity.

Definition ex_event (reason : string) (t : time) : InternalEvent :=
  mkEvent "" SeverityWarning CategoryHealth "pod" reason "readiness probe failed" (mkResourceRef "Pod" "api-1" "shop" "") None t "uid-1".
Definition ex_record (name : string) (t : time) (ttl : option duration) : DorguEvent :=
  mkDE (mkMeta name "shop" ∅ 0%Z None 0)
    (mkDESpec SeverityInfo CategoryHealth "pod" "" (mkResourceRef "Pod" "api-1" "shop" "") None t "" ttl).
Definition ex_store : HybridEventStore := NewEventStore [].
Definition ex_ev (t : time) (dedup : gmap string time) (records : list DorguEvent) (faults : list (option api_error)) : EvMem :=
  mkEvMem _ (empty_mem t) dedup (list_to_map (map (fun de => (de_key de, de)) records)) faults.

Definition ex_trace : list (time * string * bool) :=
  [(0%Z, "a", false); (minute, "a", true); (6 * minute, "a", false)%Z].

Lemma dedup_exact_witness :
  exists j t', (j < 1)%nat /\ ex_trace !! j = Some (t', "a", false) /\ (t_sub minute t' < DefaultDedupWindow)%Z.
Proof.
  assert (Hm : marks ex_store ex_trace (ex_ev 0%Z ∅ [] []) (ex_ev (6 * minute)%Z {["a" := (6 * minute)%Z]} [] [])).
  { unfold ex_trace. refine (marks_step ex_store _ _ _ _ (ex_ev minute {["a" := 0%Z]} [] []) _ _ _ _ _ _); [reflexivity|vm_compute; reflexivity|vm_compute; reflexivity|].
    refine (marks_step ex_store _ _ _ _ (ex_ev (6 * minute)%Z {["a" := 0%Z]} [] []) _ _ _ _ _ _); [reflexivity|vm_compute; reflexivity|vm_compute; reflexivity|].
    refine (marks_step ex_store _ _ _ _ (ex_ev (6 * minute)%Z {["a" := (6 * minute)%Z]} [] []) _ _ _ _ _ _); [reflexivity|vm_compute; reflexivity|vm_compute; reflexivity|].
    constructor. }
  assert (He : dedup_map (ex_ev 0%Z ∅ [] []) = ∅) by reflexivity.
  assert (Hs : StronglySorted Z.le (map (fun c : time * string * bool => c.1.1) ex_trace)) by (repeat constructor; vm_compute; discriminate).
  destruct (dedup_exact ex_store ex_trace _ _ He Hm Hs 1 minute "a" true eq_refl) as [Hd _].
  exact (Hd eq_refl).
Defined.

(** The creation of a record fails; its retry a minute later reports success
    and writes nothing. *)
Lemma same_key_swallowed_witness :
  (Store ex_store (Some (ex_event "Unhealthy" 0%Z)) (ex_ev 0%Z ∅ [] [Some OtherAPIError])).1 <> Ok tt /\
  let w' := ex_ev minute {[dedupKey (ex_event "Unhealthy" 0%Z) := 0%Z]} [] [] in
  Store ex_store (Some (ex_event "Unhealthy" 0%Z)) w' = (Ok tt, w').
Proof.
  split; [vm_compute; discriminate|]. cbv zeta.
  refine (same_key_swallowed ex_store (ex_event "Unhealthy" 0%Z) (ex_event "Unhealthy" 0%Z) (ex_ev 0%Z ∅ [] [Some OtherAPIError])
            (ex_ev minute {[dedupKey (ex_event "Unhealthy" 0%Z) := 0%Z]} [] []) eq_refl _ _ _ _).
  - vm_compute. reflexivity.
  - vm_compute. reflexivity.
  - vm_compute. discriminate.
  - vm_compute. reflexivity.
Defined.

Definition ex_items : list DorguEvent :=
  [ex_record "old" 0%Z (Some minute); ex_record "b" (50 * hour)%Z None; ex_record "a" (49 * hour)%Z None; ex_record "c" (51 * hour)%Z None].
Definition ex_cleaner : Cleaner := NewCleaner [WithMaxRecords 2; WithBatchSize 1].

Lemma selectForDeletion_spec_witness :
  map (fun de => m_Name (de_Meta de)) (selectForDeletion ex_cleaner ex_items (52 * hour)%Z).1 = ["old"] /\
  map (fun de => m_Name (de_Meta de)) (selectForDeletion ex_cleaner ex_items (52 * hour)%Z).2 = ["a"] /\
  forall b, b ∈ [ex_record "b" (50 * hour)%Z None; ex_record "c" (51 * hour)%Z None] -> (49 * hour <= des_EventTime (de_Spec b))%Z.
Proof.
  split; [vm_compute; reflexivity|]. split; [vm_compute; reflexivity|].
  pose proof (selectForDeletion_spec ex_cleaner (52 * hour)%Z ex_items) as Hs.
  assert (Hsel : selectForDeletion ex_cleaner ex_items (52 * hour)%Z = ([ex_record "old" 0%Z (Some minute)], [ex_record "a" (49 * hour)%Z None]))
    by (vm_compute; reflexivity).
  rewrite Hsel in Hs. destruct Hs as (survivors & Hp & _ & _ & _ & _ & Hold). intros b Hb. apply (Hold (ex_record "a" (49 * hour)%Z None)); [left|].
  assert (Hin : b ∈ ex_items) by (unfold ex_items; apply elem_of_cons in Hb as [->|Hb]; [right; left|apply list_elem_of_singleton in Hb as ->; by do 3 right; left]).
  rewrite <- Hp in Hin. apply elem_of_app in Hin as [Hin|Hin]; [|done]. exfalso.
  apply elem_of_cons in Hb as [->|Hb]; [|apply list_elem_of_singleton in Hb as ->]; apply elem_of_cons in Hin as [Hin|Hin];
    [discriminate Hin|apply list_elem_of_singleton in Hin; discriminate Hin|discriminate Hin|apply list_elem_of_singleton in Hin; discriminate Hin].
Defined.

Lemma cleanup_drains_witness :
  (Z.of_nat (size (em_events (cycles ex_cleaner 2 (ex_ev (52 * hour)%Z ∅ ex_items [])))) <= 2)%Z.
Proof.
  apply (cleanup_drains ex_cleaner 2 (ex_ev (52 * hour)%Z ∅ ex_items [])).
  - split; [|reflexivity]. intros k de Hk. apply elem_of_list_to_map_2, list_elem_of_fmap in Hk as (de' & [= -> ->] & _). reflexivity.
  - vm_compute. lia.
  - vm_compute. reflexivity.
Defined.
