(* ===== verification/EventPipeline.v ===== *)
(** * The event pipeline: correlate, store, emit (internal/events/correlator.go,
    emitter.go, watcher.go).

    The informer behind the watcher delivers each Event of the cluster, again on
    every resync; [processEvent] is what one delivery does.  The API reads the
    correlator adds and the event recorder are the classes below. *)

From S2P Require Import Prelude GoString GoNum Sha256 Json ApiTypes KubeTypes Client Writes Signals Correlator Diagnosis HealthCheck Events EventStore.
From Stdlib Require Import String Ascii.
From stdpp Require Import strings.
Open Scope string_scope.

Definition DefaultStartupWindow : duration := (10 * minute)%Z.
Definition ReasonDorguDetected : string := "DorguDetected".
Definition events_kindDeployment : string := "Deployment".

Record ObjectReference := mkObjectRef { or_Kind : string; or_Name : string; or_Namespace : string; or_APIVersion : string }.

(** Pods and ReplicaSets by name: their owners and their labels. *)
Class OwnerReader (W : Type) := {
  getPodOwners : ObjectKey -> io W (result error (list OwnerReference * gmap string string));
  getReplicaSet : ObjectKey -> io W (result error (list OwnerReference * gmap string string));
}.
(** [record.EventRecorder]. *)
Class EventRecorder (W : Type) := recordEvent : ObjectReference -> string -> string -> string -> io W unit.

(** ** correlator.go *)

Definition findOwnerDeployment (refs : list OwnerReference) : string :=
  match find_first (fun ref => (ow_Kind ref =? events_kindDeployment)) refs with Some ref => ow_Name ref | None => "" end.

Section events.
Context `{QuantityOps}.

Definition persona_ref (p : ApplicationPersona) : PersonaReference := mkPersonaRef "ApplicationPersona" (ap_Name p) (ap_Namespace p).

(** By [spec.name], else by the persona's own name. *)
Definition match_deployment (personas : list ApplicationPersona) (name : string) : option ApplicationPersona :=
  match find_first (fun p => (aps_Name (ap_Spec p) =? name)) personas with
  | Some p => Some p
  | None => find_first (fun p => (ap_Name p =? name)) personas
  end.
Definition app_label (labels : gmap string string) : string :=
  if (mget labels "app.kubernetes.io/name" =? "") then mget labels "app" else mget labels "app.kubernetes.io/name".
Definition match_label (personas : list ApplicationPersona) (name : string) : option ApplicationPersona :=
  find_first (fun p => (aps_Name (ap_Spec p) =? name) || (ap_Name p =? name)) personas.
Definition match_only (personas : list ApplicationPersona) : option ApplicationPersona :=
  match personas with [p] => Some p | _ => None end.
End events.

Section correlate.
Context `{Client W} `{OwnerReader W}.

(** The persona an event is linked to, if any. *)
Definition linked : Type := io W (result error (option PersonaReference)).

Definition link_with (ns : string) (choose : list ApplicationPersona -> option ApplicationPersona) : linked :=
  let* personas := wrap_io "listing ApplicationPersonas" (listPersonas (mkListOptions (Some ns) [])) in
  iok (persona_ref <$> choose personas).

Definition matchDeploymentToPersona (ns deploymentName : string) : linked := link_with ns (fun ps => match_deployment ps deploymentName).
Definition matchLabelsToPersona (ns : string) (labels : gmap string string) : linked :=
  if (app_label labels =? "") then iok None else link_with ns (fun ps => match_label ps (app_label labels)).
Definition correlateByNamespace (ns : string) : linked := if (ns =? "") then iok None else link_with ns match_only.

Definition correlateNode : linked :=
  let* personas := wrap_io "listing ClusterPersonas" listClusterPersonas in
  iok (match personas with cp :: _ => Some (mkPersonaRef "ClusterPersona" (m_Name (cp_Meta cp)) "") | [] => None end).

(** A Pod or a ReplicaSet: by its owner, else by its labels; by its namespace
    when it cannot be read. *)
Definition correlateOwned (get : ObjectKey -> io W (result error (list OwnerReference * gmap string string))) (ns name : string) : linked :=
  if (ns =? "") then iok None else
  let! r := get (mkKey name ns) in
  match r with
  | Err _ => correlateByNamespace ns
  | Ok (owners, labels) =>
      let deploymentName := findOwnerDeployment owners in
      if negb (deploymentName =? "") then matchDeploymentToPersona ns deploymentName else matchLabelsToPersona ns labels
  end.

Definition correlateDeployment (ns name : string) : linked := if (ns =? "") then iok None else matchDeploymentToPersona ns name.

Definition link_of (o : ResourceReference) : linked :=
  if (rr_Kind o =? "Node") then correlateNode
  else if (rr_Kind o =? "Pod") then correlateOwned getPodOwners (rr_Namespace o) (rr_Name o)
  else if (rr_Kind o =? "ReplicaSet") then correlateOwned getReplicaSet (rr_Namespace o) (rr_Name o)
  else if (rr_Kind o =? events_kindDeployment) then correlateDeployment (rr_Namespace o) (rr_Name o)
  else correlateByNamespace (rr_Namespace o).

Definition with_persona (ref : option PersonaReference) (e : InternalEvent) : InternalEvent :=
  mkEvent (ev_ID e) (ev_Severity e) (ev_Category e) (ev_Source e) (ev_Reason e) (ev_Message e) (ev_InvolvedObject e) ref
    (ev_EventTime e) (ev_K8sEventUID e).

(** [Correlate]: the event as it is left, and the error. *)
Definition PersonaCorrelator_Correlate (event : InternalEvent) : io W (InternalEvent * result error unit) :=
  match ev_PersonaRef event with
  | Some _ => mret (event, Ok tt)
  | None =>
      let! r := link_of (ev_InvolvedObject event) in
      mret (match r with Ok None => (event, Ok tt) | Ok ref => (with_persona ref event, Ok tt) | Err e => (event, Err e) end)
  end.
End correlate.

(** ** emitter.go *)

Definition apiVersionForKind (kind : string) : string :=
  let among := existsb (String.eqb kind) in
  if among ["Pod"; "Node"; "Service"; "ComponentStatus"; "Event"; "Namespace"; "PersistentVolumeClaim"] then "v1"
  else if among [events_kindDeployment; "ReplicaSet"; "StatefulSet"; "DaemonSet"] then "apps/v1"
  else if among ["Lease"] then "coordination.k8s.io/v1"
  else if among ["ApplicationPersona"; "ClusterPersona"; "IncidentMemory"; "RemediationAction"; "DorguEvent"] then "dorgu.io/v1"
  else "".

Definition involvedObjectRef (obj : ResourceReference) : result error ObjectReference :=
  if (rr_Kind obj =? "") || (rr_Name obj =? "") then
    Err (ErrText ("involved object needs both a kind and a name, got kind=" ++ fmt_q (rr_Kind obj) ++ " name=" ++ fmt_q (rr_Name obj)))
  else Ok (mkObjectRef (rr_Kind obj) (rr_Name obj) (rr_Namespace obj) (apiVersionForKind (rr_Kind obj))).

Definition emitted_type (event : InternalEvent) : string :=
  if (ev_Severity event =? SeverityWarning) || (ev_Severity event =? SeverityCritical) then EventTypeWarning else EventTypeNormal.
Definition emitted_reason (event : InternalEvent) : string := if (ev_Reason event =? "") then ReasonDorguDetected else ev_Reason event.
Definition emitted_message (event : InternalEvent) : string := "[dorgu] " ++ ev_Severity event ++ ": " ++ ev_Message event.

Section emit.
Context `{EventRecorder W}.

(** [Emit]; [None] is the nil event. *)
Definition Emit (event : option InternalEvent) : io W (result error unit) :=
  match event with
  | None => iok tt
  | Some event =>
      match involvedObjectRef (ev_InvolvedObject event) with
      | Err e => ierr (ErrWrap ("emitting " ++ fmt_q (ev_Source event) ++ " event") e)
      | Ok ref => let! _ := recordEvent ref (emitted_type event) (emitted_reason event) (emitted_message event) in iok tt
      end
  end.
End emit.

(** ** watcher.go *)

Record Watcher := mkWatcher { wa_startupTime : time; wa_store : HybridEventStore; wa_emits : bool }.

Definition isOldEvent (w : Watcher) (event : K8sEvent) : bool :=
  if t_is_zero (recorded_time event) then false
  else t_before (recorded_time event) (t_add (wa_startupTime w) (- DefaultStartupWindow)).

Section watch.
Context `{Client W} `{OwnerReader W} `{EventClient W} `{EventMemory W} `{EventRecorder W} (watcher : Watcher).

(** [processEvent]: a failed correlation does not stop an event, a failed store does. *)
Definition processEvent (event : K8sEvent) : io W unit :=
  if isOldEvent watcher event then mret tt else
  let! internal := Classify (Some event) in
  match internal with
  | None => mret tt
  | Some internal =>
      let! (internal, _) := PersonaCorrelator_Correlate internal in
      let! stored := Store (wa_store watcher) (Some internal) in
      match stored with
      | Err _ => mret tt
      | Ok _ => if wa_emits watcher then let! _ := Emit (Some internal) in mret tt else mret tt
      end
  end.
End watch.

Definition NewWatcher (now : time) (store : HybridEventStore) (emits : bool) : Watcher := mkWatcher now store emits.
Definition started_at (now : time) (w : Watcher) : Watcher := mkWatcher now (wa_store w) (wa_emits w).

(** What the informer hands over; an object of another type is [None]. *)
Inductive Notification := Added (obj : option K8sEvent) | Updated (old new : option K8sEvent).
Definition notified (n : Notification) : option K8sEvent := match n with Added obj => obj | Updated _ new => new end.

Section start.
Context `{Client W} `{OwnerReader W} `{EventClient W} `{EventMemory W} `{EventRecorder W} (watcher : Watcher).

Definition handle (watcher : Watcher) (n : Notification) : io W unit :=
  match notified n with Some event => processEvent watcher event | None => mret tt end.
Fixpoint handle_all (watcher : Watcher) (ns : list Notification) : io W unit :=
  match ns with [] => mret tt | n :: rest => let! _ := handle watcher n in handle_all watcher rest end.
(** [Start]: what the informer delivers until the context is cancelled, in
    order; [registered] is what adding the handler returned. *)
Definition Watcher_Start (registered : result error unit) (ns : list Notification) : io W (result error unit) :=
  let! now := clock in
  let watcher := started_at now watcher in
  match registered with
  | Err e => ierr e
  | Ok _ => let! _ := handle_all watcher ns in iok tt
  end.
End start.

(** ** Properties *)

Class OwnerReads `{OwnerReader W} : Prop := {
  getPodOwners_reads k w : (getPodOwners k w).2 = w;
  getReplicaSet_reads k w : (getReplicaSet k w).2 = w;
}.

Section links.
Context `{ClientReads W} `{!OwnerReader W} `{!OwnerReads (W := W)}.

(** The name an event's object gives its workload: the Deployment itself, the
    Deployment that owns the Pod or ReplicaSet, or an application label of it. *)
Definition workload_name (o : ResourceReference) (w : W) (name : string) : Prop :=
  rr_Kind o = events_kindDeployment /\ name = rr_Name o \/
  exists owners labels,
    (rr_Kind o = "Pod" /\ (getPodOwners (mkKey (rr_Name o) (rr_Namespace o)) w).1 = Ok (owners, labels) \/
     rr_Kind o = "ReplicaSet" /\ (getReplicaSet (mkKey (rr_Name o) (rr_Namespace o)) w).1 = Ok (owners, labels)) /\
    name <> "" /\ (mkOwner events_kindDeployment name ∈ owners \/
      mget labels "app.kubernetes.io/name" = name \/ mget labels "app" = name).

(** What justifies a link: the first cluster persona for a node; otherwise a
    persona of the object's own namespace, which is named like its workload or
    is the only one there. *)
Definition justified (o : ResourceReference) (w : W) (ref : PersonaReference) : Prop :=
  if decide (rr_Kind o = "Node")
  then exists cp cps, (listClusterPersonas w).1 = Ok (cp :: cps) /\ ref = mkPersonaRef "ClusterPersona" (m_Name (cp_Meta cp)) ""
  else exists personas p, (listPersonas (mkListOptions (Some (rr_Namespace o)) []) w).1 = Ok personas /\ p ∈ personas /\ ref = persona_ref p /\
         (personas = [p] \/ exists name, workload_name o w name /\ (aps_Name (ap_Spec p) = name \/ ap_Name p = name)).

Definition good_link (o : ResourceReference) (m : linked (W := W)) : Prop :=
  forall w, (m w).2 = w /\ forall ref, (m w).1 = Ok (Some ref) -> justified o w ref.

Lemma link_with_good o choose w :
  rr_Kind o <> "Node" ->
  (forall ps p, choose ps = Some p -> p ∈ ps /\ (ps = [p] \/ exists name, workload_name o w name /\ (aps_Name (ap_Spec p) = name \/ ap_Name p = name))) ->
  (link_with (rr_Namespace o) choose w).2 = w /\
  forall ref, (link_with (rr_Namespace o) choose w).1 = Ok (Some ref) -> justified o w ref.
Proof.
  intros Hk Hc. unfold link_with, iobind, wrap_io. rewrite (read_pair (listPersonas _) w) by apply listPersonas_reads.
  destruct (listPersonas _ w).1 as [ps|e] eqn:Hl; cbn; [|done]. split; [done|]. intros ref.
  destruct (choose ps) as [p|] eqn:Hp; cbn; [|done]. intros [= <-]. destruct (Hc ps p Hp) as [Hin Hj].
  unfold justified. destruct (decide _); [done|]. by exists ps, p.
Qed.

Lemma match_deployment_named ps name p : match_deployment ps name = Some p -> p ∈ ps /\ (aps_Name (ap_Spec p) = name \/ ap_Name p = name).
Proof.
  unfold match_deployment. destruct (find_first _ ps) as [q|] eqn:Hf.
  - intros [= <-]. apply find_first_Some in Hf as [? ?%String.eqb_eq]. split; [done|by left].
  - intros [? ?%String.eqb_eq]%find_first_Some. split; [done|by right].
Qed.

Lemma namespace_good o w : rr_Kind o <> "Node" ->
  (correlateByNamespace (rr_Namespace o) w).2 = w /\ forall ref, (correlateByNamespace (rr_Namespace o) w).1 = Ok (Some ref) -> justified o w ref.
Proof.
  intros Hk. unfold correlateByNamespace. destruct (_ =? _); [done|]. apply link_with_good; [done|].
  intros [|p [|? ?]] q; cbn; try done. intros [= <-]. split; [left|by left].
Qed.

Lemma app_label_of labels : mget labels "app.kubernetes.io/name" = app_label labels \/ mget labels "app" = app_label labels.
Proof. unfold app_label. destruct (mget labels "app.kubernetes.io/name" =? ""); [right|left]; reflexivity. Qed.

Lemma owned_good o get w : rr_Kind o <> "Node" -> (get (mkKey (rr_Name o) (rr_Namespace o)) w).2 = w ->
  (forall owners labels name, (get (mkKey (rr_Name o) (rr_Namespace o)) w).1 = Ok (owners, labels) -> name <> "" ->
     (mkOwner events_kindDeployment name ∈ owners \/ mget labels "app.kubernetes.io/name" = name \/ mget labels "app" = name) -> workload_name o w name) ->
  (correlateOwned get (rr_Namespace o) (rr_Name o) w).2 = w /\
  forall ref, (correlateOwned get (rr_Namespace o) (rr_Name o) w).1 = Ok (Some ref) -> justified o w ref.
Proof.
  intros Hk Hget Hname. unfold correlateOwned. destruct (_ =? _); [done|]. unfold mbind, io_bind.
  rewrite (read_pair (get _) w Hget). destruct (get _ w).1 as [[owners labels]|e]; [|by apply namespace_good].
  unfold findOwnerDeployment. destruct (find_first _ owners) as [[k name]|] eqn:Hf.
  - apply find_first_Some in Hf as [Hin Hkind%String.eqb_eq]. cbn in Hkind |- *. subst k.
    destruct (String.eqb_spec name "") as [->|Hne]; cbn [negb].
    + unfold matchLabelsToPersona. destruct (String.eqb_spec (app_label labels) "") as [|Hl]; [done|].
      apply link_with_good; [done|]. intros ps p [Hp Hm]%find_first_Some. split; [done|]. right. exists (app_label labels).
      split; [|apply orb_true_iff in Hm as [?%String.eqb_eq|?%String.eqb_eq]; tauto]. eapply Hname; [done|done|]. right.
      apply app_label_of.
    + apply link_with_good; [done|]. intros ps p [Hp Hm]%match_deployment_named. split; [done|]. right. exists name.
      split; [|done]. eapply Hname; [done|done|by left].
  - cbn. unfold matchLabelsToPersona. destruct (String.eqb_spec (app_label labels) "") as [|Hl]; [done|].
    apply link_with_good; [done|]. intros ps p [Hp Hm]%find_first_Some. split; [done|]. right. exists (app_label labels).
    split; [|apply orb_true_iff in Hm as [?%String.eqb_eq|?%String.eqb_eq]; tauto]. eapply Hname; [done|done|]. right.
    apply app_label_of.
Qed.

Lemma node_good o w : rr_Kind o = "Node" ->
  (correlateNode w).2 = w /\ forall ref, (correlateNode w).1 = Ok (Some ref) -> justified o w ref.
Proof.
  intros Hk. unfold correlateNode, iobind, wrap_io. rewrite (read_pair listClusterPersonas w) by apply listClusterPersonas_reads.
  destruct (listClusterPersonas w).1 as [[|cp cps]|e] eqn:Hl; cbn; [done| |done]. split; [done|]. intros ref [= <-].
  unfold justified. rewrite decide_True by done. by exists cp, cps.
Qed.

Lemma link_of_good o w : (link_of o w).2 = w /\ forall ref, (link_of o w).1 = Ok (Some ref) -> justified o w ref.
Proof.
  unfold link_of. destruct (String.eqb_spec (rr_Kind o) "Node") as [Hk|Hn]; [by apply node_good|].
  destruct (String.eqb_spec (rr_Kind o) "Pod") as [Hk|_].
  { apply owned_good; [done|apply getPodOwners_reads|]. intros owners labels name Hg Hne Hin. right. exists owners, labels. tauto. }
  destruct (String.eqb_spec (rr_Kind o) "ReplicaSet") as [Hk|_].
  { apply owned_good; [done|apply getReplicaSet_reads|]. intros owners labels name Hg Hne Hin. right. exists owners, labels. tauto. }
  destruct (String.eqb_spec (rr_Kind o) events_kindDeployment) as [Hk|_]; [|by apply namespace_good].
  unfold correlateDeployment. destruct (_ =? _); [done|]. apply link_with_good; [done|]. intros ps p [Hp Hm]%match_deployment_named.
  split; [done|]. right. exists (rr_Name o). split; [by left|done].
Qed.

(** Attribution of an event.  Correlation only reads, and touches nothing of an
    event but its persona: one that is set stays, and one that is added is the
    first cluster persona, for a node, or else a persona of the object's own
    namespace that is named like the object's workload or is the only one
    there; a failed read leaves the event as it was. *)
Theorem Correlate_justified (event : InternalEvent) (w : W) :
  let '((event', r), w') := PersonaCorrelator_Correlate event w in
  w' = w /\ with_persona (ev_PersonaRef event) event' = event /\
  (ev_PersonaRef event <> None -> event' = event /\ r = Ok tt) /\
  (forall e, r = Err e -> event' = event) /\
  (forall ref, ev_PersonaRef event = None -> ev_PersonaRef event' = Some ref -> justified (ev_InvolvedObject event) w ref).
Proof.
  unfold PersonaCorrelator_Correlate. destruct event as [id sev cat src reason msg o [ref0|] tm uid]; cbn; [by split_and!|].
  unfold mbind, io_bind. destruct (link_of_good o w) as [Hw Hj]. rewrite (read_pair (link_of o) w Hw).
  destruct (link_of o w).1 as [[ref|]|e]; cbn; split_and!; try done. intros ref' _ [= ->]. by apply Hj.
Qed.
End links.

(** ** A cluster with pods, ReplicaSets and a recorder *)

Record PipeMem `{QuantityOps} := mkPipeMem {
  pm_mem : EvMem;
  pm_pods : gmap ObjectKey (list OwnerReference * gmap string string);
  pm_replicaSets : gmap ObjectKey (list OwnerReference * gmap string string);
  pm_recorded : list (ObjectReference * string * string * string);
}.

Section pipe.
Context `{QuantityOps}.

Definition on_ev {A} (m : io EvMem A) : io PipeMem A := fun w =>
  let '(a, m') := m (pm_mem w) in (a, mkPipeMem _ m' (pm_pods w) (pm_replicaSets w) (pm_recorded w)).

#[export] Instance pipe_client : Client PipeMem :=
  lift_client pm_mem (fun m w => mkPipeMem _ m (pm_pods w) (pm_replicaSets w) (pm_recorded w)).
#[export] Instance pipe_reads : ClientReads (W := PipeMem).
Proof. apply lift_client_reads. by intros []. Qed.

#[export] Instance pipe_owners : OwnerReader PipeMem := {
  getPodOwners k w := (match pm_pods w !! k with Some p => Ok p | None => not_found end, w);
  getReplicaSet k w := (match pm_replicaSets w !! k with Some p => Ok p | None => not_found end, w);
}.
#[export] Instance pipe_owner_reads : OwnerReads (W := PipeMem).
Proof. by split. Qed.
#[export] Instance pipe_events : EventClient PipeMem := {
  createDorguEvent de := on_ev (createDorguEvent de);
  listDorguEvents := on_ev listDorguEvents;
  deleteDorguEvent de := on_ev (deleteDorguEvent de);
}.
#[export] Instance pipe_memory : EventMemory PipeMem := {
  dedup_map w := dedup_map (pm_mem w);
  set_dedup_map m w := mkPipeMem _ (set_dedup_map m (pm_mem w)) (pm_pods w) (pm_replicaSets w) (pm_recorded w);
}.
#[export] Instance pipe_recorder : EventRecorder PipeMem := fun ref type reason message w =>
  (tt, mkPipeMem _ (pm_mem w) (pm_pods w) (pm_replicaSets w) (pm_recorded w ++ [(ref, type, reason, message)])%list).
End pipe.

(** ** Start-up *)

(** The backlog the informer lists first is not replayed: if everything it hands
    over dates from more than ten minutes before the start, or is no event, the
    watcher does nothing at all. *)
Lemma start_skips_history `{ClientReads W} `{!OwnerReader W} `{!EventClient W} `{!EventMemory W} `{!EventRecorder W}
    (watcher : Watcher) (ns : list Notification) (w : W) :
  (forall n ev, n ∈ ns -> notified n = Some ev ->
     recorded_time ev <> 0%Z /\ (recorded_time ev < t_add (clock w).1 (- DefaultStartupWindow))%Z) ->
  Watcher_Start watcher (Ok tt) ns w = (Ok tt, w).
Proof.
  intros Hold. unfold Watcher_Start, mbind at 1, io_bind at 1. rewrite (read_pair clock w (clock_reads w)).
  assert (Hall : handle_all (started_at (clock w).1 watcher) ns w = (tt, w)); [|unfold mbind, io_bind; by rewrite Hall].
  revert Hold. generalize (clock w).1. intros now Hold. induction ns as [|n ns IH]; [done|]. cbn [handle_all]. unfold mbind, io_bind.
  assert (Hn : handle (started_at now watcher) n w = (tt, w)).
  { unfold handle. destruct (notified n) as [ev|] eqn:Hev; [|done]. destruct (Hold n ev ltac:(left) Hev) as [Hz%Z.eqb_neq Hlt].
    unfold processEvent, isOldEvent, t_is_zero. rewrite Hz. unfold t_before. cbn [wa_startupTime started_at].
    by rewrite (proj2 (Z.ltb_lt _ _) Hlt). }
  rewrite Hn. apply IH. intros n' ev Hin. apply Hold. by right.
Qed.

(** ** Re-delivery *)

Section resync.
Context `{QuantityOps} (watcher : Watcher) (ev : K8sEvent).
Local Abbreviation store := (wa_store watcher).

Lemma crd_name_persona ref event : generateCRDName (with_persona ref event) = generateCRDName event.
Proof. reflexivity. Qed.
Lemma dedupKey_persona ref event : dedupKey (with_persona ref event) = dedupKey event.
Proof. reflexivity. Qed.

(** The key an event is filed under. *)
Definition record_key (event : InternalEvent) : ObjectKey := de_key (dorgu_event store event).
Definition records_of (w : PipeMem) : gmap ObjectKey DorguEvent := em_events (pm_mem w).

Lemma Correlate_run event (w : PipeMem) : exists ref r, PersonaCorrelator_Correlate event w = ((with_persona ref event, r), w).
Proof.
  unfold PersonaCorrelator_Correlate. destruct (ev_PersonaRef event) as [ref|] eqn:Hr; [exists (Some ref), (Ok tt); rewrite <- Hr; by destruct event|].
  unfold mbind, io_bind. destruct (link_of_good (ev_InvolvedObject event) w) as [Hw _]. rewrite (read_pair (link_of _) w Hw).
  destruct (link_of _ w).1 as [[ref|]|e].
  - by exists (Some ref), (Ok tt).
  - exists None, (Ok tt). rewrite <- Hr. by destruct event.
  - exists None, (Err e). rewrite <- Hr. by destruct event.
Qed.

Lemma Emit_records e (w : PipeMem) : pm_mem (Emit e w).2 = pm_mem w.
Proof. destruct e as [e|]; [|done]. unfold Emit. by destruct (involvedObjectRef _). Qed.

(** What one delivery leaves in the cluster and in the store's memory is what
    [Store] leaves there. *)
Lemma processEvent_store sev cat (w : PipeMem) :
  recorded_time ev <> 0%Z -> classification ev = Some (sev, cat) -> isOldEvent watcher ev = false ->
  exists ref, pm_mem (processEvent watcher ev w).2 =
    pm_mem (Store store (Some (with_persona ref (internal_event ev sev cat (recorded_time ev)))) w).2.
Proof.
  intros Hz%Z.eqb_neq Hc Hold. unfold processEvent. rewrite Hold. unfold Classify. rewrite Hc. unfold toInternalEvent, t_is_zero. rewrite Hz.
  destruct (Correlate_run (internal_event ev sev cat (recorded_time ev)) w) as (ref & r & Hrun). exists ref.
  unfold mbind, io_bind, mret, io_ret. rewrite Hrun. destruct (Store store _ w) as [[u|e] w']; [|done].
  destruct (wa_emits watcher); [|done]. destruct (Emit _ w') as [r' w''] eqn:He. pose proof (Emit_records (Some (with_persona ref (internal_event ev sev cat (recorded_time ev)))) w') as Hp.
  by rewrite He in Hp.
Qed.

Lemma Store_records event (w : PipeMem) :
  records_of (Store store (Some event) w).2 =
  if duplicate (st_dedupWindow store) (clock w).1 (dedupKey event) (dedup_map w) then records_of w
  else em_events (createDorguEvent (dorgu_event store event)
         (set_dedup_map (after_mark (st_dedupWindow store) (clock w).1 (dedupKey event) (dedup_map w)) (pm_mem w))).2.
Proof.
  rewrite Store_unfold. destruct (duplicate _ _ _ _); [done|]. unfold wrap_io, persistCRD, mbind, io_bind, records_of.
  cbn [createDorguEvent pipe_events on_ev set_dedup_map pipe_memory pm_mem]. unfold on_ev. cbn [pm_mem].
  destruct (createDorguEvent _ (set_dedup_map _ (pm_mem w))) as [[u|e] m]; [done|]. by destruct (is_already_exists e).
Qed.

Lemma Store_present event (w : PipeMem) : is_Some (records_of w !! record_key event) -> records_of (Store store (Some event) w).2 = records_of w.
Proof.
  intros [de Hde]. rewrite Store_records. destruct (duplicate _ _ _ _); [done|]. unfold records_of, record_key in *. cbn.
  change (em_events (set_dedup_map _ (pm_mem w))) with (em_events (pm_mem w)). by rewrite Hde.
Qed.

Lemma Store_fresh event (w : PipeMem) :
  duplicate (st_dedupWindow store) (clock w).1 (dedupKey event) (dedup_map w) = false -> em_faults (pm_mem w) = [] ->
  records_of w !! record_key event = None ->
  records_of (Store store (Some event) w).2 = <[record_key event := dorgu_event store event]> (records_of w).
Proof.
  intros Hd Hf Hn. rewrite Store_records, Hd. unfold records_of, record_key in *. cbn. rewrite Hn. unfold ev_write. cbn. by rewrite Hf.
Qed.

(** Time passes, and the informer delivers the event again. *)
Definition at_time (t : time) (w : PipeMem) : PipeMem :=
  let m := em_mem (pm_mem w) in
  mkPipeMem _ (mkEvMem _ (mkMem _ t (mem_ra m) (mem_personas m) (mem_incidents m) (mem_clusterPersonas m) (mem_deployments m) (mem_pods m)
                                (mem_nodes m) (mem_faults m) (mem_cp_error m))
                         (em_dedup (pm_mem w)) (em_events (pm_mem w)) (em_faults (pm_mem w)))
    (pm_pods w) (pm_replicaSets w) (pm_recorded w).
Definition redelivered (times : list time) (w : PipeMem) : PipeMem := foldl (fun w t => (processEvent watcher ev (at_time t w)).2) w times.

Lemma records_of_mem w w' : pm_mem w = pm_mem w' -> records_of w = records_of w'.
Proof. unfold records_of. congruence. Qed.

Lemma redelivered_same sev cat times (w : PipeMem) :
  recorded_time ev <> 0%Z -> classification ev = Some (sev, cat) -> isOldEvent watcher ev = false ->
  is_Some (records_of w !! record_key (internal_event ev sev cat (recorded_time ev))) -> records_of (redelivered times w) = records_of w.
Proof.
  intros Hz Hc Hold. revert w. induction times as [|t times IH]; intros w Hp; [done|]. cbn [redelivered foldl].
  assert (Hstep : records_of (processEvent watcher ev (at_time t w)).2 = records_of w).
  { destruct (processEvent_store sev cat (at_time t w) Hz Hc Hold) as [ref Hs].
    rewrite (records_of_mem _ _ Hs). by rewrite Store_present. }
  fold (redelivered times (processEvent watcher ev (at_time t w)).2). rewrite <- Hstep. apply IH. by rewrite Hstep.
Qed.

(** One event, one record.  The first delivery of an event that is filed, not
    suppressed and not refused leaves a record of it under its name, the one
    that was there or a new one, and no other record is touched; however often
    and whenever the informer delivers it again, inside the deduplication
    window or after it, the records stay as they are. *)
Theorem resync_records_once (sev cat : string) (times : list time) (w : PipeMem) :
  recorded_time ev <> 0%Z -> classification ev = Some (sev, cat) -> isOldEvent watcher ev = false ->
  let event := internal_event ev sev cat (recorded_time ev) in
  duplicate (st_dedupWindow store) (clock w).1 (dedupKey event) (dedup_map w) = false -> em_faults (pm_mem w) = [] ->
  let w1 := (processEvent watcher ev w).2 in
  (exists ref, records_of w1 = match records_of w !! record_key event with
                               | Some _ => records_of w
                               | None => <[record_key event := dorgu_event store (with_persona ref event)]> (records_of w)
                               end) /\
  records_of (redelivered times w1) = records_of w1.
Proof.
  cbv zeta. intros Hz Hc Hold Hd Hf. destruct (processEvent_store sev cat w Hz Hc Hold) as [ref Hs].
  set (event := internal_event ev sev cat (recorded_time ev)) in *.
  assert (H1 : records_of (processEvent watcher ev w).2 = match records_of w !! record_key event with
      | Some _ => records_of w
      | None => <[record_key event := dorgu_event store (with_persona ref event)]> (records_of w) end).
  { rewrite (records_of_mem _ _ Hs). destruct (records_of w !! record_key event) as [de|] eqn:Hl.
    - rewrite Store_present; [done|]. exists de. exact Hl.
    - rewrite Store_fresh; [done|exact Hd|exact Hf|exact Hl]. }
  split; [by exists ref|]. apply (redelivered_same sev cat); try done. fold event. rewrite H1.
  destruct (records_of w !! record_key event) as [de|] eqn:Hl; [rewrite Hl|rewrite lookup_insert_eq]; by eexists.
Qed.

(** The operator does not react to its own events. *)
Lemma own_events_ignored (w : PipeMem) :
  isSelfRecorded ev = true -> processEvent watcher ev w = (tt, w).
Proof.
  intros Hs. unfold processEvent. destruct (isOldEvent watcher ev); [done|]. unfold Classify, classification. by rewrite Hs.
Qed.
End resync.

(** ** Witnesses *)

#[local] Existing Instance int_quantity.

Definition ex_k8s (reason : string) (t : time) : K8sEvent :=
  mkK8sEvent (reason ++ ".1") "uid-1" EventTypeWarning reason "readiness probe failed" "kubelet" "" (mkResourceRef "Pod" "api-1" "shop" "") t t.
Definition ex_pipe (t : time) (records : list DorguEvent) (personas : list ApplicationPersona) : PipeMem :=
  mkPipeMem _
    (mkEvMem _ (mkMem _ t ∅ (list_to_map (map (fun p => (mkKey (ap_Name p) (ap_Namespace p), p)) personas)) ∅ [] ∅ [] [] [] None) ∅
       (list_to_map (map (fun de => (de_key de, de)) records)) [])
    {[mkKey "api-1" "shop" := ([mkOwner events_kindDeployment "api"], ∅)]} ∅ [].
Definition ex_watcher : Watcher := mkWatcher hour ex_store true.

(** A pod's failing probe, delivered once and then twice more, a minute and ten
    minutes later. *)
Lemma resync_records_once_witness :
  map_to_list (records_of (processEvent ex_watcher (ex_k8s "Unhealthy" hour) (ex_pipe hour [] [])).2) <> [] /\
  records_of (redelivered ex_watcher (ex_k8s "Unhealthy" hour) [(hour + minute)%Z; (hour + 10 * minute)%Z]
                (processEvent ex_watcher (ex_k8s "Unhealthy" hour) (ex_pipe hour [] [])).2) =
  records_of (processEvent ex_watcher (ex_k8s "Unhealthy" hour) (ex_pipe hour [] [])).2.
Proof.
  assert (Hz : recorded_time (ex_k8s "Unhealthy" hour) <> 0%Z) by (vm_compute; discriminate).
  assert (Hc : classification (ex_k8s "Unhealthy" hour) = Some (SeverityWarning, CategoryHealth)) by (vm_compute; reflexivity).
  assert (Ho : isOldEvent ex_watcher (ex_k8s "Unhealthy" hour) = false) by (vm_compute; reflexivity).
  assert (Hf : em_faults (pm_mem (ex_pipe hour [] [])) = []) by reflexivity.
  set (event := internal_event (ex_k8s "Unhealthy" hour) SeverityWarning CategoryHealth (recorded_time (ex_k8s "Unhealthy" hour))).
  assert (Hd : duplicate (st_dedupWindow (wa_store ex_watcher)) (clock (ex_pipe hour [] [])).1 (dedupKey event) (dedup_map (ex_pipe hour [] [])) = false)
    by (vm_compute; reflexivity).
  destruct (resync_records_once ex_watcher (ex_k8s "Unhealthy" hour) SeverityWarning CategoryHealth [(hour + minute)%Z; (hour + 10 * minute)%Z]
              (ex_pipe hour [] []) Hz Hc Ho Hd Hf) as [_ Hr].
  split; [vm_compute; discriminate|exact Hr].
Defined.

(** The same pod, owned by the Deployment [api], which a persona is named after. *)
Definition ex_owner_persona : ApplicationPersona := ex_persona "api" "shop".
Lemma Correlate_justified_witness :
  justified (mkResourceRef "Pod" "api-1" "shop" "") (ex_pipe hour [] [ex_owner_persona]) (persona_ref ex_owner_persona).
Proof.
  set (event := internal_event (ex_k8s "Unhealthy" hour) SeverityWarning CategoryHealth hour).
  pose proof (Correlate_justified event (ex_pipe hour [] [ex_owner_persona])) as Hj.
  destruct (PersonaCorrelator_Correlate event (ex_pipe hour [] [ex_owner_persona])) as [[event' r] w'] eqn:Hc.
  destruct Hj as (_ & _ & _ & _ & Hj). apply (Hj _ eq_refl).
  assert (He : ev_PersonaRef (PersonaCorrelator_Correlate event (ex_pipe hour [] [ex_owner_persona])).1.1 = Some (persona_ref ex_owner_persona)) by (vm_compute; reflexivity).
  rewrite Hc in He. exact He.
Defined.

(** A Pod of a Deployment is owned by its ReplicaSet, whose own owner is not
    looked up: such an event is attributed by its labels only. *)
Example replicaSet_owner_not_followed : findOwnerDeployment [mkOwner "ReplicaSet" "api-7f9d"] = "".
Proof. reflexivity. Qed.

(** Two personas in a namespace, and nothing to choose by: no link. *)
Example namespace_is_ambiguous :
  (correlateByNamespace "shop" (ex_pipe hour [] [ex_persona "api" "shop"; ex_persona "web" "shop"])).1 = Ok None.
Proof. vm_compute. reflexivity. Qed.
