(* ===== verification/PersonaController.v ===== *)
(** * The ApplicationPersona controller
    (internal/controller/applicationpersona_validation.go,
    applicationpersona_status.go, applicationpersona_controller.go).

    One reconcile resolves the Deployment a persona describes, validates it
    against the persona, derives its health and writes the persona's status.
    [resource.MustParse] panics on a quantity it cannot read, so a validation is
    a [option], and a reconcile has a panic among its outcomes. *)

From S2P Require Import Prelude GoString GoNum Json ApiTypes KubeTypes Client Workload RemediationController IncidentController.
From Stdlib Require Import String Ascii.
From stdpp Require Import strings.
Open Scope string_scope.

Definition requeueInterval : duration := (60 * second)%Z.
Definition conditionTypeReady : string := "Ready".
Definition conditionTypeValidated : string := "Validated".
Definition personaPhasePending : string := "Pending".
Definition phaseActive : string := "Active".
Definition phaseDegraded : string := "Degraded".
Definition personaPhaseFailed : string := "Failed".
Definition healthStatusHealthy : string := "Healthy".
Definition healthStatusDegraded : string := "Degraded".
Definition healthStatusUnhealthy : string := "Unhealthy".
Definition healthStatusUnknown : string := "Unknown".

(** ** Validation *)

Section validation.
Context `{QuantityOps}.

Definition container_field (c : Container) (field : string) : string := "containers[" ++ ct_Name c ++ "]." ++ field.

(** One declared limit against one container; [None] is the panic. *)
Definition limit_issue (declared key label : string) (c : Container) : option (list ValidationIssue) :=
  if (declared =? "") then Some [] else
  personaLimit ← ParseQuantity declared;
  Some (match ct_Limits c !! key with
        | Some containerLimit =>
            if negb (q_IsZero containerLimit) && bool_decide (q_Cmp containerLimit personaLimit = Gt)
            then [mkIssue "warning" (container_field c ("resources.limits." ++ key))
                    ("Container " ++ label ++ " limit (" ++ q_String containerLimit ++ ") exceeds persona limit ("
                     ++ q_String personaLimit ++ ")")
                    ("Set " ++ label ++ " limit to at most " ++ declared)]
            else []
        | None => []
        end).

Definition zero_or_absent (q : option Quantity) : bool := match q with Some q => q_IsZero q | None => true end.
Definition request_issue (c : Container) : list ValidationIssue :=
  if zero_or_absent (ct_Requests c !! ResourceCPU) && zero_or_absent (ct_Requests c !! ResourceMemory)
  then [mkIssue "warning" (container_field c "resources.requests") "No resource requests set on container"
          "Set resource requests for predictable scheduling"]
  else [].

Definition container_issues (r : ResourceConstraints) (c : Container) : option (list ValidationIssue) :=
  limits ← match rsc_Limits r with
           | None => Some []
           | Some l => cpu ← limit_issue (rv_CPU l) ResourceCPU "CPU" c;
                       memory ← limit_issue (rv_Memory l) ResourceMemory "memory" c;
                       Some (cpu ++ memory)%list
           end;
  Some (limits ++ request_issue c)%list.

Definition validateResources (persona : ApplicationPersona) (deploy : Deployment) : option (list ValidationIssue) :=
  match aps_Resources (ap_Spec persona) with
  | None => Some []
  | Some r => (@concat _) <$> mapM (container_issues r) (dp_Containers deploy)
  end.

Definition validateReplicas (persona : ApplicationPersona) (deploy : Deployment) : list ValidationIssue :=
  match aps_Scaling (ap_Spec persona) with
  | None => []
  | Some scaling =>
      let replicas := default 1%Z (dp_Replicas deploy) in
      (match sc_MinReplicas scaling with
       | Some lo => if (replicas <? lo)%Z then
           [mkIssue "error" "spec.replicas" ("Deployment replicas (" ++ fmt_d replicas ++ ") below persona minimum (" ++ fmt_d lo ++ ")")
              ("Set replicas to at least " ++ fmt_d lo)] else []
       | None => []
       end ++
       match sc_MaxReplicas scaling with
       | Some hi => if (hi <? replicas)%Z then
           [mkIssue "warning" "spec.replicas" ("Deployment replicas (" ++ fmt_d replicas ++ ") above persona maximum (" ++ fmt_d hi ++ ")")
              ("Set replicas to at most " ++ fmt_d hi)] else []
       | None => []
       end)%list
  end.

Definition liveness_issue (path : string) (c : Container) : list ValidationIssue :=
  if (path =? "") then [] else
  match ct_LivenessProbe c ≫= pb_HTTPGet with
  | None => [mkIssue "warning" (container_field c "livenessProbe")
               "Persona specifies livenessPath but container has no HTTP liveness probe" ("Add a liveness probe at " ++ path)]
  | Some actual =>
      if (actual =? path) then []
      else [mkIssue "info" (container_field c "livenessProbe.httpGet.path")
              ("Liveness path (" ++ actual ++ ") differs from persona (" ++ path ++ ")")
              ("Consider aligning to persona path: " ++ path)]
  end.
Definition readiness_issue (path : string) (c : Container) : list ValidationIssue :=
  match ct_ReadinessProbe c with
  | None => if (path =? "") then []
            else [mkIssue "warning" (container_field c "readinessProbe")
                    "Persona specifies readinessPath but container has no readiness probe" ("Add a readiness probe at " ++ path)]
  | Some _ => []
  end.
Definition validateHealthProbes (persona : ApplicationPersona) (deploy : Deployment) : list ValidationIssue :=
  match aps_Health (ap_Spec persona) with
  | None => []
  | Some h => concat (map (fun c => liveness_issue (hs_LivenessPath h) c ++ readiness_issue (hs_ReadinessPath h) c)%list (dp_Containers deploy))
  end.

(** [p != nil && *p]. *)
Definition is_true_ptr (p : option bool) : bool := default false p.

Definition read_only_issue (sec : SecurityPolicy) (c : Container) : list ValidationIssue :=
  if is_true_ptr (sec_ReadOnlyRootFilesystem sec) && negb (is_true_ptr (ct_SecurityContext c ≫= sctx_ReadOnlyRootFilesystem))
  then [mkIssue "warning" (container_field c "securityContext.readOnlyRootFilesystem")
          "Persona requires readOnlyRootFilesystem but container does not set it"
          "Set readOnlyRootFilesystem: true on the container security context"]
  else [].
Definition escalation_issue (sec : SecurityPolicy) (c : Container) : list ValidationIssue :=
  if bool_decide (sec_AllowPrivilegeEscalation sec = Some false) && is_true_ptr (ct_SecurityContext c ≫= sctx_AllowPrivilegeEscalation)
  then [mkIssue "error" (container_field c "securityContext.allowPrivilegeEscalation")
          "Persona forbids privilege escalation but container allows it" "Set allowPrivilegeEscalation: false"]
  else [].
Definition validateSecurityContext (persona : ApplicationPersona) (deploy : Deployment) : list ValidationIssue :=
  match aps_Policies (ap_Spec persona) ≫= pol_Security with
  | None => []
  | Some sec =>
      ((if is_true_ptr (sec_RunAsNonRoot sec) && negb (is_true_ptr (mjoin (dp_PodRunAsNonRoot deploy)))
        then [mkIssue "error" "spec.template.spec.securityContext.runAsNonRoot"
                "Persona requires runAsNonRoot but Deployment does not enforce it"
                "Set spec.template.spec.securityContext.runAsNonRoot: true"]
        else []) ++
       concat (map (fun c => read_only_issue sec c ++ escalation_issue sec c)%list (dp_Containers deploy)))%list
  end.

Definition countSeverity (issues : list ValidationIssue) (severity : string) : nat :=
  length (List.filter (fun i => (vi_Severity i =? severity)) issues).

(** All four, in the order of [Reconcile]. *)
Definition validate (persona : ApplicationPersona) (deploy : Deployment) : option (list ValidationIssue) :=
  resources ← validateResources persona deploy;
  Some (resources ++ validateReplicas persona deploy ++ validateHealthProbes persona deploy ++ validateSecurityContext persona deploy)%list.
Definition has_errors (issues : list ValidationIssue) : bool := existsb (fun i => (vi_Severity i =? "error")) issues.
End validation.

(** ** Health (applicationpersona_status.go) *)

Definition DeploymentAvailable : string := "Available".
Definition DeploymentProgressing : string := "Progressing".
Definition reasonOOMKilled : string := "OOMKilled".

Definition failureReasons : list string :=
  ["CrashLoopBackOff"; "ImagePullBackOff"; "ErrImagePull"; "CreateContainerConfigError"; "CreateContainerError"; "InvalidImageName";
   "RunContainerError"; "ContainerCannotRun"; reasonOOMKilled].
Definition isFailureReason (reason : string) : bool := existsb (String.eqb reason) failureReasons.

Section health.
Context `{QuantityOps}.

Definition condition_holds (condType : string) (deploy : Deployment) : bool :=
  existsb (fun c => (dcn_Type c =? condType) && (dcn_Status c =? ConditionTrue)) (dp_Conditions deploy).
Definition replicas_ready (deploy : Deployment) : string :=
  fmt_d (dp_ReadyReplicas deploy) ++ "/" ++ fmt_d (dp_StatusReplicas deploy) ++ " replicas ready".

Definition deriveHealthFromDeployment (deploy : Deployment) (now : time) : HealthStatus :=
  let available := condition_holds DeploymentAvailable deploy in
  let hs status message := mkHealthStatus status (Some now) message [] in
  if available && (dp_ReadyReplicas deploy =? dp_StatusReplicas deploy)%Z then hs healthStatusHealthy (replicas_ready deploy)
  else if available && (0 <? dp_ReadyReplicas deploy)%Z then hs healthStatusDegraded (replicas_ready deploy)
  else if condition_holds DeploymentProgressing deploy then hs healthStatusUnknown "Deployment is progressing"
  else hs healthStatusUnhealthy (replicas_ready deploy).

Definition waiting_failure (podName : string) (cs : ContainerStatus) : option PodFailure :=
  w ← cst_Waiting (cs_State cs);
  if isFailureReason (wt_Reason w) then Some (mkPodFailure podName (cs_Name cs) (wt_Reason w) (wt_Message w)) else None.
Definition terminated_failure (podName : string) (cs : ContainerStatus) : option PodFailure :=
  t ← cst_Terminated (cs_State cs);
  if (tm_ExitCode t =? 0)%Z then None
  else Some (mkPodFailure podName (cs_Name cs) (if (tm_Reason t =? "") then "ExitCode:" ++ fmt_d (tm_ExitCode t) else tm_Reason t) (tm_Message t)).
Definition restart_failure (podName : string) (cs : ContainerStatus) : option PodFailure :=
  t ← cst_Terminated (cs_LastTerminationState cs);
  if (0 <? cs_RestartCount cs)%Z
  then Some (mkPodFailure podName (cs_Name cs) "CrashLoopBackOff"
               ("Restarted " ++ fmt_d (cs_RestartCount cs) ++ " times; last exit code: " ++ fmt_d (tm_ExitCode t)))
  else None.
Definition extractContainerFailure (podName : string) (cs : ContainerStatus) : option PodFailure :=
  match waiting_failure podName cs with
  | Some f => Some f
  | None => match terminated_failure podName cs with Some f => Some f | None => restart_failure podName cs end
  end.
Definition pod_failures (pods : list Pod) : list PodFailure :=
  concat (map (fun pod => omap (extractContainerFailure (pod_Name pod)) (pod_InitContainerStatuses pod ++ pod_ContainerStatuses pod)%list) pods).
End health.

(** [metav1.LabelSelectorAsSelector] and [Selector.Matches]. *)
Class LabelSelectors := {
  Selector : Type;
  LabelSelectorAsSelector : option (gmap string string * list LabelSelectorRequirement) -> result error Selector;
  selector_Matches : Selector -> gmap string string -> bool;
}.
(** The metrics client, by the address it is made for. *)
Class Prometheus (W : Type) := GetResourceBaseline : string -> string -> string -> io W (result error ResourceBaseline).

Section pods.
Context `{Client W} `{LabelSelectors}.

Definition getPodFailures (deploy : Deployment) : io W (result error (list PodFailure)) :=
  match LabelSelectorAsSelector ((fun labels => (labels, dp_MatchExpressions deploy)) <$> dp_MatchLabels deploy) with
  | Err e => ierr (ErrWrap "invalid deployment selector" e)
  | Ok selector =>
      let* pods := wrap_io "failed to list pods" (listPods (mkListOptions (Some (dp_Namespace deploy)) [])) in
      iok (pod_failures (List.filter (fun p => selector_Matches selector (m_Labels (pod_Meta p))) pods))
  end.
End pods.

(** ** The controller *)

(** How a reconcile ends. *)
Inductive outcome (A : Type) := Returned (r : A) | Panicked.
Arguments Returned {A} r.
Arguments Panicked {A}.

Section status.
Context `{QuantityOps} `{MapRange}.

Definition with_failures (hs : HealthStatus) (failures : list PodFailure) : HealthStatus :=
  match failures with
  | [] => hs
  | _ => mkHealthStatus (hst_Status hs) (hst_LastCheck hs)
           (hst_Message hs ++ "; failures: " ++ strings_join ", " (range_keys (list_to_set (map pf_Reason failures)))) failures
  end.

Definition with_baseline (baseline : ResourceBaseline) (learned : option LearnedPatterns) : LearnedPatterns :=
  match learned with
  | None => mkLearned (Some baseline) 0 "" []
  | Some l => mkLearned (Some baseline) (lp_IncidentCount l) (lp_LastIncident l) (lp_Patterns l)
  end.

Definition persona_phase (health : string) (hasErrors : bool) : string :=
  if (health =? healthStatusHealthy) && negb hasErrors then phaseActive
  else if hasErrors then phaseDegraded
  else if (health =? healthStatusUnhealthy) then personaPhaseFailed
  else phaseDegraded.

Definition ready_condition (t : time) (phase : string) (cs : list Condition) : list Condition :=
  if (phase =? phaseActive)
  then setCondition t conditionTypeReady ConditionTrue "Active" "Deployment is healthy and passes all validations" cs
  else setCondition t conditionTypeReady ConditionFalse "Issues" ("Phase: " ++ phase) cs.
Definition validated_condition (t : time) (issues : list ValidationIssue) (cs : list Condition) : list Condition :=
  if has_errors issues
  then setCondition t conditionTypeValidated ConditionFalse "ValidationFailed"
         (fmt_d (Z.of_nat (countSeverity issues "error")) ++ " validation error(s) found") cs
  else setCondition t conditionTypeValidated ConditionTrue "Passed" "All validations passed" cs.

(** The status a resolved persona is given. *)
Definition resolved_status (now t1 t2 : time) (deploy : Deployment) (issues : list ValidationIssue) (health : HealthStatus)
    (learned : option LearnedPatterns) (s : ApplicationPersonaStatus) : ApplicationPersonaStatus :=
  let phase := persona_phase (hst_Status health) (has_errors issues) in
  mkAPStatus (Some (mkDeployTracking (match dp_Containers deploy with c :: _ => ct_Image c | [] => "" end) "" ""))
    (apst_ActiveIncidents s) (apst_LastIncidentTime s) phase (Some now) (Some health)
    (Some (mkValidation (negb (has_errors issues)) (Some now) issues)) learned (apst_ArgoCD s)
    (validated_condition t2 issues (ready_condition t1 phase (apst_Conditions s))).

(** [markUnresolved]. *)
Definition unresolved_status (now t1 t2 : time) (reason message : string) (s : ApplicationPersonaStatus) : ApplicationPersonaStatus :=
  mkAPStatus (apst_Deployments s) (apst_ActiveIncidents s) (apst_LastIncidentTime s) personaPhasePending (Some now)
    (Some (mkHealthStatus healthStatusUnknown (Some now) message []))
    (Some (mkValidation true (Some now) [])) (apst_Learned s) (apst_ArgoCD s)
    (setCondition t2 conditionTypeValidated ConditionTrue "Skipped" "No Deployment to validate"
       (setCondition t1 conditionTypeReady ConditionFalse reason message (apst_Conditions s))).
End status.

Section reconcile.
Context `{Client W} `{LabelSelectors} `{MapRange} `{Prometheus W} (PrometheusURL : string).

Definition requeue_later : Result := mkResult false requeueInterval.
Definition write_status (persona : ApplicationPersona) : io W (outcome (result error Result)) :=
  let! r := updateStatusPersona persona in
  mret (Returned (match r with Err e => Err e | Ok _ => Ok requeue_later end)).

Definition markUnresolved (persona : ApplicationPersona) (now : time) (reason message : string) : io W ApplicationPersona :=
  let! t1 := clock in
  let! t2 := clock in
  mret (ap_set_status (unresolved_status now t1 t2 reason message (ap_Status persona)) persona).

(** Steps 6 and 6.5: a failed pod query leaves the health as derived. *)
Definition observed_health (deploy : Deployment) (now : time) : io W HealthStatus :=
  let health := deriveHealthFromDeployment deploy now in
  if (hst_Status health =? healthStatusHealthy) then mret health else
  let! r := getPodFailures deploy in
  mret (match r with Ok failures => with_failures health failures | Err _ => health end).

(** Step 7.5. *)
Definition learned_baseline (ns name : string) (learned : option LearnedPatterns) : io W (option LearnedPatterns) :=
  if (PrometheusURL =? "") then mret learned else
  let! r := GetResourceBaseline PrometheusURL ns name in
  mret (match r with Ok baseline => Some (with_baseline baseline learned) | Err _ => learned end).

Definition reconcile_resolved (persona : ApplicationPersona) (ns : string) (now : time) (deploy : Deployment) : io W (outcome (result error Result)) :=
  match validate persona deploy with
  | None => mret Panicked
  | Some issues =>
      let! health := observed_health deploy now in
      let! learned := learned_baseline ns (aps_Name (ap_Spec persona)) (apst_Learned (ap_Status persona)) in
      let! t1 := clock in
      let! t2 := clock in
      write_status (ap_set_status (resolved_status now t1 t2 deploy issues health learned (ap_Status persona)) persona)
  end.

(** [Reconcile]. *)
Definition ApplicationPersona_Reconcile (req : ObjectKey) : io W (outcome (result error Result)) :=
  let! got := getPersona req in
  match got with
  | Err e => mret (Returned (if is_not_found e then Ok no_requeue else Err e))
  | Ok persona =>
      let! listed := listDeployments (mkListOptions (Some (key_Namespace req)) []) in
      match listed with
      | Err e => mret (Returned (Err e))
      | Ok deployments =>
          let name := aps_Name (ap_Spec persona) in
          let! now := clock in
          match Resolve deployments name with
          | Err e =>
              let! persona := markUnresolved persona now "AmbiguousDeployment" (AmbiguousError_text e) in
              write_status persona
          | Ok None =>
              let! persona := markUnresolved persona now "NoDeployment"
                ("No Deployment in namespace " ++ key_Namespace req ++ " matches persona " ++ fmt_q name ++ " by " ++ ChainDescription) in
              write_status persona
          | Ok (Some (deploy, _)) => reconcile_resolved persona (key_Namespace req) now deploy
          end
      end
  end.

(** [deploymentToPersona]: who is reconciled when a Deployment changes. *)
Definition deploymentToPersona (deploy : Deployment) : io W (list ObjectKey) :=
  let! listed := listPersonas (mkListOptions (Some (dp_Namespace deploy)) []) in
  mret (match listed with
        | Err _ => []
        | Ok personas => map (fun p => mkKey (ap_Name p) (ap_Namespace p))
                           (List.filter (fun p => Matches (Some deploy) (aps_Name (ap_Spec p))) personas)
        end).
End reconcile.

(** ** Properties: validation *)

Section validation_props.
Context `{QuantityOps}.

Lemma mapM_none {A B} (f : A -> option B) l : mapM f l = None <-> exists a, a ∈ l /\ f a = None.
Proof. by rewrite mapM_None, Exists_exists. Qed.
Lemma mapM_elem {A B} (f : A -> option B) l ls b : mapM f l = Some ls -> b ∈ ls -> exists a, a ∈ l /\ f a = Some b.
Proof.
  intros Hm [i Hi]%list_elem_of_lookup. apply mapM_Some in Hm. destruct (Forall2_lookup_r _ _ _ _ _ Hm Hi) as (a & Ha & Hf).
  exists a. split; [by eapply list_elem_of_lookup_2|done].
Qed.

(** A declared quantity [MustParse] cannot read. *)
Definition unreadable (declared : string) : Prop := declared <> "" /\ ParseQuantity declared = None.

Lemma limit_issue_None declared key label c : limit_issue declared key label c = None <-> unreadable declared.
Proof.
  unfold limit_issue, unreadable. destruct (String.eqb_spec declared ""); [naive_solver|].
  destruct (ParseQuantity declared) as [q|]; cbn; naive_solver.
Qed.
Lemma container_issues_None r c : container_issues r c = None <->
  exists l, rsc_Limits r = Some l /\ (unreadable (rv_CPU l) \/ unreadable (rv_Memory l)).
Proof.
  unfold container_issues. destruct (rsc_Limits r) as [l|]; cbn; [|naive_solver].
  pose proof (limit_issue_None (rv_CPU l) ResourceCPU "CPU" c) as Hcpu. pose proof (limit_issue_None (rv_Memory l) ResourceMemory "memory" c) as Hmem.
  destruct (limit_issue (rv_CPU l) _ _ c) as [cpu|]; cbn; [|naive_solver].
  destruct (limit_issue (rv_Memory l) _ _ c) as [mem|]; cbn; naive_solver.
Qed.

(** C19. A persona can take its own reconcile down.  The CRD puts no pattern on the
    declared limits and the validation reads them with [MustParse]: the reconcile
    panics exactly when the Deployment has a container and a declared limit is
    set to something that is not a quantity. *)
Theorem validate_panics_iff (persona : ApplicationPersona) (deploy : Deployment) :
  validate persona deploy = None <->
  exists r l c, aps_Resources (ap_Spec persona) = Some r /\ rsc_Limits r = Some l /\ c ∈ dp_Containers deploy /\
    (unreadable (rv_CPU l) \/ unreadable (rv_Memory l)).
Proof.
  unfold validate, validateResources. destruct (aps_Resources (ap_Spec persona)) as [r|]; cbn; [|naive_solver].
  destruct (mapM (container_issues r) (dp_Containers deploy)) as [issues|] eqn:Hm; cbn.
  - split; [done|]. intros (r' & l & c & [= <-] & Hl & Hc & Hu). exfalso.
    assert (Hn : mapM (container_issues r) (dp_Containers deploy) = None); [|congruence].
    apply mapM_none. exists c. split; [done|]. apply container_issues_None. by exists l.
  - split; [intros _|done]. apply mapM_none in Hm as (c & Hc & (l & Hl & Hu)%container_issues_None). by exists r, l, c.
Qed.

Lemma has_errors_app a b : has_errors (a ++ b)%list = has_errors a || has_errors b.
Proof. apply existsb_app. Qed.
Lemma has_errors_concat ls : has_errors (concat ls) = existsb has_errors ls.
Proof. induction ls as [|l ls IH]; [done|]. cbn. by rewrite has_errors_app, IH. Qed.
Lemma existsb_map {A B} (f : A -> B) (p : B -> bool) l : existsb p (map f l) = existsb (fun a => p (f a)) l.
Proof. induction l; cbn; congruence. Qed.
Lemma existsb_false {A} (p : A -> bool) l : (forall a, a ∈ l -> p a = false) -> existsb p l = false.
Proof. intros Hl. by apply existsb_not_elem. Qed.

Lemma limit_issue_quiet declared key label c issues : limit_issue declared key label c = Some issues -> has_errors issues = false.
Proof.
  unfold limit_issue. destruct (_ =? ""); [by intros [= <-]|]. destruct (ParseQuantity declared); cbn; [|done]. intros [= <-].
  destruct (ct_Limits c !! key); [|done]. by destruct (_ && _).
Qed.
Lemma container_issues_quiet r c issues : container_issues r c = Some issues -> has_errors issues = false.
Proof.
  assert (Hreq : has_errors (request_issue c) = false) by (unfold request_issue; by destruct (_ && _)).
  unfold container_issues. destruct (rsc_Limits r) as [l|]; cbn; [|by intros [= <-]].
  destruct (limit_issue (rv_CPU l) _ _ c) as [cpu|] eqn:Hc; cbn; [|done]. destruct (limit_issue (rv_Memory l) _ _ c) as [mem|] eqn:Hm; cbn; [|done].
  intros [= <-]. apply limit_issue_quiet in Hc, Hm. by rewrite !has_errors_app, Hc, Hm, Hreq.
Qed.
Lemma validateResources_quiet persona deploy issues : validateResources persona deploy = Some issues -> has_errors issues = false.
Proof.
  unfold validateResources. destruct (aps_Resources _) as [r|]; [|by intros [= <-]].
  destruct (mapM _ _) as [ls|] eqn:Hm; cbn; [|done]. intros [= <-]. rewrite has_errors_concat. apply existsb_false. intros l Hl.
  destruct (mapM_elem _ _ _ _ Hm Hl) as (c & _ & Hc). by apply container_issues_quiet in Hc.
Qed.
Lemma probes_quiet persona deploy : has_errors (validateHealthProbes persona deploy) = false.
Proof.
  unfold validateHealthProbes. destruct (aps_Health _) as [h|]; [|done]. rewrite has_errors_concat, existsb_map. apply existsb_false.
  intros c _. unfold liveness_issue, readiness_issue. rewrite has_errors_app.
  destruct (hs_LivenessPath h =? ""), (ct_LivenessProbe c ≫= pb_HTTPGet) as [a|], (ct_ReadinessProbe c), (hs_ReadinessPath h =? ""); cbn; try done;
    by destruct (a =? _).
Qed.

(** What makes a Deployment break a rule its persona sets. *)
Record violates (persona : ApplicationPersona) (deploy : Deployment) : Prop := Violates {
  broken_rule :
    (exists scaling lo, aps_Scaling (ap_Spec persona) = Some scaling /\ sc_MinReplicas scaling = Some lo /\
       (default 1%Z (dp_Replicas deploy) < lo)%Z) \/
    (exists sec, aps_Policies (ap_Spec persona) ≫= pol_Security = Some sec /\
       (sec_RunAsNonRoot sec = Some true /\ dp_PodRunAsNonRoot deploy <> Some (Some true) \/
        sec_AllowPrivilegeEscalation sec = Some false /\ exists c, c ∈ dp_Containers deploy /\
          ct_SecurityContext c ≫= sctx_AllowPrivilegeEscalation = Some true)) }.

Lemma is_true_ptr_iff p : is_true_ptr p = true <-> p = Some true.
Proof. destruct p as [[|]|]; cbn; naive_solver. Qed.

Lemma replicas_errors persona deploy : has_errors (validateReplicas persona deploy) = true <->
  exists scaling lo, aps_Scaling (ap_Spec persona) = Some scaling /\ sc_MinReplicas scaling = Some lo /\ (default 1%Z (dp_Replicas deploy) < lo)%Z.
Proof.
  unfold validateReplicas. destruct (aps_Scaling _) as [sc|]; [|cbn; naive_solver]. cbv zeta. rewrite has_errors_app.
  assert (Hmax : has_errors match sc_MaxReplicas sc with
      | Some hi => if (hi <? default 1%Z (dp_Replicas deploy))%Z then
           [mkIssue "warning" "spec.replicas" ("Deployment replicas (" ++ fmt_d (default 1%Z (dp_Replicas deploy)) ++ ") above persona maximum (" ++ fmt_d hi ++ ")")
              ("Set replicas to at most " ++ fmt_d hi)] else []
      | None => [] end = false) by (destruct (sc_MaxReplicas sc); [by destruct (_ <? _)%Z|done]).
  rewrite Hmax, orb_false_r. destruct (sc_MinReplicas sc) as [lo|] eqn:Hlo; [|naive_solver].
  destruct (Z.ltb_spec (default 1%Z (dp_Replicas deploy)) lo); cbn; [naive_solver|]. split; [done|]. intros (? & ? & [= <-] & ? & ?). naive_solver lia.
Qed.

Lemma security_errors persona deploy : has_errors (validateSecurityContext persona deploy) = true <->
  exists sec, aps_Policies (ap_Spec persona) ≫= pol_Security = Some sec /\
       (sec_RunAsNonRoot sec = Some true /\ dp_PodRunAsNonRoot deploy <> Some (Some true) \/
        sec_AllowPrivilegeEscalation sec = Some false /\ exists c, c ∈ dp_Containers deploy /\
          ct_SecurityContext c ≫= sctx_AllowPrivilegeEscalation = Some true).
Proof.
  unfold validateSecurityContext. destruct (aps_Policies _ ≫= pol_Security) as [sec|]; [|cbn; naive_solver].
  assert (Hc : forall c, has_errors (read_only_issue sec c ++ escalation_issue sec c)%list =
     bool_decide (sec_AllowPrivilegeEscalation sec = Some false) && is_true_ptr (ct_SecurityContext c ≫= sctx_AllowPrivilegeEscalation)).
  { intros c. rewrite has_errors_app. unfold read_only_issue, escalation_issue. destruct (is_true_ptr (sec_ReadOnlyRootFilesystem sec) && _); by destruct (_ && _). }
  rewrite has_errors_app, has_errors_concat, existsb_map, orb_true_iff.
  assert (Hroot : has_errors (if is_true_ptr (sec_RunAsNonRoot sec) && negb (is_true_ptr (mjoin (dp_PodRunAsNonRoot deploy)))
        then [mkIssue "error" "spec.template.spec.securityContext.runAsNonRoot"
                "Persona requires runAsNonRoot but Deployment does not enforce it"
                "Set spec.template.spec.securityContext.runAsNonRoot: true"] else []) = true <->
      sec_RunAsNonRoot sec = Some true /\ dp_PodRunAsNonRoot deploy <> Some (Some true)).
  { destruct (sec_RunAsNonRoot sec) as [[|]|], (dp_PodRunAsNonRoot deploy) as [[[|]|]|]; cbn; naive_solver. }
  rewrite Hroot, existsb_elem. split.
  - intros [Hr|(c & Hin & Hb)]; [naive_solver|]. rewrite Hc in Hb. apply andb_true_iff in Hb as [Hf%bool_decide_eq_true Ht%is_true_ptr_iff]. naive_solver.
  - intros (sec' & [= <-] & [Hr|[Hf (c & Hin & Ht)]]); [by left|right]. exists c. split; [done|]. rewrite Hc, Ht, bool_decide_eq_true_2 by done. done.
Qed.

Lemma validate_errors persona deploy issues : validate persona deploy = Some issues -> has_errors issues = true <-> violates persona deploy.
Proof.
  unfold validate. destruct (validateResources persona deploy) as [res|] eqn:Hr; cbn; [|done]. intros [= <-].
  apply validateResources_quiet in Hr. rewrite !has_errors_app, Hr, probes_quiet, orb_false_l, orb_true_iff. cbn [orb].
  rewrite replicas_errors, security_errors. split; [by intros; constructor|by intros []].
Qed.
End validation_props.

(** ** Properties: the reconcile *)

Class PrometheusReads `{Prometheus W} : Prop := GetResourceBaseline_reads url ns name w : (GetResourceBaseline url ns name w).2 = w.

Section reconcile_props.
Context `{ClientReads W} `{LabelSelectors} `{MapRange} `{!Prometheus W} `{!PrometheusReads (W := W)} (url : string).

(** All replicas ready; some ready; and the rollout still moving. *)
Definition serving (d : Deployment) : Prop := condition_holds DeploymentAvailable d = true /\ dp_ReadyReplicas d = dp_StatusReplicas d.
Definition limping (d : Deployment) : Prop := condition_holds DeploymentAvailable d = true /\ (0 < dp_ReadyReplicas d)%Z.
Definition moving (d : Deployment) : Prop := condition_holds DeploymentProgressing d = true.

Lemma derived_health d now : let h := deriveHealthFromDeployment d now in
  (hst_Status h = healthStatusHealthy <-> serving d) /\
  (hst_Status h = healthStatusUnhealthy <-> ~ serving d /\ ~ limping d /\ ~ moving d).
Proof.
  cbv zeta. unfold deriveHealthFromDeployment, serving, limping, moving. destruct (condition_holds DeploymentAvailable d); cbn [andb].
  - destruct (Z.eqb_spec (dp_ReadyReplicas d) (dp_StatusReplicas d)); [cbn; naive_solver|].
    destruct (Z.ltb_spec 0 (dp_ReadyReplicas d)); [cbn; split; naive_solver|].
    destruct (condition_holds DeploymentProgressing d); cbn; (split; [naive_solver|]); (split; [|naive_solver]); [done|].
    intros _. split_and!; [naive_solver|intros [_ ?]; lia|done].
  - destruct (condition_holds DeploymentProgressing d); cbn; split; naive_solver.
Qed.

Lemma observed_health_run d now w : exists h, observed_health d now w = (h, w) /\ hst_Status h = hst_Status (deriveHealthFromDeployment d now).
Proof.
  unfold observed_health. destruct (_ =? _); [by eexists|]. unfold mbind, io_bind, getPodFailures.
  destruct (LabelSelectorAsSelector _) as [sel|e]; [|by eexists]. unfold iobind, wrap_io.
  rewrite (read_pair (listPods _) w) by apply listPods_reads. destruct (listPods _ w).1 as [pods|e]; cbn; [|by eexists].
  eexists. split; [done|]. unfold with_failures. by destruct (pod_failures _).
Qed.

Lemma learned_run ns name learned w : exists l, learned_baseline url ns name learned w = (l, w).
Proof.
  unfold learned_baseline. destruct (_ =? _); [by eexists|]. unfold mbind, io_bind.
  rewrite (read_pair (GetResourceBaseline _ _ _) w) by apply GetResourceBaseline_reads. by eexists.
Qed.

Definition condition_status (ty : string) (cs : list Condition) : option string := c_Status <$> condition_of ty cs.
Lemma setCondition_status now ty st re msg cs : condition_status ty (setCondition now ty st re msg cs) = Some st.
Proof. unfold condition_status. destruct (setCondition_same now ty st re msg cs) as (c & -> & _ & <- & _). done. Qed.
Lemma setCondition_status_other now ty st re msg cs ty' : ty' <> ty -> condition_status ty' (setCondition now ty st re msg cs) = condition_status ty' cs.
Proof. intros. unfold condition_status. by rewrite setCondition_other. Qed.

Lemma ready_status t phase cs :
  condition_status conditionTypeReady (ready_condition t phase cs) = Some (if (phase =? phaseActive) then ConditionTrue else ConditionFalse).
Proof. unfold ready_condition. destruct (phase =? phaseActive); apply setCondition_status. Qed.
Lemma validated_status t issues cs :
  condition_status conditionTypeValidated (validated_condition t issues cs) = Some (if has_errors issues then ConditionFalse else ConditionTrue).
Proof. unfold validated_condition. destruct (has_errors issues); apply setCondition_status. Qed.
Lemma validated_ready t issues cs :
  condition_status conditionTypeReady (validated_condition t issues cs) = condition_status conditionTypeReady cs.
Proof. unfold validated_condition. destruct (has_errors issues); by apply setCondition_status_other. Qed.

(** What a status must say of the Deployment it was derived from. *)
Record tells (persona : ApplicationPersona) (d : Deployment) (st : ApplicationPersonaStatus) : Prop := {
  tl_active : apst_Phase st = phaseActive <-> serving d /\ ~ violates persona d;
  tl_failed : apst_Phase st = personaPhaseFailed <-> ~ violates persona d /\ ~ serving d /\ ~ limping d /\ ~ moving d;
  tl_phase : apst_Phase st ∈ [phaseActive; phaseDegraded; personaPhaseFailed];
  tl_ready : condition_status conditionTypeReady (apst_Conditions st) = Some ConditionTrue <-> apst_Phase st = phaseActive;
  tl_validated : condition_status conditionTypeValidated (apst_Conditions st) = Some ConditionTrue <-> ~ violates persona d;
  tl_passed : exists v, apst_Validation st = Some v /\ (vs_Passed v = true <-> ~ violates persona d);
  tl_kept : apst_ActiveIncidents st = apst_ActiveIncidents (ap_Status persona) /\
            apst_LastIncidentTime st = apst_LastIncidentTime (ap_Status persona) /\ apst_ArgoCD st = apst_ArgoCD (ap_Status persona);
}.

Lemma resolved_tells persona now t1 t2 d issues health learned :
  validate persona d = Some issues -> hst_Status health = hst_Status (deriveHealthFromDeployment d now) ->
  tells persona d (resolved_status now t1 t2 d issues health learned (ap_Status persona)).
Proof.
  intros Hv Hh. pose proof (validate_errors persona d issues Hv) as He. destruct (derived_health d now) as [Hok Hbad]. rewrite <- Hh in Hok, Hbad.
  assert (Hne : has_errors issues = false <-> ~ violates persona d) by (rewrite <- He; by destruct (has_errors issues)).
  unfold resolved_status. set (phase := persona_phase _ _).
  assert (Hphase : (phase = phaseActive <-> serving d /\ ~ violates persona d) /\
      (phase = personaPhaseFailed <-> ~ violates persona d /\ ~ serving d /\ ~ limping d /\ ~ moving d) /\ phase ∈ [phaseActive; phaseDegraded; personaPhaseFailed]).
  { rewrite <- Hne, <- Hok. unfold phase, persona_phase.
    destruct (String.eqb_spec (hst_Status health) healthStatusHealthy) as [Eh|Eh], (has_errors issues) eqn:Eerr; cbn [andb negb].
    - split_and!; [naive_solver|naive_solver|set_solver].
    - split_and!; [naive_solver|naive_solver|set_solver].
    - split_and!; [naive_solver|naive_solver|set_solver].
    - destruct (String.eqb_spec (hst_Status health) healthStatusUnhealthy) as [Eu|Eu].
      + split_and!; [naive_solver|tauto|set_solver].
      + split_and!; [naive_solver|split; [done|naive_solver]|set_solver]. }
  destruct Hphase as (Ha & Hf & Hin). constructor; cbn [apst_Phase apst_Conditions apst_Validation apst_ActiveIncidents apst_LastIncidentTime apst_ArgoCD]; try done.
  - rewrite validated_ready, ready_status. destruct (String.eqb_spec phase phaseActive); naive_solver.
  - rewrite validated_status, <- Hne. by destruct (has_errors issues).
  - eexists. split; [done|]. cbn. rewrite <- Hne. by destruct (has_errors issues).
Qed.

(** A status for a persona that no one Deployment stands behind. *)
Record says_unresolved (persona : ApplicationPersona) (reason : string) (st : ApplicationPersonaStatus) : Prop := {
  su_phase : apst_Phase st = personaPhasePending;
  su_health : hst_Status <$> apst_Health st = Some healthStatusUnknown;
  su_ready : c_Reason <$> condition_of conditionTypeReady (apst_Conditions st) = Some reason /\
             condition_status conditionTypeReady (apst_Conditions st) = Some ConditionFalse;
  su_kept : apst_Deployments st = apst_Deployments (ap_Status persona) /\ apst_Learned st = apst_Learned (ap_Status persona);
}.

Lemma markUnresolved_run persona now reason message w : exists st,
  markUnresolved persona now reason message w = (ap_set_status st persona, w) /\ says_unresolved persona reason st.
Proof.
  unfold markUnresolved, mbind, io_bind. do 2 rewrite (read_pair clock w) by apply clock_reads. eexists. split; [reflexivity|].
  constructor; try done. cbn [unresolved_status apst_Conditions]. split.
  - rewrite setCondition_other by done. edestruct setCondition_same as (c & Hc & _ & _ & Hr). rewrite Hc. cbn. by f_equal.
  - rewrite setCondition_status_other by done. apply setCondition_status.
Qed.


Lemma resolve_ignores ms l1 d l2 name : (forall m, m ∈ ms -> matches_by m d name = false) ->
  resolve_by ms (l1 ++ d :: l2) name = resolve_by ms (l1 ++ l2) name.
Proof.
  induction ms as [|m ms IH]; [done|]. intros Hm. cbn [resolve_by].
  assert (Hf : List.filter (fun d => matches_by m d name) (l1 ++ d :: l2) = List.filter (fun d => matches_by m d name) (l1 ++ l2)).
  { rewrite !List.filter_app. cbn [List.filter]. by rewrite (Hm m) by left. }
  rewrite Hf, IH; [done|]. intros m' Hin. apply Hm. by right.
Qed.

(** No wake-up is missed.  If a Deployment's presence changes what a persona of
    its namespace resolves to, by giving it a match, by taking its match for
    itself or by making it ambiguous, then an event on that Deployment
    reconciles that persona. *)
Theorem deployment_change_wakes (d : Deployment) (l1 l2 : list Deployment) (personas : list ApplicationPersona) (p : ApplicationPersona) (w : W) :
  (listPersonas (mkListOptions (Some (dp_Namespace d)) []) w).1 = Ok personas -> p ∈ personas ->
  Resolve (l1 ++ d :: l2) (aps_Name (ap_Spec p)) <> Resolve (l1 ++ l2) (aps_Name (ap_Spec p)) ->
  mkKey (ap_Name p) (ap_Namespace p) ∈ (deploymentToPersona d w).1.
Proof.
  intros Hl Hp Hne. unfold deploymentToPersona. rewrite (bind_read (listPersonas _) _ w (Ok personas)) by (rewrite <- Hl; apply read_pair, listPersonas_reads).
  cbn. apply (list_elem_of_fmap_2 (fun p => mkKey (ap_Name p) (ap_Namespace p))), list_elem_of_In, filter_In. split; [by apply list_elem_of_In|].
  unfold Resolve in Hne. unfold Matches. destruct (aps_Name (ap_Spec p) =? ""); [done|].
  destruct (existsb (fun m => matches_by m d (aps_Name (ap_Spec p))) chain) eqn:He; [done|]. rewrite existsb_not_elem in He. by rewrite resolve_ignores in Hne.
Qed.
End reconcile_props.

(** Two things the reconcile does to what it is given.  The Ready message names
    the phase, but is only rewritten with the status or the reason, so it keeps
    naming the first failing phase; and the tracking record is replaced by the
    current image alone, so a last successful image recorded there is lost. *)
Example ready_message_is_stale :
  c_Message <$> condition_of conditionTypeReady (ready_condition minute personaPhaseFailed (ready_condition 0%Z phaseDegraded [])) = Some "Phase: Degraded".
Proof. reflexivity. Qed.

Lemma last_successful_erased `{QuantityOps} now t1 t2 d issues health learned s :
  dt_LastSuccessful <$> apst_Deployments (resolved_status now t1 t2 d issues health learned s) = Some "".
Proof. reflexivity. Qed.

(** ** Witnesses *)

#[local] Existing Instance int_quantity.

(** Selectors by labels alone, no metrics. *)
#[export] Instance label_selectors : LabelSelectors := {|
  Selector := gmap string string;
  LabelSelectorAsSelector s := match s with Some (labels, []) => Ok labels | _ => Err (ErrText "not a plain label selector") end;
  selector_Matches sel labels := bool_decide (map_Forall (fun k v => labels !! k = Some v) sel);
|}.
#[export] Instance no_metrics W : Prometheus W := fun _ _ _ w => (Err (ErrText "prometheus is not reachable"), w).
#[export] Instance no_metrics_reads W : PrometheusReads (W := W).
Proof. done. Qed.

Definition ex_resources_persona (memory : string) : ApplicationPersona :=
  mkAP (mkMeta "api" "shop" ∅ 0%Z None 0)
    (mkAPSpec "api" "1" "api" "standard" None (Some (mkResources None (Some (mkResourceValues "" memory)) "")) None None [] None None None)
    empty_status ∅.
Definition ex_personas (memory : string) : Mem :=
  mkMem _ 0%Z ∅ {[mkKey "api" "shop" := ex_resources_persona memory]} ∅ [] {[mkKey "api" "shop" := ex_deployment "api" ∅]} [] [] [] None.

Definition is_None_b {A} (o : option A) : bool := match o with None => true | Some _ => false end.

(** A typo in a declared limit. *)
Example malformed_limit_panics :
  (ApplicationPersona_Reconcile "" (mkKey "api" "shop") (ex_personas "512 MB")).1 = Panicked.
Proof. vm_compute. reflexivity. Qed.

Definition resolves {E A} (r : result E (option A)) : bool := match r with Ok (Some _) => true | _ => false end.
Lemma deployment_change_wakes_witness :
  mkKey "api" "shop" ∈ (deploymentToPersona (ex_deployment "api" ∅) (ex_personas "100")).1.
Proof.
  refine (deployment_change_wakes (ex_deployment "api" ∅) [] [ex_deployment "web" ∅] [ex_resources_persona "100"] (ex_resources_persona "100")
            (ex_personas "100") _ _ _).
  - vm_compute. reflexivity.
  - left.
  - intros Heq. apply (f_equal resolves) in Heq. vm_compute in Heq. discriminate.
Defined.
