(* ===== verification/ClusterDiscovery.v ===== *)
(** * What the operator knows of the cluster
    (internal/controller/clusterpersona_discovery.go, clusterpersona_addons.go).

    Nodes, capacity, namespaces, platform and add-ons, as the ClusterPersona
    controller records them. *)

From S2P Require Import Prelude GoString GoNum Json ApiTypes KubeTypes Client PersonaController.
From Stdlib Require Import String Ascii.
From stdpp Require Import strings.
Open Scope string_scope.

Definition nodeRoleControlPlane : string := "control-plane".
Definition nodeRoleWorker : string := "worker".
Definition clusterPhaseDiscovering : string := "Discovering".
Definition clusterPhaseReady : string := "Ready".
Definition clusterPhaseDegraded : string := "Degraded".
Definition clusterPhaseUnknown : string := "Unknown".
Definition PodRunning : string := "Running".
Definition NamespaceActive : string := "Active".
Definition ResourcePods : string := "pods".
Definition ResourceEphemeralStorage : string := "ephemeral-storage".

Record Namespace := mkNamespace { ns_Name : string; ns_UID : string; ns_Phase : string }.

(** The cluster-scoped calls of the client, and the discovery client, whose
    version is an error when the controller has none. *)
Class ClusterClient (W : Type) := {
  getClusterPersona : string -> io W (result error ClusterPersona);
  createClusterPersona : ClusterPersona -> io W (result error unit);
  updateClusterPersona : ClusterPersona -> io W (result error ClusterPersona);
  updateStatusClusterPersona : ClusterPersona -> io W (result error ClusterPersona);
  getNamespace : string -> io W (result error Namespace);
  listNamespaces : io W (result error (list Namespace));
  ServerVersion : io W (result error string);
}.

(** ** Nodes *)

Definition interestingPrefixes : list string :=
  ["node.kubernetes.io/"; "topology.kubernetes.io/"; "kubernetes.io/arch"; "kubernetes.io/os"; "node-role.kubernetes.io/"].
Definition interesting (key : string) : bool := existsb (fun prefix => has_prefix key prefix || contains key "role") interestingPrefixes.
Definition filterNodeLabels (labels : gmap string string) : gmap string string := filter (fun kv => interesting kv.1 = true) labels.

Definition getTaintStrings (taints : list Taint) : list string :=
  map (fun t => tnt_Key t ++ "=" ++ tnt_Value t ++ ":" ++ tnt_Effect t) taints.
Definition countReadyNodes (nodes : list NodeInfo) : nat := length (List.filter ni_Ready nodes).

Section discovery.
Context `{QuantitySum}.

Definition getNodeRole (node : Node) : string :=
  let labels := m_Labels (node_Meta node) in
  match labels !! "node-role.kubernetes.io/control-plane" with
  | Some _ => nodeRoleControlPlane
  | None => match labels !! "node-role.kubernetes.io/master" with Some _ => nodeRoleControlPlane | None => nodeRoleWorker end
  end.
Definition isNodeReady (node : Node) : bool :=
  existsb (fun c => (nc_Type c =? "Ready") && (nc_Status c =? ConditionTrue)) (node_Conditions node).

Definition node_resources (rl : gmap string Quantity) : NodeResources :=
  mkNodeResources (q_String (rl_get rl ResourceCPU)) (q_String (rl_get rl ResourceMemory)) (q_String (rl_get rl ResourcePods))
    (q_String (rl_get rl ResourceEphemeralStorage)).
Definition node_info (node : Node) : NodeInfo :=
  mkNodeInfo (node_Name node) (getNodeRole node) (isNodeReady node) (Some (node_resources (node_Capacity node)))
    (Some (node_resources (node_Allocatable node))) (getTaintStrings (node_Taints node)) (filterNodeLabels (m_Labels (node_Meta node)))
    (node_KubeletVersion node) (node_ContainerRuntimeVersion node).

(** ** Resources *)

Definition add_parsed (text : string) (total : Quantity) : Quantity := match ParseQuantity text with Some q => q_Add total q | None => total end.
Definition total_of (field : NodeResources -> string) (side : NodeInfo -> option NodeResources) (nodes : list NodeInfo) : Quantity :=
  foldl (fun total node => match side node with Some r => add_parsed (field r) total | None => total end) q_zero nodes.
Definition total_pods (nodes : list NodeInfo) : Z :=
  foldl (fun total node => match ni_Capacity node with
                           | Some r => match ParseQuantity (nr_Pods r) with Some q => wrap64 (total + q_Value q) | None => total end
                           | None => total
                           end) 0%Z nodes.

Definition podHoldsAllocation (pod : Pod) : bool :=
  if (pod_Phase pod =? PodSucceeded) || (pod_Phase pod =? PodFailed) then false else negb (pod_NodeName pod =? "").

(** One resource of [podRequests]: the containers' sum, raised to the largest
    init container. *)
Definition pod_request (resource : string) (pod : Pod) : Quantity :=
  let sum := foldl (fun total c => q_Add total (rl_get (ct_Requests c) resource)) q_zero (pod_Containers pod) in
  foldl (fun total c => if bool_decide (q_Cmp (rl_get (ct_Requests c) resource) total = Gt) then rl_get (ct_Requests c) resource else total)
    sum (pod_InitContainers pod).
Definition podRequests (pod : Pod) : Quantity * Quantity := (pod_request ResourceCPU pod, pod_request ResourceMemory pod).

Definition utilizationPercent (used total : Z) : string :=
  if (total <=? 0)%Z then "" else fmt_d (f_round (fmul (fdiv (f_of_Z used) (f_of_Z total)) (f_of_Z 100))) ++ "%".

Definition claimed (resource : string) (pods : list Pod) : Quantity :=
  foldl (fun total pod => if podHoldsAllocation pod then q_Add total (pod_request resource pod) else total) q_zero pods.
Definition setClaimedResources (s : ClusterResourceSummary) (pods : list Pod) (allocatableCPU allocatableMemory : Quantity) : ClusterResourceSummary :=
  let cpu := claimed ResourceCPU pods in
  let memory := claimed ResourceMemory pods in
  mkSummary (rs_TotalCPU s) (rs_TotalMemory s) (rs_AllocatableCPU s) (rs_AllocatableMemory s) (q_String cpu) (q_String memory)
    (utilizationPercent (q_MilliValue cpu) (q_MilliValue allocatableCPU)) (utilizationPercent (q_Value memory) (q_Value allocatableMemory))
    (rs_TotalPods s) (rs_RunningPods s) (rs_NodeCount s).
Definition running_pods (pods : list Pod) : Z := wrap32 (Z.of_nat (length (List.filter (fun p => (pod_Phase p =? PodRunning)) pods))).

(** The summary for the nodes, and the pods if they could be listed. *)
Definition resource_summary (nodes : list NodeInfo) (pods : option (list Pod)) : ClusterResourceSummary :=
  let allocatableCPU := total_of nr_CPU ni_Allocatable nodes in
  let allocatableMemory := total_of nr_Memory ni_Allocatable nodes in
  let summary running := mkSummary (q_String (total_of nr_CPU ni_Capacity nodes)) (q_String (total_of nr_Memory ni_Capacity nodes))
    (q_String allocatableCPU) (q_String allocatableMemory) "" "" "" "" (wrap32 (total_pods nodes)) running (wrap32 (Z.of_nat (length nodes))) in
  match pods with
  | Some pods => setClaimedResources (summary (running_pods pods)) pods allocatableCPU allocatableMemory
  | None => summary 0%Z
  end.
End discovery.

Definition determinePhase (nodes : list NodeInfo) : string :=
  match nodes with
  | [] => clusterPhaseDiscovering
  | _ => if (countReadyNodes nodes =? length nodes)%nat then clusterPhaseReady else clusterPhaseDegraded
  end.

(** ** The platform *)

Definition label_hints : list (string * string) :=
  [("eks.amazonaws.com", "EKS"); ("cloud.google.com/gke", "GKE"); ("kubernetes.azure.com", "AKS"); ("node.openshift.io", "OpenShift");
   ("minikube.k8s.io", "Minikube"); ("kind.x-k8s.io", "Kind"); ("k3s.io", "K3s")].
Definition provider_hints : list (string * string) := [("aws://", "EKS"); ("gce://", "GKE"); ("azure://", "AKS"); ("kind://", "Kind")].
Definition label_hint (key : string) : option string := snd <$> find_first (fun hint => contains key hint.1) label_hints.
Definition provider_hint (providerID : string) : option string := snd <$> find_first (fun hint => has_prefix providerID hint.1) provider_hints.

Section platform.
Context `{MapRange}.
Definition labels_platform (nodes : list NodeInfo) : option string := head (omap label_hint (concat (map (fun n => range_keys (dom (ni_Labels n))) nodes))).
End platform.

(** ** Add-ons (clusterpersona_addons.go) *)

Fixpoint version_from (n : nat) (label : string) : string :=
  match n with
  | O => ""
  | S i =>
      let rest := String.substring (S i) (String.length label - S i) label in
      if match String.get i label with Some c => Ascii.eqb c "-" | None => false end
         && match String.get 0 rest, String.get 1 rest with
            | Some next, after => is_digit next || (Ascii.eqb next "v" && match after with Some d => is_digit d | None => false end)
            | None, _ => false
            end
      then rest else version_from i label
  end.
(** From the last byte back: the last hyphen that a version follows. *)
Definition extractVersionFromHelmChartLabel (labels : gmap string string) : string :=
  let chartLabel := mget labels "helm.sh/chart" in version_from (String.length chartLabel) chartLabel.

Definition is_hex (c : ascii) : bool := is_digit c || byte_in "a" "f" c || byte_in "A" "F" c.
Definition isHexDigest (s : string) : bool := (40 <=? String.length s)%nat && str_forall is_hex s.

Definition image_version (image : string) : string :=
  match split_byte ":" image with
  | [] | [_] => ""
  | parts => let tag := List.last parts "" in if isHexDigest tag || (tag =? "latest") then "unknown" else tag
  end.
Definition without_hyphens (s : string) : string := strings_join "" (split_byte "-" s).

Section addons.
Context `{QuantityOps}.

Definition addon_version (pod : Pod) : string :=
  let labels := m_Labels (pod_Meta pod) in
  let v := mget labels "app.kubernetes.io/version" in
  if negb (v =? "") then v else
  let v := extractVersionFromHelmChartLabel labels in
  if negb (v =? "") then v else
  match pod_Containers pod with c :: _ => image_version (ct_Image c) | [] => "" end.

Definition absent_addon (name namespace addonType : string) : AddonInfo := mkAddon name addonType false "" namespace None.
Definition addon_of_pods (name namespace addonType : string) (pods : list Pod) : AddonInfo :=
  match find_first (fun pod => contains (pod_Name pod) name || contains (pod_Name pod) (without_hyphens name)) pods with
  | Some pod => mkAddon name addonType true (addon_version pod) namespace (Some (pod_Phase pod =? PodRunning))
  | None => absent_addon name namespace addonType
  end.
End addons.
