(* ===== verification/ClusterController.v ===== *)
(** * The ClusterPersona controller and its bootstrap
    (internal/controller/clusterpersona_controller.go,
    clusterpersona_bootstrap.go, and the calls of clusterpersona_discovery.go and
    clusterpersona_addons.go).

    [wait.ExponentialBackoffWithContext] is not under src/: it is the class
    [Backoff], with its documented behaviour as the law. *)

From S2P Require Import Prelude GoString GoNum Json ApiTypes KubeTypes Client RemediationController PersonaController ClusterDiscovery.
From Stdlib Require Import String Ascii.
From stdpp Require Import strings.
Open Scope string_scope.

Definition clusterRequeueInterval : duration := (5 * minute)%Z.
Definition conditionTypeDiscovered : string := "Discovered".
Definition conditionTypeHealthy : string := "Healthy".

(** ** Self-healing defaults *)

Definition applySelfHealingDefaults (persona : ClusterPersona) : ClusterPersona * bool :=
  let empty_policy := mkSelfHealing false "" 0 0 [] None in
  let '(sh, created) := match cp_SelfHealing persona with Some sh => (sh, false) | None => (empty_policy, true) end in
  let no_mode := (shp_Mode sh =? "") in
  let no_trust := (shp_TrustLevel sh =? 0)%Z in
  let sh := mkSelfHealing (shp_Enabled sh) (if no_mode then SelfHealingModePropose else shp_Mode sh)
              (if no_trust then 2%Z else shp_TrustLevel sh) (shp_MaxRemediationsPerHour sh) (shp_ExcludeNamespaces sh) (shp_Rollback sh) in
  (mkCP (cp_Meta persona) (Some (Some sh)) (cp_Annotations persona) (cp_SpecName persona) (cp_Description persona)
     (cp_Environment persona) (cp_Status persona), created || no_mode || no_trust).

(** ** Discovery *)

Section discover.
Context `{Client W} `{!QuantitySum} `{ClusterClient W} `{MapRange}.

Definition everything : ListOptions := mkListOptions None [].
Definition in_namespace (ns : string) : ListOptions := mkListOptions (Some ns) [].

Definition discoverNodes : io W (result error (list NodeInfo)) :=
  let* nodes := listNodes in iok (map node_info nodes).

Definition calculateResourceSummary (nodes : list NodeInfo) : io W ClusterResourceSummary :=
  let! r := listPods everything in
  mret (resource_summary nodes (match r with Ok pods => Some pods | Err _ => None end)).

Definition checkAddon (name namespace addonType : string) : io W AddonInfo :=
  let! ns := getNamespace namespace in
  match ns with
  | Err _ => mret (absent_addon name namespace addonType)
  | Ok _ =>
      let! r := listPods (in_namespace namespace) in
      mret (match r with Ok pods => addon_of_pods name namespace addonType pods | Err _ => absent_addon name namespace addonType end)
  end.

Definition discoverAddons : io W (list AddonInfo) :=
  let! argoCD := checkAddon "argocd" "argocd" "gitops" in
  let! prometheus := checkAddon "prometheus" "monitoring" "monitoring" in
  let! prometheus := if ad_Installed prometheus then mret prometheus else checkAddon "prometheus-server" "monitoring" "monitoring" in
  let! grafana := checkAddon "grafana" "monitoring" "monitoring" in
  let! certManager := checkAddon "cert-manager" "cert-manager" "cert-management" in
  let! ingressNginx := checkAddon "ingress-nginx-controller" "ingress-nginx" "ingress" in
  let! externalSecrets := checkAddon "external-secrets" "external-secrets" "secrets" in
  let! istio := checkAddon "istiod" "istio-system" "service-mesh" in
  let! openObserve := checkAddon "openobserve" "openobserve" "monitoring" in
  let! cnpg := checkAddon "cnpg-cloudnative-pg" "cnpg-system" "database" in
  mret [argoCD; prometheus; grafana; certManager; ingressNginx; externalSecrets; istio; openObserve; cnpg].

Definition namespaces_with (personas : list ApplicationPersona) : gset string := list_to_set (map ap_Namespace personas).
Definition discoverNamespaces : io W (result error NamespaceSummary) :=
  let* namespaces := listNamespaces in
  let! personas := listPersonas everything in
  iok (mkNamespaces (wrap32 (Z.of_nat (length namespaces)))
         (wrap32 (Z.of_nat (length (List.filter (fun ns => (ns_Phase ns =? NamespaceActive)) namespaces))))
         (match personas with Ok ps => wrap32 (Z.of_nat (size (namespaces_with ps))) | Err _ => 0%Z end)).

Definition countApplicationPersonas : io W (result error Z) :=
  let* personas := listPersonas everything in iok (wrap32 (Z.of_nat (length personas))).

Definition detectPlatform (nodes : list NodeInfo) : io W string :=
  match nodes with
  | [] => mret "Unknown"
  | _ =>
      match labels_platform nodes with
      | Some platform => mret platform
      | None =>
          let! r := listNodes in
          mret (match r with
                | Ok (node :: _) => default "Generic" (provider_hint (node_ProviderID node))
                | _ => "Generic"
                end)
      end
  end.

(** ** The reconcile *)

Definition nodes_ready (nodes : list NodeInfo) : string :=
  fmt_d (Z.of_nat (countReadyNodes nodes)) ++ "/" ++ fmt_d (Z.of_nat (length nodes)) ++ " nodes ready".
Definition discovered_conditions (t1 t2 : time) (phase : string) (nodes : list NodeInfo) (cs : list Condition) : list Condition :=
  if (phase =? clusterPhaseReady) then
    setCondition t2 conditionTypeHealthy ConditionTrue "AllNodesReady" (nodes_ready nodes)
      (setCondition t1 conditionTypeDiscovered ConditionTrue "DiscoveryComplete" "Cluster state discovered successfully" cs)
  else
    setCondition t2 conditionTypeHealthy ConditionFalse "NodesNotReady" (nodes_ready nodes)
      (setCondition t1 conditionTypeDiscovered ConditionTrue "DiscoveryComplete" "Cluster state discovered with issues" cs).

Definition cp_set_status (s : ClusterPersonaStatus) (cp : ClusterPersona) : ClusterPersona :=
  mkCP (cp_Meta cp) (cp_Policies cp) (cp_Annotations cp) (cp_SpecName cp) (cp_Description cp) (cp_Environment cp) s.

(** Steps 2 to 10: the status that is written. *)
Definition discovered_status (now : time) (s : ClusterPersonaStatus) : io W ClusterPersonaStatus :=
  let! discovered := discoverNodes in
  let! (nodes, conditions) :=
    match discovered with
    | Err e => let! t := clock in
               mret (cps_Nodes s, setCondition t conditionTypeDiscovered ConditionFalse "NodeDiscoveryFailed" (err_string e) (cps_Conditions s))
    | Ok nodes => mret (nodes, cps_Conditions s)
    end in
  let! summary := calculateResourceSummary nodes in
  let! addons := discoverAddons in
  let! namespaces := discoverNamespaces in
  let! version := ServerVersion in
  let! platform := detectPlatform nodes in
  let! count := countApplicationPersonas in
  let phase := determinePhase nodes in
  let! t1 := clock in
  let! t2 := clock in
  mret (mkCPStatus phase (Some now) nodes (Some summary) addons
          (match namespaces with Ok ns => Some ns | Err _ => cps_Namespaces s end)
          (match version with Ok v => v | Err _ => cps_KubernetesVersion s end) platform
          (match count with Ok n => n | Err _ => cps_ApplicationCount s end)
          (discovered_conditions t1 t2 phase nodes conditions)).

(** [Reconcile]. *)
Definition ClusterPersona_Reconcile (name : string) : io W (result error Result) :=
  let! got := getClusterPersona name in
  match got with
  | Err e => if is_not_found e then iok no_requeue else ierr e
  | Ok persona =>
      let '(persona, updated) := applySelfHealingDefaults persona in
      let* persona := if updated then updateClusterPersona persona else iok persona in
      let! now := clock in
      let! status := discovered_status now (cp_Status persona) in
      let* _ := updateStatusClusterPersona (cp_set_status status persona) in
      iok (mkResult false clusterRequeueInterval)
  end.
End discover.

(** ** Bootstrap *)

Definition bootstrapPersonaName : string := "dorgu-cluster".
Definition annotationClusterUID : string := "dorgu.io/cluster-uid".
Definition annotationBootstrap : string := "dorgu.io/bootstrap".
Definition defaultEnsureInterval : duration := (2 * minute)%Z.
Definition minEnsureInterval : duration := (30 * second)%Z.
Definition bootstrapSteps : nat := 5.

Definition ensureInterval (configured : duration) : duration :=
  if (configured <=? 0)%Z then defaultEnsureInterval else if (configured <? minEnsureInterval)%Z then minEnsureInterval else configured.

Definition buildPersona (clusterUID : string) : ClusterPersona :=
  mkCP (mkMeta bootstrapPersonaName "" ∅ 0%Z None 0)
    (Some (Some (mkSelfHealing true SelfHealingModePropose 2 5 [] None)))
    (if (clusterUID =? "") then {[annotationBootstrap := "true"]}
     else <[annotationClusterUID := clusterUID]> {[annotationBootstrap := "true"]})
    bootstrapPersonaName "Auto-created by Dorgu Operator on startup" "development" empty_cluster_status.

(** [wait.ExponentialBackoffWithContext] over an attempt: the outcome of the
    wait, and the errors of the attempts that failed, in order.  The outcome is
    an error of its own when the attempts run out or the context ends. *)
Class Backoff (W : Type) := ExponentialBackoff : nat -> io W (result error unit) -> io W (result error unit * list error).

Section bootstrap.
Context `{Client W} `{ClusterClient W} `{Backoff W}.

Definition ensure : io W (result error unit) :=
  let* personas := wrap_io "listing ClusterPersonas" listClusterPersonas in
  match personas with
  | _ :: _ => iok tt
  | [] =>
      let! ns := getNamespace "kube-system" in
      let clusterUID := match ns with Ok n => ns_UID n | Err _ => "" end in
      let! r := createClusterPersona (buildPersona clusterUID) in
      match r with
      | Ok _ => iok tt
      | Err e => if is_already_exists e then iok tt
                 else ierr (ErrWrap ("creating ClusterPersona " ++ fmt_q bootstrapPersonaName) e)
      end
  end.

Definition ensureWithRetry : io W (result error unit) :=
  let! (outcome, failures) := ExponentialBackoff bootstrapSteps ensure in
  match outcome with
  | Ok _ => iok tt
  | Err e =>
      match last failures with
      | Some lastErr => ierr (ErrWrap "ensuring ClusterPersona after retries" lastErr)
      | None => ierr (ErrWrap "ensuring ClusterPersona" e)
      end
  end.
End bootstrap.

(** ** Properties: the status *)

Lemma bind_snd {W A B} (m : io W A) (f : A -> io W B) w (P : B -> Prop) :
  (forall a w', m w = (a, w') -> P (f a w').1) -> P ((mbind f m) w).1.
Proof. intros Hf. unfold mbind, io_bind. destruct (m w) as [a w'] eqn:Hm. by apply Hf. Qed.

Lemma countReadyNodes_all nodes : (countReadyNodes nodes =? length nodes)%nat = forallb ni_Ready nodes.
Proof.
  unfold countReadyNodes. assert (Hle : forall l, (length (List.filter ni_Ready l) <= length l)%nat) by apply List.filter_length_le.
  induction nodes as [|n nodes IH]; [done|]. cbn [List.filter forallb]. specialize (Hle nodes).
  destruct (ni_Ready n); cbn; [by rewrite IH|]. apply Nat.eqb_neq. lia.
Qed.

Lemma determinePhase_ready nodes : determinePhase nodes = clusterPhaseReady <-> nodes <> [] /\ forall n, n ∈ nodes -> ni_Ready n = true.
Proof.
  unfold determinePhase. destruct nodes as [|n nodes]; [split; [done|by intros [? _]]|]. rewrite countReadyNodes_all.
  destruct (forallb _ _) eqn:Hf.
  - split; [intros _|done]. split; [done|]. intros m Hm. rewrite forallb_forall in Hf. by apply Hf, list_elem_of_In.
  - split; [done|]. intros [_ Hall]. assert (forallb ni_Ready (n :: nodes) = true); [|congruence].
    apply forallb_forall. intros m Hm. by apply Hall, list_elem_of_In.
Qed.

Lemma discovered_status_of t1 t2 phase nodes cs :
  condition_status conditionTypeDiscovered (discovered_conditions t1 t2 phase nodes cs) = Some ConditionTrue /\
  condition_status conditionTypeHealthy (discovered_conditions t1 t2 phase nodes cs) =
    Some (if (phase =? clusterPhaseReady) then ConditionTrue else ConditionFalse).
Proof.
  unfold discovered_conditions. destruct (phase =? clusterPhaseReady); (split; [rewrite setCondition_status_other by done|]); apply setCondition_status.
Qed.

Section status_props.
Context `{Client W} `{!QuantitySum} `{ClusterClient W} `{MapRange}.

(** C36. What the cluster's status says, and what it hides.  The nodes recorded are
    the ones just listed or, when they could not be, the ones recorded before;
    the phase is Ready exactly when there are nodes and all are ready, and
    Healthy says the same.  Discovered is True in every case: the failure to
    discover the nodes is set as a condition and overwritten in the same
    reconcile, so it never reaches the API server. *)
Theorem cluster_status_tells (now : time) (s : ClusterPersonaStatus) (w : W) :
  let st := (discovered_status now s w).1 in
  cps_Nodes st = match (listNodes w).1 with Ok nodes => map node_info nodes | Err _ => cps_Nodes s end /\
  (cps_Phase st = clusterPhaseReady <-> cps_Nodes st <> [] /\ forall n, n ∈ cps_Nodes st -> ni_Ready n = true) /\
  (condition_status conditionTypeHealthy (cps_Conditions st) = Some ConditionTrue <-> cps_Phase st = clusterPhaseReady) /\
  condition_status conditionTypeDiscovered (cps_Conditions st) = Some ConditionTrue /\
  cps_LastDiscovery st = Some now.
Proof.
  cbv zeta. unfold discovered_status. apply bind_snd. intros discovered w1 Hd. apply bind_snd. intros [nodes conditions] w2 Hn.
  assert (Hnodes : nodes = match (listNodes w).1 with Ok nodes => map node_info nodes | Err _ => cps_Nodes s end).
  { unfold discoverNodes, iobind in Hd. destruct (listNodes w) as [[ns|e] w']; cbn in Hd |- *; injection Hd as <- <-; [by injection Hn|].
    unfold mbind, io_bind in Hn. destruct (clock w') as [t w'']. by injection Hn. }
  clear Hd Hn. do 6 (apply bind_snd; intros ? ? _). do 2 (apply bind_snd; intros ? ? _). cbn [mret io_ret fst cps_Nodes cps_Phase cps_Conditions cps_LastDiscovery].
  match goal with |- context [discovered_conditions ?t1 ?t2 ?ph ?ns ?cs] => destruct (discovered_status_of t1 t2 ph ns cs) as [-> ->] end.
  rewrite determinePhase_ready. split_and!; try done. rewrite <- determinePhase_ready.
  destruct (String.eqb_spec (determinePhase nodes) clusterPhaseReady); naive_solver.
Qed.
End status_props.

(** The defaults are applied once: a second pass changes nothing, a mode and a
    trust level that are set stay.  A trust level of 0, which the CRD admits, is
    not one of them: it becomes 2. *)
Theorem defaults_applied_once (cp : ClusterPersona) :
  let '(cp', changed) := applySelfHealingDefaults cp in
  applySelfHealingDefaults cp' = (cp', false) /\ (changed = false -> cp' = cp) /\
  exists sh', cp_SelfHealing cp' = Some sh' /\ shp_Mode sh' <> "" /\ shp_TrustLevel sh' <> 0%Z /\
    forall sh, cp_SelfHealing cp = Some sh ->
      (shp_Mode sh <> "" -> shp_Mode sh' = shp_Mode sh) /\
      shp_TrustLevel sh' = (if (shp_TrustLevel sh =? 0)%Z then 2%Z else shp_TrustLevel sh) /\
      shp_ExcludeNamespaces sh' = shp_ExcludeNamespaces sh /\ shp_MaxRemediationsPerHour sh' = shp_MaxRemediationsPerHour sh.
Proof.
  unfold applySelfHealingDefaults, cp_SelfHealing.
  destruct cp as [m [[[en mode trust rate ex rb]|]|] an nm de env st]; cbn -[Z.eqb]; [|split_and!; [done|done|by eexists]..].
  destruct (String.eqb_spec mode "") as [->|Hm], (Z.eqb_spec trust 0) as [->|Ht]; cbn -[Z.eqb];
    rewrite ?(proj2 (String.eqb_neq _ _) Hm), ?(proj2 (Z.eqb_neq _ _) Ht); cbn; (split_and!; [done|done|]); eexists; (split_and!; [done|done|done|]);
    intros sh [= <-]; cbn; by rewrite ?(proj2 (Z.eqb_neq _ _) Ht).
Qed.

(** ** Properties: the bootstrap *)

(** How a wait with a bounded number of attempts may go; between attempts the
    world moves by [env]. *)
Inductive attempts {W} (env : W -> W -> Prop) (cancelled : W -> Prop) (m : io W (result error unit)) : nat -> W -> list error -> bool -> W -> Prop :=
| at_exhausted w : attempts env cancelled m 0 w [] false w
| at_cancelled n w w1 : env w w1 -> cancelled w1 -> attempts env cancelled m n w [] false w1
| at_ok n w w1 w2 : env w w1 -> m w1 = (Ok tt, w2) -> attempts env cancelled m (S n) w [] true w2
| at_fail n w w1 w2 e failures ok w3 :
    env w w1 -> m w1 = (Err e, w2) -> attempts env cancelled m n w2 failures ok w3 ->
    attempts env cancelled m (S n) w (e :: failures) ok w3.

Class BackoffLaws `{Backoff W} (env : W -> W -> Prop) (cancelled : W -> Prop) : Prop :=
  ExponentialBackoff_attempts steps m w :
    attempts env cancelled m steps w (ExponentialBackoff steps m w).1.2 (is_ok (ExponentialBackoff steps m w).1.1) (ExponentialBackoff steps m w).2.

Section bootstrap_props.
Context `{ClientReads W} `{!ClusterClient W} `{!Backoff W} (env : W -> W -> Prop) (cancelled : W -> Prop) `{!BackoffLaws env cancelled}.
Context (present : W -> Prop).

(** The API server, as far as the bootstrap relies on it: a persona that is
    listed is there, one whose creation succeeded or was refused as a duplicate
    is there, and nobody removes it meanwhile. *)
Record cluster_server : Prop := {
  sv_listed w cp cps : (listClusterPersonas w).1 = Ok (cp :: cps) -> present w;
  sv_created p w w' : createClusterPersona p w = (Ok tt, w') -> present w';
  sv_exists p w e w' : createClusterPersona p w = (Err e, w') -> is_already_exists e = true -> present w';
  sv_kept w w' : env w w' -> present w -> present w';
  sv_namespace n w : (getNamespace n w).2 = w;
}.
Context (server : cluster_server).

Lemma ensure_present w w' : ensure w = (Ok tt, w') -> present w'.
Proof.
  unfold ensure, iobind, wrap_io. rewrite (read_pair listClusterPersonas w) by apply listClusterPersonas_reads.
  destruct (listClusterPersonas w).1 as [[|cp cps]|e] eqn:Hl; cbn; [|intros [= <-]; by eapply (sv_listed server)|done].
  rewrite (bind_read (getNamespace _) _ w _ (read_pair _ _ (sv_namespace server _ w))). unfold mbind, io_bind.
  destruct (createClusterPersona _ w) as [[[]|e] w1] eqn:Hc; [intros [= <-]; by eapply (sv_created server)|].
  destruct (is_already_exists e) eqn:He; [intros [= <-]; by eapply (sv_exists server)|done].
Qed.

(** A persona that is listed is left alone. *)
Lemma ensure_idle w cp cps : (listClusterPersonas w).1 = Ok (cp :: cps) -> ensure w = (Ok tt, w).
Proof. intros Hl. unfold ensure, iobind, wrap_io. by rewrite (read_pair listClusterPersonas w), Hl by apply listClusterPersonas_reads. Qed.

Lemma attempts_bound n w failures ok w' : attempts env cancelled ensure n w failures ok w' ->
  (length failures + (if ok then 1 else 0) <= n)%nat /\ (ok = true -> present w') /\
  (ok = false -> length failures = n \/ exists w1, cancelled w1).
Proof.
  induction 1 as [w|n w w1 Hw Hc|n w w1 w2 Hw Hm|n w w1 w2 e failures ok w3 Hw Hm Ha (IH1 & IH2 & IH3)]; cbn.
  - split_and!; [lia|done|by left].
  - split_and!; [lia|done|right; by exists w1].
  - split_and!; [lia|intros _; by eapply ensure_present|done].
  - split_and!; [lia|done|]. intros Hok. destruct (IH3 Hok) as [Hl|Hc]; [left; by rewrite Hl|by right].
Qed.

(** One cycle of the bootstrap always ends, after at most five attempts.  If it
    reports success a ClusterPersona is there; if it reports a failure either
    the operator is shutting down or every one of the five attempts failed, and
    the error it reports is the last attempt's. *)
Theorem bootstrap_cycle (w : W) :
  let failures := (ExponentialBackoff bootstrapSteps ensure w).1.2 in
  (length failures <= bootstrapSteps)%nat /\
  ((ensureWithRetry w).1 = Ok tt -> present (ensureWithRetry w).2) /\
  (forall e, (ensureWithRetry w).1 = Err e ->
     (length failures = bootstrapSteps \/ exists w1, cancelled w1) /\
     forall lastErr, last failures = Some lastErr -> e = ErrWrap "ensuring ClusterPersona after retries" lastErr).
Proof.
  cbv zeta. pose proof (ExponentialBackoff_attempts bootstrapSteps ensure w) as Ha. apply attempts_bound in Ha as (Hlen & Hok & Hbad).
  unfold ensureWithRetry, mbind, io_bind. destruct (ExponentialBackoff bootstrapSteps ensure w) as [[[[]|err] failures] w'] eqn:Hb; cbn in *.
  - split_and!; [lia|intros _; by apply Hok|done].
  - split; [lia|]. destruct (last failures) as [lastErr|]; cbn; (split; [done|]); intros e [= <-]; (split; [by apply Hbad|]); [by intros ? [= <-]|done].
Qed.
End bootstrap_props.

(** ** A cluster in memory *)

#[export] Instance bounded_backoff {W} : Backoff W := fun steps m =>
  (fix go (n : nat) (failures : list error) : io W (result error unit * list error) := fun w =>
     match n with
     | O => ((Err (ErrText "timed out waiting for the condition"), failures), w)
     | S n => match m w with
              | (Ok _, w') => ((Ok tt, failures), w')
              | (Err e, w') => go n (failures ++ [e])%list w'
              end
     end) steps [].

Definition same_world {W} (w w' : W) : Prop := w = w'.
Definition never {W} (w : W) : Prop := False.

#[export] Instance bounded_backoff_laws {W} : BackoffLaws (W := W) same_world never.
Proof.
  intros steps m w. unfold ExponentialBackoff, bounded_backoff.
  match goal with |- context [?F steps []] => set (go := F) end.
  enough (Hgo : forall n pre w, exists failures, (go n pre w).1.2 = (pre ++ failures)%list /\
    attempts same_world never m n w failures (is_ok (go n pre w).1.1) (go n pre w).2).
  { destruct (Hgo steps [] w) as (failures & -> & Ha). exact Ha. }
  clear. induction n as [|n IH]; intros pre w; cbn.
  - exists []. rewrite app_nil_r. split; [done|constructor].
  - destruct (m w) as [[[]|e] w'] eqn:Hm; cbn.
    + exists []. rewrite app_nil_r. split; [done|]. by apply (at_ok _ _ _ _ _ w).
    + destruct (IH (pre ++ [e])%list w') as (failures & Hf & Ha). exists (e :: failures). rewrite Hf, <- app_assoc. split; [done|].
      by eapply (at_fail _ _ _ _ _ w).
Qed.

(** The cluster-scoped objects beside a [Mem]; one scripted fault per creation.
    A refusal as a duplicate means that another replica was faster. *)
Record ClusterMem `{QuantityOps} := mkClusterMem {
  cm_mem : Mem;
  cm_namespaces : list Namespace;
  cm_version : result error string;
  cm_faults : list (option api_error);
}.

Section clustermem.
Context `{QuantityOps}.

#[export] Instance clustermem_client : Client ClusterMem :=
  lift_client cm_mem (fun m w => mkClusterMem _ m (cm_namespaces w) (cm_version w) (cm_faults w)).
#[export] Instance clustermem_reads : ClientReads (W := ClusterMem).
Proof. apply lift_client_reads. by intros []. Qed.

Definition cp_named (name : string) (cp : ClusterPersona) : bool := (m_Name (cp_Meta cp) =? name).
Definition on_personas (f : list ClusterPersona -> list ClusterPersona) (faults : list (option api_error)) (w : ClusterMem) : ClusterMem :=
  let m := cm_mem w in
  mkClusterMem _ (mkMem _ (mem_now m) (mem_ra m) (mem_personas m) (mem_incidents m) (f (mem_clusterPersonas m)) (mem_deployments m) (mem_pods m)
                    (mem_nodes m) (mem_faults m) (mem_cp_error m)) (cm_namespaces w) (cm_version w) faults.
Definition replace_named (f : ClusterPersona -> ClusterPersona) (name : string) : list ClusterPersona -> list ClusterPersona :=
  map (fun cp => if cp_named name cp then f cp else cp).

#[export] Instance clustermem_cluster : ClusterClient ClusterMem := {|
  getClusterPersona name w := (match find_first (cp_named name) (mem_clusterPersonas (cm_mem w)) with Some cp => Ok cp | None => not_found end, w);
  createClusterPersona p w :=
    if existsb (cp_named (m_Name (cp_Meta p))) (mem_clusterPersonas (cm_mem w)) then (Err (ErrAPI AlreadyExists "already exists"), w)
    else match cm_faults w with
         | Some AlreadyExists :: faults => (Err (ErrAPI AlreadyExists "already exists"), on_personas (fun l => l ++ [p])%list faults w)
         | Some k :: faults => (Err (ErrAPI k "the write was refused"), on_personas id faults w)
         | None :: faults => (Ok tt, on_personas (fun l => l ++ [p])%list faults w)
         | [] => (Ok tt, on_personas (fun l => l ++ [p])%list [] w)
         end;
  updateClusterPersona p w := (Ok p, on_personas (replace_named (fun old => cp_set_status (cp_Status old) p) (m_Name (cp_Meta p))) (cm_faults w) w);
  updateStatusClusterPersona p w := (Ok p, on_personas (replace_named (cp_set_status (cp_Status p)) (m_Name (cp_Meta p))) (cm_faults w) w);
  getNamespace name w := (match find_first (fun ns => (ns_Name ns =? name)) (cm_namespaces w) with Some ns => Ok ns | None => not_found end, w);
  listNamespaces w := (Ok (cm_namespaces w), w);
  ServerVersion w := (cm_version w, w);
|}.

Definition has_persona (w : ClusterMem) : Prop := mem_clusterPersonas (cm_mem w) <> [].

(** The periodic loop: one cycle per tick. *)
Definition bootstrap_cycles (n : nat) (w : ClusterMem) : ClusterMem := Nat.iter n (fun w => (ensureWithRetry w).2) w.

Lemma clustermem_server : cluster_server same_world has_persona.
Proof.
  unfold has_persona, same_world. constructor; cbn.
  - intros w cp cps. destruct (mem_cp_error _); [done|]. by intros [= ->].
  - intros p w w'. destruct (existsb _ _); [done|].
    destruct (cm_faults w) as [|[[]|] ?]; intros ?; simplify_eq; cbn; by destruct (mem_clusterPersonas _).
  - intros p w e w'. destruct (mem_clusterPersonas (cm_mem w)) as [|c cs] eqn:Hm; cbn.
    + destruct (cm_faults w) as [|[[]|] ?]; intros ? Hk; simplify_eq; cbn; rewrite ?Hm; done.
    + destruct (_ || _); [by intros [= <- <-] _; rewrite Hm|].
      destruct (cm_faults w) as [|[[]|] ?]; intros ? Hk; simplify_eq; cbn; rewrite ?Hm; done.
  - by intros w w' <-.
  - done.
Qed.

Definition cluster_uid (w : ClusterMem) : string :=
  match (getNamespace "kube-system" w).1 with Ok n => ns_UID n | Err _ => "" end.

(** No persona yet, and a client that can list. *)
Definition waiting (w : ClusterMem) : Prop := mem_cp_error (cm_mem w) = None /\ mem_clusterPersonas (cm_mem w) = [].
Definition bootstrapped (uid : string) (w : ClusterMem) : Prop :=
  mem_cp_error (cm_mem w) = None /\ mem_clusterPersonas (cm_mem w) = [buildPersona uid].

(** One attempt where there is no persona: it is made, or one fault is used up. *)
Lemma ensure_step w : waiting w ->
  let '(r, w') := ensure w in
  cluster_uid w' = cluster_uid w /\
  (r = Ok tt /\ bootstrapped (cluster_uid w) w' \/ is_ok r = false /\ waiting w' /\ length (cm_faults w) = S (length (cm_faults w'))).
Proof.
  unfold waiting, bootstrapped. intros [He Hp].
  unfold ensure, iobind, wrap_io, mbind, io_bind. cbn -[buildPersona]. rewrite He, Hp. cbn -[buildPersona]. rewrite Hp. cbn -[buildPersona].
  destruct (cm_faults w) as [|[[]|] faults]; cbn -[buildPersona]; rewrite ?Hp;
    (split; [reflexivity|]);
    first [left; split_and!; first [done|cbn; by rewrite ?Hp]|right; split_and!; first [done|cbn; by rewrite ?Hp]].
Qed.

Lemma ensure_done uid w : bootstrapped uid w -> ensure w = (Ok tt, w).
Proof. intros [He Hp]. eapply (ensure_idle w (buildPersona uid) []). cbn. by rewrite He, Hp. Qed.

Lemma ensureWithRetry_world w : (ensureWithRetry w).2 = (ExponentialBackoff bootstrapSteps ensure w).2.
Proof. unfold ensureWithRetry, mbind, io_bind. destruct (ExponentialBackoff _ _ _) as [[[?|?] failures] w']; cbn; [done|]. by destruct (last failures). Qed.

Lemma attempts_waiting n w failures ok w' : attempts same_world never ensure n w failures ok w' -> waiting w ->
  cluster_uid w' = cluster_uid w /\ (bootstrapped (cluster_uid w) w' \/ waiting w' /\ length (cm_faults w) = (n + length (cm_faults w'))%nat).
Proof.
  induction 1 as [w|n w w1 Hw Hc|n w w1 w2 Hw Hm|n w w1 w2 e failures ok w3 Hw Hm Ha IH]; intros Hwait.
  - split; [done|]. by right.
  - done.
  - unfold same_world in Hw. subst w1. pose proof (ensure_step w Hwait) as Hs. rewrite Hm in Hs. naive_solver.
  - unfold same_world in Hw. subst w1. pose proof (ensure_step w Hwait) as Hs. rewrite Hm in Hs.
    destruct Hs as [Hu [[? _]|(_ & Hwait2 & Hl)]]; [done|]. specialize (IH Hwait2). rewrite Hu in IH. destruct IH as [Hu3 [Hb|[Hw3 Hl3]]].
    + split; [done|by left].
    + split; [done|]. right. split; [done|]. lia.
Qed.

Lemma attempts_done n w failures ok w' uid : attempts same_world never ensure n w failures ok w' -> bootstrapped uid w -> w' = w.
Proof.
  induction 1 as [w|n w w1 Hw Hc|n w w1 w2 Hw Hm|n w w1 w2 e failures ok w3 Hw Hm Ha IH]; intros Hb; try done;
    unfold same_world in Hw; subst w1; rewrite (ensure_done uid w Hb) in Hm; naive_solver.
Qed.

Lemma cycles_S n w : bootstrap_cycles (S n) w = (ensureWithRetry (bootstrap_cycles n w)).2.
Proof. done. Qed.

Lemma cycles_reach w n : waiting w ->
  cluster_uid (bootstrap_cycles n w) = cluster_uid w /\
  (bootstrapped (cluster_uid w) (bootstrap_cycles n w) \/
   waiting (bootstrap_cycles n w) /\ length (cm_faults w) = (5 * n + length (cm_faults (bootstrap_cycles n w)))%nat).
Proof.
  intros Hw. induction n as [|n [Hu IH]]; [split; [done|by right]|].
  rewrite cycles_S, ensureWithRetry_world.
  pose proof (ExponentialBackoff_attempts bootstrapSteps ensure (bootstrap_cycles n w)) as Ha. destruct IH as [Hb|[Hwn Hl]].
  - rewrite (attempts_done _ _ _ _ _ _ Ha Hb). split; [done|by left].
  - apply attempts_waiting in Ha; [|done]. rewrite Hu in Ha. destruct Ha as [-> [Hb|[Hw' Hl']]]; (split; [done|]); [by left|right]. split; [done|].
    unfold bootstrapSteps in *. lia.
Qed.

(** C21. The bootstrap converges: whatever writes the API server refuses, once five
    attempts per cycle outnumber them the cluster has its one ClusterPersona,
    built from the cluster's own identifier, and no later cycle touches it. *)
Theorem bootstrap_converges (w : ClusterMem) (n : nat) :
  waiting w -> (length (cm_faults w) < 5 * n)%nat ->
  mem_clusterPersonas (cm_mem (bootstrap_cycles n w)) = [buildPersona (cluster_uid w)] /\
  forall m, (n <= m)%nat -> bootstrap_cycles m w = bootstrap_cycles n w.
Proof.
  intros Hw Hn. destruct (cycles_reach w n Hw) as [_ [Hb|[_ Hl]]]; [|lia]. split; [apply Hb|].
  induction 1 as [|m _ IH]; [done|]. rewrite cycles_S, IH, ensureWithRetry_world. eapply attempts_done; [apply ExponentialBackoff_attempts|exact Hb].
Qed.
End clustermem.

(** ** Witnesses *)

#[local] Existing Instance int_quantity.

Definition refusing : @ClusterMem int_quantity :=
  mkClusterMem int_quantity (@empty_mem int_quantity 0%Z) [mkNamespace "kube-system" "uid-1" "Active"] (Ok "v1.31")
    (replicate 7 (Some OtherAPIError)).

(** Seven refusals: the second cycle succeeds. *)
Lemma bootstrap_converges_witness :
  mem_clusterPersonas (cm_mem (bootstrap_cycles 1 refusing)) = [] /\
  mem_clusterPersonas (cm_mem (bootstrap_cycles 2 refusing)) = [buildPersona "uid-1"] /\
  bootstrap_cycles 9 refusing = bootstrap_cycles 2 refusing.
Proof.
  split; [reflexivity|]. destruct (bootstrap_converges refusing 2) as [Hp Hm]; [split; reflexivity|cbn; lia|].
  split; [exact Hp|]. apply Hm. lia.
Defined.

(** The first of those cycles reports its fifth refusal. *)
Lemma bootstrap_cycle_witness :
  (ensureWithRetry refusing).1 =
    Err (ErrWrap "ensuring ClusterPersona after retries"
           (ErrWrap ("creating ClusterPersona " ++ fmt_q "dorgu-cluster") (ErrAPI OtherAPIError "the write was refused"))) /\
  has_persona (ensureWithRetry (ensureWithRetry refusing).2).2.
Proof.
  split; [reflexivity|].
  destruct (bootstrap_cycle same_world never has_persona clustermem_server (ensureWithRetry refusing).2) as (_ & Hok & _).
  apply Hok. reflexivity.
Defined.

(** The keys by which K3s, Minikube, OpenShift and GKE are to be recognised do
    not survive the filter of the node labels: their clusters are Generic. *)
Example platform_labels_are_filtered :
  map (fun key => (label_hint key, interesting key))
    ["k3s.io/hostname"; "minikube.k8s.io/name"; "node.openshift.io/os_id"; "eks.amazonaws.com/nodegroup"; "cloud.google.com/gke-nodepool"] =
  [(Some "K3s", false); (Some "Minikube", false); (Some "OpenShift", false); (Some "EKS", false); (Some "GKE", false)].
Proof. vm_compute. reflexivity. Qed.

Lemma label_detected `{MapRangeSpec} `{!QuantitySum} (nodes : list Node) platform :
  labels_platform (map node_info nodes) = Some platform ->
  exists node key, node ∈ nodes /\ is_Some (m_Labels (node_Meta node) !! key) /\ interesting key = true /\ label_hint key = Some platform.
Proof.
  unfold labels_platform. intros Hh. apply head_Some_elem_of, list_elem_of_omap in Hh as (key & Hk & Hhint).
  apply list_elem_of_In, in_concat in Hk as (keys & Hin & Hkey). apply in_map_iff in Hin as (info & <- & Hinfo).
  apply in_map_iff in Hinfo as (node & <- & Hn). exists node, key.
  assert (Hd : key ∈ dom (ni_Labels (node_info node))).
  { apply elem_of_elements. rewrite <- range_keys_perm. by apply list_elem_of_In. }
  apply elem_of_dom in Hd as [v Hv]. cbn in Hv. unfold filterNodeLabels in Hv. apply map_lookup_filter_Some in Hv as [Hv Hi].
  split_and!; [by apply list_elem_of_In|by eexists|done|done].
Qed.
