(* ===== verification/Usage.v ===== *)
(** * The usage collector (internal/detection/metrics.go).

    It compares what metrics-server measured with the limits of the running
    containers.  Whether metrics-server answers is remembered across rounds in
    an atomic flag, which is passed explicitly here. *)

From S2P Require Import Prelude GoString GoNum Json ApiTypes KubeTypes Client Signals.
From Stdlib Require Import String Ascii.
From stdpp Require Import strings.
Open Scope string_scope.

Definition metricsCollectorName : string := "metrics-usage-checker".
Definition defaultUsageThreshold : f64 := f_lit 90 100.

(** [metricsv1beta1.PodMetrics]. *)
Record ContainerMetrics `{QuantityOps} := mkContainerMetrics { cme_Name : string; cme_Usage : gmap string Quantity }.
Record PodMetrics `{QuantityOps} := mkPodMetrics { pme_Name : string; pme_Namespace : string; pme_Containers : list ContainerMetrics }.

(** The metrics clientset and its discovery client. *)
Class MetricsAPI `{QuantityOps} (W : Type) := {
  ServerGroups : io W (result error (list string));
  listPodMetrics : io W (result error (list PodMetrics));
}.

Definition metrics_group : string := "metrics.k8s.io".

Section checks.
Context `{QuantitySum}.

(** [map[podSpecKey]corev1.PodSpec] and [map[string]ResourceList]: a later entry replaces an earlier one. *)
Definition pod_specs (pods : list Pod) : gmap (string * string) Pod :=
  foldl (fun specs pod => <[(pod_Namespace pod, pod_Name pod) := pod]> specs) ∅ pods.
Definition container_limits (pod : Pod) : gmap string (gmap string Quantity) :=
  foldl (fun limits c => <[ct_Name c := ct_Limits c]> limits) ∅ (pod_Containers pod).

Definition ownerDeploymentFromSpec (pod : Pod) : string := if negb (pod_Hostname pod =? "") then pod_Hostname pod else "".

(** One resource of one container. *)
Definition usage_signal (usageThreshold : f64) (resourceName signalType usageKey limitKey : string) (value : Quantity -> Z)
    (resource : string) (pm : PodMetrics) (spec : Pod) (cm : ContainerMetrics) (limits : gmap string Quantity) (now : time) : option Signal :=
  match limits !! resource with
  | None => None
  | Some limit =>
      if negb (0 <? value limit)%Z then None else
      let usage := rl_get (cme_Usage cm) resource in
      let ratio := fdiv (f_of_Z (value usage)) (f_of_Z (value limit)) in
      if negb (f_le usageThreshold ratio) then None else
      let pct := fmul ratio (f_of_Z 100) in
      Some (mkSignal signalType SeverityWarning CategoryResource metricsCollectorName
        ("Container " ++ cme_Name cm ++ " in " ++ pme_Namespace pm ++ "/" ++ pme_Name pm ++ " " ++ resourceName ++ " usage at " ++ fmt_f 1 pct ++ "% of limit")
        (mkResourceRef "Pod" (pme_Name pm) (pme_Namespace pm) "") None (Some pct) (Some (fmul usageThreshold (f_of_Z 100))) now
        {["container" := cme_Name cm; usageKey := q_String usage; limitKey := q_String limit; "deployment" := ownerDeploymentFromSpec spec]})
  end.
Definition cpu_signal (threshold : f64) := usage_signal threshold "CPU" SignalCPUUsageHigh "cpuUsage" "cpuLimit" q_MilliValue ResourceCPU.
Definition memory_signal (threshold : f64) := usage_signal threshold "memory" SignalMemoryUsageHigh "memoryUsage" "memoryLimit" q_Value ResourceMemory.

Definition check_container (threshold : f64) (pm : PodMetrics) (spec : Pod) (now : time) (cm : ContainerMetrics) : list Signal :=
  match container_limits spec !! cme_Name cm with
  | None => []
  | Some limits => option_list (cpu_signal threshold pm spec cm limits now) ++ option_list (memory_signal threshold pm spec cm limits now)
  end%list.
Definition checkPodMetrics (threshold : f64) (specs : gmap (string * string) Pod) (now : time) (pm : PodMetrics) : list Signal :=
  match specs !! (pme_Namespace pm, pme_Name pm) with
  | None => []
  | Some spec => concat (map (check_container threshold pm spec now) (pme_Containers pm))
  end.
Definition usage_signals (threshold : f64) (metrics : list PodMetrics) (pods : list Pod) (now : time) : list Signal :=
  concat (map (checkPodMetrics threshold (pod_specs pods) now) metrics).
End checks.

Section collect.
Context `{Client W} `{!QuantitySum} `{!MetricsAPI W}.

Definition probeAvailability : io W bool :=
  let! groups := ServerGroups in
  mret (match groups with Ok names => existsb (fun name => (name =? metrics_group)) names | Err _ => false end).
(** The constructor's probe sets the flag. *)
Definition NewMetricsCollector : io W bool := probeAvailability.

Definition everywhere : ListOptions := mkListOptions None [].
Definition getPodSpecs : io W (result error (list Pod)) := wrap_io "failed to list pods" (listPods everywhere).

(** The new value of the flag, and the signals. *)
Definition MetricsCollector_Collect (available : bool) : io W (bool * result error (list Signal)) :=
  if negb available then mret (available, Ok []) else
  let! answering := probeAvailability in
  if negb answering then mret (false, Ok []) else
  let! metrics := listPodMetrics in
  match metrics with
  | Err _ => mret (available, Ok [])
  | Ok metrics =>
      let! now := clock in
      let! specs := getPodSpecs in
      match specs with
      | Err _ => mret (available, Ok [])
      | Ok pods => mret (available, Ok (usage_signals defaultUsageThreshold metrics pods now))
      end
  end.

(** Successive rounds; between them the world moves as it likes, so each round
    is given the world it starts in. *)
Fixpoint rounds (available : bool) (ws : list W) : list (result error (list Signal)) :=
  match ws with
  | [] => []
  | w :: ws => let '((available, signals), _) := MetricsCollector_Collect available w in signals :: rounds available ws
  end.
Definition collector_life (start : W) (ws : list W) : list (result error (list Signal)) := rounds (NewMetricsCollector start).1 ws.
End collect.

(** ** Properties *)

Section signal_props.
Context `{QuantitySum}.

(** The signal says what was measured, and is raised from the threshold on. *)
Definition exceeds (threshold : f64) (value : Quantity -> Z) (resource : string) (cm : ContainerMetrics) (limits : gmap string Quantity) : Prop :=
  exists limit, limits !! resource = Some limit /\ (0 < value limit)%Z /\
    f_le threshold (fdiv (f_of_Z (value (rl_get (cme_Usage cm) resource))) (f_of_Z (value limit))) = true.

Lemma usage_signal_Some th rn ty uk lk value resource pm spec cm limits now s :
  usage_signal th rn ty uk lk value resource pm spec cm limits now = Some s ->
  exceeds th value resource cm limits /\ sig_Type s = ty /\ sig_Resource s = mkResourceRef "Pod" (pme_Name pm) (pme_Namespace pm) "" /\
  sig_DetectedAt s = now.
Proof.
  unfold usage_signal, exceeds. intros Hs. destruct (limits !! resource) as [limit|] eqn:Hl; [|done].
  destruct (0 <? value limit)%Z eqn:Hpos; [|done]. cbn [negb] in Hs. destruct (f_le th _) eqn:Hle; [|done].
  injection Hs as <-. cbn. split; [|done]. exists limit. split_and!; [done|by apply Z.ltb_lt|done].
Qed.

Lemma usage_signal_exceeds th rn ty uk lk value resource pm spec cm limits now :
  exceeds th value resource cm limits <-> is_Some (usage_signal th rn ty uk lk value resource pm spec cm limits now).
Proof.
  split.
  - intros (limit & Hl & Hpos & Hle). unfold usage_signal. rewrite Hl. apply Z.ltb_lt in Hpos. rewrite Hpos. cbn [negb].
    rewrite Hle. by eexists.
  - intros [s Hs]. by apply usage_signal_Some in Hs as [? _].
Qed.

Lemma pod_specs_Some (pods : list Pod) (specs0 : gmap (string * string) Pod) k (pod : Pod) :
  foldl (fun specs pod => <[(pod_Namespace pod, pod_Name pod) := pod]> specs) specs0 pods !! k = Some pod ->
  specs0 !! k = Some pod \/ pod ∈ pods /\ k = (pod_Namespace pod, pod_Name pod).
Proof.
  revert specs0. induction pods as [|p pods IH]; intros specs0; cbn [foldl]; [by left|]. intros [Hl|[Hin ->]]%IH.
  - destruct (decide (k = (pod_Namespace p, pod_Name p))) as [->|Hne].
    + rewrite lookup_insert_eq in Hl. injection Hl as ->. right. split; [by left|done].
    + rewrite lookup_insert_ne in Hl by done. by left.
  - right. split; [by right|done].
Qed.

Lemma container_limits_Some pod name limits :
  container_limits pod !! name = Some limits -> exists c, c ∈ pod_Containers pod /\ ct_Name c = name /\ ct_Limits c = limits.
Proof.
  unfold container_limits. enough (Hgen : forall cs (m0 : gmap string (gmap string Quantity)), foldl (fun limits c => <[ct_Name c := ct_Limits c]> limits) m0 cs !! name = Some limits ->
    m0 !! name = Some limits \/ exists c, c ∈ cs /\ ct_Name c = name /\ ct_Limits c = limits).
  { intros [Hl|Hc]%Hgen; [by rewrite lookup_empty in Hl|done]. }
  induction cs as [|c cs IH]; intros m0; cbn [foldl]; [by left|]. intros [Hl|(c' & Hin & Hc)]%IH.
  - destruct (decide (name = ct_Name c)) as [->|Hne].
    + rewrite lookup_insert_eq in Hl. injection Hl as <-. right. exists c. split_and!; [by left|done..].
    + rewrite lookup_insert_ne in Hl by done. by left.
  - right. exists c'. split; [by right|done].
Qed.

(** What a usage signal rests on. *)
Definition justified (metrics : list PodMetrics) (pods : list Pod) (s : Signal) : Prop :=
  exists pm pod cm c, pm ∈ metrics /\ pod ∈ pods /\ pod_Namespace pod = pme_Namespace pm /\ pod_Name pod = pme_Name pm /\
    cm ∈ pme_Containers pm /\ c ∈ pod_Containers pod /\ ct_Name c = cme_Name cm /\
    sig_Resource s = mkResourceRef "Pod" (pme_Name pm) (pme_Namespace pm) "" /\
    (sig_Type s = SignalCPUUsageHigh /\ exceeds defaultUsageThreshold q_MilliValue ResourceCPU cm (ct_Limits c) \/
     sig_Type s = SignalMemoryUsageHigh /\ exceeds defaultUsageThreshold q_Value ResourceMemory cm (ct_Limits c)).

Lemma usage_signals_justified metrics pods now s : s ∈ usage_signals defaultUsageThreshold metrics pods now -> justified metrics pods s.
Proof.
  unfold usage_signals. rewrite list_elem_of_In, in_concat. intros (l & Hl & Hs). apply in_map_iff in Hl as (pm & <- & Hpm).
  unfold checkPodMetrics in Hs. destruct (pod_specs pods !! _) as [pod|] eqn:Hpod; [|done].
  apply pod_specs_Some in Hpod as [Hpod|[Hpod [= Hns Hn]]]; [by rewrite lookup_empty in Hpod|].
  apply in_concat in Hs as (l & Hl & Hs). apply in_map_iff in Hl as (cm & <- & Hcm).
  unfold check_container in Hs. destruct (container_limits pod !! _) as [limits|] eqn:Hc; [|done].
  apply container_limits_Some in Hc as (c & Hc & Hname & <-). apply in_app_or in Hs.
  exists pm, pod, cm, c. apply list_elem_of_In in Hpm, Hcm.
  destruct Hs as [Hs|Hs]; apply list_elem_of_In in Hs;
    (match type of Hs with _ ∈ option_list ?o => destruct o as [s'|] eqn:Ho; [apply list_elem_of_singleton in Hs as ->|by apply elem_of_nil in Hs] end);
    apply usage_signal_Some in Ho as (Hex & Hty & Hres & _); naive_solver.
Qed.
End signal_props.

Class MetricsReads `{MetricsAPI W} : Prop := {
  ServerGroups_reads w : (ServerGroups w).2 = w;
  listPodMetrics_reads w : (listPodMetrics w).2 = w;
}.

Section collect_props.
Context `{ClientReads W} `{!QuantitySum} `{!MetricsAPI W} `{!MetricsReads}.

Definition answering (w : W) : bool := (probeAvailability w).1.
(** The usage as this world shows it: nothing when the metrics or the pods cannot be listed. *)
Definition observed (w : W) : list Signal :=
  match (listPodMetrics w).1, (listPods everywhere w).1 with
  | Ok metrics, Ok pods => usage_signals defaultUsageThreshold metrics pods (clock w).1
  | _, _ => []
  end.

Lemma probe_run w : probeAvailability w = (answering w, w).
Proof. unfold answering, probeAvailability. by rewrite (bind_read _ _ w _ (read_pair _ _ (ServerGroups_reads w))). Qed.

Lemma Collect_run available w :
  MetricsCollector_Collect available w = ((available && answering w, Ok (if available && answering w then observed w else [])), w).
Proof.
  unfold MetricsCollector_Collect. destruct available; [|done]. cbn [negb andb]. rewrite (bind_read _ _ w _ (probe_run w)).
  destruct (answering w); [|done]. cbn [negb]. rewrite (bind_read _ _ w _ (read_pair _ _ (listPodMetrics_reads w))).
  unfold observed. destruct (listPodMetrics w).1; [|done]. rewrite (bind_read _ _ w _ (read_pair _ _ (clock_reads w))).
  assert (Hp : getPodSpecs w = (wrap_err "failed to list pods" (listPods everywhere w).1, w)).
  { unfold getPodSpecs, wrap_io. by rewrite (read_pair _ _ (listPods_reads everywhere w)). }
  rewrite (bind_read _ _ w _ Hp). by destruct (listPods everywhere w).1.
Qed.

Lemma rounds_false ws : rounds false ws = replicate (length ws) (Ok []).
Proof. induction ws as [|w ws IH]; [done|]. cbn [rounds]. rewrite Collect_run. cbn. by rewrite IH. Qed.

Lemma rounds_run ws available : rounds available ws =
  imap (fun i w => Ok (if available && forallb answering (take (S i) ws) then observed w else [])) ws.
Proof.
  revert available. induction ws as [|w ws IH]; intros available; [done|]. cbn [rounds]. rewrite Collect_run, imap_cons. cbn. rewrite IH.
  f_equal; [by rewrite andb_true_r|]. apply imap_ext. intros i w' _. cbn. by rewrite !andb_assoc.
Qed.

(** C34. The life of the usage collector.  No round fails.  A round reports what the
    cluster shows exactly when metrics-server answered at start-up and in every
    round so far; after the first round in which it did not, every later round
    is empty, whether or not it answers again.  What is reported is justified:
    a listed pod has a container with a positive limit of which the measured
    usage is at least the threshold. *)
Theorem usage_collector_life (start : W) (ws : list W) :
  collector_life start ws =
    imap (fun i w => Ok (if forallb answering (start :: take (S i) ws) then observed w else [])) ws /\
  (forall before w after, ws = (before ++ w :: after)%list -> answering w = false ->
     collector_life start ws = (collector_life start before ++ replicate (S (length after)) (Ok []))%list) /\
  forall w s, s ∈ observed w -> exists metrics pods, (listPodMetrics w).1 = Ok metrics /\ (listPods everywhere w).1 = Ok pods /\ justified metrics pods s.
Proof.
  unfold collector_life, NewMetricsCollector. rewrite probe_run. cbn [fst]. split_and!.
  - apply rounds_run.
  - intros before w after -> Hw. generalize (answering start).
    induction before as [|w' before IH]; intros b; cbn [app rounds]; rewrite Collect_run.
    + rewrite Hw, andb_false_r, rounds_false. done.
    + rewrite <- app_comm_cons. cbn. by rewrite IH.
  - intros w s. unfold observed. destruct (listPodMetrics w).1 as [metrics|]; [|by intros ?%elem_of_nil].
    destruct (listPods everywhere w).1 as [pods|]; [|by intros ?%elem_of_nil]. intros Hs. exists metrics, pods.
    split_and!; [done..|by eapply usage_signals_justified].
Qed.
End collect_props.

(** ** A metrics-server in memory *)

Record UsageMem `{QuantityOps} := mkUsageMem { um_mem : Mem; um_groups : list string; um_metrics : list PodMetrics }.
Section usagemem.
Context `{QuantityOps}.
#[export] Instance usagemem_client : Client UsageMem := lift_client um_mem (fun m w => mkUsageMem _ m (um_groups w) (um_metrics w)).
#[export] Instance usagemem_reads : ClientReads (W := UsageMem).
Proof. apply lift_client_reads. by intros []. Qed.
#[export] Instance usagemem_api : MetricsAPI UsageMem := {|
  ServerGroups w := (Ok (um_groups w), w);
  listPodMetrics w := (Ok (um_metrics w), w);
|}.
#[export] Instance usagemem_api_reads : MetricsReads (W := UsageMem).
Proof. by constructor. Qed.
End usagemem.

#[local] Existing Instance int_quantity.
#[export] Instance int_sum : @QuantitySum int_quantity := {| q_zero := 0%Z : @Quantity int_quantity; q_Add := Z.add : @Quantity int_quantity -> _ |}.

Definition ex_container : Container := mkContainer "app" "api:1" {[ResourceCPU := 10%Z : Quantity; ResourceMemory := 1000%Z : Quantity]} ∅ None None None.
Definition ex_pod : Pod := mkPod (mkMeta "api-1" "shop" ∅ 0%Z None 0) [] "node-1" [ex_container] [] "Running" "" "" [] [] [] "".
Definition ex_usage (groups : list string) (cpu memory : Z) : UsageMem :=
  let m := empty_mem (1000 * second)%Z in
  mkUsageMem _ (mkMem _ (mem_now m) ∅ ∅ ∅ [] ∅ [ex_pod] [] [] None) groups
    [mkPodMetrics _ "api-1" "shop" [mkContainerMetrics _ "app" {[ResourceCPU := cpu : Quantity; ResourceMemory := memory : Quantity]}]].

(** Nine of ten cores are reported; after an outage nothing ever is. *)
Lemma usage_collector_life_witness :
  let up := ex_usage ["apps"; "metrics.k8s.io"] 9 899 in
  let down := ex_usage ["apps"] 9 899 in
  map sig_Message (observed up) = ["Container app in shop/api-1 CPU usage at 90.0% of limit"] /\
  collector_life up [up; down; up] = [Ok (observed up); Ok []; Ok []].
Proof.
  cbv zeta. split; [vm_compute; reflexivity|].
  destruct (usage_collector_life (ex_usage ["apps"; "metrics.k8s.io"] 9 899)
    [ex_usage ["apps"; "metrics.k8s.io"] 9 899; ex_usage ["apps"] 9 899; ex_usage ["apps"; "metrics.k8s.io"] 9 899]) as [Hl _].
  rewrite Hl. reflexivity.
Defined.
