(* ===== verification/Protocol.v ===== *)
(** * The WebSocket protocol and its request handlers
    (internal/websocket/protocol.go, handlers.go, and the broadcasts of
    internal/controller).

    A message is what [json.Unmarshal] makes of a frame; payloads are JSON
    documents.  A handler is a function of the client's subscriptions and of the
    cluster; what it hands to [c.send] is its result.  The connection, the
    queues and the goroutines are in WebSocket.v. *)

From S2P Require Import Prelude GoString GoNum Json ApiTypes KubeTypes Client Signals Diagnosis RemediationController IncidentController HealthCheck.
From Stdlib Require Import String Ascii.
From stdpp Require Import strings.
Open Scope string_scope.

(** ** protocol.go *)

Definition MessageTypeSubscribe : string := "subscribe".
Definition MessageTypeUnsubscribe : string := "unsubscribe".
Definition MessageTypeRequest : string := "request".
Definition MessageTypeEvent : string := "event".
Definition MessageTypeResponse : string := "response".
Definition MessageTypeError : string := "error".

Definition TopicPersonas : string := "personas".
Definition TopicCluster : string := "cluster".
Definition TopicIncidents : string := "incidents".
Definition TopicRemediations : string := "remediations".
Definition TopicHealth : string := "health".

Record Message := mkMessage {
  msg_Type : string;
  msg_Topic : string;
  msg_RequestID : string;
  msg_Payload : option json;
  msg_Timestamp : time;
}.

Record IncidentEvent := mkIncidentEvent {
  ie_EventType : string; ie_Name : string; ie_Namespace : string; ie_Severity : string; ie_Category : string;
  ie_Signal : string; ie_Phase : string; ie_PersonaName : string; ie_PersonaKind : string; ie_Summary : string }.
Record RemediationEvent := mkRemediationEvent {
  re_EventType : string; re_Name : string; re_Namespace : string; re_Phase : string; re_ActionType : string;
  re_Confidence : string; re_PersonaName : string; re_PersonaKind : string }.
Record HealthUpdateEvent := mkHealthUpdate { hu_EventType : string; hu_ActiveIncidents : Z; hu_PendingRemedies : Z }.
Record PersonaSummary := mkPersonaSummary {
  ps_Namespace : string; ps_Name : string; ps_AppName : string; ps_Type : string; ps_Tier : string; ps_Phase : string; ps_Health : string }.
Record IncidentSummary := mkIncidentSummary {
  isu_Name : string; isu_Namespace : string; isu_Severity : string; isu_Category : string; isu_Signal : string;
  isu_Phase : string; isu_PersonaName : string; isu_PersonaKind : string; isu_Summary : string }.
Record RemediationSummary := mkRemediationSummary {
  rsu_Name : string; rsu_Namespace : string; rsu_ActionType : string; rsu_Phase : string; rsu_Confidence : string;
  rsu_PersonaName : string; rsu_PersonaKind : string }.
Record GetClusterResponse := mkClusterResponse {
  gc_Name : string; gc_Environment : string; gc_Phase : string; gc_KubernetesVer : string; gc_Platform : string;
  gc_NodeCount : Z; gc_ApplicationCount : Z; gc_Addons : list string }.

(** [json.Marshal]: the fields in a map, [omitempty] ones only when set. *)
Definition jint (z : Z) : json := JNum (f_of_Z z).
Definition fields_of (required : list (string * json)) (omitempty : list (string * string)) : json :=
  JObj (list_to_map (required ++ map (fun kv => (kv.1, JStr kv.2)) (List.filter (fun kv => negb (kv.2 =? "")) omitempty)))%list.

Definition marshal_status (status topic : string) : json := fields_of [("status", JStr status); ("topic", JStr topic)] [].
Definition marshal_error (code message : string) : json := fields_of [("code", JStr code); ("message", JStr message)] [].
Definition marshal_incident_event (e : IncidentEvent) : json :=
  fields_of [("eventType", JStr (ie_EventType e)); ("name", JStr (ie_Name e)); ("namespace", JStr (ie_Namespace e));
             ("severity", JStr (ie_Severity e)); ("category", JStr (ie_Category e)); ("signal", JStr (ie_Signal e));
             ("phase", JStr (ie_Phase e)); ("personaName", JStr (ie_PersonaName e)); ("personaKind", JStr (ie_PersonaKind e))]
            [("summary", ie_Summary e)].
Definition marshal_remediation_event (e : RemediationEvent) : json :=
  fields_of [("eventType", JStr (re_EventType e)); ("name", JStr (re_Name e)); ("namespace", JStr (re_Namespace e));
             ("phase", JStr (re_Phase e)); ("actionType", JStr (re_ActionType e)); ("personaName", JStr (re_PersonaName e))]
            [("confidence", re_Confidence e); ("personaKind", re_PersonaKind e)].
Definition marshal_health (e : HealthUpdateEvent) : json :=
  fields_of [("eventType", JStr (hu_EventType e)); ("activeIncidents", jint (hu_ActiveIncidents e)); ("pendingRemediations", jint (hu_PendingRemedies e))] [].
Definition marshal_persona (s : PersonaSummary) : json :=
  fields_of [("namespace", JStr (ps_Namespace s)); ("name", JStr (ps_Name s)); ("appName", JStr (ps_AppName s)); ("type", JStr (ps_Type s));
             ("tier", JStr (ps_Tier s)); ("phase", JStr (ps_Phase s)); ("health", JStr (ps_Health s))] [].
Definition marshal_incident (s : IncidentSummary) : json :=
  fields_of [("name", JStr (isu_Name s)); ("namespace", JStr (isu_Namespace s)); ("severity", JStr (isu_Severity s));
             ("category", JStr (isu_Category s)); ("signal", JStr (isu_Signal s)); ("phase", JStr (isu_Phase s)); ("personaName", JStr (isu_PersonaName s))]
            [("personaKind", isu_PersonaKind s); ("summary", isu_Summary s)].
Definition marshal_remediation (s : RemediationSummary) : json :=
  fields_of [("name", JStr (rsu_Name s)); ("namespace", JStr (rsu_Namespace s)); ("actionType", JStr (rsu_ActionType s));
             ("phase", JStr (rsu_Phase s)); ("personaName", JStr (rsu_PersonaName s))]
            [("confidence", rsu_Confidence s); ("personaKind", rsu_PersonaKind s)].
(** A nil slice is null; the list handlers allocate theirs. *)
Definition marshal_list (key : string) (l : list json) : json := fields_of [(key, JArr l)] [].
Definition marshal_cluster (r : GetClusterResponse) : json :=
  fields_of [("name", JStr (gc_Name r)); ("environment", JStr (gc_Environment r)); ("phase", JStr (gc_Phase r));
             ("kubernetesVersion", JStr (gc_KubernetesVer r)); ("platform", JStr (gc_Platform r)); ("nodeCount", jint (gc_NodeCount r));
             ("applicationCount", jint (gc_ApplicationCount r));
             ("addons", match gc_Addons r with [] => JNull | l => JArr (map JStr l) end)] [].

(** A request of one string field.  Object keys match without regard to case and
    [null] is no value; the first mismatch is the error, the rest is still read.
    [MapRange] is the order in which the keys stand in the text. *)
Section decode.
Context `{MapRange}.
Definition set_field (struct_name field : string) (acc : result string string) (v : json) : result string string :=
  match v, acc with
  | JStr s, Ok _ => Ok s
  | JNull, _ | _, Err _ => acc
  | _, Ok _ => Err ("json: cannot unmarshal " ++ json_kind v ++ " into Go struct field " ++ struct_name ++ "." ++ field ++ " of type string")
  end.
Definition decode_request (struct_name field : string) (payload : option json) : result string string :=
  match payload with
  | None | Some JNull => Ok ""
  | Some (JObj m) =>
      foldl (fun acc key => match m !! key with Some v => set_field struct_name field acc v | None => acc end) (Ok "")
        (List.filter (fun key => equal_fold key field) (range_keys (dom m)))
  | Some v => Err ("json: cannot unmarshal " ++ json_kind v ++ " into Go value of type websocket." ++ struct_name)
  end.
End decode.

Section handlers.
Context `{Client W} `{MapRange}.

Definition NewMessage (msgType topic : string) (payload : option json) : io W Message :=
  let! now := clock in mret (mkMessage msgType topic "" payload now).
Definition NewErrorMessage (code message : string) : io W Message := NewMessage MessageTypeError "" (Some (marshal_error code message)).
Definition NewEventMessage (topic : string) (payload : json) : io W Message := NewMessage MessageTypeEvent topic (Some payload).
(** [response.RequestID = msg.RequestID]. *)
Definition respond (msg : Message) (topic : string) (payload : json) : io W Message :=
  let! response := NewMessage MessageTypeResponse topic (Some payload) in
  mret (mkMessage (msg_Type response) (msg_Topic response) (msg_RequestID msg) (msg_Payload response) (msg_Timestamp response)).

(** ** handlers.go *)

Definition handleSubscribe (msg : Message) (subs : gset string) : io W (gset string * Message) :=
  let! response := respond msg (msg_Topic msg) (marshal_status "subscribed" (msg_Topic msg)) in
  mret ({[msg_Topic msg]} ∪ subs, response).
Definition handleUnsubscribe (msg : Message) (subs : gset string) : io W (gset string * Message) :=
  let! response := respond msg (msg_Topic msg) (marshal_status "unsubscribed" (msg_Topic msg)) in
  mret (subs ∖ {[msg_Topic msg]}, response).

Definition in_request_namespace (ns : string) : ListOptions := mkListOptions (if negb (ns =? "") then Some ns else None) [].

(** The shape the three list handlers share. *)
Definition handle_list {A} (msg : Message) (what struct_name topic key : string) (list_call : ListOptions -> io W (result error (list A)))
    (summary : A -> json) : io W Message :=
  match decode_request struct_name "namespace" (msg_Payload msg) with
  | Err e => NewErrorMessage "invalid_payload" ("failed to parse " ++ what ++ " request: " ++ e)
  | Ok ns =>
      let! items := list_call (in_request_namespace ns) in
      match items with
      | Err e => NewErrorMessage "list_failed" (err_string e)
      | Ok items => respond msg topic (marshal_list key (map summary items))
      end
  end.

Definition persona_summary (p : ApplicationPersona) : PersonaSummary :=
  mkPersonaSummary (ap_Namespace p) (ap_Name p) (aps_Name (ap_Spec p)) (aps_Type (ap_Spec p)) (aps_Tier (ap_Spec p)) (apst_Phase (ap_Status p))
    (match apst_Health (ap_Status p) with Some h => hst_Status h | None => "" end).
Definition root_cause_summary (im : IncidentMemory) : string :=
  match im_RootCause (im_Spec im) with Some rc => rc_Summary rc | None => "" end.
Definition incident_summary (im : IncidentMemory) : IncidentSummary :=
  let s := im_Spec im in
  mkIncidentSummary (im_Name im) (im_Namespace im) (im_Severity s) (im_Category s) (di_Signal (im_Detection s)) (im_Phase im)
    (pr_Name (im_PersonaRef s)) (pr_Kind (im_PersonaRef s)) (root_cause_summary im).
Definition remediation_summary (ra : RemediationAction) : RemediationSummary :=
  let s := ra_Spec ra in
  mkRemediationSummary (ra_Name ra) (ra_Namespace ra) (ad_Type (ra_Action s)) (ra_Phase ra) (ra_Confidence s)
    (pr_Name (ra_PersonaRef s)) (pr_Kind (ra_PersonaRef s)).

Definition handleListPersonas (msg : Message) : io W Message :=
  handle_list msg "personas" "ListPersonasRequest" TopicPersonas "personas" listPersonas (fun p => marshal_persona (persona_summary p)).
Definition handleListIncidents (msg : Message) : io W Message :=
  handle_list msg "incidents" "ListIncidentsRequest" TopicIncidents "incidents" listIncidents (fun im => marshal_incident (incident_summary im)).
Definition handleListRemediations (msg : Message) : io W Message :=
  handle_list msg "remediations" "ListRemediationsRequest" TopicRemediations "remediations" listRA (fun ra => marshal_remediation (remediation_summary ra)).

Definition cluster_response (cp : ClusterPersona) : GetClusterResponse :=
  let s := cp_Status cp in
  mkClusterResponse (cp_SpecName cp) (cp_Environment cp) (cps_Phase s) (cps_KubernetesVersion s) (cps_Platform s)
    (Z.of_nat (length (cps_Nodes s))) (cps_ApplicationCount s) (map ad_Name (List.filter ad_Installed (cps_Addons s))).
Definition handleGetCluster (msg : Message) : io W Message :=
  match decode_request "GetClusterRequest" "name" (msg_Payload msg) with
  | Err e => NewErrorMessage "invalid_payload" ("failed to parse cluster request: " ++ e)
  | Ok name =>
      let! clusters := listClusterPersonas in
      match clusters with
      | Err e => NewErrorMessage "list_failed" (err_string e)
      | Ok [] => NewErrorMessage "not_found" "No ClusterPersona found"
      | Ok (first :: _ as all) =>
          if negb (name =? "") then
            match find_first (fun cp => (m_Name (cp_Meta cp) =? name)) all with
            | None => NewErrorMessage "not_found" ("ClusterPersona '" ++ name ++ "' not found")
            | Some cp => respond msg TopicCluster (marshal_cluster (cluster_response cp))
            end
          else respond msg TopicCluster (marshal_cluster (cluster_response first))
      end
  end.

Definition handleRequest (msg : Message) : io W Message :=
  let topic := msg_Topic msg in
  if (topic =? TopicPersonas) then handleListPersonas msg
  else if (topic =? TopicCluster) then handleGetCluster msg
  else if (topic =? TopicIncidents) then handleListIncidents msg
  else if (topic =? TopicRemediations) then handleListRemediations msg
  else NewErrorMessage "unknown_topic" ("Unknown topic: " ++ topic).

(** The subscriptions afterwards and the one message that is sent. *)
Definition handleMessage (msg : Message) (subs : gset string) : io W (gset string * Message) :=
  let type := msg_Type msg in
  if (type =? MessageTypeSubscribe) then handleSubscribe msg subs
  else if (type =? MessageTypeUnsubscribe) then handleUnsubscribe msg subs
  else if (type =? MessageTypeRequest) then let! reply := handleRequest msg in mret (subs, reply)
  else let! reply := NewErrorMessage "unknown_message_type" ("Unknown message type: " ++ type) in mret (subs, reply).

(** ** What the controllers broadcast *)

Definition incident_event (eventType : string) (im : IncidentMemory) : IncidentEvent :=
  let s := im_Spec im in
  mkIncidentEvent eventType (im_Name im) (im_Namespace im) (im_Severity s) (im_Category s) (di_Signal (im_Detection s)) (im_Phase im)
    (pr_Name (im_PersonaRef s)) (pr_Kind (im_PersonaRef s)) (root_cause_summary im).
(** The creation is announced from the diagnosis, not from the stored incident. *)
Definition created_event (im : IncidentMemory) (diag : Diagnosis) (primarySignal : string) (subject : incidentSubject) : IncidentEvent :=
  mkIncidentEvent "created" (im_Name im) (im_Namespace im) (d_Severity diag) (d_Category diag) primarySignal PhaseDetected
    (pr_Name (su_personaRef subject)) (pr_Kind (su_personaRef subject)) (d_Summary diag).
(** The resolution carries no summary and the phase just written. *)
Definition resolved_event (im : IncidentMemory) : IncidentEvent :=
  let e := incident_event "resolved" im in
  mkIncidentEvent "resolved" (ie_Name e) (ie_Namespace e) (ie_Severity e) (ie_Category e) (ie_Signal e) PhaseResolved (ie_PersonaName e) (ie_PersonaKind e) "".
Definition remediation_event (eventType : string) (a : RemediationAction) : RemediationEvent :=
  let s := ra_Spec a in
  mkRemediationEvent eventType (ra_Name a) (ra_Namespace a) (ra_Phase a) (ad_Type (ra_Action s)) (ra_Confidence s)
    (pr_Name (ra_PersonaRef s)) (pr_Kind (ra_PersonaRef s)).

Definition count_of {A} (r : result error (list A)) : Z := match r with Ok l => Z.of_nat (length l) | Err _ => 0%Z end.
(** [broadcastHealthSummary], up to the broadcast. *)
Definition health_summary : io W HealthUpdateEvent :=
  let! detected := listIncidents (phase_opts PhaseDetected) in
  let! investigating := listIncidents (phase_opts PhaseInvestigating) in
  let! actions := listRA (mkListOptions None []) in
  let pending := match actions with Ok l => Z.of_nat (length (List.filter (fun a => (ra_Phase a =? "Pending")) l)) | Err _ => 0%Z end in
  mret (mkHealthUpdate "health-update" (count_of detected + count_of investigating)%Z pending).
End handlers.

(** ** Properties *)

(** A reply to a message: a response with its request's identifier and topic,
    or one of the five errors, which carry neither. *)
Definition error_codes : list string := ["invalid_payload"; "list_failed"; "not_found"; "unknown_topic"; "unknown_message_type"].
Definition refuses (reply : Message) : Prop :=
  msg_Type reply = MessageTypeError /\ msg_RequestID reply = "" /\ msg_Topic reply = "" /\
  exists code text, code ∈ error_codes /\ msg_Payload reply = Some (marshal_error code text).
Definition responds (msg reply : Message) : Prop :=
  msg_Type reply = MessageTypeResponse /\ msg_RequestID reply = msg_RequestID msg /\ msg_Topic reply = msg_Topic msg.
Definition answers (msg reply : Message) : Prop := responds msg reply \/ refuses reply.

(** The subscriptions after a message. *)
Definition subscribe_step (subs : gset string) (msg : Message) : gset string :=
  if (msg_Type msg =? MessageTypeSubscribe) then {[msg_Topic msg]} ∪ subs
  else if (msg_Type msg =? MessageTypeUnsubscribe) then subs ∖ {[msg_Topic msg]} else subs.

Section props.
Context `{Client W} `{MapRange}.

Lemma respond_run msg topic payload w :
  respond msg topic payload w = (mkMessage MessageTypeResponse topic (msg_RequestID msg) (Some payload) (clock w).1, (clock w).2).
Proof. unfold respond, NewMessage, mbind, io_bind. by destruct (clock w). Qed.

Lemma refuses_error code message w : code ∈ error_codes -> refuses (NewErrorMessage code message w).1.
Proof. intros Hc. unfold NewErrorMessage, NewMessage, mbind, io_bind. destruct (clock w). split_and!; [done..|]. by exists code, message. Qed.

(** What a computation may answer, whatever the world. *)
Definition replies (m : io W Message) (msg : Message) : Prop := forall w, answers msg (m w).1.
Lemma replies_bind {A} (m : io W A) (f : A -> io W Message) msg : (forall a, replies (f a) msg) -> replies (mbind f m) msg.
Proof. intros Hf w. unfold mbind, io_bind. destruct (m w). apply Hf. Qed.
Lemma replies_respond msg topic payload : topic = msg_Topic msg -> replies (respond msg topic payload) msg.
Proof. intros -> w. rewrite respond_run. by left. Qed.
Lemma replies_error code message msg : code ∈ error_codes -> replies (NewErrorMessage code message) msg.
Proof. intros Hc w. right. by apply refuses_error. Qed.

Ltac error_code := unfold error_codes; repeat (first [by left|right]).

Lemma handle_list_replies {A} msg what sn topic key (call : ListOptions -> io W (result error (list A))) summary :
  topic = msg_Topic msg -> replies (handle_list msg what sn topic key call summary) msg.
Proof.
  intros Ht. unfold handle_list. destruct (decode_request _ _ _); [|apply replies_error; error_code].
  apply replies_bind. intros [items|e]; [by apply replies_respond|apply replies_error; error_code].
Qed.

Lemma handleGetCluster_replies msg : msg_Topic msg = TopicCluster -> replies (handleGetCluster msg) msg.
Proof.
  intros Ht. unfold handleGetCluster. destruct (decode_request _ _ _) as [name|]; [|apply replies_error; error_code].
  apply replies_bind. intros [[|cp cps]|e]; try (apply replies_error; error_code).
  destruct (negb _); [|by apply replies_respond]. destruct (find_first _ _); [by apply replies_respond|apply replies_error; error_code].
Qed.

Lemma handleRequest_replies msg : replies (handleRequest msg) msg.
Proof.
  unfold handleRequest. repeat (match goal with |- context [if (?a =? ?b) then _ else _] => destruct (String.eqb_spec a b) end);
    first [by apply handle_list_replies|by apply handleGetCluster_replies|apply replies_error; error_code].
Qed.

(** Every message a client sends gets exactly one reply; subscribing and
    unsubscribing are the only things that change its subscriptions, and they
    never fail. *)
Lemma handleMessage_answers msg subs w :
  answers msg (handleMessage msg subs w).1.2 /\ (handleMessage msg subs w).1.1 = subscribe_step subs msg /\
  (msg_Type msg = MessageTypeSubscribe \/ msg_Type msg = MessageTypeUnsubscribe -> responds msg (handleMessage msg subs w).1.2).
Proof.
  unfold handleMessage, subscribe_step, handleSubscribe, handleUnsubscribe, mbind, io_bind.
  destruct (String.eqb_spec (msg_Type msg) MessageTypeSubscribe) as [Ht|Hs]; [rewrite respond_run; split_and!; [by left|done|done]|].
  destruct (String.eqb_spec (msg_Type msg) MessageTypeUnsubscribe) as [Ht|Hu]; [rewrite respond_run; split_and!; [by left|done|done]|].
  destruct (String.eqb_spec (msg_Type msg) MessageTypeRequest) as [Ht|Hr].
  - pose proof (handleRequest_replies msg w) as Ha. destruct (handleRequest msg w). split_and!; [done|done|tauto].
  - pose proof (replies_error "unknown_message_type" ("Unknown message type: " ++ msg_Type msg) msg ltac:(error_code) w) as Ha.
    destruct (NewErrorMessage _ _ w). split_and!; [done|done|tauto].
Qed.
End props.
