(* ===== verification/WebSocket.v ===== *)
(** * The WebSocket server (internal/websocket/server.go).

    The goroutines of the server are interleaved: a reader and a writer per
    connection, and one broadcaster.  A state holds the channels, the
    subscriptions and where each goroutine stands; a step is one action of one
    of them.  Two fields per connection record its history, the messages it sent
    and those taken off its queue, and influence no step.  HTTP, the ping ticker
    and the deadlines are the freedom of a read or a write to fail at any time. *)

From S2P Require Import Prelude GoString GoNum Json ApiTypes KubeTypes Client Protocol.
From stdpp Require Import strings relations.
Open Scope string_scope.

Definition sendChannelSize : nat := 256.
Definition broadcastChanSize : nat := 256.

Inductive writer := Idle | Writing (m : Message) | Stopped.

Record WsClient := mkWsClient {
  wc_subscriptions : gset string;
  wc_send : list Message;
  wc_pending : option Message;      (* the reply readPump is sending to [send] *)
  wc_reading : bool;                (* readPump runs *)
  wc_writer : writer;               (* where writePump stands *)
  wc_open : bool;                   (* the connection is open *)
  wc_received : list Message;       (* history: the messages parsed *)
  wc_taken : list Message;          (* history: the messages taken off [send] *)
}.
Definition new_client : WsClient := mkWsClient ∅ [] None true Idle true [] [].

Record Server := mkServer {
  sv_conns : gmap nat WsClient;                    (* every connection there ever was *)
  sv_clients : gset nat;                           (* the map [clients] *)
  sv_broadcast : list Message;
  sv_delivering : option (Message * list nat);     (* the range over [clients], under its read lock *)
  sv_done : bool;
  sv_broadcaster : bool;                           (* handleBroadcast runs *)
}.
Definition NewServer : Server := mkServer ∅ ∅ [] None false true.

(** ** Updates *)

Definition with_send (q : list Message) (c : WsClient) : WsClient :=
  mkWsClient (wc_subscriptions c) q (wc_pending c) (wc_reading c) (wc_writer c) (wc_open c) (wc_received c) (wc_taken c).
Definition with_writer (wr : writer) (open : bool) (c : WsClient) : WsClient :=
  mkWsClient (wc_subscriptions c) (wc_send c) (wc_pending c) (wc_reading c) wr open (wc_received c) (wc_taken c).
Definition put_client (i : nat) (c : WsClient) (s : Server) : Server :=
  mkServer (<[i := c]> (sv_conns s)) (sv_clients s) (sv_broadcast s) (sv_delivering s) (sv_done s) (sv_broadcaster s).

(** readPump: one message handled, the reply in hand. *)
Definition handled (msg : Message) (subs : gset string) (reply : Message) (c : WsClient) : WsClient :=
  mkWsClient subs (wc_send c) (Some reply) (wc_reading c) (wc_writer c) (wc_open c) (wc_received c ++ [msg]) (wc_taken c).
(** [c.send <- response] went through. *)
Definition enqueued (reply : Message) (c : WsClient) : WsClient :=
  mkWsClient (wc_subscriptions c) (wc_send c ++ [reply]) None (wc_reading c) (wc_writer c) (wc_open c) (wc_received c) (wc_taken c).
(** The deferred function of readPump. *)
Definition reader_gone (c : WsClient) : WsClient :=
  mkWsClient (wc_subscriptions c) (wc_send c) None false (wc_writer c) false (wc_received c) (wc_taken c).
(** writePump: a message taken from the queue. *)
Definition taking (m : Message) (rest : list Message) (c : WsClient) : WsClient :=
  mkWsClient (wc_subscriptions c) rest (wc_pending c) (wc_reading c) (Writing m) (wc_open c) (wc_received c) (wc_taken c ++ [m]).
(** handleBroadcast, one client: a full queue is skipped. *)
Definition offer (m : Message) (c : WsClient) : WsClient :=
  if bool_decide (msg_Topic m ∈ wc_subscriptions c) && (length (wc_send c) <? sendChannelSize)%nat
  then with_send (wc_send c ++ [m])%list c else c.

(** [Broadcast]: it never waits; a full channel drops the message. *)
Definition Broadcast (m : Message) (s : Server) : Server :=
  if (length (sv_broadcast s) <? broadcastChanSize)%nat
  then mkServer (sv_conns s) (sv_clients s) (sv_broadcast s ++ [m])%list (sv_delivering s) (sv_done s) (sv_broadcaster s)
  else s.

Definition with_delivering (d : option (Message * list nat)) (s : Server) : Server :=
  mkServer (sv_conns s) (sv_clients s) (sv_broadcast s) d (sv_done s) (sv_broadcaster s).
Definition with_clients (cs : gset nat) (s : Server) : Server :=
  mkServer (sv_conns s) cs (sv_broadcast s) (sv_delivering s) (sv_done s) (sv_broadcaster s).

(** What [BroadcastIncident], [BroadcastRemediation] and [BroadcastHealthUpdate] pass on. *)
Definition is_event (m : Message) : Prop :=
  msg_Type m = MessageTypeEvent /\ msg_Topic m ∈ [TopicIncidents; TopicRemediations; TopicHealth].

Section steps.
Context `{Client W} `{MapRange}.

Inductive step : Server -> Server -> Prop :=
(* handleWebSocket *)
| st_connect s i : sv_conns s !! i = None -> sv_delivering s = None ->
    step s (put_client i new_client (with_clients ({[i]} ∪ sv_clients s) s))
(* readPump: a frame that does not parse is skipped, any other is handled in some state of the cluster *)
| st_handle s i c msg w subs reply w' : sv_conns s !! i = Some c -> wc_reading c = true -> wc_pending c = None ->
    handleMessage msg (wc_subscriptions c) w = ((subs, reply), w') ->
    step s (put_client i (handled msg subs reply c) s)
| st_send s i c reply : sv_conns s !! i = Some c -> wc_reading c = true -> wc_pending c = Some reply ->
    (length (wc_send c) < sendChannelSize)%nat ->
    step s (put_client i (enqueued reply c) s)
| st_read_fails s i c : sv_conns s !! i = Some c -> wc_reading c = true -> wc_pending c = None -> sv_delivering s = None ->
    step s (put_client i (reader_gone c) (with_clients (sv_clients s ∖ {[i]}) s))
(* writePump *)
| st_take s i c m rest : sv_conns s !! i = Some c -> wc_writer c = Idle -> wc_send c = m :: rest ->
    step s (put_client i (taking m rest c) s)
| st_written s i c m : sv_conns s !! i = Some c -> wc_writer c = Writing m -> wc_open c = true ->
    step s (put_client i (with_writer Idle true c) s)
| st_write_fails s i c : sv_conns s !! i = Some c -> wc_writer c <> Stopped ->
    step s (put_client i (with_writer Stopped false c) s)
(* the controllers *)
| st_broadcast s m : is_event m -> step s (Broadcast m s)
(* handleBroadcast *)
| st_range s m rest order : sv_broadcaster s = true -> sv_delivering s = None -> sv_broadcast s = m :: rest -> order ≡ₚ elements (sv_clients s) ->
    step s (mkServer (sv_conns s) (sv_clients s) rest (Some (m, order)) (sv_done s) (sv_broadcaster s))
| st_offer s m i rest c : sv_delivering s = Some (m, i :: rest) -> sv_conns s !! i = Some c ->
    step s (put_client i (offer m c) (with_delivering (Some (m, rest)) s))
| st_range_ends s m : sv_delivering s = Some (m, []) -> step s (with_delivering None s)
(* Start *)
| st_done s : step s (mkServer (sv_conns s) (sv_clients s) (sv_broadcast s) (sv_delivering s) true (sv_broadcaster s))
| st_broadcaster_returns s : sv_done s = true -> sv_delivering s = None ->
    step s (mkServer (sv_conns s) (sv_clients s) (sv_broadcast s) (sv_delivering s) (sv_done s) false).

Definition steps : Server -> Server -> Prop := rtc step.
Definition reachable (s : Server) : Prop := steps NewServer s.

Lemma steps_trans s1 s2 s3 : steps s1 s2 -> steps s2 s3 -> steps s1 s3.
Proof. unfold steps. intros. by etrans. Qed.
End steps.

(** ** The invariant *)

Definition is_reply (m : Message) : bool := negb (msg_Type m =? MessageTypeEvent).
(** The replies made so far, oldest first: taken, queued and in hand. *)
Definition replies_made (c : WsClient) : list Message :=
  (List.filter is_reply (wc_taken c ++ wc_send c) ++ option_list (wc_pending c))%list.
Definition subscribed_once (received : list Message) (topic : string) : Prop :=
  exists msg, msg ∈ received /\ msg_Type msg = MessageTypeSubscribe /\ msg_Topic msg = topic.

Record client_ok (c : WsClient) : Prop := {
  ok_bound : (length (wc_send c) <= sendChannelSize)%nat;
  ok_subscriptions : wc_subscriptions c = foldl subscribe_step ∅ (wc_received c);
  ok_replies : Forall2 answers (wc_received c) (replies_made c);
  ok_events m : m ∈ (wc_taken c ++ wc_send c)%list -> msg_Type m = MessageTypeEvent -> subscribed_once (wc_received c) (msg_Topic m);
}.

Record server_ok (s : Server) : Prop := {
  ok_clients i c : sv_conns s !! i = Some c -> client_ok c;
  ok_registered i : i ∈ sv_clients s <-> exists c, sv_conns s !! i = Some c /\ wc_reading c = true;
  ok_broadcast_bound : (length (sv_broadcast s) <= broadcastChanSize)%nat;
  ok_broadcast_events : Forall is_event (sv_broadcast s);
  ok_delivering m order : sv_delivering s = Some (m, order) -> is_event m /\ forall i, i ∈ order -> i ∈ sv_clients s;
}.

Lemma answers_is_reply msg reply : answers msg reply -> is_reply reply = true.
Proof. unfold is_reply. by intros [(-> & _)|(-> & _)]. Qed.
Lemma event_not_reply m : is_event m -> is_reply m = false.
Proof. unfold is_reply. by intros [-> _]. Qed.

Lemma subscriptions_asked received topic : topic ∈ foldl subscribe_step ∅ received -> subscribed_once received topic.
Proof.
  induction received as [|msg received IH] using rev_ind; [by intros ?%elem_of_empty|]. rewrite foldl_app. cbn [foldl].
  assert (Hmore : subscribed_once received topic -> subscribed_once (received ++ [msg]) topic).
  { intros (m & Hm & Ht). exists m. split; [|done]. rewrite elem_of_app. by left. }
  unfold subscribe_step at 1. destruct (String.eqb_spec (msg_Type msg) MessageTypeSubscribe) as [Hs|Hs].
  - rewrite elem_of_union, elem_of_singleton. intros [->|Ht]; [|auto]. exists msg. split; [rewrite elem_of_app; right; by left|done].
  - destruct (_ =? MessageTypeUnsubscribe); [rewrite elem_of_difference; intros [Ht _]; auto|auto].
Qed.

Lemma subscribed_more received msg topic : subscribed_once received topic -> subscribed_once (received ++ [msg]) topic.
Proof. intros (m & Hm & Ht). exists m. split; [rewrite elem_of_app; by left|done]. Qed.

Lemma new_client_ok : client_ok new_client.
Proof. constructor; [unfold sendChannelSize; cbn; lia|done|constructor|intros m Hm; by apply elem_of_nil in Hm]. Qed.

Section preserved.
Context `{Client W} `{MapRange}.

Lemma handled_ok msg subs reply w w' c : client_ok c -> wc_pending c = None ->
  handleMessage msg (wc_subscriptions c) w = ((subs, reply), w') -> client_ok (handled msg subs reply c).
Proof.
  intros [Hb Hs Hr He] Hp Hh. destruct (handleMessage_answers msg (wc_subscriptions c) w) as (Ha & Hsub & _). rewrite Hh in Ha, Hsub. cbn in Ha, Hsub.
  constructor; cbn; [done| | |].
  - by rewrite foldl_app, Hsub, Hs.
  - unfold replies_made in *. rewrite Hp, app_nil_r in Hr. cbn. by apply Forall2_app; [|constructor].
  - intros m Hm Ht. apply subscribed_more. by apply (He m).
Qed.

Lemma enqueued_ok reply c : client_ok c -> wc_pending c = Some reply -> (length (wc_send c) < sendChannelSize)%nat -> client_ok (enqueued reply c).
Proof.
  intros [Hb Hs Hr He] Hp Hlen. unfold replies_made in Hr. rewrite Hp in Hr. cbn [option_list] in Hr.
  assert (Hreply : is_reply reply = true).
  { apply Forall2_app_inv_r in Hr as (l1 & l2 & _ & Hr & _). inversion Hr; subst. by eapply answers_is_reply. }
  constructor; cbn; [rewrite length_app; cbn; lia|done| |].
  - unfold replies_made. cbn. rewrite app_nil_r, app_assoc, List.filter_app. cbn. by rewrite Hreply.
  - intros m. rewrite app_assoc, elem_of_app, list_elem_of_singleton. intros [Hm| ->] Ht; [by apply He|].
    unfold is_reply in Hreply. by rewrite Ht in Hreply.
Qed.

Lemma reader_gone_ok c : client_ok c -> wc_pending c = None -> client_ok (reader_gone c).
Proof. intros [Hb Hs Hr He] Hp. constructor; cbn; try done. unfold replies_made in *. by rewrite Hp in Hr. Qed.

Lemma taking_ok m rest c : client_ok c -> wc_send c = m :: rest -> client_ok (taking m rest c).
Proof.
  intros [Hb Hs Hr He] Hq. rewrite Hq in Hb. unfold replies_made in Hr. rewrite Hq in Hr, He.
  constructor; unfold replies_made; cbn; [cbn in Hb; lia|done| |]; by rewrite <- app_assoc.
Qed.

Lemma with_writer_ok wr open c : client_ok c -> client_ok (with_writer wr open c).
Proof. by intros [Hb Hs Hr He]. Qed.

Lemma offer_ok m c : is_event m -> client_ok c -> client_ok (offer m c).
Proof.
  intros Hm Hok. unfold offer. destruct (bool_decide _) eqn:Ht; [|done]. destruct (Nat.ltb_spec (length (wc_send c)) sendChannelSize) as [Hlen|]; [|done].
  destruct Hok as [Hb Hs Hr He]. apply bool_decide_eq_true in Ht. constructor; cbn; [rewrite length_app; cbn; lia|done| |].
  - unfold replies_made in *. cbn. rewrite app_assoc, List.filter_app. cbn. by rewrite (event_not_reply m Hm), app_nil_r.
  - intros m'. rewrite app_assoc, elem_of_app, list_elem_of_singleton. intros [Hm'| ->] Hty; [by apply He|].
    apply subscriptions_asked. by rewrite <- Hs.
Qed.

Lemma put_client_ok i c c' s : server_ok s -> sv_conns s !! i = Some c -> client_ok c' -> wc_reading c' = wc_reading c -> server_ok (put_client i c' s).
Proof.
  intros [Hc Hreg Hb He Hd] Hi Hok Hread. constructor; cbn; try done.
  - intros j cj. rewrite lookup_insert. case_decide as Hj; [intros [= <-]; done|apply Hc].
  - intros j. rewrite Hreg. destruct (decide (i = j)) as [<-|Hj].
    + rewrite lookup_insert_eq, Hi. split; intros (x & [= <-] & Hx); eexists; (split; [done|congruence]).
    + by rewrite lookup_insert_ne by done.
Qed.

Lemma step_ok s s' : step s s' -> server_ok s -> server_ok s'.
Proof.
  intros Hstep Hok. destruct Hstep as [s i Hi Hd|s i c msg w subs reply w' Hi Hr Hp Hh|s i c reply Hi Hr Hp Hl|s i c Hi Hr Hp Hd|
    s i c m rest Hi Hw Hq|s i c m Hi Hw Ho|s i c Hi Hw|s m Hm|s m rest order Hb Hd Hq Ho|s m i rest c Hd Hi|s m Hd|s|s Hdone Hd];
    try (eapply put_client_ok; [exact Hok|exact Hi| |done]; pose proof (ok_clients _ Hok _ _ Hi) as Hc).
  - destruct Hok as [Hc Hreg Hb He Hdel]. constructor; cbn; try done.
    + intros j cj. rewrite lookup_insert. case_decide; [intros [= <-]; apply new_client_ok|apply Hc].
    + intros j. rewrite elem_of_union, elem_of_singleton, Hreg. destruct (decide (i = j)) as [<-|Hj].
      * rewrite lookup_insert_eq. split; [intros _; by eexists|by left].
      * rewrite lookup_insert_ne by done. naive_solver.
    + intros m order. by rewrite Hd.
  - by eapply handled_ok.
  - by apply enqueued_ok.
  - pose proof (ok_clients _ Hok _ _ Hi) as Hc. destruct Hok as [Hcs Hreg Hb He Hdel]. constructor; cbn; try done.
    + intros j cj. rewrite lookup_insert. case_decide; [intros [= <-]; by apply reader_gone_ok|apply Hcs].
    + intros j. rewrite elem_of_difference, not_elem_of_singleton, Hreg. destruct (decide (i = j)) as [<-|Hj].
      * rewrite lookup_insert_eq. split; [by intros [_ ?]|by intros (x & [= <-] & ?)].
      * rewrite lookup_insert_ne by done. naive_solver.
    + intros m order. by rewrite Hd.
  - by apply taking_ok.
  - by apply with_writer_ok.
  - by apply with_writer_ok.
  - destruct Hok as [Hc Hreg Hb He Hdel]. unfold Broadcast. destruct (Nat.ltb_spec (length (sv_broadcast s)) broadcastChanSize); [|done].
    constructor; cbn; try done; [rewrite length_app; cbn; lia|]. apply Forall_app. split; [done|by constructor].
  - destruct Hok as [Hc Hreg Hb' He Hdel]. rewrite Hq in Hb', He. inversion He; subst. constructor; cbn; try done; [cbn in Hb'; lia|].
    intros m' order' [= <- <-]. split; [done|]. intros i Hi. rewrite Ho in Hi. by apply elem_of_elements.
  - pose proof (ok_delivering _ Hok _ _ Hd) as [Hm Hin]. pose proof (ok_clients _ Hok _ _ Hi) as Hc.
    assert (Hok' : server_ok (with_delivering (Some (m, rest)) s)).
    { destruct Hok. constructor; cbn; try done. intros m' order' [= <- <-]. split; [done|]. intros j Hj. apply Hin. by right. }
    eapply (put_client_ok i c); [exact Hok'|exact Hi|by apply offer_ok|]. unfold offer. by destruct (_ && _).
  - destruct Hok. by constructor.
  - destruct Hok. by constructor.
  - destruct Hok as [Hc Hreg Hb He Hdel]. constructor; cbn; try done.
Qed.

Lemma reachable_ok s : reachable s -> server_ok s.
Proof.
  unfold reachable, steps. intros Hr. assert (Hinit : server_ok NewServer).
  { constructor; cbn; try done; [|unfold broadcastChanSize; lia]. intros i. split; [by intros ?%elem_of_empty|by intros (c & ? & _)]. }
  revert Hinit. induction Hr as [s|s1 s2 s3 Hs _ IH]; [done|]. intros Hok. apply IH. by eapply step_ok.
Qed.

(** C16. The server keeps its word to every client, however its goroutines
    interleave: the queue never exceeds its 256 places; the replies are made in
    the order of the messages, one to each and none besides; the subscriptions
    are those the messages asked for; and an event is only ever queued for a
    client that once subscribed to its topic.  A connection is registered
    exactly as long as its reader runs. *)
Theorem websocket_invariant (s : Server) :
  reachable s ->
  (length (sv_broadcast s) <= broadcastChanSize)%nat /\
  (forall i, i ∈ sv_clients s <-> exists c, sv_conns s !! i = Some c /\ wc_reading c = true) /\
  forall i c, sv_conns s !! i = Some c ->
    (length (wc_send c) <= sendChannelSize)%nat /\
    Forall2 answers (wc_received c) (replies_made c) /\
    wc_subscriptions c = foldl subscribe_step ∅ (wc_received c) /\
    forall m, m ∈ (wc_taken c ++ wc_send c)%list -> msg_Type m = MessageTypeEvent -> subscribed_once (wc_received c) (msg_Topic m).
Proof. intros Hok%reachable_ok. split_and!; [apply Hok|apply Hok|]. intros i c Hi. by destruct (ok_clients _ Hok _ _ Hi). Qed.
End preserved.

(** ** The broadcaster makes progress *)

Section progress.
Context `{Client W} `{MapRange}.

Lemma offer_spec m c : offer m c =
  if bool_decide (msg_Topic m ∈ wc_subscriptions c /\ (length (wc_send c) < sendChannelSize)%nat) then with_send (wc_send c ++ [m])%list c else c.
Proof.
  unfold offer. destruct (decide (msg_Topic m ∈ wc_subscriptions c)) as [Ht|Ht], (Nat.ltb_spec (length (wc_send c)) sendChannelSize) as [Hl|Hl].
  - by rewrite (bool_decide_eq_true_2 _ Ht), (bool_decide_eq_true_2 (_ /\ _)).
  - rewrite (bool_decide_eq_true_2 _ Ht), (bool_decide_eq_false_2 (_ /\ _)); [done|lia].
  - rewrite (bool_decide_eq_false_2 _ Ht), (bool_decide_eq_false_2 (_ /\ _)); [done|tauto].
  - rewrite (bool_decide_eq_false_2 _ Ht), (bool_decide_eq_false_2 (_ /\ _)); [done|tauto].
Qed.

(** The rest of a range, one client after the other. *)
Definition offered (m : Message) (order : list nat) (conns : gmap nat WsClient) : gmap nat WsClient :=
  foldl (fun conns i => alter (offer m) i conns) conns order.

Lemma offered_lookup m order conns i : NoDup order ->
  offered m order conns !! i = (if bool_decide (i ∈ order) then offer m else id) <$> conns !! i.
Proof.
  unfold offered. revert conns. induction order as [|j order IH]; intros conns Hnd; cbn [foldl].
  - rewrite bool_decide_eq_false_2 by apply not_elem_of_nil. by destruct (conns !! i).
  - apply NoDup_cons in Hnd as [Hj Hnd]. rewrite IH by done. destruct (decide (j = i)) as [<-|Hne].
    + rewrite lookup_alter_eq. rewrite (bool_decide_eq_false_2 _ Hj), bool_decide_eq_true_2 by by left. by destruct (conns !! j).
    + rewrite lookup_alter_ne by done. rewrite (bool_decide_ext (i ∈ j :: order) (i ∈ order)); [done|]. rewrite elem_of_cons. naive_solver.
Qed.

Lemma offers_steps m order s : sv_delivering s = Some (m, order) -> (forall i, i ∈ order -> is_Some (sv_conns s !! i)) ->
  steps s (mkServer (offered m order (sv_conns s)) (sv_clients s) (sv_broadcast s) (Some (m, [])) (sv_done s) (sv_broadcaster s)).
Proof.
  revert s. induction order as [|i order IH]; intros s Hd Hin.
  - cbn. rewrite <- Hd. destruct s. cbn. apply rtc_refl.
  - destruct (Hin i) as [c Hc]; [by left|]. eapply rtc_l; [by eapply st_offer|].
    assert (Halter : alter (offer m) i (sv_conns s) = <[i := offer m c]> (sv_conns s)).
    { apply map_eq. intros j. destruct (decide (i = j)) as [<-|Hne]; [by rewrite lookup_alter_eq, lookup_insert_eq, Hc|by rewrite lookup_alter_ne, lookup_insert_ne]. }
    unfold offered. cbn [foldl]. rewrite Halter. eapply (IH (put_client i (offer m c) (with_delivering (Some (m, order)) s))); [done|].
    intros j Hj. cbn. destruct (decide (i = j)) as [<-|Hne]; [rewrite lookup_insert_eq; by eexists|rewrite lookup_insert_ne by done; apply Hin; by right].
Qed.

(** C33. No client can hold the broadcaster up.  From any reachable state in which a
    message waits, it can take the message and offer it to every registered
    client by its own steps alone: a client that subscribed and has room gets it
    at the end of its queue, every other connection is left as it is. *)
Theorem broadcast_reaches_subscribers (s : Server) (m : Message) (rest : list Message) :
  reachable s -> sv_broadcaster s = true -> sv_delivering s = None -> sv_broadcast s = m :: rest ->
  exists s', steps s s' /\ sv_delivering s' = None /\ sv_broadcast s' = rest /\ sv_clients s' = sv_clients s /\
    forall i c, sv_conns s !! i = Some c ->
      sv_conns s' !! i = Some (if bool_decide (i ∈ sv_clients s /\ msg_Topic m ∈ wc_subscriptions c /\ (length (wc_send c) < sendChannelSize)%nat)
                               then with_send (wc_send c ++ [m])%list c else c).
Proof.
  intros Hok%reachable_ok Hb Hd Hq. set (order := elements (sv_clients s)).
  exists (mkServer (offered m order (sv_conns s)) (sv_clients s) rest None (sv_done s) (sv_broadcaster s)). split_and!; try done.
  - eapply rtc_l; [by eapply (st_range s m rest order)|].
    eapply steps_trans; [apply (offers_steps m order); [done|]|eapply rtc_l; [by eapply st_range_ends|apply rtc_refl]].
    intros i Hi. apply elem_of_elements, (ok_registered _ Hok) in Hi as (c & Hc & _). by exists c.
  - intros i c Hi. cbn [sv_conns]. rewrite offered_lookup, Hi, (bool_decide_ext (i ∈ order) (i ∈ sv_clients s)) by (apply NoDup_elements || apply elem_of_elements).
    cbn [fmap option_fmap option_map]. f_equal. destruct (decide (i ∈ sv_clients s)) as [Hin|Hout].
    + rewrite (bool_decide_eq_true_2 _ Hin), offer_spec. rewrite (bool_decide_ext (i ∈ sv_clients s /\ _) (msg_Topic m ∈ wc_subscriptions c /\ (length (wc_send c) < sendChannelSize)%nat)); [done|tauto].
    + rewrite !bool_decide_eq_false_2; [done|tauto|tauto].
Qed.

(** ** A reader that waits for ever *)

(** The queue is full, the writer has returned, and a reply is in hand. *)
Definition stuck (s : Server) (i : nat) : Prop :=
  exists c, sv_conns s !! i = Some c /\ wc_writer c = Stopped /\ wc_open c = false /\ wc_reading c = true /\
    wc_pending c <> None /\ length (wc_send c) = sendChannelSize.

Lemma step_stuck s s' i : step s s' -> stuck s i -> stuck s' i.
Proof.
  intros Hstep (c & Hi & Hw & Ho & Hr & Hp & Hl).
  assert (Hput : forall j c' s0, sv_conns s0 = sv_conns s -> (j = i -> wc_writer c' = Stopped /\ wc_open c' = false /\ wc_reading c' = true /\
    wc_pending c' <> None /\ length (wc_send c') = sendChannelSize) -> stuck (put_client j c' s0) i).
  { intros j c' s0 Hs0 Hc'. destruct (decide (j = i)) as [->|Hne].
    - exists c'. cbn. rewrite lookup_insert_eq. split; [done|]. by apply Hc'.
    - exists c. cbn. rewrite Hs0, lookup_insert_ne by done. by split_and!. }
  destruct Hstep as [s j Hj Hd|s j cj msg w subs reply w' Hj Hrj Hpj Hh|s j cj reply Hj Hrj Hpj Hlj|s j cj Hj Hrj Hpj Hd|
    s j cj m rest Hj Hwj Hq|s j cj m Hj Hwj Hoj|s j cj Hj Hwj|s m Hm|s m rest order Hb Hd Hq Horder|s m j rest cj Hd Hj|s m Hd|s|s Hdone Hd];
    try (apply Hput; [done|]; intros ->; exfalso; rewrite Hi in Hj; simplify_eq; first [congruence|lia]).
  - unfold Broadcast. case_match; exists c; by split_and!.
  - exists c. by split_and!.
  - apply Hput; [done|]. intros ->. rewrite Hi in Hj. simplify_eq. unfold offer.
    replace (length (wc_send cj) <? sendChannelSize)%nat with false by (symmetry; apply Nat.ltb_ge; lia). rewrite andb_false_r. by split_and!.
  - exists c. by split_and!.
  - exists c. by split_and!.
  - exists c. by split_and!.
Qed.

(** A client that pipelines requests and does not read. *)
Definition ping : Message := mkMessage MessageTypeSubscribe TopicHealth "" None 0%Z.

Lemma handle_step s i c (w : W) : sv_conns s !! i = Some c -> wc_reading c = true -> wc_pending c = None ->
  exists subs reply, step s (put_client i (handled ping subs reply c) s).
Proof. intros Hi Hr Hp. destruct (handleMessage ping (wc_subscriptions c) w) as [[subs reply] w'] eqn:Hh. exists subs, reply. by eapply st_handle. Qed.

Record flooding (s s' : Server) (i n : nat) (c : WsClient) : Prop := {
  fl_steps : steps s s';
  fl_client : exists c', sv_conns s' !! i = Some c' /\ length (wc_send c') = (length (wc_send c) + n)%nat /\
    wc_writer c' = wc_writer c /\ wc_open c' = wc_open c /\ wc_reading c' = true /\ wc_pending c' = None;
}.

Lemma flood (w : W) n i : forall s c, sv_conns s !! i = Some c -> wc_reading c = true -> wc_pending c = None ->
  (length (wc_send c) + n <= sendChannelSize)%nat -> exists s', flooding s s' i n c.
Proof.
  induction n as [|n IH]; intros s c Hi Hr Hp Hl.
  - exists s. split; [apply rtc_refl|]. exists c. rewrite Nat.add_0_r. by split_and!.
  - destruct (handle_step s i c w Hi Hr Hp) as (subs & reply & Hh).
    set (s1 := put_client i (handled ping subs reply c) s) in *.
    assert (Hc1 : sv_conns s1 !! i = Some (handled ping subs reply c)) by (cbn; by rewrite lookup_insert_eq).
    pose proof (st_send s1 i _ reply Hc1 Hr eq_refl) as Hs. cbn in Hs. specialize (Hs ltac:(lia)).
    set (s2 := put_client i (enqueued reply (handled ping subs reply c)) s1) in *.
    assert (Hc2 : sv_conns s2 !! i = Some (enqueued reply (handled ping subs reply c))) by (cbn; by rewrite lookup_insert_eq).
    destruct (IH s2 _ Hc2 Hr eq_refl) as (s' & [Hsteps (c' & Hc' & Hlen & Hrest)]); [cbn; rewrite length_app; cbn; lia|].
    exists s'. split; [by eapply rtc_l; [exact Hh|eapply rtc_l; [exact Hs|]]|]. exists c'. split; [done|]. split; [|exact Hrest].
    rewrite Hlen. cbn. rewrite length_app. cbn. lia.
Qed.

(** A client that pipelines requests without reading its replies leaks for
    ever.  Once the queue is full, a reply is in hand and the write in flight
    fails, writePump is gone and readPump waits for room that nothing makes: in
    every later state the connection is still registered, its goroutine still
    waiting, after a shutdown too.  Such a state can be reached. *)
Theorem slow_client_leaks (w : W) :
  (exists s, reachable s /\ stuck s 0) /\
  forall s i, reachable s -> stuck s i -> forall s', steps s s' -> stuck s' i /\ i ∈ sv_clients s'.
Proof.
  split.
  - set (s0 := put_client 0 new_client (with_clients {[0%nat]} NewServer)).
    assert (Hs0 : steps NewServer s0).
    { eapply rtc_l; [apply (st_connect NewServer 0); done|]. cbn. rewrite union_empty_r_L. apply rtc_refl. }
    destruct (flood w 1 0 s0 new_client) as (s1 & [Hs1 (c1 & Hc1 & Hl1 & Hw1 & Ho1 & Hr1 & Hp1)]); [done..|unfold sendChannelSize; cbn; lia|].
    destruct (wc_send c1) as [|m [|? ?]] eqn:Hq; try (cbn in Hl1; lia).
    set (c2 := taking m [] c1). set (s2 := put_client 0 c2 s1). assert (Hs2 : step s1 s2) by by eapply st_take.
    assert (Hc2 : sv_conns s2 !! 0%nat = Some c2) by (cbn; by rewrite lookup_insert_eq).
    destruct (flood w sendChannelSize 0 s2 c2) as (s3 & [Hs3 (c3 & Hc3 & Hl3 & Hw3 & Ho3 & Hr3 & Hp3)]); [done..|cbn; lia|].
    destruct (handle_step s3 0 c3 w) as (subs & reply & Hs4); [done..|].
    set (c4 := handled ping subs reply c3) in *. set (s4 := put_client 0 c4 s3) in *.
    assert (Hc4 : sv_conns s4 !! 0%nat = Some c4) by (cbn; by rewrite lookup_insert_eq).
    exists (put_client 0 (with_writer Stopped false c4) s4). split.
    + unfold reachable. eapply steps_trans; [exact Hs0|]. eapply steps_trans; [exact Hs1|]. eapply rtc_l; [exact Hs2|].
      eapply steps_trans; [exact Hs3|]. eapply rtc_l; [exact Hs4|]. apply rtc_once. apply st_write_fails; [done|]. cbn. by rewrite Hw3.
    + exists (with_writer Stopped false c4). cbn [sv_conns put_client]. rewrite lookup_insert_eq. split_and!; [done..|]. exact Hl3.
  - intros s i Hreach Hst s' Hsteps. assert (Hst' : stuck s' i).
    { clear Hreach. induction Hsteps as [|s1 s2 s3 H12 _ IH]; [done|]. apply IH. by eapply step_stuck. }
    split; [done|]. assert (Hreach' : reachable s') by (unfold reachable; by eapply steps_trans).
    apply reachable_ok in Hreach'. apply (ok_registered _ Hreach'). destruct Hst' as (c & Hc & _ & _ & Hr & _). by exists c.
Qed.
End progress.

(** ** Witnesses: one client subscribes to health, and a health event waits *)

#[local] Existing Instance int_quantity.

Definition ex_world : Mem := empty_mem (1000 * second)%Z.
Definition ex_event : Message := mkMessage MessageTypeEvent TopicHealth "" (Some (marshal_health (mkHealthUpdate "health-update" 1 0))) 0%Z.
Definition ex_reply : Message := (handleMessage ping ∅ ex_world).1.2.
Definition ex_client : WsClient := enqueued ex_reply (handled ping {[TopicHealth]} ex_reply new_client).
Definition ex_server : Server := mkServer {[0%nat := ex_client]} {[0%nat]} [ex_event] None false true.

Lemma ex_server_reachable : reachable (W := Mem) ex_server.
Proof.
  unfold reachable, steps.
  eapply rtc_l; [apply (st_connect NewServer 0); reflexivity|].
  eapply rtc_l; [eapply (st_handle _ 0 new_client ping ex_world {[TopicHealth]} ex_reply ex_world); reflexivity|].
  eapply rtc_l; [eapply (st_send _ 0 (handled ping {[TopicHealth]} ex_reply new_client) ex_reply); [reflexivity..|cbn; unfold sendChannelSize; lia]|].
  eapply rtc_l; [apply (st_broadcast _ ex_event); split; [reflexivity|right; right; left]|]. match goal with |- rtc _ ?a ?b => replace a with b by reflexivity end. apply rtc_refl.
Qed.

Lemma websocket_invariant_witness :
  Forall2 answers [ping] [ex_reply] /\ {[TopicHealth]} = foldl subscribe_step ∅ [ping].
Proof.
  destruct (websocket_invariant ex_server ex_server_reachable) as (_ & _ & Hc).
  destruct (Hc 0%nat ex_client) as (_ & Hr & Hs & _); [reflexivity|]. split; [exact Hr|exact Hs].
Defined.

Lemma broadcast_reaches_subscribers_witness :
  exists s', steps (W := Mem) ex_server s' /\ sv_conns s' !! 0%nat = Some (with_send [ex_reply; ex_event] ex_client).
Proof.
  destruct (broadcast_reaches_subscribers ex_server ex_event [] ex_server_reachable) as (s' & Hs & _ & _ & _ & Hc); [reflexivity..|].
  exists s'. split; [exact Hs|]. rewrite (Hc 0%nat ex_client) by reflexivity. reflexivity.
Defined.
