(* ===== verification/Redact.v ===== *)
(** * [strings.ReplaceAll] and the redaction of API keys (internal/llm/client.go).

    The mask stands between two bytes that no key holds, so what it replaces
    cannot come back across its borders. *)

From S2P Require Import Prelude GoString.
From Stdlib Require Import String Ascii.
From stdpp Require Import strings.
Open Scope string_scope.

(** [strings.ReplaceAll(s, old, new)] for a non-empty [old]: each round removes
    at least one byte of [s], so its length bounds the rounds. *)
Fixpoint replace_rounds (n : nat) (s old new : string) : string :=
  match n with
  | O => s
  | S n => match cut s old with Some (before, after) => before ++ new ++ replace_rounds n after old new | None => s end
  end.
Definition replace_all (s old new : string) : string := replace_rounds (String.length s) s old new.

Definition redactKey (text apiKey : string) : string := if (apiKey =? "") then text else replace_all text apiKey "[REDACTED]".

(** ** Searching *)

Definition str_has (c : ascii) (s : string) : bool := str_exists (Ascii.eqb c) s.

Lemma contains_cons d s k : contains (String d s) k = has_prefix (String d s) k || contains s k.
Proof. unfold contains, has_prefix. cbn [cut]. destruct (cut_prefix (String d s) k); [done|]. by destruct (cut s k) as [[??]|]. Qed.
Lemma contains_nil k : contains "" k = (k =? "").
Proof. by destruct k. Qed.

Lemma contains_spec s k : contains s k = true <-> exists b a, s = b ++ k ++ a.
Proof.
  induction s as [|d s IH].
  - rewrite contains_nil, String.eqb_eq. split; [intros ->; by exists "", ""|]. intros (b & a & Hs). destruct b, k; done.
  - rewrite contains_cons, orb_true_iff, IH, has_prefix_spec. split.
    + intros [(r & ->)|(b & a & ->)]; [by exists "", r|by exists (String d b), a].
    + intros ([|e b] & a & Hs); [left; by exists a|]. injection Hs as -> ->. right. by exists b, a.
Qed.

Lemma contains_length s k : contains s k = true -> (String.length k <= String.length s)%nat.
Proof. intros (b & a & ->)%contains_spec. rewrite !str_length_app. lia. Qed.

(** A byte that [k] does not hold splits the search. *)
Lemma has_prefix_split x c y k : str_has c k = false -> has_prefix (x ++ String c y) k = has_prefix x k.
Proof.
  unfold has_prefix. revert x. induction k as [|e k IH]; intros x Hc; [by destruct x|].
  unfold str_has in Hc. cbn [str_exists] in Hc. apply orb_false_iff in Hc as [He Hk].
  destruct x as [|d x]; cbn [cut_prefix String.append].
  - rewrite Ascii.eqb_sym in He. by rewrite He.
  - destruct (Ascii.eqb e d); [|done]. by apply IH.
Qed.

Lemma contains_split x c y k : str_has c k = false -> k <> "" -> contains (x ++ String c y) k = contains x k || contains y k.
Proof.
  intros Hc Hk. induction x as [|d x IH]; cbn [String.append].
  - rewrite contains_cons, contains_nil. pose proof (has_prefix_split "" c y k Hc) as Hp. cbn [String.append] in Hp. rewrite Hp.
    apply String.eqb_neq in Hk. rewrite Hk. unfold has_prefix. by destruct k.
  - rewrite !contains_cons, IH. change (String d (x ++ String c y)) with (String d x ++ String c y). rewrite has_prefix_split by done. by rewrite orb_assoc.
Qed.

Lemma cut_before s k b a : cut s k = Some (b, a) -> s = b ++ k ++ a /\ (k <> "" -> contains b k = false).
Proof.
  revert b. induction s as [|d s IH]; intros b; cbn [cut].
  - destruct (cut_prefix "" k) as [r|] eqn:Hp; [|done]. intros [= <- <-]. apply cut_prefix_spec in Hp. split; [done|].
    intros Hk. rewrite contains_nil. by apply String.eqb_neq.
  - destruct (cut_prefix (String d s) k) as [r|] eqn:Hp.
    + intros [= <- <-]. apply cut_prefix_spec in Hp. split; [done|]. intros Hk. rewrite contains_nil. by apply String.eqb_neq.
    + destruct (cut s k) as [[b' a']|] eqn:Hc; [|done]. intros [= <- <-]. destruct (IH b' eq_refl) as [Hs Hb]. split; [by rewrite Hs|].
      intros Hk. rewrite contains_cons, Hb by done. rewrite orb_false_r. destruct (has_prefix (String d b') k) eqn:Hpre; [|done].
      apply has_prefix_spec in Hpre as [r Hr]. exfalso.
      assert (Hsome : cut_prefix (String d s) k = Some (r ++ k ++ a')) by (apply cut_prefix_spec; rewrite Hs; change (String d (b' ++ k ++ a')) with (String d b' ++ k ++ a'); rewrite Hr, str_app_assoc; done).
      congruence.
Qed.

(** ** Redaction *)

(** A key as the providers issue them: no blank, no bracket, at least twenty bytes. *)
Definition key_like (k : string) : bool :=
  (20 <=? String.length k)%nat && negb (str_has " " k) && negb (str_has "[" k) && negb (str_has "]" k).

Lemma key_like_inv k : key_like k = true -> (20 <= String.length k)%nat /\ str_has " " k = false /\ str_has "[" k = false /\ str_has "]" k = false /\ k <> "".
Proof.
  unfold key_like. rewrite !andb_true_iff, !negb_true_iff, Nat.leb_le. intros [[[Hl Hs] Ho] Hc]. split_and!; try done.
  intros ->. cbn in Hl. lia.
Qed.

Lemma contains_masked b r k : key_like k = true -> contains (b ++ "[REDACTED]" ++ r) k = contains b k || contains r k.
Proof.
  intros (Hl & _ & Ho & Hc & Hne)%key_like_inv. change ("[REDACTED]" ++ r) with (String "[" ("REDACTED" ++ String "]" r)).
  rewrite contains_split, contains_split by done. destruct (contains "REDACTED" k) eqn:Hm; [|done].
  apply contains_length in Hm. cbn in Hm. lia.
Qed.

Lemma replace_rounds_removes n s k : key_like k = true -> (String.length s <= n)%nat -> contains (replace_rounds n s k "[REDACTED]") k = false.
Proof.
  intros Hk. pose proof (key_like_inv k Hk) as (Hl & _ & _ & _ & Hne). revert s. induction n as [|n IH]; intros s Hs; cbn [replace_rounds].
  - destruct s; [|cbn in Hs; lia]. rewrite contains_nil. by apply String.eqb_neq.
  - destruct (cut s k) as [[b a]|] eqn:Hc; [|unfold contains; by rewrite Hc].
    destruct (cut_before s k b a Hc) as [Heq Hb]. rewrite contains_masked, Hb by done. cbn [orb]. apply IH.
    rewrite Heq, !str_length_app in Hs. lia.
Qed.

Lemma redactKey_removes text k : key_like k = true -> contains (redactKey text k) k = false.
Proof.
  intros Hk. unfold redactKey. destruct (String.eqb_spec k "") as [->|Hne]; [done|]. by apply replace_rounds_removes.
Qed.

(** A text that does not hold the key is not touched. *)
Lemma redactKey_other text k : contains text k = false -> redactKey text k = text.
Proof.
  unfold redactKey, replace_all, contains. destruct (k =? ""); [done|]. destruct (cut text k) as [?|] eqn:Hc; [done|]. intros _.
  destruct (String.length text); cbn [replace_rounds]; [done|]. by rewrite Hc.
Qed.
