(* ===== verification/Llm.v ===== *)
(** * The LLM clients (internal/llm/client.go, prompt.go, claude.go, gemini.go).

    One request, one answer: the clients build the prompt, send it, and turn the
    text that comes back into a [DiagnosisResponse], or say why they could not.
    The HTTP transport and the decoding of the providers' envelopes are
    parameters. *)

From S2P Require Import Prelude GoString GoNum Json ApiTypes KubeTypes Client Signals Correlator Collectors Diagnosis DiagnosisEngine Redact.
From Stdlib Require Import String Ascii.
From stdpp Require Import strings.
Open Scope string_scope.

Definition providerClaude : string := "claude".
Definition providerGemini : string := "gemini".
Definition defaultClaudeModel : string := "claude-sonnet-4-6".
Definition claudeAPIURL : string := "https://api.anthropic.com/v1/messages".
Definition anthropicVersion : string := "2023-06-01".
Definition maxTokens : Z := 512.
Definition defaultGeminiModel : string := "gemini-2.0-flash".
Definition geminiAPIKeyHeader : string := "x-goog-api-key".

Definition newline : string := String (ascii_of_nat 10) "".

(** ** prompt.go *)

Definition systemPrompt : string := "You are a Kubernetes incident diagnosis expert. You are given the output of a
deterministic rule-based diagnosis engine and the raw detection signals.

Your job is to:
1. Provide a clearer, more actionable explanation of the root cause
2. Add context about why this happened and what to watch for
3. Confirm or refine the suggested remediation action
4. Note any patterns from incident history

Be concise (2-4 sentences). Focus on actionable insight, not generic advice.
Do not include caveats about being an AI.".

Definition signal_line (s : SignalContext) : string :=
  "- [" ++ lc_Type s ++ "] " ++ lc_Message s
  ++ (if negb (lc_Resource s =? "") then " (resource: " ++ lc_Resource s ++ ")" else "")
  ++ (if negb (lc_Value s =? "") then " (value: " ++ lc_Value s ++ ")" else "") ++ newline.
Definition buildUserMessage (req : DiagnosisRequest) : string :=
  "Rule-based diagnosis:" ++ newline ++ lr_Summary req ++ newline ++ newline
  ++ "Category: " ++ lr_Category req ++ " | Severity: " ++ lr_Severity req ++ " | Confidence: " ++ fmt_f 2 (lr_Confidence req) ++ newline
  ++ "Suggested action: " ++ lr_SuggestedAction req ++ newline ++ newline
  ++ "Detection signals:" ++ newline ++ String.concat "" (map signal_line (lr_Signals req)).

(** ** The request and the answer *)

(** The bodies, before [json.Marshal]. *)
Inductive LLMBody :=
| ClaudeRequest (model : string) (max_tokens : Z) (system : string) (messages : list (string * string))
| GeminiRequest (contents : list (list string)).
(** A POST: the body stands for its JSON text. *)
Record HttpCall (Body : Type) := mkHttpCall { lmc_URL : string; lmc_Headers : list (string * string); lmc_Body : Body }.
Arguments mkHttpCall {Body}. Arguments lmc_URL {Body}. Arguments lmc_Headers {Body}. Arguments lmc_Body {Body}.

(** The status code, and the body or the error of reading it. *)
Record HttpResponse := mkHttpResponse { hr_StatusCode : Z; hr_Body : result error string }.

(** [http.Client.Do] on the marshalled request. *)
Class Http (Body W : Type) := http_do : HttpCall Body -> io W (result error HttpResponse).
(** [json.Unmarshal] into [claudeResponse] and [geminiResponse]: the texts they hold. *)
Class LLMCodec := {
  claude_contents : string -> result string (list string);
  gemini_parts : string -> result string (list (list string));
}.

(** ** The clients *)

Record LLMConfig := mkLLMConfig { lcf_apiKey : string; lcf_model : string; lcf_baseURL : string }.
Inductive LLMClient := ClaudeClient (c : LLMConfig) | GeminiClient (c : LLMConfig).
Definition client_config (c : LLMClient) : LLMConfig := match c with ClaudeClient c | GeminiClient c => c end.
Definition Provider (c : LLMClient) : string := match c with ClaudeClient _ => providerClaude | GeminiClient _ => providerGemini end.
Definition SetModel (model : string) (c : LLMClient) : LLMClient :=
  match c with
  | ClaudeClient c => ClaudeClient (mkLLMConfig (lcf_apiKey c) model (lcf_baseURL c))
  | GeminiClient c => GeminiClient (mkLLMConfig (lcf_apiKey c) model (lcf_baseURL c))
  end.

Definition NewClient (provider apiKey : string) : result string LLMClient :=
  if (apiKey =? "") then Err ("API key is required for LLM provider " ++ fmt_q provider)
  else if (provider =? providerClaude) then Ok (ClaudeClient (mkLLMConfig apiKey defaultClaudeModel ""))
  else if (provider =? providerGemini) then Ok (GeminiClient (mkLLMConfig apiKey defaultGeminiModel ""))
  else Err ("unknown LLM provider " ++ fmt_q provider ++ " (supported: claude, gemini)").

Definition llm_call (c : LLMClient) (req : DiagnosisRequest) : HttpCall LLMBody :=
  match c with
  | ClaudeClient c =>
      mkHttpCall (if (lcf_baseURL c =? "") then claudeAPIURL else lcf_baseURL c)
        [("Content-Type", "application/json"); ("x-api-key", lcf_apiKey c); ("anthropic-version", anthropicVersion)]
        (ClaudeRequest (lcf_model c) maxTokens systemPrompt [("user", buildUserMessage req)])
  | GeminiClient c =>
      mkHttpCall (if (lcf_baseURL c =? "") then "https://generativelanguage.googleapis.com/v1beta/models/" ++ lcf_model c ++ ":generateContent" else lcf_baseURL c)
        [("Content-Type", "application/json"); (geminiAPIKeyHeader, lcf_apiKey c)]
        (GeminiRequest [[systemPrompt ++ newline ++ newline ++ buildUserMessage req]])
  end.

Definition known_actions : list string := ["resource-adjustment"; "restart"; "rollback"; "scale-up"; "deployment-fix"; "investigate"].
Definition parseEnhancedResponse (text : string) : DiagnosisResponse :=
  let lower := to_lower text in
  mkResponse (trim_space text) (default "" (find_first (fun action => contains lower action) known_actions)).

(** The first text of the answer; an envelope without one is an error. *)
Definition answer_text `{LLMCodec} (c : LLMClient) (body : string) : result error string :=
  match c with
  | ClaudeClient _ =>
      match claude_contents body with
      | Err e => Err (ErrWrap "unmarshal response" (ErrText e))
      | Ok (text :: _) => Ok text
      | Ok [] => Err (ErrText "empty response from Claude API")
      end
  | GeminiClient _ =>
      match gemini_parts body with
      | Err e => Err (ErrWrap "unmarshal response" (ErrText e))
      | Ok ((text :: _) :: _) => Ok text
      | Ok _ => Err (ErrText "empty response from Gemini API")
      end
  end.

(** [EnhanceDiagnosis] of both clients. *)
Definition LLM_EnhanceDiagnosis `{Http LLMBody W} `{LLMCodec} (c : LLMClient) (req : DiagnosisRequest) : io W (result error DiagnosisResponse) :=
  let key := lcf_apiKey (client_config c) in
  let! sent := http_do (llm_call c req) in
  mret (match sent with
        | Err e => Err (ErrText ("API call failed: " ++ redactKey (err_string e) key))
        | Ok resp =>
            match hr_Body resp with
            | Err e => Err (ErrWrap "read response" e)
            | Ok body =>
                if negb (hr_StatusCode resp =? 200)%Z
                then Err (ErrText ("API returned status " ++ fmt_d (hr_StatusCode resp) ++ ": " ++ redactKey body key))
                else match answer_text c body with Ok text => Ok (parseEnhancedResponse text) | Err e => Err e end
            end
        end).

(** A client as the diagnosis engine's LLM. *)
Definition client_llm `{Http LLMBody W} `{LLMCodec} (c : LLMClient) : LLM W := LLM_EnhanceDiagnosis c.

(** ** Properties *)

(** A status line has three digits. *)
Class HttpLaws `{Http Body W} : Prop :=
  http_status call w resp : (http_do call w).1 = Ok resp -> (0 <= hr_StatusCode resp < 1000)%Z.

Lemma fmt_status z : (0 <= z < 1000)%Z -> (String.length (fmt_d z) <= 3)%nat.
Proof.
  intros Hz. assert (Hall : forallb (fun n => (String.length (fmt_d (Z.of_nat n)) <=? 3)%nat) (seq 0 1000) = true) by (vm_compute; reflexivity).
  rewrite forallb_forall in Hall. specialize (Hall (Z.to_nat z)). rewrite Z2Nat.id in Hall by lia. apply Nat.leb_le, Hall, in_seq. lia.
Qed.

Lemma contains_word word rest k : key_like k = true -> (String.length word < 20)%nat -> contains (word ++ String " " rest) k = contains rest k.
Proof.
  intros Hk Hw. pose proof (key_like_inv k Hk) as (Hl & Hs & _ & _ & Hne). rewrite contains_split by done.
  destruct (contains word k) eqn:Hc; [|done]. apply contains_length in Hc. lia.
Qed.

Lemma short_clean text k : key_like k = true -> (String.length text < 20)%nat -> contains text k = false.
Proof. intros Hk%key_like_inv Ht. destruct (contains text k) eqn:Hc; [|done]. apply contains_length in Hc. lia. Qed.

Section llm_props.
Context {W} `{!Http LLMBody W} `{!HttpLaws (W := W)} `{LLMCodec}.

Lemma call_failed_clean text k : key_like k = true -> contains ("API call failed: " ++ redactKey text k) k = false.
Proof.
  intros Hk. change ("API call failed: " ++ redactKey text k) with ("API" ++ String " " ("call" ++ String " " ("failed:" ++ String " " (redactKey text k)))).
  rewrite !contains_word by (done || (cbn; lia)). by apply redactKey_removes.
Qed.

Lemma status_clean status text k : key_like k = true -> (0 <= status < 1000)%Z ->
  contains ("API returned status " ++ fmt_d status ++ ": " ++ redactKey text k) k = false.
Proof.
  intros Hk Hs. pose proof (fmt_status status Hs) as Hl.
  assert (Hshape : "API returned status " ++ fmt_d status ++ ": " ++ redactKey text k =
    "API" ++ String " " ("returned" ++ String " " ("status" ++ String " " ((fmt_d status ++ ":") ++ String " " (redactKey text k))))).
  { rewrite str_app_assoc. done. }
  rewrite Hshape, !contains_word by (done || (rewrite ?str_length_app; cbn; lia)). by apply redactKey_removes.
Qed.


(** What an answer can do to a diagnosis: its words become the summary, and the
    suggested action stays or becomes the first of six known actions, in a fixed
    order, that the text mentions anywhere. *)
Theorem answer_names_a_known_action (text : string) (base : Diagnosis) (now : time) :
  let d := enhanceDiagnosis base (parseEnhancedResponse text) now in
  (d_SuggestedAction d = d_SuggestedAction base /\ forallb (fun action => negb (contains (to_lower text) action)) known_actions = true \/
   exists before after, known_actions = (before ++ d_SuggestedAction d :: after)%list /\ contains (to_lower text) (d_SuggestedAction d) = true /\
     forallb (fun action => negb (contains (to_lower text) action)) before = true) /\
  (d_Summary d = d_Summary base <-> trim_space text = "" \/ trim_space text = d_Summary base).
Proof.
  cbv zeta. unfold enhanceDiagnosis, parseEnhancedResponse. cbn [d_SuggestedAction d_Summary ls_EnhancedSummary ls_RecommendedAction]. split.
  - destruct (find_first _ known_actions) as [action|] eqn:Hf; cbn [from_option id].
    + right. apply find_first_split in Hf as (before & after & Hk & Ha & Hb).
      assert (Hne : (action =? "") = false).
      { apply String.eqb_neq. intros ->. assert (Hin : "" ∈ known_actions) by (rewrite Hk; apply elem_of_app; right; left).
        unfold known_actions in Hin. rewrite !elem_of_cons, elem_of_nil in Hin. naive_solver. }
      rewrite Hne. exists before, after. split_and!; [done..|]. apply forallb_forall. intros x Hx. apply negb_true_iff. by apply Hb, list_elem_of_In.
    + left. split; [done|]. apply forallb_forall. intros x Hx. apply negb_true_iff. by apply (proj1 (find_first_None _ _) Hf), list_elem_of_In.
  - destruct (String.eqb_spec (trim_space text) "") as [->|Hne]; [tauto|]. split; [by right|]. by intros [?|?].
Qed.
End llm_props.

(** ** Witness: a provider that echoes the key it rejects *)

#[local] Instance echoing : Http LLMBody unit := fun call _ =>
  (Ok (mkHttpResponse 401 (Ok ("invalid key " ++ default "" (snd <$> find_first (fun h => (h.1 =? "x-api-key")) (lmc_Headers call)) ++ "!"))), tt).
#[local] Instance echoing_laws : HttpLaws (W := unit).
Proof. intros call [] resp [= <-]. cbn. lia. Qed.
#[local] Instance no_texts : LLMCodec := {| claude_contents _ := Err "unexpected end of JSON input"; gemini_parts _ := Err "unexpected end of JSON input" |}.

Definition ex_llm : LLMClient := ClaudeClient (mkLLMConfig "sk-ant-0123456789abcdef" defaultClaudeModel "").
Definition ex_llm_request : DiagnosisRequest := mkRequest "" "" "" f_one "" [].

