(* ===== verification/PlanPrompt.v ===== *)
(** * The planner's prompt and request (internal/remediation/planner/prompt.go, claude.go).

    The text the model reads is built from the context section by section; the
    tool schema it must answer in is a JSON document.  [plan_transport] is the
    planner's side of the HTTP exchange. *)

From S2P Require Import Prelude GoString GoNum Json ApiTypes KubeTypes Client Steps Signals Diagnosis Executor Planner Redact Llm.
From Stdlib Require Import String Ascii.
From stdpp Require Import strings.
Open Scope string_scope.

Definition planMaxTokens : Z := 2048.
Definition planToolDescription : string := "Submit the ordered remediation plan as structured data. Call this exactly once.".

Definition planSystemPrompt : string := ("You are a senior Site Reliability Engineer acting as a Kubernetes remediation planner.

You are given a diagnosed incident plus rich context: the LIVE workload as read
from the cluster, the affected application's persona (an imported snapshot of
desired spec, which drifts and is often stale), the cluster's self-healing
policy and environment, the recent incident history for this application, and the
OUTCOMES of past remediations (which prior fixes succeeded, failed, or were rolled back).

Produce a correct, ORDERED remediation plan by calling the submit_remediation_plan tool.

GROUNDING (the highest-priority rules; a wrong fact is worse than a missing one):
G1. The " ++ dquote ++ "Live workload" ++ dquote ++ " section is the only source of truth for what is running
   NOW. Every number, image tag, limit, request and replica count you state as
   current MUST be copied from it.
G2. The persona is a point-in-time import. Its values may be months out of date
   and may describe fields the workload does not have. NEVER present a persona
   value as the current state, and never compute from one when a live value
   exists.
G3. Size every change against the LIVE value. " ++ dquote ++ "No more than ~2x" ++ dquote ++ " means no more
   than twice what the live workload has, not twice what the persona records.
G4. Only change resource keys the live workload ALREADY sets. If the live
   container has no CPU limit, do not add one as part of an unrelated fix.
   If adding a key is genuinely the fix, it must be its own step whose
   description says plainly that a new field is being introduced and why.
G5. Never assert a version, tag or release you have not read in the context
   above. The live image and the " ++ dquote ++ "Prior images on record" ++ dquote ++ " list are the only
   versions you may name. If the right version is not among them, say you
   cannot verify it and prefer a rollback (kubectl rollout undo) or an explicit
   instruction to the operator to pick a known-good tag. Do not describe a tag
   as " ++ dquote ++ "latest" ++ dquote ++ " or " ++ dquote ++ "stable" ++ dquote ++ " unless the context says so.
G6. Do not claim to have queried anything you were not given. You did not query
   an image registry, a metrics backend, or an external API.
G7. Never say whether a change is within, under, or outside any cap, ceiling,
   guardrail or budget, and never cite a multiplier as evidence that it complies.
   Dorgu computes that ratio itself and prints its own verdict beside your text,
   so a claim like " ++ dquote ++ "well within a 2x ceiling" ++ dquote ++ " beside a 16x change is simply
   contradicted in the next line. State the values you propose and why they are
   right for the workload. Say nothing about limits on your own proposal.

OWNERSHIP (what you may tell the reader to run):
O1. The live workload section states managedBy. When it is anything other than
   " ++ dquote ++ "unmanaged" ++ dquote ++ ", another system owns that Deployment's desired state.
O2. For an owned workload, NEVER suggest a command that writes to it (no
   kubectl patch, set, apply, edit, scale, replace, delete, annotate, label, or
   rollout undo/restart). A direct write takes field ownership and makes the
   owner's next apply fail or silently revert the fix.
O3. Instead, tell the reader exactly what to change in the owner's source of
   truth: the values file for a Helm release, the Git manifests for an ArgoCD
   application or a Flux source, the overlay for kustomize. Name the owner.
O4. managedBy " ++ dquote ++ "unknown" ++ dquote ++ " is treated as owned. Do not suggest workload writes.
O5. Read-only commands (kubectl get, describe, logs, top, events, rollout
   status/history) are fine for any workload.
O6. persona-update steps are unaffected by all of this. The operator patches the
   ApplicationPersona, never the workload, so those steps stay safe and
   auto-applied whoever owns the Deployment.

Rules you MUST follow:
1. Order steps by execution sequence, starting at 1.
2. Each step has a type: one of persona-update, workload-apply, restart, scale,
   config-change, manual.
3. ONLY persona-update steps are auto-applied by the operator. They MUST carry a
   " ++ dquote ++ "patch" ++ dquote ++ ": a JSON merge patch against the ApplicationPersona spec, e.g.
   {" ++ dquote ++ "spec" ++ dquote ++ ":{" ++ dquote ++ "resources" ++ dquote ++ ":{" ++ dquote ++ "limits" ++ dquote ++ ":{" ++ dquote ++ "memory" ++ dquote ++ ":" ++ dquote ++ "512Mi" ++ dquote ++ "}}}}. Never put a workload
   (Deployment/Pod) patch here — the operator never writes workloads directly.
   A persona-update step with no patch applies nothing. It is not a plan, it is a
   sentence, and Dorgu will overwrite it with its own computed patch.
3a. A change to the container's CPU or memory requests or limits is ALWAYS a
   persona-update step carrying a patch. Never express a resource change as
   workload-apply: Dorgu applies resource changes by patching the
   ApplicationPersona, and the CLI takes it from there with the user's own
   credentials. workload-apply is for changes the persona cannot carry, such as
   an image tag.
3b. Emit at most ONE persona-update step, and put every persona-spec field the
   fix changes in its single patch. Do not restate the same resource change as a
   second advisory step: the reader would be told to make by hand a change that
   is already being applied for them.
4. All other step types are ADVISORY: they describe an action for a human, CLI,
   or platform to apply. Do not include a patch on them.
4a. When an advisory step can be carried out by ONE kubectl command AND the
   command is permitted for this workload's owner (see O1-O5), include it as
   " ++ dquote ++ "command" ++ dquote ++ ", fully resolved with the real namespace, workload, container and
   value from the Live workload section (e.g. " ++ dquote ++ "kubectl set image
   deployment/web web=nginx:1.27-alpine -n demo" ++ dquote ++ "). A reader should be able to
   paste it and be done. Constraints: a single line, starting with " ++ dquote ++ "kubectl " ++ dquote ++ ",
   and containing none of ; & | < > $ or backticks. If no single command does
   the job, the workload is owned, or you would have to guess at a name, omit
   " ++ dquote ++ "command" ++ dquote ++ " and say what to do in the description instead. Never guess.
5. Respect the cluster's self-healing policy and trust level. Size resource
   changes conservatively: no more than about twice the LIVE value (per G3).
   Size it and move on; per G7, do not comment on whether it complies.
6. PREFER approaches that succeeded in past remediations for this app; AVOID
   approaches that previously failed or were rolled back.
7. Give a concise rootCause and a confidence between 0 and 1.
8. Each step needs a short description, a rationale, and a risk (low|medium|high).

Be specific and actionable. Do not include caveats about being an AI.").

(** ** The tool schema *)

Definition jobj (fields : list (string * json)) : json := JObj (list_to_map fields).
Definition described (type description : string) : json := jobj [("type", JStr type); ("description", JStr description)].
Definition enumerated (values : list string) (description : string) : json :=
  jobj [("type", JStr "string"); ("enum", JArr (map JStr values)); ("description", JStr description)].

Definition schema_step_types : list string := ["persona-update"; "workload-apply"; "restart"; "scale"; "config-change"; "manual"].
Definition schema_risks : list string := ["low"; "medium"; "high"].
Definition step_schema : json :=
  jobj [("type", JStr "object"); ("additionalProperties", JBool false);
    ("properties", jobj [
      ("order", described "integer" "1-based execution order.");
      ("type", enumerated schema_step_types "Step type. Only persona-update is auto-applied.");
      ("description", described "string" "Human-readable summary of the action.");
      ("rationale", described "string" "Why this step is proposed.");
      ("risk", enumerated schema_risks "Assessed risk of applying this step.");
      ("patch", described "string" ("REQUIRED on every persona-update step: a JSON merge patch (as a JSON-encoded string) against the ApplicationPersona spec, e.g. {" ++ dquote ++ "spec" ++ dquote ++ ":{" ++ dquote ++ "resources" ++ dquote ++ ":{" ++ dquote ++ "limits" ++ dquote ++ ":{" ++ dquote ++ "memory" ++ dquote ++ ":" ++ dquote ++ "512Mi" ++ dquote ++ "}}}}. A persona-update step without this applies nothing and will be replaced by Dorgu's own computed patch. Any change to container requests or limits belongs here, never on a workload-apply step. Omit for advisory steps."));
      ("command", described "string" ("For advisory steps only: one ready-to-run kubectl command that carries out this step, fully resolved with real names, e.g. " ++ dquote ++ "kubectl set image deployment/web web=nginx:1.27-alpine -n demo" ++ dquote ++ ". Single line, must start with " ++ dquote ++ "kubectl " ++ dquote ++ ", must not contain ; & | < > $ or backticks. Omit when no single command does the job or a name would have to be guessed."))]);
    ("required", JArr (map JStr ["order"; "type"; "description"; "rationale"; "risk"]))].
Definition planToolSchema : json :=
  jobj [("type", JStr "object"); ("additionalProperties", JBool false);
    ("properties", jobj [
      ("rootCause", described "string" "Concise root-cause explanation for the incident.");
      ("confidence", described "number" "Confidence in the plan, between 0 and 1.");
      ("steps", jobj [("type", JStr "array"); ("description", JStr "Ordered remediation steps."); ("items", step_schema)])]);
    ("required", JArr (map JStr ["rootCause"; "confidence"; "steps"]))].

(** ** The user message *)

Definition line (s : string) : string := s ++ newline.
Definition fmt_t (b : bool) : string := if b then "true" else "false".
Definition valueOrNone (s : string) : string := if (s =? "") then "(unknown)" else s.

Definition plan_signal_line (s : Signal) : string :=
  line ("- [" ++ sig_Type s ++ "] " ++ sig_Message s
    ++ (if negb (rr_Kind (sig_Resource s) =? "") then " (resource: " ++ rr_Kind (sig_Resource s) ++ "/" ++ rr_Name (sig_Resource s) ++ ")" else "")
    ++ (match sig_Value s with Some v => " (value: " ++ fmt_f 1 v ++ ")" | None => "" end)).

Definition describeResourceValues (v : option ResourceValues) : string :=
  match v with
  | None => "none set (adding one would introduce a field the workload does not have)"
  | Some v => "cpu=" ++ (if negb (rv_CPU v =? "") then rv_CPU v else "NOT SET (do not introduce)")
      ++ " memory=" ++ (if negb (rv_Memory v =? "") then rv_Memory v else "NOT SET (do not introduce)")
  end.
Definition writeObservedResources (res : option ObservedResources) : string :=
  match res with
  | None => line "Live resources: the container sets NO requests and NO limits. Do not add one as a side effect of another fix."
  | Some res => line ("Live limits: " ++ describeResourceValues (or_Limits res)) ++ line ("Live requests: " ++ describeResourceValues (or_Requests res))
  end.

Section message.
Context `{QuantityOps}.

(** A nil workload context and one without a reference read the same. *)
Definition writeLiveWorkload (w : option WorkloadContext) : string :=
  line "## Live workload (ground truth, read from the cluster just now)" ++
  match w with
  | None =>
      line "(no Deployment could be resolved for this application)"
      ++ line "Because the live workload is unreadable, you may not state any current"
      ++ line "resource value, image tag or replica count as fact. Say what you cannot see." ++ newline
  | Some w =>
      let ref := wx_Ref w in
      line (wr_Kind ref ++ ": " ++ wr_Namespace ref ++ "/" ++ wr_Name ref ++ " | container: " ++ wr_Container ref)
      ++ line ("Image (running now): " ++ valueOrNone (wr_ObservedImage ref))
      ++ line ("Replicas: desired=" ++ fmt_d (wx_Replicas w) ++ " ready=" ++ fmt_d (wx_ReadyReplicas w))
      ++ writeObservedResources (wr_ObservedResources ref)
      ++ (match wx_PriorImages w with
          | [] => line "Prior images on record: (none) - you have no verified previous tag to roll back to."
          | images => line ("Prior images on record (read by Dorgu, safe to name): " ++ strings_join ", " images)
          end)
      ++ line ("managedBy: " ++ (if negb (wr_ManagedByDetail ref =? "") then wr_ManagedBy ref ++ " (" ++ wr_ManagedByDetail ref ++ ")" else wr_ManagedBy ref))
      ++ (if WorkloadRef_IsOwned (Some ref)
          then line "This workload is OWNED. Do not suggest any command that writes to it; tell the reader what to change in the owner's source of truth instead."
          else line "Nothing reconciles this workload, so a direct kubectl command is the right instruction to give.")
      ++ newline
  end.

Definition persona_values (what : string) (v : option ResourceValues) : string :=
  match v with Some v => line ("Persona-recorded " ++ what ++ " (NOT current): cpu=" ++ rv_CPU v ++ " memory=" ++ rv_Memory v) | None => "" end.
Definition writeAppPersona (p : option ApplicationPersona) : string :=
  line "## Application persona (imported snapshot of INTENT, may be stale)" ++
  match p with
  | None => line "(unavailable)" ++ newline
  | Some p =>
      let spec := ap_Spec p in
      line ("Name: " ++ aps_Name spec ++ " | Type: " ++ aps_Type spec ++ " | Tier: " ++ aps_Tier spec)
      ++ persona_values "limits" (aps_Resources spec ≫= rsc_Limits)
      ++ persona_values "requests" (aps_Resources spec ≫= rsc_Requests)
      ++ (match apst_Learned (ap_Status p) ≫= lp_ResourceBaseline with
          | Some b => line ("Learned baseline: avgCPU=" ++ rb_AvgCPU b ++ " avgMemory=" ++ rb_AvgMemory b ++ " peakCPU=" ++ rb_PeakCPU b ++ " peakMemory=" ++ rb_PeakMemory b)
          | None => ""
          end)
      ++ newline
  end.

Definition writeClusterPersona (cp : option ClusterPersona) : string :=
  line "## Cluster policy" ++
  match cp with
  | None => line "(no ClusterPersona configured)" ++ newline
  | Some cp =>
      line ("Environment: " ++ cp_Environment cp)
      ++ (match cp_SelfHealing cp with
          | Some sh =>
              line ("Self-healing: enabled=" ++ fmt_t (shp_Enabled sh) ++ " mode=" ++ shp_Mode sh ++ " trustLevel=" ++ fmt_d (shp_TrustLevel sh)
                    ++ " maxRemediationsPerHour=" ++ fmt_d (shp_MaxRemediationsPerHour sh))
              ++ line "The target namespace is not excluded by policy."
          | None => ""
          end)
      ++ newline
  end.

Definition incident_line (im : IncidentMemory) : string :=
  let s := im_Spec im in
  line ("- signal=" ++ di_Signal (im_Detection s) ++ " category=" ++ im_Category s ++ " severity=" ++ im_Severity s ++ " phase=" ++ im_Phase im
        ++ " occurrences=" ++ fmt_d (ims_OccurrenceCount (im_Status im))).
Definition writePastIncidents (incidents : list IncidentMemory) : string :=
  line "## Past incidents for this application" ++
  match incidents with [] => line "(none)" ++ newline | _ => String.concat "" (map incident_line incidents) ++ newline end.

Definition remediation_line (ra : RemediationAction) : string :=
  let phase := if (ra_Phase ra =? "") then "Unknown" else ra_Phase ra in
  let verification := if (ras_VerificationResult (ra_Status ra) =? "") then "n/a" else ras_VerificationResult (ra_Status ra) in
  line ("- type=" ++ ad_Type (ra_Action (ra_Spec ra)) ++ " phase=" ++ phase ++ " verification=" ++ verification
        ++ " explanation=" ++ fmt_q (ra_Explanation (ra_Spec ra))).
Definition writePastRemediations (remediations : list RemediationAction) : string :=
  line "## Past remediation outcomes" ++
  match remediations with [] => line "(none)" ++ newline | _ => String.concat "" (map remediation_line remediations) ++ newline end.

Definition buildPlanUserMessage (rc : RemediationContext) : string :=
  let d := rx_Diagnosis rc in
  line "## Diagnosis" ++ line ("Summary: " ++ d_Summary d)
  ++ line ("Category: " ++ d_Category d ++ " | Severity: " ++ d_Severity d ++ " | Confidence: " ++ fmt_f 2 (d_Confidence d)
           ++ " | Suggested action: " ++ d_SuggestedAction d) ++ newline
  ++ line "## Signals" ++ (match rx_Signals rc with [] => line "(none)" | signals => String.concat "" (map plan_signal_line signals) end) ++ newline
  ++ writeLiveWorkload (rx_Workload rc) ++ writeAppPersona (rx_AppPersona rc) ++ writeClusterPersona (rx_ClusterPersona rc)
  ++ writePastIncidents (rx_PastIncidents rc) ++ writePastRemediations (rx_PastRemediations rc).
End message.

(** ** The request *)

Record ClaudePlanner := mkClaudePlanner { cpl_apiKey : string; cpl_model : string; cpl_baseURL : string }.
Definition NewClaudePlanner (apiKey : string) : result string ClaudePlanner :=
  if (apiKey =? "") then Err "planner: API key is required" else Ok (mkClaudePlanner apiKey defaultClaudeModel "").
Definition planner_SetModel (model : string) (c : ClaudePlanner) : ClaudePlanner :=
  if negb (model =? "") then mkClaudePlanner (cpl_apiKey c) model (cpl_baseURL c) else c.

Record claudeTool := mkTool { tl_Name : string; tl_Description : string; tl_InputSchema : json; tl_Strict : bool }.
Record PlanRequest := mkPlanRequest {
  pq_Model : string; pq_MaxTokens : Z; pq_System : string; pq_Tools : list claudeTool; pq_ToolChoice : string * string; pq_Messages : list (string * string) }.

Section request.
Context `{QuantityOps}.
Definition plan_request (c : ClaudePlanner) (rc : RemediationContext) : PlanRequest :=
  mkPlanRequest (cpl_model c) planMaxTokens planSystemPrompt [mkTool planToolName planToolDescription planToolSchema true] ("tool", planToolName)
    [("user", buildPlanUserMessage rc)].
Definition plan_call (c : ClaudePlanner) (rc : RemediationContext) : HttpCall PlanRequest :=
  mkHttpCall (if (cpl_baseURL c =? "") then claudeAPIURL else cpl_baseURL c)
    [("Content-Type", "application/json"); ("x-api-key", cpl_apiKey c); ("anthropic-version", anthropicVersion)] (plan_request c rc).

(** The exchange behind [callOnce], up to the status check. *)
Definition plan_transport {W} `{!Http PlanRequest W} (c : ClaudePlanner) : Transport W := fun rc =>
  let! sent := http_do (plan_call c rc) in
  mret (match sent with
        | Err e => Err (ErrWrap "planner: API call failed" e)
        | Ok resp => match hr_Body resp with
                     | Err e => Err (ErrWrap "planner: read response" e)
                     | Ok body => Ok (hr_StatusCode resp, body)
                     end
        end).
End request.

(** ** Properties *)

(** The schema offers the six step types the steps have, and asks for neither a
    patch nor a command. *)
Example schema_types_known :
  schema_step_types = [StepTypePersonaUpdate; StepTypeWorkloadApply; StepTypeRestart; StepTypeScale; StepTypeConfigChange; StepTypeManual] /\
  json_at ["properties"; "steps"; "items"; "properties"; "type"; "enum"] planToolSchema = Some (JArr (map JStr schema_step_types)) /\
  json_at ["properties"; "steps"; "items"; "required"] planToolSchema = Some (JArr (map JStr ["order"; "type"; "description"; "rationale"; "risk"])).
Proof. split_and!; reflexivity. Qed.

Section prompt_props.
Context `{QuantityOps}.

Definition with_cluster (cp : option ClusterPersona) (rc : RemediationContext) : RemediationContext :=
  mkRemediationContext (rx_Diagnosis rc) (rx_Signals rc) (rx_AppPersona rc) (rx_Workload rc) cp (rx_PastIncidents rc) (rx_PastRemediations rc).

(** What the prompt shows of a ClusterPersona. *)
Definition shown (cp : ClusterPersona) : string * option (bool * string * Z * Z) :=
  (cp_Environment cp, (fun sh => (shp_Enabled sh, shp_Mode sh, shp_TrustLevel sh, shp_MaxRemediationsPerHour sh)) <$> cp_SelfHealing cp).

(** The model learns of the cluster's policy its environment and four numbers
    and words.  Two clusters that differ in anything else, the namespaces they
    exclude first of all, give the model the same text, whatever the rest of the
    context is; and the request differs from one key to another in its headers only. *)
Theorem prompt_hides_exclusions (rc : RemediationContext) (cp cp' : ClusterPersona) :
  shown cp = shown cp' ->
  buildPlanUserMessage (with_cluster (Some cp) rc) = buildPlanUserMessage (with_cluster (Some cp') rc) /\
  forall c c', cpl_model c = cpl_model c' -> cpl_baseURL c = cpl_baseURL c' ->
    plan_request c (with_cluster (Some cp) rc) = plan_request c' (with_cluster (Some cp') rc) /\
    lmc_URL (plan_call c (with_cluster (Some cp) rc)) = lmc_URL (plan_call c' (with_cluster (Some cp') rc)).
Proof.
  unfold shown. intros [= Henv Hsh].
  assert (Hcp : writeClusterPersona (Some cp) = writeClusterPersona (Some cp')).
  { unfold writeClusterPersona. rewrite Henv. destruct (cp_SelfHealing cp), (cp_SelfHealing cp'); cbn in Hsh; try done. by injection Hsh as -> -> -> ->. }
  assert (Hmsg : buildPlanUserMessage (with_cluster (Some cp) rc) = buildPlanUserMessage (with_cluster (Some cp') rc)).
  { unfold buildPlanUserMessage. cbn [with_cluster rx_ClusterPersona rx_Diagnosis rx_Signals rx_AppPersona rx_Workload rx_PastIncidents rx_PastRemediations]. by rewrite Hcp. }
  split; [exact Hmsg|]. intros c c' Hm Hb. unfold plan_request, plan_call. cbn [lmc_URL]. by rewrite Hmsg, Hm, Hb.
Qed.

Lemma contains_app_r a b k : contains b k = true -> contains (a ++ b) k = true.
Proof. rewrite !contains_spec. intros (x & y & ->). exists (a ++ x), y. by rewrite str_app_assoc. Qed.

(** Unlike the clients of internal/llm, the planner does not redact: a body that
    echoes the key it rejects is repeated in the error. *)
Lemma planner_repeats_the_key `{!Http PlanRequest W} `{PlanCodec} (c : ClaudePlanner) (rc : RemediationContext) (status : Z) (body : string) (w w' : W) :
  http_do (plan_call c rc) w = (Ok (mkHttpResponse status (Ok body)), w') -> status <> 200%Z -> contains body (cpl_apiKey c) = true ->
  exists e, @callOnce _ _ W (plan_transport c) rc w = (CallErr e, w') /\ contains (err_string e) (cpl_apiKey c) = true.
Proof.
  intros Hdo Hs Hk. unfold callOnce, post_plan, plan_transport, mbind, io_bind. rewrite Hdo. cbn [mret io_ret hr_Body hr_StatusCode].
  apply Z.eqb_neq in Hs. rewrite Hs. cbn [negb]. eexists. split; [done|].
  change (err_string _) with ("planner: API returned status " ++ fmt_d status ++ ": " ++ body). by do 3 apply contains_app_r.
Qed.
End prompt_props.

(** ** Witnesses *)

#[local] Existing Instance int_quantity.

Definition ex_policy (excluded : list string) : ClusterPersona :=
  mkCP (mkMeta "dorgu-cluster" "" ∅ 0%Z None 0) (Some (Some (mkSelfHealing true "propose" 2 5 excluded None))) ∅ "dorgu-cluster" "" "production" empty_cluster_status.
Definition ex_plan_context : RemediationContext := mkRemediationContext ex_planned_diagnosis [] None None None [] [].

Lemma prompt_hides_exclusions_witness :
  buildPlanUserMessage (with_cluster (Some (ex_policy ["payments"])) ex_plan_context) = buildPlanUserMessage (with_cluster (Some (ex_policy [])) ex_plan_context).
Proof. apply (prompt_hides_exclusions ex_plan_context (ex_policy ["payments"]) (ex_policy [])). reflexivity. Defined.
