(* ===== verification/PrometheusClient.v ===== *)
(** * The Prometheus client (internal/metrics/prometheus_client.go).

    Four instant queries make up a resource baseline; each takes the value of the
    first series of its answer.  The HTTP exchange and the decoding of the
    envelope are parameters. *)

From S2P Require Import Prelude GoString GoNum Json ApiTypes KubeTypes Client PersonaController Redact.
From Stdlib Require Import String Ascii.
From stdpp Require Import strings.
Open Scope string_scope.

(** [PrometheusResponse], as far as it is read: the status, and of each series
    its [value] pair. *)
Record PrometheusResponse := mkPromResponse { pmr_Status : string; pmr_Result : list (list json) }.
Class PromCodec := decode_prometheus : string -> result error PrometheusResponse.

(** A GET: status code, status text and body; the body of a failed read is what was read. *)
Record GetResponse := mkGetResponse { gr_StatusCode : Z; gr_Status : string; gr_Body : string }.
Class HttpGet (W : Type) := http_get : string -> io W (result error GetResponse).

(** ** [url.Values.Encode] of one parameter *)

Definition upper_hex (n : N) : ascii := if (n <? 10)%N then ascii_of_N (48 + n) else ascii_of_N (55 + n).
Definition unreserved (c : ascii) : bool :=
  is_lower c || is_upper c || is_digit c || Ascii.eqb c "-" || Ascii.eqb c "_" || Ascii.eqb c "." || Ascii.eqb c "~".
Definition escape_byte (c : ascii) : string :=
  if unreserved c then String c ""
  else if Ascii.eqb c " " then "+"
  else String "%" (String (upper_hex (N_of_ascii c / 16)) (String (upper_hex (N_of_ascii c mod 16)) "")).
Fixpoint QueryEscape (s : string) : string := match s with "" => "" | String c s => escape_byte c ++ QueryEscape s end.

(** ** The queries *)

Definition avgCPU_query (namespace appName : string) : string :=
  ("avg(rate(container_cpu_usage_seconds_total{namespace=" ++ dquote ++ "" ++ namespace ++ "" ++ dquote ++ ",pod=~" ++ dquote ++ "" ++ appName ++ ".*" ++ dquote ++ ",container!=" ++ dquote ++ "POD" ++ dquote ++ ",container!=" ++ dquote ++ "" ++ dquote ++ "}[5m])) * 1000").
Definition avgMemory_query (namespace appName : string) : string :=
  ("avg(container_memory_working_set_bytes{namespace=" ++ dquote ++ "" ++ namespace ++ "" ++ dquote ++ ",pod=~" ++ dquote ++ "" ++ appName ++ ".*" ++ dquote ++ ",container!=" ++ dquote ++ "POD" ++ dquote ++ ",container!=" ++ dquote ++ "" ++ dquote ++ "})").
Definition peakCPU_query (namespace appName : string) : string :=
  ("max_over_time(rate(container_cpu_usage_seconds_total{namespace=" ++ dquote ++ "" ++ namespace ++ "" ++ dquote ++ ",pod=~" ++ dquote ++ "" ++ appName ++ ".*" ++ dquote ++ ",container!=" ++ dquote ++ "POD" ++ dquote ++ ",container!=" ++ dquote ++ "" ++ dquote ++ "}[5m])[1h:]) * 1000").
Definition peakMemory_query (namespace appName : string) : string :=
  ("max_over_time(container_memory_working_set_bytes{namespace=" ++ dquote ++ "" ++ namespace ++ "" ++ dquote ++ ",pod=~" ++ dquote ++ "" ++ appName ++ ".*" ++ dquote ++ ",container!=" ++ dquote ++ "POD" ++ dquote ++ ",container!=" ++ dquote ++ "" ++ dquote ++ "}[1h])").

Definition mebi : f64 := f_of_Z (1024 * 1024).
Definition gibi : f64 := f_of_Z (1024 * 1024 * 1024).
Definition formatMemory (bytes : f64) : string :=
  if f_le gibi bytes then fmt_f 1 (fdiv bytes gibi) ++ "Gi" else fmt_f 0 (fdiv bytes mebi) ++ "Mi".
Definition format_cpu (value : f64) : string := fmt_f 0 value ++ "m".

Definition parse_value (s : string) : result error f64 :=
  match ParseFloat s with Some v => Ok v | None => Err (ErrText ("strconv.ParseFloat: parsing " ++ fmt_q s ++ ": invalid syntax")) end.

(** What one answer comes to. *)
Definition first_value (resp : PrometheusResponse) : result error f64 :=
  if negb (pmr_Status resp =? "success") then Err (ErrText ("prometheus query failed: " ++ pmr_Status resp))
  else match pmr_Result resp with
       | [] => Err (ErrText "no results")
       | value :: _ =>
           match value with
           | _ :: JStr s :: _ => parse_value s
           | _ :: _ :: _ => Err (ErrText "invalid value type")
           | _ => Err (ErrText "invalid result format")
           end
       end.

Section client.
Context `{HttpGet W} `{PromCodec}.

Definition prom_query (baseURL promQL : string) : io W (result error f64) :=
  let* resp := http_get (baseURL ++ "/api/v1/query" ++ "?" ++ "query=" ++ QueryEscape promQL) in
  if negb (gr_StatusCode resp =? 200)%Z
  then ierr (ErrText ("prometheus query failed: " ++ gr_Status resp ++ " - " ++ gr_Body resp))
  else match decode_prometheus (gr_Body resp) with
       | Err e => ierr e
       | Ok resp => mret (first_value resp)
       end.

(** The field's text, empty when its query failed. *)
Definition field (baseURL promQL : string) (format : f64 -> string) : io W string :=
  let! r := prom_query baseURL promQL in
  mret (match r with Ok value => format value | Err _ => "" end).

Definition GetResourceBaseline_http (baseURL namespace appName : string) : io W (result error ResourceBaseline) :=
  if (baseURL =? "") then ierr (ErrText "prometheus URL not configured") else
  let! avgCPU := field baseURL (avgCPU_query namespace appName) format_cpu in
  let! avgMemory := field baseURL (avgMemory_query namespace appName) formatMemory in
  let! peakCPU := field baseURL (peakCPU_query namespace appName) format_cpu in
  let! peakMemory := field baseURL (peakMemory_query namespace appName) formatMemory in
  if (avgCPU =? "") && (avgMemory =? "") && (peakCPU =? "") && (peakMemory =? "")
  then ierr (ErrText ("no metrics found for " ++ namespace ++ "/" ++ appName))
  else iok (mkBaseline avgCPU avgMemory peakCPU peakMemory).

Definition IsAvailable (baseURL : string) : io W bool :=
  if (baseURL =? "") then mret false else
  let! r := http_get (baseURL ++ "/api/v1/status/runtimeinfo") in
  mret (match r with Ok resp => (gr_StatusCode resp =? 200)%Z | Err _ => false end).

(** The persona controller's Prometheus. *)
#[export] Instance prometheus_client : Prometheus W := GetResourceBaseline_http.
End client.

(** ** Properties *)

(** The decoder of the receiving side. *)
Definition hex_value (c : ascii) : N := if is_digit c then N_of_ascii c - 48 else N_of_ascii c - 55.
Fixpoint QueryUnescape (s : string) : string :=
  match s with
  | "" => ""
  | String "%" (String h (String l s)) => String (ascii_of_N (16 * hex_value h + hex_value l)) (QueryUnescape s)
  | String c s => String (if Ascii.eqb c "+" then " "%char else c) (QueryUnescape s)
  end.

Definition all_bytes : list ascii := map ascii_of_nat (seq 0 256).
Lemma all_bytes_complete c : c ∈ all_bytes.
Proof.
  apply list_elem_of_fmap. exists (nat_of_ascii c). split; [by rewrite ascii_nat_embedding|]. apply elem_of_seq. pose proof (nat_ascii_bounded c). lia.
Qed.

Lemma escape_byte_unescape c s : QueryUnescape (escape_byte c ++ s) = String c (QueryUnescape s).
Proof.
  assert (Hall : Forall (fun c => forall s, QueryUnescape (escape_byte c ++ s) = String c (QueryUnescape s)) all_bytes) by repeat constructor.
  rewrite Forall_forall in Hall. apply Hall, all_bytes_complete.
Qed.


Class HttpGetReads `{HttpGet W} : Prop := http_get_reads url w : (http_get url w).2 = w.

Section baseline.
Context `{HttpGetReads W} `{PromCodec}.

(** What the answer to a query is in a world, and the text a field shows for it. *)
Definition value_of (url promQL : string) (w : W) : result error f64 := (prom_query url promQL w).1.
Definition shown_as (format : f64 -> string) (r : result error f64) : string := match r with Ok v => format v | Err _ => "" end.

Lemma prom_query_run url promQL w : prom_query url promQL w = (value_of url promQL w, w).
Proof.
  unfold value_of, prom_query, iobind. rewrite (read_pair _ _ (http_get_reads _ w)). destruct (http_get _ w).1 as [resp|e]; [|done].
  destruct (negb _); [done|]. by destruct (decode_prometheus _).
Qed.
Lemma field_run url promQL format w : field url promQL format w = (shown_as format (value_of url promQL w), w).
Proof. unfold field. by rewrite (bind_read _ _ w _ (prom_query_run url promQL w)). Qed.

Lemma append_not_empty s c : (s ++ String c "" =? "") = false.
Proof. by destruct s. Qed.
Lemma shown_cpu r : (shown_as format_cpu r =? "") = negb (is_ok r).
Proof. destruct r; [|done]. apply append_not_empty. Qed.
Lemma shown_memory r : (shown_as formatMemory r =? "") = negb (is_ok r).
Proof.
  destruct r as [v|]; [|done]. cbn [shown_as is_ok negb]. unfold formatMemory.
  destruct (f_le gibi v); match goal with |- (?a ++ ?b =? "") = _ => destruct a; done end.
Qed.

(** A baseline is never empty and never fails half-way: with a URL it is there
    exactly when one of the four queries has an answer, each field shows its own
    query's answer and is blank without one, and the world is only read. *)
Theorem baseline_of_four_queries (url namespace appName : string) (w : W) :
  url <> "" ->
  let avgCPU := value_of url (avgCPU_query namespace appName) w in
  let avgMemory := value_of url (avgMemory_query namespace appName) w in
  let peakCPU := value_of url (peakCPU_query namespace appName) w in
  let peakMemory := value_of url (peakMemory_query namespace appName) w in
  GetResourceBaseline_http url namespace appName w =
    ((if is_ok avgCPU || is_ok avgMemory || is_ok peakCPU || is_ok peakMemory
      then Ok (mkBaseline (shown_as format_cpu avgCPU) (shown_as formatMemory avgMemory) (shown_as format_cpu peakCPU) (shown_as formatMemory peakMemory))
      else Err (ErrText ("no metrics found for " ++ namespace ++ "/" ++ appName))), w).
Proof.
  cbv zeta. intros Hu%String.eqb_neq. unfold GetResourceBaseline_http. rewrite Hu. do 4 rewrite (bind_read _ _ w _ (field_run _ _ _ w)).
  rewrite !shown_cpu, !shown_memory, <- !negb_orb. by destruct (_ || _).
Qed.
End baseline.

(** ** Examples and witness *)

(** [max_over_time] keeps one series per container; only the first is read, so
    the peak is that of whichever pod comes first. *)
Example peak_is_the_first_series :
  let answer := mkPromResponse "success" [[JNum f_zero; JStr "100"]; [JNum f_zero; JStr "900"]] in
  match first_value answer with Ok v => format_cpu v | Err _ => "" end = "100m".
Proof. vm_compute. reflexivity. Qed.

(** A persona's name is part of the query as it stands: one with a quote in it
    closes the label matcher and asks about the namespace of its choice. *)
Example name_escapes_its_matcher :
  avgMemory_query "shop" ("api" ++ dquote ++ ",namespace=~" ++ dquote ++ "bank") =
  "avg(container_memory_working_set_bytes{namespace=" ++ dquote ++ "shop" ++ dquote ++ ",pod=~" ++ dquote ++ "api" ++ dquote
    ++ ",namespace=~" ++ dquote ++ "bank.*" ++ dquote ++ ",container!=" ++ dquote ++ "POD" ++ dquote ++ ",container!=" ++ dquote ++ dquote ++ "})".
Proof. reflexivity. Qed.

#[local] Instance scripted : HttpGet unit := fun url _ =>
  (if contains url "max_over_time" then Err (ErrText "timeout") else Ok (mkGetResponse 200 "200 OK" (if contains url "memory" then "1610612736" else "NaN")), tt).
#[local] Instance scripted_reads : HttpGetReads (W := unit).
Proof. intros url []. done. Qed.
#[local] Instance one_series : PromCodec := fun body => Ok (mkPromResponse "success" [[JNum f_zero; JStr body]]).

(** The averages are answered, one of them not a number; the peaks time out. *)
Lemma baseline_of_four_queries_witness :
  GetResourceBaseline_http "http://prometheus" "shop" "api" tt = (Ok (mkBaseline "NaNm" "1.5Gi" "" ""), tt).
Proof. rewrite (baseline_of_four_queries "http://prometheus" "shop" "api" tt); [|discriminate]. vm_compute. reflexivity. Defined.
