(* ===== verification/ArgoCD.v ===== *)
(** * The ArgoCD watcher (internal/controller/argocd_watcher.go).

    It copies an ArgoCD Application's sync and health into the status of the
    ApplicationPersona of the same application.  The Application is an
    unstructured object: the accessors of [unstructured] are a parameter. *)

From S2P Require Import Prelude GoString GoNum Json ApiTypes KubeTypes Client RemediationController.
From Stdlib Require Import String Ascii.
From stdpp Require Import strings.
Open Scope string_scope.

Definition argoCDRequeueInterval : duration := (30 * second)%Z.

(** [NestedMap] and [NestedString], [None] where they report an error or a field
    that is not there; and [time.Parse(time.RFC3339, s)]. *)
Class Unstructured := {
  UMap : Type;
  NestedMap : UMap -> string -> option UMap;
  NestedString : UMap -> string -> option string;
  parse_rfc3339 : string -> option time;
}.

Record Application `{Unstructured} := mkApplication { app_Meta : ObjectMeta; app_Object : UMap }.
Class ArgoCDAPI `{Unstructured} (W : Type) := {
  getApplication : ObjectKey -> io W (result error Application);
  (* ServerResourcesForGroupVersion("argoproj.io/v1alpha1"): the kinds *)
  ServerResources : io W (result error (list string));
}.

Section extract.
Context `{Unstructured}.

Definition getArgoCDAppName (app : Application) : string :=
  match m_Labels (app_Meta app) !! "app.kubernetes.io/name" with
  | Some appName => appName
  | None => match m_Labels (app_Meta app) !! "app" with Some appName => appName | None => m_Name (app_Meta app) end
  end.

Definition getArgoCDDestNamespace (app : Application) : string :=
  default "" (NestedMap (app_Object app) "spec" ≫= fun spec => NestedMap spec "destination" ≫= fun dest => NestedString dest "namespace").

Definition nested_or (m : option UMap) (key otherwise : string) : string := default otherwise (m ≫= fun m => NestedString m key).

Definition extractArgoCDStatus (app : Application) : ArgoCDStatus :=
  match NestedMap (app_Object app) "status" with
  | None => mkArgoCDStatus "Unknown" "Unknown" None "" "" ""
  | Some status =>
      let sync := NestedMap status "sync" in
      let finished := NestedMap status "operationState" ≫= fun op => NestedString op "finishedAt" in
      mkArgoCDStatus (nested_or sync "status" "Unknown") (nested_or (NestedMap status "health") "status" "Unknown")
        (match finished with Some at_ => if negb (at_ =? "") then parse_rfc3339 at_ else None | None => None end)
        (nested_or sync "revision" "") "" ""
  end.
(** With the application's own name, as it is written. *)
Definition argocd_status (app : Application) : ArgoCDStatus :=
  let s := extractArgoCDStatus app in
  mkArgoCDStatus (acd_SyncStatus s) (acd_HealthStatus s) (acd_LastSyncTime s) (acd_Revision s) (m_Name (app_Meta app)) (m_Namespace (app_Meta app)).
End extract.

Definition set_argocd (a : option ArgoCDStatus) (s : ApplicationPersonaStatus) : ApplicationPersonaStatus :=
  mkAPStatus (apst_Deployments s) (apst_ActiveIncidents s) (apst_LastIncidentTime s) (apst_Phase s) (apst_LastUpdated s) (apst_Health s)
    (apst_Validation s) (apst_Learned s) a (apst_Conditions s).
Definition with_argocd (a : ArgoCDStatus) (p : ApplicationPersona) : ApplicationPersona :=
  mkAP (ap_Meta p) (ap_Spec p) (set_argocd (Some a) (ap_Status p)) (ap_Annotations p).

Section watcher.
Context `{Client W} `{!Unstructured} `{!ArgoCDAPI W}.

Definition named (appName : string) (p : ApplicationPersona) : bool := (aps_Name (ap_Spec p) =? appName).
Definition matching (r : result error (list ApplicationPersona)) (appName : string) : option ApplicationPersona :=
  match r with Ok personas => find_first (named appName) personas | Err _ => None end.
Definition in_ns (ns : string) : ListOptions := mkListOptions (Some ns) [].
Definition in_all : ListOptions := mkListOptions None [].

Definition search_everywhere (appName : string) : io W (option ApplicationPersona) :=
  let! personas := listPersonas in_all in mret (matching personas appName).
(** The destination namespace first; it failing to list is no obstacle. *)
Definition findMatchingPersona (appName namespace : string) : io W (option ApplicationPersona) :=
  if negb (namespace =? "") then
    let! personas := listPersonas (in_ns namespace) in
    match matching personas appName with
    | Some p => mret (Some p)
    | None => search_everywhere appName
    end
  else search_everywhere appName.

Definition argo_later : Result := mkResult false argoCDRequeueInterval.

Definition ArgoCD_Reconcile (Enabled : bool) (req : ObjectKey) : io W (result error Result) :=
  if negb Enabled then iok no_requeue else
  let! got := getApplication req in
  match got with
  | Err e => if is_not_found e then iok no_requeue else ierr e
  | Ok app =>
      let appName := getArgoCDAppName app in
      if (appName =? "") then iok argo_later else
      let! persona := findMatchingPersona appName (getArgoCDDestNamespace app) in
      match persona with
      | None => iok argo_later
      | Some persona =>
          let* _ := updateStatusPersona (with_argocd (argocd_status app) persona) in
          iok argo_later
      end
  end.

(** [dc] is nil when there is no discovery client. *)
Definition ArgoCDCRDExists (has_dc : bool) : io W bool :=
  if negb has_dc then mret false else
  let! kinds := ServerResources in
  mret (match kinds with Ok kinds => existsb (fun kind => (kind =? "Application")) kinds | Err _ => false end).
End watcher.

(** ** Properties *)

Class ArgoCDReads `{ArgoCDAPI W} : Prop := getApplication_reads k w : (getApplication k w).2 = w.

Section props.
Context `{ClientReads W} `{!Unstructured} `{!ArgoCDAPI W} `{!ArgoCDReads (W := W)}.

(** The persona of an application, as this world lists them. *)
Definition found (w : W) (appName ns : string) : option ApplicationPersona :=
  let everywhere := matching (listPersonas in_all w).1 appName in
  if (ns =? "") then everywhere
  else match matching (listPersonas (in_ns ns) w).1 appName with Some p => Some p | None => everywhere end.

Lemma findMatchingPersona_run appName ns w : findMatchingPersona appName ns w = (found w appName ns, w).
Proof.
  unfold findMatchingPersona, found. assert (He : search_everywhere appName w = (matching (listPersonas in_all w).1 appName, w)).
  { unfold search_everywhere. by rewrite (bind_read _ _ w _ (read_pair _ _ (listPersonas_reads _ w))). }
  destruct (ns =? ""); [done|]. cbn [negb]. rewrite (bind_read _ _ w _ (read_pair _ _ (listPersonas_reads _ w))). by destruct (matching (listPersonas (in_ns ns) w).1 appName).
Qed.

Lemma matching_Some r appName p : matching r appName = Some p ->
  aps_Name (ap_Spec p) = appName /\ exists before after, r = Ok (before ++ p :: after)%list /\ forall q, q ∈ before -> aps_Name (ap_Spec q) <> appName.
Proof.
  unfold matching. destruct r as [personas|]; [|done]. intros (before & after & -> & Hp & Hb)%find_first_split. unfold named in *.
  apply String.eqb_eq in Hp. split; [done|]. exists before, after. split; [done|]. intros q Hq. by apply String.eqb_neq, Hb.
Qed.

(** The persona a reconcile would write to. *)
Definition target (w : W) (app : Application) : option ApplicationPersona :=
  if (getArgoCDAppName app =? "") then None else found w (getArgoCDAppName app) (getArgoCDDestNamespace app).

(** What one reconcile does.  Switched off, without the Application or without
    a persona of its name it changes nothing; otherwise it makes one write, and
    only an error is not followed by another look in thirty seconds.  The persona
    written to is the first listed of that name: one of the destination
    namespace when that namespace lists any, of any other namespace if not. *)
Theorem argocd_writes_one_status (req : ObjectKey) (w : W) :
  (forall k, ArgoCD_Reconcile false k w = (Ok no_requeue, w)) /\
  ArgoCD_Reconcile true req w =
    match (getApplication req w).1 with
    | Err e => (if is_not_found e then Ok no_requeue else Err e, w)
    | Ok app =>
        match target w app with
        | None => (Ok argo_later, w)
        | Some p => let '(r, w') := updateStatusPersona (with_argocd (argocd_status app) p) w in
                    (match r with Ok _ => Ok argo_later | Err e => Err e end, w')
        end
    end /\
  forall app p, target w app = Some p ->
    aps_Name (ap_Spec p) = getArgoCDAppName app /\
    forall q l, getArgoCDDestNamespace app <> "" -> (listPersonas (in_ns (getArgoCDDestNamespace app)) w).1 = Ok l -> q ∈ l ->
      aps_Name (ap_Spec q) = getArgoCDAppName app -> p ∈ l.
Proof.
  split_and!; [done| |].
  - unfold ArgoCD_Reconcile. cbn [negb]. rewrite (bind_read _ _ w _ (read_pair _ _ (getApplication_reads req w))).
    destruct (getApplication req w).1 as [app|e]; [|by destruct (is_not_found e)]. unfold target.
    destruct (_ =? ""); [done|]. rewrite (bind_read _ _ w _ (findMatchingPersona_run _ _ w)). destruct (found w _ _) as [p|]; [|done].
    unfold iobind. by destruct (updateStatusPersona _ w) as [[p'|e] w'].
  - intros app p. unfold target. destruct (_ =? ""); [done|]. unfold found.
    destruct (String.eqb_spec (getArgoCDDestNamespace app) "") as [Hns|Hns].
    + intros Hp. apply matching_Some in Hp as [Hp _]. split; [done|]. intros q l Hne. by destruct Hne.
    + destruct (matching (listPersonas (in_ns _) w).1 _) as [p'|] eqn:Hm.
      * intros [= ->]. apply matching_Some in Hm as (Hname & before & after & Hl & _). split; [done|].
        intros q l _ Hl' _ _. rewrite Hl in Hl'. injection Hl' as <-. apply elem_of_app. right. by left.
      * intros Hp. apply matching_Some in Hp as [Hp _]. split; [done|]. intros q l _ Hl Hq Hname. rewrite Hl in Hm. cbn in Hm.
        exfalso. pose proof (proj1 (find_first_None _ _) Hm q Hq) as Hno. unfold named in Hno. by apply String.eqb_neq in Hno.
Qed.
End props.

(** ** A cluster with Applications, and the witness *)

(** Unstructured objects as JSON documents. *)
#[local] Instance json_unstructured : Unstructured := {|
  UMap := gmap string json;
  NestedMap m k := match m !! k with Some (JObj m) => Some m | _ => None end;
  NestedString m k := match m !! k with Some (JStr s) => Some s | _ => None end;
  parse_rfc3339 _ := None;
|}.

Record ArgoMem `{QuantityOps} := mkArgoMem { am_mem : Mem; am_apps : gmap ObjectKey Application }.
Section argomem.
Context `{QuantityOps}.
#[export] Instance argomem_client : Client ArgoMem := lift_client am_mem (fun m w => mkArgoMem _ m (am_apps w)).
#[export] Instance argomem_reads : ClientReads (W := ArgoMem).
Proof. apply lift_client_reads. by intros []. Qed.
#[export] Instance argomem_api : ArgoCDAPI ArgoMem := {|
  getApplication k w := (match am_apps w !! k with Some a => Ok a | None => not_found end, w);
  ServerResources w := (Ok ["Application"], w);
|}.
#[export] Instance argomem_api_reads : ArgoCDReads (W := ArgoMem).
Proof. done. Qed.
End argomem.

#[local] Existing Instance int_quantity.

Definition ex_argo_persona (name ns : string) : ApplicationPersona :=
  mkAP (mkMeta name ns ∅ 0%Z None 0) (mkAPSpec "api" "1" "api" "standard" None None None None [] None None None) empty_status ∅.
Definition ex_app : Application :=
  mkApplication _ (mkMeta "api" "argocd" ∅ 0%Z None 0)
    {["spec" := JObj {["destination" := JObj {["namespace" := JStr "shop"]}]};
      "status" := JObj {["sync" := JObj {["status" := JStr "Synced"; "revision" := JStr "abc"]}; "health" := JObj {["status" := JStr "Healthy"]}]}]}.
Definition ex_argo : ArgoMem :=
  mkArgoMem _ (mkMem _ 0%Z ∅ {[mkKey "api-a" "bank" := ex_argo_persona "api-a" "bank"; mkKey "api-b" "shop" := ex_argo_persona "api-b" "shop"]} ∅ [] ∅ [] [] [] None)
    {[mkKey "api" "argocd" := ex_app]}.

Lemma argocd_writes_one_status_witness :
  option_map (fun p => (ap_Namespace p, acd_SyncStatus <$> apst_ArgoCD (ap_Status p)))
    (mem_personas (am_mem (ArgoCD_Reconcile true (mkKey "api" "argocd") ex_argo).2) !! mkKey "api-b" "shop") = Some ("shop", Some "Synced").
Proof.
  destruct (argocd_writes_one_status (mkKey "api" "argocd") ex_argo) as (_ & Hr & _). rewrite Hr. vm_compute. reflexivity.
Defined.
