(* ===== verification/Harness.v ===== *)
(** * The harness metrics (internal/metrics/harness.go) and what the controllers
    count in them.

    Counter vectors are maps from label values to counts, the process's memory;
    a reconcile of a RemediationAction counts its phase change. *)

From S2P Require Import Prelude GoString GoNum Json ApiTypes KubeTypes Client Retry Safety Executor Signals Diagnosis IncidentController HealthCheck RemediationController.
From Stdlib Require Import String Ascii.
From stdpp Require Import strings.
Open Scope string_scope.

Definition SourceDorgu : string := "dorgu".
Definition ProposalProposed : string := "proposed".
Definition ProposalSkipped : string := "skipped".
Definition ProposalSuppressed : string := "suppressed".
Definition ProposalError : string := "error".
Definition PhaseNone : string := "none".

(** A counter vector: one count per combination of label values. *)
Abbreviation CounterVec := (gmap (list string) N).
Definition count (v : CounterVec) (labels : list string) : N := default 0%N (v !! labels).
Definition Inc (labels : list string) (v : CounterVec) : CounterVec := <[labels := (count v labels + 1)%N]> v.

Record Counters := mkCounters { incidentsTotal : CounterVec; proposalsTotal : CounterVec; transitionsTotal : CounterVec }.
Definition no_counters : Counters := mkCounters ∅ ∅ ∅.

Definition RecordIncident (class scope : string) (c : Counters) : Counters :=
  mkCounters (Inc [class; scope] (incidentsTotal c)) (proposalsTotal c) (transitionsTotal c).
Definition RecordProposal (source actionType result : string) (c : Counters) : Counters :=
  mkCounters (incidentsTotal c) (Inc [source; actionType; result] (proposalsTotal c)) (transitionsTotal c).
Definition RecordTransition (from to : string) (c : Counters) : Counters :=
  if (from =? to) then c
  else mkCounters (incidentsTotal c) (proposalsTotal c) (Inc [(if (from =? "") then PhaseNone else from); to] (transitionsTotal c)).

(** [proposalOutcome] (healthcheck_reconciler.go); a suppressed proposal is
    counted before it is asked for. *)
Definition proposalOutcome `{QuantityOps} (r : result error ProposalResult) : string :=
  match r with
  | Err _ => ProposalError
  | Ok result => if pp_Proposed result then ProposalProposed else ProposalSkipped
  end.

Section metered.
Context `{Client W} `{Retry W} `{SpecCodec} (collectAll : io W (result error (list Signal))).

(** [Reconcile] around [dispatch], with the counters. *)
Definition metered_dispatch (action : RemediationAction) (c : Counters) : io W (result error handled * Counters) :=
  let! r := dispatch collectAll action in
  mret (r, match r with Ok (_, action') => RecordTransition (ra_Phase action) (ra_Phase action') c | Err _ => c end).

(** Reconciles one after the other, of any actions, each in the world it finds. *)
Fixpoint metered_run (work : list (RemediationAction * W)) (c : Counters) : Counters :=
  match work with
  | [] => c
  | (action, w) :: rest => let '((_, c'), _) := metered_dispatch action c w in metered_run rest c'
  end.

(** The transitions of the same run, as a list: the specification the counters refine. *)
Definition transition_of (item : RemediationAction * W) : option (string * string) :=
  match (dispatch collectAll item.1 item.2).1 with
  | Ok (_, action') => if (ra_Phase item.1 =? ra_Phase action') then None else Some (ra_Phase item.1, ra_Phase action')
  | Err _ => None
  end.
Definition transitions (work : list (RemediationAction * W)) : list (string * string) := omap transition_of work.
End metered.

(** ** Properties *)

Lemma count_Inc labels v labels' : count (Inc labels v) labels' = (count v labels' + (if decide (labels = labels') then 1 else 0))%N.
Proof.
  unfold Inc, count. rewrite lookup_insert. destruct (decide (labels = labels')) as [<-|Hne]; cbn; lia.
Qed.

Section metered_props.
Context `{Client W} `{Retry W} `{SpecCodec} `{!StatusEcho} (collectAll : io W (result error (list Signal))).

Lemma transition_edge item f t : transition_of collectAll item = Some (f, t) -> phase_step f t.
Proof.
  unfold transition_of. destruct item as [action w]. cbn. destruct (dispatch collectAll action w) as [[[r a']|e] w'] eqn:Hrun; [|done]. cbn.
  destruct (String.eqb_spec (ra_Phase action) (ra_Phase a')) as [|Hne]; [done|]. intros [= <- <-].
  destruct (dispatch_edges collectAll action a' r w w' Hrun) as [[Hp|Hp] _]; [congruence|exact Hp].
Qed.

Lemma phase_step_named f t : phase_step f t -> f <> "" /\ f <> PhaseNone.
Proof. by inversion 1. Qed.

(** One reconcile counts its edge, if it took one. *)
Lemma metered_step action w c f t : exists c', metered_dispatch collectAll action c w = (((dispatch collectAll action w).1, c'), (dispatch collectAll action w).2) /\
  count (transitionsTotal c') [f; t] = (count (transitionsTotal c) [f; t] + (if decide (transition_of collectAll (action, w) = Some (f, t)) then 1 else 0))%N.
Proof.
  unfold metered_dispatch, transition_of, mbind, io_bind. cbn [fst snd].
  destruct (dispatch collectAll action w) as [[[r a']|e] w'] eqn:Hrun; cbn [fst snd mret io_ret]; eexists; (split; [done|]); [|rewrite decide_False by done; lia].
  unfold RecordTransition. destruct (String.eqb_spec (ra_Phase action) (ra_Phase a')) as [Heq|Hne]; [rewrite decide_False by done; lia|]. cbn [transitionsTotal].
  destruct (dispatch_edges collectAll action a' r w w' Hrun) as [[?|Hedge] _]; [congruence|].
  destruct (phase_step_named _ _ Hedge) as [Hne' _]. apply String.eqb_neq in Hne'. rewrite Hne', count_Inc. do 2 case_decide; naive_solver.
Qed.

Lemma metered_run_counts work c f t :
  count (transitionsTotal (metered_run collectAll work c)) [f; t] =
    (count (transitionsTotal c) [f; t] + N.of_nat (length (filter (fun e => e = (f, t)) (transitions collectAll work))))%N.
Proof.
  revert c. induction work as [|[action w] work IH]; intros c; [cbn; lia|]. cbn [metered_run].
  destruct (metered_step action w c f t) as (c' & -> & Hc'). rewrite IH, Hc'. unfold transitions. rewrite omap_cons.
  destruct (transition_of collectAll (action, w)) as [e|]; [|rewrite decide_False by done; lia]. rewrite filter_cons. do 2 case_decide; simplify_eq; cbn [length]; lia.
Qed.

(** C30. The transitions counter refines the history.  After any reconciles of any
    actions, starting from an empty registry, each edge of the lifecycle has
    been counted exactly as often as a reconcile that returned without an error
    moved an action along it; nothing that is not an edge is ever counted, and
    the series that starts from no phase at all stays empty. *)
Theorem transitions_counted (work : list (RemediationAction * W)) (f t : string) :
  count (transitionsTotal (metered_run collectAll work no_counters)) [f; t] =
    N.of_nat (length (filter (fun e => e = (f, t)) (transitions collectAll work))) /\
  ((f, t) ∈ transitions collectAll work -> phase_step f t) /\
  count (transitionsTotal (metered_run collectAll work no_counters)) [PhaseNone; t] = 0%N.
Proof.
  assert (Hedges : forall f t, (f, t) ∈ transitions collectAll work -> phase_step f t).
  { intros f' t' (item & _ & Hi)%list_elem_of_omap. by apply transition_edge in Hi. }
  rewrite !metered_run_counts. split_and!; [done|apply Hedges|].
  assert (Hnil : filter (fun e => e = (PhaseNone, t)) (transitions collectAll work) = []); [|by rewrite Hnil].
  apply elem_of_nil_inv. intros e He. apply list_elem_of_filter in He as [-> He]. apply Hedges, phase_step_named in He as [_ ?]. done.
Qed.
End metered_props.

(** ** Witness: one action acknowledged, another left alone, the first again *)

#[local] Existing Instance int_quantity.

Definition ex_work : list (RemediationAction * Mem) :=
  [(ex_advisory, ex_target); (ex_ra "ra-2" "Pending" None None None [], ex_target); (ex_advisory, ex_target)].

Lemma transitions_counted_witness :
  count (transitionsTotal (metered_run ex_no_signals ex_work no_counters)) ["Approved"; "Acknowledged"] = 2%N.
Proof.
  rewrite (proj1 (transitions_counted ex_no_signals ex_work "Approved" "Acknowledged")). vm_compute. reflexivity.
Defined.
