(* ===== verification/Manager.v ===== *)
(** * The manager: what the flags and the environment turn into
    (cmd/main.go, cmd/config.go, internal/remediation/operator_namespace.go).

    The components of the other files are composed here the way [main] composes
    them: the flags and the environment choose the deny list, the diagnosis
    providers, the planner, the collectors and the retention of events; the
    health-check cycle runs over them.  Flag parsing itself, the metrics endpoint,
    TLS and leader election belong to libraries. *)

From S2P Require Import Prelude GoString GoNum Json ApiTypes KubeTypes Steps Client Retry Writes Safety Signals Correlator Collectors ControlPlane Usage.
From S2P Require Import Diagnosis DiagnosisEngine Executor Planner Proposer HealthCheck Schema PlanSafety Sanction EventStore ClusterController Redact Llm PlanPrompt.
From Stdlib Require Import String Ascii.
From stdpp Require Import strings.
Open Scope string_scope.

(** ** operator_namespace.go *)

Definition OperatorNamespaceEnv : string := "POD_NAMESPACE".
Definition serviceAccountNamespaceFile : string := "/var/run/secrets/kubernetes.io/serviceaccount/namespace".

(** The process environment: an unset variable reads as empty. *)
Record Environment := mkEnv { Getenv : string -> string; ReadFile : string -> result string string }.

Definition OperatorNamespace (env : Environment) : string :=
  let ns := trim_space (Getenv env OperatorNamespaceEnv) in
  if negb (ns =? "") then ns else
  match ReadFile env serviceAccountNamespaceFile with Err _ => "" | Ok data => trim_space data end.

(** ** config.go *)

Record operatorConfig := mkConfig {
  cfg_metricsAddr : string; cfg_metricsCertPath : string; cfg_metricsCertName : string; cfg_metricsCertKey : string; cfg_secureMetrics : bool;
  cfg_probeAddr : string;
  cfg_enableLeaderElection : bool;
  cfg_enableHTTP2 : bool;
  cfg_enableArgoCD : bool;
  cfg_prometheusURL : string;
  cfg_enableWebSocket : bool; cfg_webSocketAddr : string;
  cfg_enableHealthCheck : bool; cfg_healthCheckInterval : duration;
  cfg_enableMetricsServer : bool;
  cfg_safetyExcludedNamespaces : list string;
  cfg_llmProvider : string; cfg_llmAPIKey : string; cfg_llmModel : string;
  cfg_enableAIRemediation : bool;
  cfg_dorguEventRetention : duration; cfg_dorguEventMaxRecords : Z;
  cfg_autoCreateClusterPersona : bool; cfg_clusterPersonaEnsureInterval : duration;
}.

Definition splitNamespaces (names : string) : list string :=
  List.filter (fun ns => negb (ns =? "")) (map trim_space (split_byte "," names)).

(** What [parseFlags] returns when the command line sets the one flag that has to
    be taken apart, and no other. *)
Definition parsed_defaults (excludedNamespaces : string) : operatorConfig :=
  mkConfig "0" "" "tls.crt" "tls.key" true ":8081" false false true "" false ":9090" true (60 * second)%Z true
    (splitNamespaces excludedNamespaces) "" "" "" true DefaultTTL DefaultMaxRecords true (2 * minute)%Z.

(** ** main.go: the parts the flags choose *)

Definition safetyChecker (cfg : operatorConfig) (env : Environment) : SafetyCheckerImpl :=
  NewSafetyChecker (map WithProtectedNamespaces [[OperatorNamespace env]; cfg_safetyExcludedNamespaces cfg]).

Definition api_key (cfg : operatorConfig) (env : Environment) : string :=
  if negb (cfg_llmAPIKey cfg =? "") then cfg_llmAPIKey cfg
  else if (cfg_llmProvider cfg =? "claude") then Getenv env "ANTHROPIC_API_KEY"
  else if (cfg_llmProvider cfg =? "gemini") then Getenv env "GEMINI_API_KEY"
  else "".

(** A provider and a key. *)
Definition llm_configured (cfg : operatorConfig) (env : Environment) : bool :=
  negb (cfg_llmProvider cfg =? "") && negb (api_key cfg env =? "").

Definition llmClient (cfg : operatorConfig) (env : Environment) : option LLMClient :=
  if llm_configured cfg env then
    match NewClient (cfg_llmProvider cfg) (api_key cfg env) with
    | Err _ => None
    | Ok c => Some (if negb (cfg_llmModel cfg =? "") then SetModel (cfg_llmModel cfg) c else c)
    end
  else None.

Definition aiPlanner (cfg : operatorConfig) (env : Environment) : option ClaudePlanner :=
  if llm_configured cfg env && (cfg_enableAIRemediation cfg && (cfg_llmProvider cfg =? "claude")) then
    match NewClaudePlanner (api_key cfg env) with
    | Err _ => None
    | Ok c => Some (planner_SetModel (cfg_llmModel cfg) c)
    end
  else None.

Definition eventStore (cfg : operatorConfig) : HybridEventStore := NewEventStore [WithTTL (cfg_dorguEventRetention cfg)].
Definition eventCleaner (cfg : operatorConfig) : Cleaner :=
  NewCleaner [WithRetention (cfg_dorguEventRetention cfg); WithMaxRecords (cfg_dorguEventMaxRecords cfg)].

(** [Start] of the health-check reconciler: zero means the default, and a
    negative interval makes [time.NewTicker] panic. *)
Definition DefaultReconcileInterval : duration := (60 * second)%Z.
Definition ticker_interval (cfg : operatorConfig) : option duration :=
  let interval := if (cfg_healthCheckInterval cfg =? 0)%Z then DefaultReconcileInterval else cfg_healthCheckInterval cfg in
  if (0 <? interval)%Z then Some interval else None.

(** The runnables and controllers [main] registers, in order. *)
Inductive part :=
| ApplicationPersonaController (prometheusURL : string)
| ClusterPersonaController
| ArgoCDWatcherController
| WebSocketServer (addr : string)
| ClusterPersonaBootstrap (ensureInterval : duration)
| EventWatcher (store : HybridEventStore)
| EventCleaner (cleaner : Cleaner)
| HealthCheckReconciler (interval : option duration)
| IncidentControllerPart
| RemediationControllerPart.

(** What runs whatever [--enable-health-check] says; [argoCRD] is [ArgoCDCRDExists]. *)
Definition base_parts (cfg : operatorConfig) (argoCRD : bool) : list part :=
  [ApplicationPersonaController (cfg_prometheusURL cfg); ClusterPersonaController]
  ++ (if cfg_enableArgoCD cfg && argoCRD then [ArgoCDWatcherController] else [])
  ++ (if cfg_enableWebSocket cfg then [WebSocketServer (cfg_webSocketAddr cfg)] else [])
  ++ (if cfg_autoCreateClusterPersona cfg then [ClusterPersonaBootstrap (ensureInterval (cfg_clusterPersonaEnsureInterval cfg))] else []).
Definition healthcheck_parts (cfg : operatorConfig) : list part :=
  if cfg_enableHealthCheck cfg
  then [EventWatcher (eventStore cfg); EventCleaner (eventCleaner cfg); HealthCheckReconciler (ticker_interval cfg);
        IncidentControllerPart; RemediationControllerPart]
  else [].
Definition parts (cfg : operatorConfig) (argoCRD : bool) : list part := base_parts cfg argoCRD ++ healthcheck_parts cfg.

(** ** The pod index (internal/detection/index.go) *)

Definition PodNodeNameIndex : string := "spec.nodeName".
Definition PodByNodeName `{QuantityOps} (pod : Pod) : list string := if (pod_NodeName pod =? "") then [] else [pod_NodeName pod].

(** ** main.go: the health-check cycle *)

(** The metrics collector's flag lives in the process. *)
Class MetricsFlag (W : Type) := { metrics_available : W -> bool; set_metrics_available : bool -> W -> W }.

Section wiring.
Context `{Client W} `{!SortSlice} `{!QuantitySum} `{!ControlPlaneAPI W} `{!MetricsAPI W} `{!MetricsFlag W}.
Context `{!Http LLMBody W} `{!Http PlanRequest W} `{!LLMCodec} `{!PlanCodec} `{!SpecCodec} `{!Retry W} `{!EventSink W}.
Context (range_order : gmap string string -> list string).
Context (cfg : operatorConfig) (env : Environment).

Definition metrics_collector : io W (result error (list Signal)) := fun w =>
  let '((available, signals), w') := MetricsCollector_Collect (metrics_available w) w in
  (signals, set_metrics_available available w').

(** [metricsClient]: the metrics clientset could be created. *)
Definition collectors (metricsClient : bool) : list (io W (result error (list Signal))) :=
  [NodeCollector_Collect range_order; PodCollector_Collect NewPodCollector; ResourceCollector_Collect NewResourceCollector;
   ControlPlaneCollector_Collect true]
  ++ (if cfg_enableMetricsServer cfg && metricsClient then [metrics_collector] else []).

Definition detectionEngine (metricsClient : bool) : Engine := mkEngine (collectors metricsClient) (Some Correlate).

Definition ruleBasedProvider : DiagnosisProvider W := mkProvider providerNameRuleBased RuleBased_Diagnose.
Definition aiProvider (c : LLMClient) : DiagnosisProvider W :=
  mkProvider providerNameAI (@AI_Diagnose _ W _ _ (client_llm c) (Some (NamespaceProtected (Some (safetyChecker cfg env))))).
Definition diagnosisProviders : list (DiagnosisProvider W) :=
  ruleBasedProvider :: match llmClient cfg env with Some c => [aiProvider c] | None => [] end.

Definition wired_planner : option (Planner W) :=
  match aiPlanner cfg env with
  | Some c => Some (@Claude_PlanRemediation _ _ W (plan_transport c))
  | None => None
  end.
Definition proposer : HealthCheck.Proposer W := Propose (safetyChecker cfg env) wired_planner.

(** One tick of the reconciler [main] registers. *)
Definition operator_cycle (metricsClient : bool) : io W (nat * nat) :=
  health_reconcile (CollectAll (detectionEngine metricsClient)) diagnosisProviders (Some proposer).
End wiring.

(** ** Properties *)

(** Listing pods by a named node is looking the index up. *)
Lemma listPodsOnNode_index `{QuantityOps} (node : string) (w : Mem) : node <> "" ->
  (listPodsOnNode node w).1 = Ok (List.filter (fun pod => bool_decide (node ∈ PodByNodeName pod)) (mem_pods w)).
Proof.
  intros Hne. cbn. f_equal. apply List.filter_ext. intros pod. unfold PodByNodeName.
  destruct (String.eqb_spec (pod_NodeName pod) "") as [Hp|Hp].
  - rewrite Hp, bool_decide_eq_false_2 by apply not_elem_of_nil. by apply String.eqb_neq, not_eq_sym.
  - apply bool_eq_iff. rewrite bool_decide_eq_true, list_elem_of_singleton, String.eqb_eq. naive_solver.
Qed.

Lemma splitNamespaces_elem names ns :
  ns ∈ splitNamespaces names <-> ns <> "" /\ exists piece, piece ∈ split_byte "," names /\ ns = trim_space piece.
Proof.
  unfold splitNamespaces. rewrite list_elem_of_In, filter_In, in_map_iff, negb_true_iff, String.eqb_neq.
  setoid_rewrite list_elem_of_In. naive_solver.
Qed.

(** What the deny list holds, whatever the configuration. *)
Lemma safetyChecker_protected cfg env ns :
  ns ∈ sc_protected (safetyChecker cfg env) <->
  ns = defaultDenyKubeSystem \/ (ns <> "" /\ (ns = OperatorNamespace env \/ ns ∈ cfg_safetyExcludedNamespaces cfg)).
Proof.
  unfold safetyChecker. rewrite NewSafetyChecker_protected. setoid_rewrite elem_of_cons. setoid_rewrite list_elem_of_singleton.
  split; [intros [?|(nss & [->| ->] & Hn & Hne)]|intros [?|(Hne & [?|?])]]; [by left|..|by left|right|right].
  - apply list_elem_of_singleton in Hn. auto.
  - auto.
  - exists [OperatorNamespace env]. rewrite list_elem_of_singleton. auto.
  - exists (cfg_safetyExcludedNamespaces cfg). auto.
Qed.

(** The model's client and the planner exist exactly when a provider they know
    and a key were given; the key is the flag's, or else the provider's variable. *)
Lemma llmClient_iff cfg env c :
  llmClient cfg env = Some c <->
  api_key cfg env <> "" /\
  let configured := mkLLMConfig (api_key cfg env) in
  (cfg_llmProvider cfg = "claude" /\ c = ClaudeClient (configured (if (cfg_llmModel cfg =? "") then defaultClaudeModel else cfg_llmModel cfg) "") \/
   cfg_llmProvider cfg = "gemini" /\ c = GeminiClient (configured (if (cfg_llmModel cfg =? "") then defaultGeminiModel else cfg_llmModel cfg) "")).
Proof.
  cbv zeta. unfold llmClient, llm_configured, NewClient, providerClaude, providerGemini. destruct (String.eqb_spec (api_key cfg env) "") as [Hk|Hk].
  { rewrite andb_false_r. split; [done|tauto]. }
  destruct (String.eqb_spec (cfg_llmProvider cfg) "claude") as [Hc|Hc]; [|destruct (String.eqb_spec (cfg_llmProvider cfg) "gemini") as [Hg|Hg]].
  - rewrite Hc. cbn. destruct (cfg_llmModel cfg =? ""); cbn; naive_solver.
  - rewrite Hg. cbn. destruct (cfg_llmModel cfg =? ""); cbn; naive_solver.
  - destruct (negb _ && _); naive_solver.
Qed.

Section told.
Context `{ClientReads W} `{!SortSlice} `{!Http LLMBody W} `{!LLMCodec}.
Context (cfg : operatorConfig) (env : Environment).

(** No rule of the deny list, of the flags or of the cluster, covers [ns]. *)
Definition open_namespace (w : W) (ns : string) : Prop :=
  ns <> "" /\ ns <> "kube-system" /\ ns <> OperatorNamespace env /\ (ns ∉ cfg_safetyExcludedNamespaces cfg) /\
  exists cps, (listClusterPersonas w).1 = Ok cps /\ forall cp, cp ∈ cps -> ns ∉ cp_excluded cp.

Lemma gate_open ns w : ns <> "" /\ (NamespaceProtected (Some (safetyChecker cfg env)) ns w).1 = false -> open_namespace w ns.
Proof.
  intros [Hne Hp]. unfold NamespaceProtected, mbind, io_bind in Hp.
  destruct (NamespaceDenied (Some (safetyChecker cfg env)) ns w) as [[v|] w'] eqn:Hd; cbn in Hp; [done|].
  assert (Hnone : (NamespaceDenied (Some (safetyChecker cfg env)) ns w).1 = None) by by rewrite Hd.
  cbn [NamespaceDenied] in Hnone. destruct (String.eqb_spec ns "") as [|_]; [done|].
  destruct (list_contains (sc_protected (safetyChecker cfg env)) ns) eqn:Hc; [done|].
  rewrite list_contains_false, safetyChecker_protected in Hc.
  unfold mbind, io_bind in Hnone. generalize (getExcludedNamespaces_spec w). destruct (getExcludedNamespaces w) as [r w1]. cbn [fst] in *. intros ->.
  split_and!; [tauto..|]. destruct (listClusterPersonas w).1 as [cps|e]; [|done]. exists cps. split; [done|].
  destruct (list_contains (concat (map cp_excluded cps)) ns) eqn:Hx; [done|]. rewrite list_contains_false in Hx.
  intros cp Hcp Hin. apply Hx, list_elem_of_In, in_concat. exists (cp_excluded cp). split; [by apply in_map, list_elem_of_In|by apply list_elem_of_In].
Qed.

Lemma gate_reads ns w : (NamespaceProtected (Some (safetyChecker cfg env)) ns w).2 = w.
Proof. unfold NamespaceProtected, mbind, io_bind. by rewrite NamespaceDenied_run. Qed.
Lemma check_namespaces_reads nss checked w : (check_namespaces (NamespaceProtected (Some (safetyChecker cfg env))) checked nss w).2 = w.
Proof.
  revert checked. induction nss as [|ns nss IH]; intros checked; cbn [check_namespaces]; [done|].
  destruct (existsb _ checked); [apply IH|]. destruct (ns =? ""); [done|].
  unfold mbind, io_bind. rewrite (read_pair _ w (gate_reads ns w)). destruct (NamespaceProtected _ ns w).1; [done|apply IH].
Qed.

Lemma providers_preserve (I : W -> Prop) signals :
  (forall c d w, llmClient cfg env = Some c -> (forall ns, ns ∈ touched_namespaces d -> open_namespace w ns) ->
     I w -> I (http_do (llm_call c (buildLLMRequest d)) w).2) ->
  forall p, p ∈ diagnosisProviders cfg env -> preserves I (prov_Diagnose p signals).
Proof.
  intros Hcall. assert (Hrules : preserves I (RuleBased_Diagnose signals)).
  { unfold RuleBased_Diagnose. destruct signals as [|s l]; [preserve|]. apply preserves_bind; [|intros; preserve].
    intros w Hw. apply (run_rules_invariant I); [|done]. intros; by apply preserves_clock. }
  intros p Hp. unfold diagnosisProviders in Hp. apply elem_of_cons in Hp as [->|Hp]; [exact Hrules|].
  destruct (llmClient cfg env) as [c|] eqn:Hc; [|by apply not_elem_of_nil in Hp]. apply list_elem_of_singleton in Hp as ->.
  cbn [aiProvider prov_Diagnose]. unfold AI_Diagnose. apply preserves_iobind; [by apply preserves_wrap|]. intros [|d l]; [preserve|].
  apply preserves_bind; [|intros; preserve]. intros w Hw. apply (enhance_all_invariant I); [by intros; apply preserves_clock| | |done].
  - intros d' w' Hw'. cbn [ProtectedNamespace]. by rewrite check_namespaces_reads.
  - intros d' ns w0 w1 Hrun Hw1. cbn [ProtectedNamespace] in Hrun.
    assert (w1 = w0) as -> by (by rewrite <- (check_namespaces_reads (touched_namespaces d') [] w0), Hrun).
    assert (Hopen : forall ns, ns ∈ touched_namespaces d' -> open_namespace w0 ns).
    { intros x Hx. apply gate_open. revert x Hx. apply (check_namespaces_clear _ w0 gate_reads _ []); [by intros x ?%not_elem_of_nil|by rewrite Hrun]. }
    specialize (Hcall c d' w0 eq_refl Hopen Hw1). unfold EnhanceDiagnosis, client_llm, LLM_EnhanceDiagnosis, mbind, io_bind.
    by destruct (http_do (llm_call c (buildLLMRequest d')) w0).
Qed.

End told.

(** ** The whole cycle, on a cluster in memory *)

Section cycle.
Context `{QuantityOps} `{!QuantitySum} `{!SortSlice} `{!SpecCodec} `{!LLMCodec} `{!PlanCodec} `{!Retry Mem} `{!RetryLaws (W := Mem)} `{!EventSink Mem}.
Context `{!ControlPlaneAPI Mem} `{!MetricsAPI Mem} `{!MetricsFlag Mem} `{!Http LLMBody Mem} `{!Http PlanRequest Mem}.
Context (range_order : gmap string string -> list string) (cfg : operatorConfig) (env : Environment).

(** What lies outside the operator and its API server writes no RemediationAction:
    the probes, the leases, metrics-server, the model's endpoints, the event sink. *)
Record outside_leaves_actions : Prop := {
  out_probe path : leaves_actions (probe path);
  out_lease k : leaves_actions (getLease k);
  out_groups : leaves_actions ServerGroups;
  out_metrics : leaves_actions listPodMetrics;
  out_flag b (w : Mem) : mem_ra (set_metrics_available b w) = mem_ra w;
  out_llm (call : HttpCall LLMBody) : leaves_actions (http_do call);
  out_plan (call : HttpCall PlanRequest) : leaves_actions (http_do call);
  out_sink e : leaves_actions (StoreEvent e) /\ leaves_actions (EmitEvent e);
}.

Lemma leaves_preserves {A} (m : io Mem A) : leaves_actions m <-> forall ra, preserves (fun w => mem_ra w = ra) m.
Proof. split; [by intros Hm ra w <-|by intros Hm w; apply (Hm (mem_ra w) w)]. Qed.

Section keeps.
Context (Hout : outside_leaves_actions) (ra : gmap ObjectKey RemediationAction).
#[local] Abbreviation keeps := (preserves (fun w : Mem => mem_ra w = ra)).

Lemma keeps_of {A} (m : io Mem A) : leaves_actions m -> keeps m.
Proof. intros Hm. by apply leaves_preserves. Qed.
Lemma keeps_nodes : keeps listNodes. Proof. by intros w Hw. Qed.
Lemma keeps_pods_on n : keeps (listPodsOnNode n). Proof. by intros w Hw. Qed.
Lemma keeps_clock : keeps clock. Proof. apply preserves_clock. Qed.
Lemma keeps_pods o : keeps (listPods o). Proof. apply preserves_listPods. Qed.
Lemma keeps_personas o : keeps (listPersonas o). Proof. apply preserves_listPersonas. Qed.
#[local] Hint Resolve keeps_clock keeps_pods keeps_personas keeps_of keeps_nodes keeps_pods_on out_probe out_lease out_groups out_metrics out_llm out_plan : preserve.

Lemma keeps_checkNodes r nodes now : keeps (checkNodes r nodes now).
Proof. induction nodes as [|n ns IH]; cbn [checkNodes]; [preserve|]. unfold checkNode. preserve; try apply IH. Qed.
Lemma keeps_probes paths now : keeps (probe_all paths now).
Proof. induction paths as [|p ps IH]; cbn [probe_all]; preserve; try apply IH. Qed.
Lemma keeps_leases checks now : keeps (lease_all checks now).
Proof. induction checks as [|c cs IH]; cbn [lease_all]; preserve; try apply IH. Qed.
Lemma keeps_metrics : keeps metrics_collector.
Proof.
  intros w Hw. unfold metrics_collector.
  assert (Hm : forall b, keeps (MetricsCollector_Collect b)) by (intros b; unfold MetricsCollector_Collect, probeAvailability, getPodSpecs; preserve).
  specialize (Hm (metrics_available w) w Hw). destruct (MetricsCollector_Collect _ w) as [[available signals] w']. cbn. by rewrite out_flag.
Qed.

Lemma keeps_collectors mc c : c ∈ collectors range_order cfg mc -> keeps c.
Proof.
  unfold collectors. rewrite elem_of_app, !elem_of_cons, elem_of_nil. intros [[->|[->|[->|[->|[]]]]]|Hc].
  - unfold NodeCollector_Collect. preserve.
  - unfold PodCollector_Collect. preserve.
  - unfold ResourceCollector_Collect. preserve; apply keeps_checkNodes.
  - unfold ControlPlaneCollector_Collect, checkHealthEndpoints, checkLeases. preserve; first [apply keeps_probes|apply keeps_leases].
  - destruct (_ && mc); [|by apply not_elem_of_nil in Hc]. apply list_elem_of_singleton in Hc as ->. apply keeps_metrics.
Qed.
Lemma keeps_correlate cache signals : keeps (correlate_loop cache signals).
Proof.
  revert cache. induction signals as [|s l IH]; intros cache; cbn [correlate_loop]; [preserve|]. unfold correlate_step. preserve; try apply IH.
Qed.
Lemma keeps_detection mc : keeps (CollectAll (detectionEngine range_order cfg mc)).
Proof.
  unfold CollectAll. apply preserves_bind; [|intros; cbn; apply preserves_bind; [apply keeps_correlate|intros; preserve]].
  assert (Hrun : forall cs, (forall c, c ∈ cs -> keeps c) -> keeps (run_collectors cs)).
  { induction cs as [|c cs IH]; intros Hc; cbn [run_collectors]; [preserve|]. apply preserves_bind; [apply Hc; left|].
    intros r. apply preserves_bind; [|intros; preserve]. apply IH. intros c' Hc'. apply Hc. by right. }
  apply Hrun. intros c. apply keeps_collectors.
Qed.
Lemma keeps_planner p rc : wired_planner cfg env = Some p -> keeps (@PlanRemediation _ Mem p rc).
Proof.
  unfold wired_planner. destruct (aiPlanner cfg env) as [c|]; [|done]. intros [= <-].
  unfold PlanRemediation, Claude_PlanRemediation. generalize (S maxParseRetries) "". intros n. induction n as [|n IH]; intros lastErr; cbn [attempt_loop]; [preserve|].
  unfold callOnce, post_plan, plan_transport. preserve; try apply IH.
Qed.
End keeps.

Lemma wired_collaborators mc : outside_leaves_actions ->
  collaborators_leave_actions (CollectAll (detectionEngine range_order cfg mc)) (diagnosisProviders cfg env) (wired_planner cfg env).
Proof.
  intros Hout. constructor.
  - apply leaves_preserves. intros ra. by apply keeps_detection.
  - intros p signals Hp. apply leaves_preserves. intros ra. apply (providers_preserve cfg env); [|done].
    intros c d w _ _ Hw. by rewrite (out_llm Hout).
  - intros p rc Hp. apply leaves_preserves. intros ra. by apply (keeps_planner Hout).
  - apply (out_sink Hout).
Qed.

End cycle.

(** ** Witnesses *)

#[local] Existing Instance int_quantity.

(** A pod of the shop and one of the billing namespace were killed for memory;
    the flags keep the model away from billing. *)
Definition ex_env : Environment :=
  mkEnv (fun name => if (name =? "ANTHROPIC_API_KEY") then "sk-ant-0123456789abcdef" else "") (fun _ => Ok ("dorgu-system" ++ newline)).
Definition ex_config : operatorConfig :=
  mkConfig "0" "" "tls.crt" "tls.key" true ":8081" false false true "" false ":9090" true 0%Z true
    (splitNamespaces " billing,, kube-public") "claude" "" "" true DefaultTTL DefaultMaxRecords true (2 * minute)%Z.
Definition ex_deployed : Mem :=
  mkMem _ (2000 * second)%Z ∅ (mem_personas Sizing.ex_shop) ∅ [] (mem_deployments Sizing.ex_shop)
    [Collectors.ex_pod "api-1" "shop" [Collectors.ex_oom_status]; Collectors.ex_pod "ledger-1" "billing" [Collectors.ex_oom_status]] [] [] None.

Example ex_namespaces :
  sc_protected (safetyChecker ex_config ex_env) = ["kube-system"; "dorgu-system"; "billing"; "kube-public"] /\
  api_key ex_config ex_env = "sk-ant-0123456789abcdef" /\ ticker_interval ex_config = Some (60 * second)%Z.
Proof. split_and!; vm_compute; reflexivity. Qed.

(** The cluster, and every call it was made to serve. *)
Record WireMem := mkWireMem { wr_mem : Mem; wr_calls : list (HttpCall LLMBody) }.
#[local] Instance wire_client : Client WireMem := lift_client wr_mem (fun m w => mkWireMem m (wr_calls w)).
#[local] Instance wire_reads : ClientReads (W := WireMem).
Proof. apply lift_client_reads. by intros []. Qed.
#[local] Instance wire_http : Http LLMBody WireMem := fun call w =>
  (Ok (mkHttpResponse 200 (Ok "Raise the limit.")), mkWireMem (wr_mem w) (wr_calls w ++ [call])%list).
#[local] Instance plain_codec : LLMCodec := {| claude_contents body := Ok [body]; gemini_parts body := Ok [[body]] |}.

Definition ex_signals : list Signal := match (PodCollector_Collect NewPodCollector ex_deployed).1 with Ok l => l | Err _ => [] end.
(** Each group is analysed on its own, as the cycle does. *)
Definition ex_wire (ns : string) : WireMem :=
  let signals := default [] (sg_Signals <$> find_first (fun g => (sg_Namespace g =? ns)) (GroupSignals ex_signals)) in
  (Analyze (diagnosisProviders ex_config ex_env) signals (mkWireMem ex_deployed [])).2.

(** No call on the wire is about a diagnosis that touches billing. *)
Definition billing_unheard (w : WireMem) : Prop :=
  forall call, call ∈ wr_calls w -> exists c d, call = llm_call c (buildLLMRequest d) /\ ("billing" ∉ touched_namespaces d).


(** The whole operator on the same cluster, with nothing else answering. *)
#[local] Instance quiet_sink : EventSink Mem := {| StoreEvent _ := iok tt; EmitEvent _ := iok tt |}.
#[local] Instance healthy_plane : ControlPlaneAPI Mem := {| probe _ := iok tt; getLease _ := mret not_found |}.
#[local] Instance no_metrics : MetricsAPI Mem := {| ServerGroups := iok []; listPodMetrics := iok [] |}.
#[local] Instance no_flag : MetricsFlag Mem := {| metrics_available _ := false; set_metrics_available _ w := w |}.
#[local] Instance no_model : Http LLMBody Mem := fun _ => ierr (ErrText "connection refused").
#[local] Instance no_planner : Http PlanRequest Mem := fun _ => ierr (ErrText "connection refused").
#[local] Instance no_plans : PlanCodec := {| decode_envelope _ := Err ""; decode_plan _ := Err ""; json_text _ := None |}.

Definition ex_tick : Mem := (operator_cycle (fun _ => []) ex_config ex_env false ex_deployed).2.

Example tick_files_two_incidents :
  map fst (map_to_list (mem_incidents ex_tick)) =
    [mkKey "im-shop-api-oomkilled-a476546e10c8" "shop"; mkKey "im-billing-api-unattributed-oomkilled-7b145b472704" "billing"] /\
  created ex_tick = [("ra-api-resource-adjustment-72418d378560", Executor.ex_patch "200", "")].
Proof. split; vm_compute; reflexivity. Qed.

Lemma ex_outside : outside_leaves_actions.
Proof. constructor; try (intros ? w; reflexivity); try (intros w; reflexivity); intros ?; split; intros w; reflexivity. Qed.

