(* ===== verification/Lifecycle.v ===== *)
(** * The loops that run until they are cancelled: [Start] of the health-check
    reconciler (internal/controller/healthcheck_reconciler.go) and of the event
    cleaner (internal/events/cleanup.go).

    Both are one goroutine around a [time.Ticker] and a [select] over the tick and
    the cancellation.  [loop_step] is that goroutine as a machine: the ticker's
    channel holds one tick and drops the rest, a [select] with both ready picks
    either, and a cycle is one call of the loop's body.  A trace lists what
    happened; [Outside] is a write by anyone else between two calls of the body. *)

From S2P Require Import Prelude GoString GoNum Json ApiTypes KubeTypes Client Retry Writes Safety Signals Correlator Collectors ControlPlane Usage.
From S2P Require Import Diagnosis DiagnosisEngine Executor Planner Proposer RemediationController HealthCheck Schema PlanSafety Sanction EventStore Llm PlanPrompt Manager.
From Stdlib Require Import String Ascii.
From stdpp Require Import strings.
Open Scope string_scope.

Inductive stage := Created | Running | Waiting | Stopped | Panicked.
#[export] Instance stage_eq_dec : EqDecision stage.
Proof. solve_decision. Defined.

Record loop (W : Type) := mkLoop {
  lp_stage : stage;
  lp_ticking : bool;    (* the ticker exists and was not stopped *)
  lp_pending : bool;    (* its channel holds a tick *)
  lp_done : bool;       (* the context is cancelled *)
  lp_world : W;
}.
Arguments mkLoop {W} _ _ _ _ _.
Arguments lp_stage {W} _.
Arguments lp_ticking {W} _.
Arguments lp_pending {W} _.
Arguments lp_done {W} _.
Arguments lp_world {W} _.

(** What happens to a loop; [Begin], [Finish], [Take] and [Return] are its own steps. *)
Inductive loop_event (W : Type) :=
| Begin | Finish | Take | Return
| Tick | Cancel | Outside (f : W -> W).
Arguments Begin {W}.
Arguments Finish {W}.
Arguments Take {W}.
Arguments Return {W}.
Arguments Tick {W}.
Arguments Cancel {W}.
Arguments Outside {W} f.

Section loops.
Context {W : Type}.
(** [tickerFirst]: the ticker is made before the first cycle, not after it. *)
Context (tickerFirst : bool) (interval : option duration) (cycle : W -> W).

Definition in_stage (st : stage) (s : loop W) : loop W := mkLoop st (lp_ticking s) (lp_pending s) (lp_done s) (lp_world s).
(** [time.NewTicker]: it panics on an interval that is not positive. *)
Definition NewTicker (next : stage) (s : loop W) : loop W :=
  match interval with
  | Some _ => mkLoop next true (lp_pending s) (lp_done s) (lp_world s)
  | None => in_stage Panicked s
  end.
Definition ran (s : loop W) : loop W := mkLoop (lp_stage s) (lp_ticking s) (lp_pending s) (lp_done s) (cycle (lp_world s)).

Definition loop_step (e : loop_event W) (s : loop W) : option (loop W) :=
  match e, lp_stage s with
  | Begin, Created => Some (if tickerFirst then NewTicker Running s else in_stage Running s)
  | Finish, Running => Some (if lp_ticking s then in_stage Waiting (ran s) else NewTicker Waiting (ran s))
  | Take, Waiting => if lp_pending s then Some (mkLoop Running (lp_ticking s) false (lp_done s) (lp_world s)) else None
  | Return, Waiting => if lp_done s then Some (mkLoop Stopped false (lp_pending s) (lp_done s) (lp_world s)) else None
  | Tick, _ => if lp_ticking s then Some (mkLoop (lp_stage s) true true (lp_done s) (lp_world s)) else None
  | Cancel, _ => Some (mkLoop (lp_stage s) (lp_ticking s) (lp_pending s) true (lp_world s))
  | Outside f, _ => Some (mkLoop (lp_stage s) (lp_ticking s) (lp_pending s) (lp_done s) (f (lp_world s)))
  | _, _ => None
  end.

Fixpoint loop_run (tr : list (loop_event W)) (s : loop W) : option (loop W) :=
  match tr with
  | [] => Some s
  | e :: rest => match loop_step e s with Some s' => loop_run rest s' | None => None end
  end.

Definition started (w : W) : loop W := mkLoop Created false false false w.

(** ** What a trace counts *)

Definition is_tick (e : loop_event W) : bool := match e with Tick => true | _ => false end.
Definition is_take (e : loop_event W) : bool := match e with Take => true | _ => false end.
Definition is_finish (e : loop_event W) : bool := match e with Finish => true | _ => false end.
Definition own (e : loop_event W) : bool := match e with Begin | Finish | Take | Return => true | _ => false end.
Definition occurrences (p : loop_event W -> bool) (tr : list (loop_event W)) : nat := length (List.filter p tr).
Definition effect (e : loop_event W) : option (W -> W) :=
  match e with Finish => Some cycle | Outside f => Some f | _ => None end.
Definition bit (b : bool) : nat := if b then 1 else 0.

Lemma loop_run_app tr1 tr2 s : loop_run (tr1 ++ tr2) s = match loop_run tr1 s with Some s' => loop_run tr2 s' | None => None end.
Proof. revert s. induction tr1 as [|e tr1 IH]; intros s; [done|]. cbn. by destruct (loop_step e s). Qed.

(** Case analysis on one step. *)
Ltac loop_cases s :=
  let st := fresh "st" in let t := fresh "t" in let p := fresh "p" in let d := fresh "d" in let w := fresh "w" in
  destruct s as [st t p d w]; cbn -[Nat.add]; try destruct st; cbn -[Nat.add]; try done;
  unfold NewTicker, in_stage, ran; cbn -[Nat.add]; destruct tickerFirst, interval, t, p, d; cbn -[Nat.add]; try done; intros [= <-]; cbn -[Nat.add].

(** A cycle runs for each tick taken, and ticks that find the channel full are lost. *)
Lemma loop_takes tr s s' : loop_run tr s = Some s' -> (occurrences is_take tr + bit (lp_pending s') <= bit (lp_pending s) + occurrences is_tick tr)%nat.
Proof.
  revert s. induction tr as [|e tr IH]; intros s; [intros [= <-]; cbn; lia|]. cbn [loop_run].
  destruct (loop_step e s) as [s1|] eqn:He; [|done]. intros Hrun. specialize (IH s1 Hrun).
  assert (Hone : (bit (is_take e) + bit (lp_pending s1) <= bit (lp_pending s) + bit (is_tick e))%nat).
  { revert He. destruct e; loop_cases s; lia. }
  unfold occurrences in *. cbn [List.filter]. destruct (is_take e), (is_tick e); cbn in *; lia.
Qed.

(** The world a loop leaves: whole cycles and the writes of others, in order. *)
Lemma loop_world tr s s' : loop_run tr s = Some s' -> lp_world s' = foldl (fun w f => f w) (lp_world s) (omap effect tr).
Proof.
  revert s. induction tr as [|e tr IH]; intros s; [by intros [= <-]|]. cbn [loop_run].
  destruct (loop_step e s) as [s1|] eqn:He; [|done]. intros Hrun. rewrite (IH s1 Hrun). rewrite omap_cons.
  assert (Hw : lp_world s1 = match effect e with Some f => f (lp_world s) | None => lp_world s end).
  { revert He. by destruct e; loop_cases s. }
  rewrite Hw. by destruct (effect e).
Qed.

(** The steps left to a loop that nothing ticks and nobody writes under. *)
Definition steps_left (s : loop W) : nat :=
  (match lp_stage s with Created => 3 | Running => 2 | Waiting => 1 | _ => 0 end + 2 * bit (lp_pending s))%nat.
Lemma own_steps tr s s' : forallb own tr = true -> loop_run tr s = Some s' -> (length tr + steps_left s' <= steps_left s)%nat.
Proof.
  revert s. induction tr as [|e tr IH]; intros s; [intros _ [= <-]; cbn; lia|]. cbn [forallb loop_run length]. intros [Ho Hall]%andb_true_iff.
  destruct (loop_step e s) as [s1|] eqn:He; [|done]. intros Hrun. specialize (IH s1 Hall Hrun).
  assert (Hone : (S (steps_left s1) <= steps_left s)%nat); [|lia]. unfold steps_left. revert He. destruct e; try done; loop_cases s; lia.
Qed.
Lemma own_enabled s : lp_done s = true -> lp_stage s <> Stopped -> lp_stage s <> Panicked -> exists e s', own e = true /\ loop_step e s = Some s'.
Proof.
  intros Hd H1 H2. destruct (lp_stage s) eqn:Hs; [exists Begin|exists Finish|exists Return|done|done];
    eexists; (split; [done|]); unfold loop_step; rewrite Hs; [done|done|by rewrite Hd].
Qed.

Lemma done_stays e s s' : loop_step e s = Some s' -> lp_done s = true -> lp_done s' = true.
Proof. by destruct e; loop_cases s. Qed.
Lemma over_stays e s s' : own e = true -> lp_stage s = Stopped \/ lp_stage s = Panicked -> loop_step e s = Some s' -> False.
Proof. destruct e; try done; intros _ [Hs|Hs]; unfold loop_step; rewrite Hs; discriminate. Qed.

Definition in_cycle (s : loop W) : bool := match lp_stage s with Running => true | _ => false end.
Definition to_begin (s : loop W) : bool := match lp_stage s with Created => true | _ => false end.
(** A cycle is begun at the start or for a tick taken, and one runs at a time. *)
Lemma loop_cycles tr s s' : loop_run tr s = Some s' ->
  (occurrences is_finish tr + bit (in_cycle s') + bit (to_begin s') <= bit (in_cycle s) + bit (to_begin s) + occurrences is_take tr)%nat.
Proof.
  revert s. induction tr as [|e tr IH]; intros s; [intros [= <-]; cbn; lia|]. cbn [loop_run].
  destruct (loop_step e s) as [s1|] eqn:He; [|done]. intros Hrun. specialize (IH s1 Hrun).
  assert (Hone : (bit (is_finish e) + bit (in_cycle s1) + bit (to_begin s1) <= bit (in_cycle s) + bit (to_begin s) + bit (is_take e))%nat).
  { revert He. unfold in_cycle, to_begin. destruct e; loop_cases s; lia. }
  unfold occurrences in *. cbn [List.filter]. destruct (is_take e), (is_finish e); cbn in *; lia.
Qed.

(** C22. What [Start] does from its call to its return.  Whatever the ticker, the
    canceller and other writers do meanwhile: the world it leaves is that of
    whole cycles and the others' writes in the order they happened; no more
    cycles run than one and the ticks there were, however long each takes; and
    once it is cancelled it is at most [steps_left] of its own steps from its
    end: it can always go on, each step brings the end nearer, and a tick
    waiting in the channel may cost one more cycle. *)
Theorem loop_lifecycle (w0 : W) (tr : list (loop_event W)) (s : loop W) :
  loop_run tr (started w0) = Some s ->
  lp_world s = foldl (fun w f => f w) w0 (omap effect tr) /\
  (occurrences is_finish tr <= 1 + occurrences is_tick tr)%nat /\
  (lp_done s = true -> forall rest s', forallb own rest = true -> loop_run rest s = Some s' ->
     (length rest <= steps_left s)%nat /\ (occurrences is_finish rest <= bit (in_cycle s) + bit (to_begin s) + bit (lp_pending s))%nat /\
     (lp_stage s' = Stopped \/ lp_stage s' = Panicked \/ exists e s2, own e = true /\ loop_step e s' = Some s2)).
Proof.
  intros Hrun. split; [apply (loop_world _ _ _ Hrun)|]. split.
  - pose proof (loop_cycles _ _ _ Hrun) as Hc. pose proof (loop_takes _ _ _ Hrun) as Ht.
    change (bit (in_cycle (started w0))) with 0%nat in Hc. change (bit (to_begin (started w0))) with 1%nat in Hc.
    change (bit (lp_pending (started w0))) with 0%nat in Ht. lia.
  - intros Hd rest s' Ho Hs. pose proof (own_steps _ _ _ Ho Hs) as Hlen. pose proof (loop_cycles _ _ _ Hs) as Hc. pose proof (loop_takes _ _ _ Hs) as Ht.
    assert (Hnt : occurrences is_tick rest = 0%nat).
    { clear -Ho. induction rest as [|e l IH]; [done|]. cbn [forallb] in Ho. apply andb_true_iff in Ho as [He Hl]. unfold occurrences in *. cbn [List.filter]. destruct e; try done; by apply IH. }
    split; [lia|]. split; [lia|].
    assert (Hd' : lp_done s' = true).
    { clear -Hd Hs. revert s Hd Hs. induction rest as [|e l IH]; intros s Hd; [by intros [= <-]|]. cbn. destruct (loop_step e s) as [s1|] eqn:He; [|done]. apply IH. by eapply done_stays. }
    destruct (decide (lp_stage s' = Stopped)); [by left|]. destruct (decide (lp_stage s' = Panicked)); [by right; left|]. right; right. by apply own_enabled.
Qed.

(** Whatever a cycle and the other writers keep, holds as long as the loop runs. *)
Lemma loop_keeps (I : W -> Prop) tr s s' : (forall w, I w -> I (cycle w)) -> (forall f w, Outside f ∈ tr -> I w -> I (f w)) ->
  loop_run tr s = Some s' -> I (lp_world s) -> I (lp_world s').
Proof.
  intros Hc Ho Hrun. rewrite (loop_world _ _ _ Hrun). clear Hrun. generalize (lp_world s). induction tr as [|e tr IH]; intros w Hw; [done|].
  rewrite omap_cons. destruct e as [| | | | | |f]; cbn [effect foldl]; try (apply IH; [|done]; intros g w' Hg; apply Ho; by right).
  - apply IH; [intros g w' Hg; apply Ho; by right|by apply Hc].
  - apply IH; [intros g w' Hg; apply Ho; by right|]. apply Ho; [left|done].
Qed.

(** Undisturbed, the loop is its cycle iterated. *)
Lemma loop_quiet tr s s' : loop_run tr s = Some s' -> (forall f, Outside f ∉ tr) -> lp_world s' = Nat.iter (occurrences is_finish tr) cycle (lp_world s).
Proof.
  intros Hrun Hq. rewrite (loop_world _ _ _ Hrun). clear Hrun. generalize (lp_world s). induction tr as [|e tr IH]; intros w; [done|].
  assert (Hq' : forall f, Outside f ∉ tr) by (intros f Hf; apply (Hq f); by right).
  rewrite omap_cons. unfold occurrences in *. destruct e as [| | | | | |f]; cbn [effect foldl List.filter is_finish length]; try by apply IH.
  - rewrite IH by done. by rewrite <- Nat.iter_succ_r.
  - destruct (Hq f). left.
Qed.

(** An interval that is not positive: the process panics. *)
Lemma no_interval_no_ticks tr s s' : interval = None -> lp_ticking s = false -> loop_run tr s = Some s' -> occurrences is_tick tr = 0%nat /\ lp_ticking s' = false.
Proof.
  intros Hi. revert s. induction tr as [|e tr IH]; intros s Ht; [by intros [= <-]|]. cbn [loop_run].
  destruct (loop_step e s) as [s1|] eqn:He; [|done]. intros Hrun.
  assert (Hone : is_tick e = false /\ lp_ticking s1 = false).
  { clear IH. revert Ht Hi He. destruct e, s as [st t p d w]; unfold loop_step, NewTicker, in_stage, ran; cbn; intros -> ->; destruct st; try done; destruct tickerFirst, p, d; cbn; try done; by intros [= <-]. }
  destruct Hone as [Hte Ht1]. unfold occurrences. cbn [List.filter]. rewrite Hte. by apply (IH s1).
Qed.
End loops.

(** ** The health-check loop as [main] starts it *)

Section operator_loop.
Context `{QuantityOps} `{!QuantitySum} `{!SortSlice} `{!SpecCodec} `{!LLMCodec} `{!PlanCodec} `{!Retry Mem} `{!RetryLaws (W := Mem)} `{!EventSink Mem}.
Context `{!ControlPlaneAPI Mem} `{!MetricsAPI Mem} `{!MetricsFlag Mem} `{!Http LLMBody Mem} `{!Http PlanRequest Mem}.
Context (range_order : gmap string string -> list string) (cfg : operatorConfig) (env : Environment) (mc : bool).

(** [HealthCheckReconciler.Start]. *)
Definition HealthCheck_Start (tr : list (loop_event Mem)) (w : Mem) : option (loop Mem) :=
  loop_run true (ticker_interval cfg) (fun w => (operator_cycle range_order cfg env mc w).2) tr (started w).

(** The other writers approve, reject, label and delete, but propose nothing:
    what an action is to do is as it was. *)
Definition proposes_nothing (f : Mem -> Mem) : Prop := forall Q, status_free Q -> forall w, stored Q w -> stored Q (f w).


(** A finding: no flag is checked, and a negative [--health-check-interval]
    reaches [time.NewTicker], which panics: not one cycle runs. *)
Theorem negative_interval_never_runs (tr : list (loop_event Mem)) (w : Mem) (s : loop Mem) :
  (cfg_healthCheckInterval cfg < 0)%Z -> HealthCheck_Start tr w = Some s ->
  occurrences is_finish tr = 0%nat /\ (lp_stage s = Created \/ lp_stage s = Panicked).
Proof.
  intros Hneg. assert (Hi : ticker_interval cfg = None).
  { unfold ticker_interval. rewrite (proj2 (Z.eqb_neq _ 0)) by lia. by rewrite (proj2 (Z.ltb_ge 0 _)) by lia. }
  unfold HealthCheck_Start. rewrite Hi.
  assert (Hgen : forall tr s0 s, (lp_stage s0 = Created \/ lp_stage s0 = Panicked) -> lp_ticking s0 = false ->
    loop_run true None (fun w => (operator_cycle range_order cfg env mc w).2) tr s0 = Some s ->
    occurrences is_finish tr = 0%nat /\ (lp_stage s = Created \/ lp_stage s = Panicked)); [|apply Hgen; auto].
  clear. induction tr as [|e tr IH]; intros s0 s Hs Ht; [by intros [= <-]|]. cbn [loop_run].
  destruct (loop_step _ _ _ e s0) as [s1|] eqn:He; [|done]. intros Hrun.
  assert (Hone : (lp_stage s1 = Created \/ lp_stage s1 = Panicked) /\ lp_ticking s1 = false /\ is_finish e = false).
  { clear IH Hrun. destruct s0 as [st t p d w0]. cbn in Hs, Ht. subst t.
    destruct e, Hs as [-> | ->]; cbn in He; try done; injection He as <-; cbn; auto. }
  destruct Hone as (Hs1 & Ht1 & Hfin). destruct (IH s1 s Hs1 Ht1 Hrun) as [Hc Hst]. split; [|done].
  unfold occurrences in *. cbn [List.filter]. by rewrite Hfin.
Qed.
End operator_loop.

(** ** The cleaner's loop *)

Section cleaner_loop.
Context `{QuantityOps} `{!SortSlice} `{!SortSliceSpec} (c : Cleaner).

(** [Cleaner.Start]: the first cleanup runs before there is a ticker. *)
Definition Cleaner_Start (tr : list (loop_event EvMem)) (w : EvMem) : option (loop EvMem) :=
  loop_run false (if (0 <? cl_interval c)%Z then Some (cl_interval c) else None) (fun w => (cleanup c w).2) tr (started w).

(** Undisturbed, each cycle takes a whole batch off the backlog. *)
Lemma cleaner_backlog tr w s : healthy_records w -> (forall f, Outside f ∉ tr) -> Cleaner_Start tr w = Some s ->
  let now := mem_now (em_mem w) in
  backlog c now (records (lp_world s)) = (backlog c now (records w) - occurrences is_finish tr * cl_batchSize c)%nat.
Proof.
  intros Hh Hq Hrun. cbv zeta. rewrite (loop_quiet _ _ _ _ _ _ Hrun Hq). cbn [started lp_world]. clear Hrun Hq.
  generalize (occurrences is_finish tr). intros n.
  assert (Hn : healthy_records (Nat.iter n (fun w => (cleanup c w).2) w) /\ em_mem (Nat.iter n (fun w => (cleanup c w).2) w) = em_mem w /\
    backlog c (mem_now (em_mem w)) (records (Nat.iter n (fun w => (cleanup c w).2) w)) = (backlog c (mem_now (em_mem w)) (records w) - n * cl_batchSize c)%nat); [|by destruct Hn as (_ & _ & ?)].
  induction n as [|n (IH1 & IH2 & IH3)]; [split_and!; [done|done|cbn; lia]|]. rewrite !Nat.iter_succ.
  destruct (cleanup_cycle c _ IH1) as (E1 & E2 & E3). rewrite IH2 in E2, E3. split_and!; [done|done|]. rewrite E3. rewrite IH3. lia.
Qed.
End cleaner_loop.

(** ** Witnesses *)

#[local] Existing Instance int_quantity.
#[local] Existing Instance Manager.quiet_sink.
#[local] Existing Instance Manager.healthy_plane.
#[local] Existing Instance Manager.no_metrics.
#[local] Existing Instance Manager.no_flag.
#[local] Existing Instance Manager.no_model.
#[local] Existing Instance Manager.no_planner.
#[local] Existing Instance Manager.no_plans.
#[local] Existing Instance Manager.plain_codec.

(** A human approves whatever is proposed. *)
Definition approve_all (w : Mem) : Mem :=
  mkMem _ (mem_now w) (set_phase RemediationPhaseApproved <$> mem_ra w) (mem_personas w) (mem_incidents w) (mem_clusterPersonas w)
    (mem_deployments w) (mem_pods w) (mem_nodes w) (mem_faults w) (mem_cp_error w).
Lemma approval_proposes_nothing : proposes_nothing approve_all.
Proof. intros Q HQ w Hw k a. cbn. rewrite lookup_fmap_Some. intros (a0 & <- & Ha). apply HQ. by eapply Hw. Qed.

Definition ex_loop_trace : list (loop_event Mem) := [Begin; Tick; Tick; Finish; Outside approve_all; Take; Cancel; Finish; Return].
Definition ex_start (cfg : operatorConfig) (tr : list (loop_event Mem)) : option (loop Mem) :=
  HealthCheck_Start (fun _ => []) cfg ex_env false tr ex_deployed.

Definition seen (s : loop Mem) : stage * list (string * string) :=
  (lp_stage s, map (fun kv => (key_Name kv.1, ra_Phase kv.2)) (map_to_list (mem_ra (lp_world s)))).


(** Three ticks fall into one long cycle: one is kept, and the cancelled loop may
    spend it before it returns. *)
Definition ex_loop : list (loop_event nat) := [Begin; Tick; Tick; Tick; Finish; Cancel].
Lemma loop_lifecycle_witness :
  exists s, loop_run true (Some minute) S ex_loop (started 0%nat) = Some s /\ lp_world s = 1%nat /\
    forall rest s', forallb own rest = true -> loop_run true (Some minute) S rest s = Some s' ->
      (length rest <= 3)%nat /\ (occurrences is_finish rest <= 1)%nat.
Proof.
  exists (mkLoop Waiting true true true 1%nat). split; [reflexivity|]. split; [reflexivity|]. intros rest s' Ho Hs.
  destruct (loop_lifecycle true (Some minute) S 0%nat ex_loop (mkLoop Waiting true true true 1%nat) eq_refl) as (_ & _ & Hend).
  destruct (Hend eq_refl rest s' Ho Hs) as (Hl & Hc & _). split; [exact Hl|exact Hc].
Defined.
