(* ===== verification/Startup.v ===== *)
(** * Start-up: what [main] sets up, in order, and when it gives up (cmd/main.go).

    [startup] is [main] from its flags to [mgr.Start] and after it.  Every call
    into a library that can fail is a [setup_call]; [fails] says which do.  What
    was registered by then is kept when the process exits. *)

From S2P Require Import Prelude GoString GoNum Json ApiTypes KubeTypes Client Retry Safety EventStore ClusterController Manager.
From Stdlib Require Import String Ascii.
From stdpp Require Import strings.
Open Scope string_scope.
Open Scope list_scope.

(** ** The metrics endpoint *)

Record MetricsOptions := mkMetricsOptions {
  mo_BindAddress : string; mo_SecureServing : bool;
  mo_NextProtos : option (list string);     (* what the TLS options offer, when they restrict it *)
  mo_Authorized : bool;                     (* WithAuthenticationAndAuthorization *)
  mo_CertDir : string; mo_CertName : string; mo_KeyName : string;
}.
Definition tlsOpts (cfg : operatorConfig) : option (list string) := if negb (cfg_enableHTTP2 cfg) then Some ["http/1.1"] else None.
Definition metricsServerOptions (cfg : operatorConfig) : MetricsOptions :=
  let certs := (0 <? String.length (cfg_metricsCertPath cfg))%nat in
  mkMetricsOptions (cfg_metricsAddr cfg) (cfg_secureMetrics cfg) (tlsOpts cfg) (cfg_secureMetrics cfg)
    (if certs then cfg_metricsCertPath cfg else "") (if certs then cfg_metricsCertName cfg else "") (if certs then cfg_metricsCertKey cfg else "").

(** ** The calls that can fail *)

Inductive setup_call :=
| GetConfigOrDie                            (* which logs and exits by itself *)
| NewManager (options : MetricsOptions) (probeAddr : string) (leaderElection : bool)
| RegisterPodNodeNameIndex
| NewDiscoveryClient
| SetupPersonaController
| SetupClusterPersonaController
| SetupArgoCDWatcher
| AddBootstrap
| NewClientset
| NewMetricsClient
| AddEventWatcher
| AddEventCleaner
| AddHealthReconciler
| SetupIncidentController
| SetupRemediationController
| AddHealthzCheck
| AddReadyzCheck
| StartManager.

(** How the process ends: [os.Exit(1)] after a line in the log, or [main] returns. *)
Inductive ending := Exit1 (logged : string) | Returned.

(** A step of [main]: the parts registered so far, and go on or end. *)
Definition boot (A : Type) : Type := list part -> result string A * list part.
#[export] Instance boot_ret : MRet boot := fun A a ps => (Ok a, ps).
#[export] Instance boot_bind : MBind boot := fun A B f m ps => match m ps with (Ok a, ps') => f a ps' | (Err e, ps') => (Err e, ps') end.

Section startup.
Context (cfg : operatorConfig) (argoCRD : bool) (fails : setup_call -> bool).

Definition must (c : setup_call) (logged : string) : boot unit := fun ps => (if fails c then Err logged else Ok tt, ps).
Definition register (p : part) : boot unit := fun ps => (Ok tt, ps ++ [p]).
Definition when (b : bool) (m : boot unit) : boot unit := if b then m else mret tt.

Definition setup_argocd : boot unit :=
  when (cfg_enableArgoCD cfg && argoCRD) (if fails SetupArgoCDWatcher then mret tt else register ArgoCDWatcherController).
Definition setup_bootstrap : boot unit :=
  when (cfg_autoCreateClusterPersona cfg)
    (_ ← must AddBootstrap "unable to add ClusterPersona bootstrap runnable";
     register (ClusterPersonaBootstrap (ensureInterval (cfg_clusterPersonaEnsureInterval cfg)))).
(** Without a metrics client the engine has one collector fewer. *)
Definition setup_health : boot unit :=
  when (cfg_enableHealthCheck cfg)
    (_ ← must NewClientset "unable to create kubernetes clientset";
     _ ← must AddEventWatcher "unable to start event watcher";
     _ ← register (EventWatcher (eventStore cfg));
     _ ← must AddEventCleaner "unable to start event cleaner";
     _ ← register (EventCleaner (eventCleaner cfg));
     _ ← must AddHealthReconciler "unable to start health check reconciler";
     _ ← register (HealthCheckReconciler (ticker_interval cfg));
     _ ← must SetupIncidentController "unable to create incident controller";
     _ ← register IncidentControllerPart;
     _ ← must SetupRemediationController "unable to create controller";
     register RemediationControllerPart).
Definition setup : boot unit :=
  _ ← must GetConfigOrDie "unable to get kubeconfig";
  _ ← must (NewManager (metricsServerOptions cfg) (cfg_probeAddr cfg) (cfg_enableLeaderElection cfg)) "unable to start manager";
  _ ← must RegisterPodNodeNameIndex "unable to register spec.nodeName field index";
  _ ← must NewDiscoveryClient "unable to create discovery client";
  _ ← must SetupPersonaController "unable to create controller";
  _ ← register (ApplicationPersonaController (cfg_prometheusURL cfg));
  _ ← must SetupClusterPersonaController "unable to create controller";
  _ ← register ClusterPersonaController;
  _ ← setup_argocd;
  _ ← when (cfg_enableWebSocket cfg) (register (WebSocketServer (cfg_webSocketAddr cfg)));
  _ ← setup_bootstrap;
  _ ← setup_health;
  _ ← must AddHealthzCheck "unable to set up health check";
  must AddReadyzCheck "unable to set up ready check".

(** [main]: the manager runs what was registered until it is stopped. *)
Definition main : ending * list part :=
  match setup [] with
  | (Err logged, ps) => (Exit1 logged, ps)
  | (Ok _, ps) => (if fails StartManager then Exit1 "problem running manager" else Returned, ps)
  end.
(** The metrics collector is there when its client could be made. *)
Definition metricsClient : bool := negb (fails NewMetricsClient).

(** ** What decides the outcome *)

Definition health_calls : list (setup_call * string) :=
  [(NewClientset, "unable to create kubernetes clientset"); (AddEventWatcher, "unable to start event watcher");
   (AddEventCleaner, "unable to start event cleaner"); (AddHealthReconciler, "unable to start health check reconciler");
   (SetupIncidentController, "unable to create incident controller"); (SetupRemediationController, "unable to create controller")].
Definition mandatory : list (setup_call * string) :=
  [(GetConfigOrDie, "unable to get kubeconfig");
   (NewManager (metricsServerOptions cfg) (cfg_probeAddr cfg) (cfg_enableLeaderElection cfg), "unable to start manager");
   (RegisterPodNodeNameIndex, "unable to register spec.nodeName field index");
   (NewDiscoveryClient, "unable to create discovery client"); (SetupPersonaController, "unable to create controller");
   (SetupClusterPersonaController, "unable to create controller")]
  ++ (if cfg_autoCreateClusterPersona cfg then [(AddBootstrap, "unable to add ClusterPersona bootstrap runnable")] else [])
  ++ (if cfg_enableHealthCheck cfg then health_calls else [])
  ++ [(AddHealthzCheck, "unable to set up health check"); (AddReadyzCheck, "unable to set up ready check")].
Definition failing (calls : list (setup_call * string)) : option string := snd <$> find_first (fun c => fails c.1) calls.

(** The parts of a full start. *)
Definition expected_parts : list part := parts cfg (argoCRD && negb (fails SetupArgoCDWatcher)).

(** [m] makes the calls [calls] and registers, when none fails, [ps]; when one
    does, a prefix of them. *)
Definition boots (calls : list (setup_call * string)) (ps : list part) (m : boot unit) : Prop :=
  forall ps0, match failing calls with
              | None => m ps0 = (Ok tt, ps0 ++ ps)
              | Some logged => exists ps1, m ps0 = (Err logged, ps0 ++ ps1) /\ ps1 `prefix_of` ps
              end.

Lemma failing_app l1 l2 : failing (l1 ++ l2) = match failing l1 with Some s => Some s | None => failing l2 end.
Proof. unfold failing. induction l1 as [|c l1 IH]; [done|]. cbn. by destruct (fails c.1). Qed.
Lemma boots_must c logged : boots [(c, logged)] [] (must c logged).
Proof.
  intros ps0. unfold failing, must. cbn. destruct (fails c); cbn; [|by rewrite app_nil_r]. exists []. by rewrite app_nil_r.
Qed.
Lemma boots_register p : boots [] [p] (register p).
Proof. by intros ps0. Qed.
Lemma boots_ret : boots [] [] (mret tt).
Proof. intros ps0. cbn. unfold mret, boot_ret. by rewrite app_nil_r. Qed.
Lemma boots_bind c1 p1 m1 c2 p2 m2 : boots c1 p1 m1 -> boots c2 p2 m2 -> boots (c1 ++ c2) (p1 ++ p2) (m1 ≫= fun _ => m2).
Proof.
  intros H1 H2 ps0. rewrite failing_app. unfold mbind, boot_bind. specialize (H1 ps0). destruct (failing c1) as [logged|].
  - destruct H1 as (ps1 & -> & Hp). exists ps1. split; [done|]. by apply prefix_app_r.
  - rewrite H1. specialize (H2 (ps0 ++ p1)). destruct (failing c2) as [logged|].
    + destruct H2 as (ps1 & -> & Hp). exists (p1 ++ ps1). rewrite app_assoc. split; [done|]. by apply prefix_app.
    + by rewrite H2, app_assoc.
Qed.
Lemma boots_when (b : bool) c p m : boots c p m -> boots (if b then c else []) (if b then p else []) (when b m).
Proof. destruct b; [done|intros _; apply boots_ret]. Qed.

Lemma boots_then_must c logged calls ps m : boots calls ps m -> boots ((c, logged) :: calls) ps (must c logged ≫= fun _ => m).
Proof. intros Hm. apply (boots_bind [(c, logged)] [] _ calls ps m); [apply boots_must|done]. Qed.
Lemma boots_then_register p calls ps m : boots calls ps m -> boots calls (p :: ps) (register p ≫= fun _ => m).
Proof. intros Hm. apply (boots_bind [] [p] _ calls ps m); [apply boots_register|done]. Qed.
Ltac boots := repeat match goal with
  | |- boots _ _ (mbind _ (must _ _)) => apply boots_then_must
  | |- boots _ _ (mbind _ (register _)) => apply boots_then_register
  | |- boots _ _ (must _ _) => apply boots_must
  | |- boots _ _ (register _) => apply boots_register
  end.

Lemma boots_argocd : boots [] (if cfg_enableArgoCD cfg && (argoCRD && negb (fails SetupArgoCDWatcher)) then [ArgoCDWatcherController] else []) setup_argocd.
Proof.
  unfold setup_argocd. destruct (cfg_enableArgoCD cfg), argoCRD, (fails SetupArgoCDWatcher); first [apply boots_register|apply boots_ret].
Qed.
Lemma boots_websocket : boots [] (if cfg_enableWebSocket cfg then [WebSocketServer (cfg_webSocketAddr cfg)] else [])
  (when (cfg_enableWebSocket cfg) (register (WebSocketServer (cfg_webSocketAddr cfg)))).
Proof. destruct (cfg_enableWebSocket cfg); [apply boots_register|apply boots_ret]. Qed.
Lemma boots_bootstrap : boots (if cfg_autoCreateClusterPersona cfg then [(AddBootstrap, "unable to add ClusterPersona bootstrap runnable")] else [])
  (if cfg_autoCreateClusterPersona cfg then [ClusterPersonaBootstrap (ensureInterval (cfg_clusterPersonaEnsureInterval cfg))] else []) setup_bootstrap.
Proof. apply boots_when. boots. Qed.
Lemma boots_health : boots (if cfg_enableHealthCheck cfg then health_calls else []) (healthcheck_parts cfg) setup_health.
Proof. unfold healthcheck_parts. apply boots_when. unfold health_calls. boots. Qed.
Lemma boots_setup : boots mandatory expected_parts setup.
Proof.
  unfold setup, mandatory, expected_parts, parts, base_parts. cbn [app]. boots. rewrite <- !app_assoc.
  apply (boots_bind [] _ _ _ _ _ boots_argocd). apply (boots_bind [] _ _ _ _ _ boots_websocket).
  apply (boots_bind _ _ _ _ _ _ boots_bootstrap). rewrite <- (app_nil_r (healthcheck_parts cfg)).
  apply (boots_bind _ _ _ _ _ _ boots_health). boots.
Qed.

(** C25. How the operator starts.  The process ends with status 1 and the line of the
    first mandatory call to fail, whichever flags are set, having registered only
    a prefix of its parts; if none fails the manager runs exactly the parts the
    flags ask for.  A missing ArgoCD CRD, a watcher that cannot be set up and a
    metrics client that cannot be made never keep it from starting. *)
Theorem startup_outcome :
  match failing mandatory with
  | Some logged => main.1 = Exit1 logged /\ main.2 `prefix_of` expected_parts
  | None => main = (if fails StartManager then Exit1 "problem running manager" else Returned, expected_parts)
  end.
Proof.
  pose proof (boots_setup []) as Hs. unfold main. destruct (failing mandatory) as [logged|]; [|by rewrite Hs].
  destruct Hs as (ps1 & -> & Hp). by split.
Qed.
End startup.
