(* ===== verification/Confidence.v ===== *)
(** * Confidence scores as the CRDs want them.

    IncidentMemory and RemediationAction carry a confidence as text, and the API
    server checks it against a pattern (api/v1/incidentmemory_types.go and
    remediationaction_types.go).  The text is [%.2f] of a float computed by
    internal/diagnosis/confidence.go, or of a model's answer clamped by
    [formatConfidence] of internal/remediation/proposer_ai.go: which floats print
    as the pattern asks is settled here, down to the sign of zero. *)

From S2P Require Import Prelude GoString GoNum ApiTypes KubeTypes Signals Diagnosis Planner Disclosure Plan.
From Stdlib Require Import String Ascii SpecFloat.
From stdpp Require Import strings.
Open Scope string_scope.

(** ** The pattern *)

Definition digits1 (p : ascii -> bool) (s : string) : bool := negb (s =? "") && negb (str_exists (fun c => negb (p c)) s).

(** [^(0(\.\d+)?|1(\.0+)?)$]. *)
Definition confidence_pattern (s : string) : bool :=
  match s with
  | String "0" "" | String "1" "" => true
  | String "0" (String "." rest) => digits1 is_digit rest
  | String "1" (String "." rest) => digits1 (Ascii.eqb "0") rest
  | _ => false
  end.

(** The texts [%.2f] gives to numbers from zero to one. *)
Definition unit_texts : list string := map (fun n => fmt_fixed 2 (Z.of_nat n)) (seq 0 101).

Lemma unit_texts_pattern s : s ∈ unit_texts -> confidence_pattern s = true.
Proof.
  assert (Hall : forallb confidence_pattern unit_texts = true) by (vm_compute; reflexivity).
  rewrite forallb_forall in Hall. intros Hs. by apply Hall, list_elem_of_In.
Qed.

(** ** Rounding keeps a mantissa within 53 bits *)

Definition f_small (x : f64) : Prop := match x with S754_finite _ m _ => (Zpos m < 2 ^ 53)%Z | _ => True end.

Lemma digits2_upper m : (Zpos m < 2 ^ Zpos (digits2_pos m))%Z.
Proof.
  induction m as [m IH|m IH|]; cbn [digits2_pos]; [..|done]; rewrite Pos2Z.inj_succ, Z.pow_succ_r by lia; lia.
Qed.

Lemma shr_1_half r : (0 <= shr_m r)%Z -> shr_m (shr_1 r) = (shr_m r `div` 2)%Z.
Proof.
  destruct r as [[|[p|p|]|p] a b]; cbn; try done; intros _.
  - change (Zpos p~1) with (2 * Zpos p + 1)%Z. symmetry. rewrite Z.add_comm, Z.mul_comm, Z.div_add by lia. done.
  - change (Zpos p~0) with (2 * Zpos p)%Z. symmetry. by rewrite Z.mul_comm, Z.div_mul.
Qed.
Lemma shr_iter p r : (0 <= shr_m r)%Z -> shr_m (SpecFloat.iter_pos shr_1 p r) = (shr_m r `div` 2 ^ Zpos p)%Z.
Proof.
  revert r. induction p as [p IH|p IH|]; intros r Hr; cbn [SpecFloat.iter_pos]; [| |by apply shr_1_half].
  - pose proof (shr_1_half r Hr) as H1. assert (H2 : (0 <= shr_m (shr_1 r))%Z) by (rewrite H1; by apply Z.div_pos).
    pose proof (IH _ H2) as H3. assert (H4 : (0 <= shr_m (SpecFloat.iter_pos shr_1 p (shr_1 r)))%Z) by (rewrite H3; by apply Z.div_pos; [|lia]).
    rewrite (IH _ H4), H3, H1, !Z.div_div by lia. f_equal.
    replace (Zpos p~1) with (1 + Zpos p + Zpos p)%Z by lia. rewrite !Z.pow_add_r by lia. lia.
  - pose proof (IH _ Hr) as H3. assert (H4 : (0 <= shr_m (SpecFloat.iter_pos shr_1 p r))%Z) by (rewrite H3; by apply Z.div_pos; [|lia]).
    rewrite (IH _ H4), H3, Z.div_div by lia. f_equal.
    replace (Zpos p~0) with (Zpos p + Zpos p)%Z by lia. by rewrite Z.pow_add_r by lia.
Qed.

Lemma shr_fexp_small m e l : (0 <= m)%Z -> (shr_m (shr_fexp f_prec f_emax m e l).1 < 2 ^ 53)%Z.
Proof.
  intros Hm. unfold shr_fexp, shr. set (r := shr_record_of_loc m l). assert (Hr : shr_m r = m) by by destruct l as [|[]].
  assert (Hu : (m < 2 ^ Zdigits2 m)%Z) by (destruct m; [done|apply digits2_upper|lia]).
  unfold fexp, emin, f_prec, f_emax. destruct (_ - e)%Z as [|p|p] eqn:Hd; cbn [fst]; rewrite ?shr_iter, Hr by (rewrite ?Hr; done).
  1,3: apply (Z.lt_le_trans _ _ _ Hu), Z.pow_le_mono_r; lia.
  apply Z.div_lt_upper_bound; [lia|]. rewrite <- Z.pow_add_r by lia. apply (Z.lt_le_trans _ _ _ Hu), Z.pow_le_mono_r; lia.
Qed.
Lemma round_aux_small s m e l : (0 <= m)%Z -> f_small (binary_round_aux f_prec f_emax s m e l).
Proof.
  intros Hm. unfold binary_round_aux. pose proof (shr_fexp_nonneg m e l Hm) as H1.
  destruct (shr_fexp _ _ m e l) as [r1 e1]. simpl in H1.
  assert (Hr : (0 <= round_nearest_even (shr_m r1) (loc_of_shr_record r1))%Z).
  { unfold round_nearest_even. destruct (loc_of_shr_record r1) as [|[]]; try lia. destruct (Z.even (shr_m r1)); lia. }
  pose proof (shr_fexp_small _ e1 loc_Exact Hr) as H2.
  destruct (shr_fexp _ _ _ e1 loc_Exact) as [r2 e2]. simpl in H2. destruct (shr_m r2); try done. by destruct (_ <=? _)%Z.
Qed.
Lemma fmul_small x y : f_small (fmul x y).
Proof. destruct x, y; try done. apply round_aux_small. done. Qed.

Lemma f_max_among x y : f_max x y ∈ [x; y; S754_nan; S754_infinity false].
Proof. destruct x as [[]|[]| |[] m e], y as [[]|[]| |[] m' e']; cbn; repeat case_match; set_solver. Qed.
Lemma f_min_among x y : f_min x y ∈ [x; y; S754_nan; S754_infinity true].
Proof. destruct x as [[]|[]| |[] m e], y as [[]|[]| |[] m' e']; cbn; repeat case_match; set_solver. Qed.

(** ** Which numbers print as a confidence *)

Lemma round_half_even_bounds num den k : (0 < den)%Z -> (0 <= num <= k * den)%Z -> (0 <= round_half_even num den <= k)%Z.
Proof.
  intros Hd Hn. unfold round_half_even. cbv zeta. pose proof (Z.div_mod num den ltac:(lia)) as Hdm. pose proof (Z.mod_pos_bound num den Hd) as Hr.
  assert (Hq : (0 <= num `div` den)%Z) by (apply Z.div_pos; lia). revert Hdm Hr Hq. generalize (num `div` den)%Z, (num `mod` den)%Z.
  intros q r -> Hr Hq. destruct (Z.eq_dec q k) as [->|Hne].
  - assert (r = 0)%Z as -> by nia. replace (2 * 0 ?= den)%Z with Lt by (symmetry; apply Z.compare_lt_iff; lia). lia.
  - assert (q < k)%Z by nia. destruct (Z.compare (2 * r) den); [destruct (Z.even q)|..]; lia.
Qed.

Definition in_unit (x : f64) : Prop := f_le f_zero x = true /\ f_le x f_one = true.

Lemma f_one_eq : f_one = S754_finite false (2 ^ 52) (-52).
Proof. vm_compute. reflexivity. Qed.
Lemma in_unit_cases x : in_unit x ->
  (exists s, x = S754_zero s) \/ exists m e, x = S754_finite false m e /\ ((e < -52)%Z \/ e = (-52)%Z /\ (Zpos m <= 2 ^ 52)%Z).
Proof.
  intros [H0 H1]. rewrite f_one_eq in H1. destruct x as [s|[]| |[] m e]; try done; [by left; exists s|]. right. exists m, e. split; [done|].
  assert (Hk : Zpos (2 ^ 52) = (2 ^ 52)%Z) by reflexivity. revert H1 Hk. generalize (2 ^ 52)%positive. intros k. unfold f_le, SFleb, SFcompare.
  destruct (Z.compare_spec e (-52)) as [->|He|He]; [|by left|done]. change (Pos.compare_cont Eq m k) with (m ?= k)%positive.
  intros H1 Hk. right. split; [done|]. destruct (Pos.compare_spec m k); [subst; lia|lia|done].
Qed.

(** Zero to one, in 53 bits and not the negative zero: two decimals of it are a
    confidence. *)
Lemma fmt_unit x : f_small x -> in_unit x -> x <> S754_zero true -> fmt_f 2 x ∈ unit_texts.
Proof.
  intros Hs Hu Hz. destruct (in_unit_cases x Hu) as [[[] ->]|(m & e & -> & He)]; [done|by vm_compute; left|].
  cbn [f_small] in Hs. unfold fmt_f. destruct (Z.leb_spec 0 e) as [Hle|Hlt]; [lia|]. change (Z.of_nat 2) with 2%Z. cbn [String.append].
  destruct (round_half_even_bounds (Zpos m * 10 ^ 2) (2 ^ (- e)) 100) as [Hlo Hhi]; [lia| |].
  - split; [lia|]. assert (Zpos m <= 2 ^ (- e))%Z; [|lia]. destruct He as [He|[-> Hm]]; [|lia].
    assert (2 ^ 53 <= 2 ^ (- e))%Z by (apply Z.pow_le_mono_r; lia). lia.
  - apply list_elem_of_fmap. exists (Z.to_nat (round_half_even (Zpos m * 10 ^ 2) (2 ^ (- e)))). split; [by rewrite Z2Nat.id|].
    apply elem_of_seq. lia.
Qed.

(** The clamp of [CalculateConfidence] never answers the negative zero. *)
Lemma clamp_plain x : f_small x -> f_small (f_min f_one (f_max f_zero x)) /\ f_min f_one (f_max f_zero x) <> S754_zero true.
Proof.
  intros Hx. split.
  - pose proof (f_min_among f_one (f_max f_zero x)) as Hmin. pose proof (f_max_among f_zero x) as Hmax. revert Hmin Hmax.
    rewrite !elem_of_cons. intros [->|[->|[->|[->|[]%not_elem_of_nil]]]]; [done| |done|done].
    intros [->|[->|[->|[->|[]%not_elem_of_nil]]]]; done.
  - rewrite f_one_eq. destruct x as [[]|[]| |[] m e]; try (vm_compute; done).
    change (f_max f_zero (S754_finite false m e)) with (S754_finite false m e). cbn [f_min]. by destruct (f_lt _ _).
Qed.

(** ** Diagnoses *)

(** A confidence the incident's record can hold. *)
Definition plain_unit (x : f64) : Prop := f_small x /\ in_unit x /\ x <> S754_zero true.

Lemma plain_unit_text x : plain_unit x -> fmt_f 2 x ∈ unit_texts.
Proof. intros (Hs & Hu & Hz). by apply fmt_unit. Qed.

Definition categories : list string :=
  [CategoryResource; CategoryScaling; CategoryHealth; CategorySecurity; CategoryDeployment; CategoryDependency; CategoryNode; CategoryControlPlane].
Definition severities : list string := [SeverityInfo; SeverityWarning; SeverityCritical].

Ltac in_list := solve [repeat first [by left | right]].

(** What a rule makes: its fields, and the signals its severity may come from. *)
Lemma apply_rule_made signals rule d : rule ∈ builtin_rules -> apply_rule signals rule = Some d ->
  exists base sub, d_Confidence d = buildConfidence base sub /\ d_Category d ∈ categories /\
    (d_Severity d ∈ [SeverityCritical; SeverityWarning] \/ from signals sub /\ d_Severity d = highestSeverity sub).
Proof.
  intros Hr Hd. assert (Hdiag : rule_Diagnose rule signals = Some d) by (unfold apply_rule in Hd; by destruct (rule_Match rule signals)).
  clear Hd. unfold builtin_rules in Hr. rewrite !elem_of_cons in Hr.
  assert (Hmk : forall summary base category severity sub contributing action, category ∈ categories ->
    (severity ∈ [SeverityCritical; SeverityWarning] \/ from signals sub /\ severity = highestSeverity sub) ->
    Some (mk_diag summary base category severity sub contributing action) = Some d ->
    exists base sub, d_Confidence d = buildConfidence base sub /\ d_Category d ∈ categories /\
      (d_Severity d ∈ [SeverityCritical; SeverityWarning] \/ from signals sub /\ d_Severity d = highestSeverity sub)).
  { intros ? base ? ? sub ? ? Hc Hs [= <-]. by exists base, sub. }
  assert (Hpressure : forall sub, from signals sub -> from signals (concatSignals [of_types signals nodePressureTypes; sub])).
  { intros sub Hsub. unfold concatSignals. cbn [concat]. auto with go. }
  destruct_or?; [subst rule; cbn [rule_Diagnose] in Hdiag..|by apply not_elem_of_nil in Hr].
  all: unfold diagnoseOOM, diagnoseCrashLoop, diagnoseNodePressure, diagnoseNodeDown, diagnoseResourceSaturation, diagnoseControlPlane,
    diagnoseImagePull, diagnosePendingPod in Hdiag.
  all: repeat match type of Hdiag with
    | match ?x with _ => _ end = Some _ => destruct x; try done
    | Some (match ?x with _ => _ end) = Some _ => destruct x
    end.
  all: refine (Hmk _ _ _ _ _ _ _ _ _ Hdiag); [in_list|first [left; in_list|right; split; [apply Hpressure; auto with go|reflexivity]]].
Qed.

Lemma highestSeverity_among sub : Forall (fun s => sig_Severity s ∈ severities) sub -> highestSeverity sub ∈ severities.
Proof.
  unfold highestSeverity. assert (H0 : SeverityInfo ∈ severities) by in_list. revert H0. generalize SeverityInfo.
  induction sub as [|s sub IH]; intros acc Hacc Hs; [done|]. apply Forall_cons in Hs as [Hs Hrest]. cbn [foldl].
  apply IH; [|done]. by destruct (severityGreater _ _).
Qed.

(** What an incident's record asks of a diagnosis. *)
Record recordable (d : Diagnosis) : Prop := {
  rd_confidence : plain_unit (d_Confidence d);
  rd_category : d_Category d ∈ categories;
  rd_severity : d_Severity d ∈ severities;
}.

Lemma apply_rule_recordable signals rule d :
  (8 * Z.of_nat (length signals) < 2 ^ 53)%Z -> Forall (fun s => sig_Severity s ∈ severities) signals ->
  rule ∈ builtin_rules -> apply_rule signals rule = Some d -> recordable d.
Proof.
  intros Hlen Hsev Hr Hd. destruct (apply_rule_made signals rule d Hr Hd) as (base & sub & Hc & Hcat & Hs).
  pose proof (sound_confidence signals d (apply_rule_sound signals Hlen rule d Hr Hd)) as Hu. constructor; [|done|].
  - destruct (clamp_plain (fmul (fmul (fmul base (signalCountBoost (Z.of_nat (length sub)))) (AverageClarity sub)) (timeProximityBoost (TimeWindowSeconds sub))))
      as [H1 H2]; [apply fmul_small|]. rewrite Hc in Hu |- *. by split_and!.
  - destruct Hs as [Hs|[Hf ->]]; [rewrite !elem_of_cons in Hs; destruct_or?; [rewrite Hs; in_list..|by apply not_elem_of_nil in Hs]|]. apply highestSeverity_among. unfold from in Hf. rewrite Forall_forall in Hsev, Hf |- *. auto.
Qed.

(** ** Actions *)

(** [formatConfidence] meets the pattern for every answer of the model but one:
    [-0.0], which JSON can spell, is neither below zero nor above one. *)
Lemma formatConfidence_iff c : f_small c ->
  confidence_pattern (formatConfidence c) = true <-> c <> S754_nan /\ c <> S754_zero true.
Proof.
  intros Hs. split; [intros Hp; split; intros ->; by vm_compute in Hp|]. intros [Hn Hz]. apply unit_texts_pattern. unfold formatConfidence.
  assert (Hok : forall x, plain_unit x -> fmt_f 2 x ∈ unit_texts) by apply plain_unit_text.
  assert (H0 : plain_unit f_zero) by done. assert (H1 : plain_unit f_one) by (rewrite f_one_eq; done).
  destruct (f_lt c f_zero) eqn:Hlt.
  - destruct (f_lt f_one f_zero) eqn:Hb; [by apply Hok|by apply Hok].
  - destruct (f_lt f_one c) eqn:Hgt; [by apply Hok|]. apply Hok. split; [done|]. split; [|done].
    assert (Hc : f_nonneg c) by (destruct c as [|[]| |[]]; done). split; [done|].
    rewrite f_le_nonneg_total in Hgt by done. by apply negb_false_iff in Hgt.
Qed.

Example negative_zero_is_refused :
  formatConfidence (S754_zero true) = "-0.00" /\ confidence_pattern "-0.00" = false.
Proof. split; vm_compute; reflexivity. Qed.

(** Damping the text of a confidence gives the text of a confidence. *)
Lemma dampConfidence_text s : s ∈ unit_texts -> dampConfidence s ∈ unit_texts.
Proof.
  assert (Hall : forallb (fun s => existsb (String.eqb (dampConfidence s)) unit_texts) unit_texts = true) by (vm_compute; reflexivity).
  rewrite forallb_forall in Hall. intros Hs. specialize (Hall s (proj1 (list_elem_of_In _ _) Hs)).
  apply existsb_exists in Hall as (t & Ht & ->%String.eqb_eq). by apply list_elem_of_In.
Qed.
