(* ===== verification/CrdSchema.v ===== *)
(** * The CRDs' validation rules (the kubebuilder markers of api/v1).

    What the API server checks on every write of an IncidentMemory, a
    DorguEvent, the status of an ApplicationPersona, of a ClusterPersona and of
    a RemediationAction, the self-healing policy and the recorded workload, as
    boolean functions.  A field that is unset is omitted from the JSON, so an
    enumeration admits it exactly when the field is optional.  Names and label
    values are the API server's own rules.  Not among the rules: the lengths of
    condition messages, and [occurrenceCount]'s minimum, which the count leaves
    only by overflowing int32 (see [one_more_wraps]). *)

From S2P Require Import Prelude GoString GoNum Sha256 Json ApiTypes KubeTypes Client Signals Diagnosis RemediationController IncidentController.
From S2P Require Import HealthCheck EventStore Schema Confidence.
From Stdlib Require Import String Ascii.
From stdpp Require Import strings.
Open Scope string_scope.

(** ** Markers *)

(** [Enum], of a required and of an optional field. *)
Definition one_of (allowed : list string) (s : string) : bool := existsb (String.eqb s) allowed.
Definition one_of_or_unset (allowed : list string) (s : string) : bool := (s =? "") || one_of allowed s.
Definition opt_all {A} (p : A -> bool) (o : option A) : bool := match o with Some a => p a | None => true end.
(** A required time: the zero time is sent as null. *)
Definition time_set (t : time) : bool := negb (t_is_zero t).

Lemma one_of_iff allowed s : one_of allowed s = true <-> s ∈ allowed.
Proof.
  unfold one_of. rewrite existsb_exists. setoid_rewrite String.eqb_eq. rewrite list_elem_of_In. naive_solver.
Qed.
Lemma one_of_or_unset_iff allowed s : one_of_or_unset allowed s = true <-> s = "" \/ s ∈ allowed.
Proof. unfold one_of_or_unset. by rewrite orb_true_iff, String.eqb_eq, one_of_iff. Qed.

(** ** Metadata *)

Definition alnum_byte (c : ascii) : bool := is_lower c || is_upper c || is_digit c.
Fixpoint last_is (p : ascii -> bool) (s : string) : bool :=
  match s with "" => false | String c "" => p c | String _ s' => last_is p s' end.
Definition first_is (p : ascii -> bool) (s : string) : bool := match s with String c _ => p c | "" => false end.
Definition every_byte (p : ascii -> bool) (s : string) : bool := negb (str_exists (fun c => negb (p c)) s).

(** A label's value. *)
Definition label_byte (c : ascii) : bool := alnum_byte c || Ascii.eqb c "-" || Ascii.eqb c "_" || Ascii.eqb c ".".
Definition label_value_valid (s : string) : bool :=
  (s =? "") || ((String.length s <=? 63)%nat && first_is alnum_byte s && last_is alnum_byte s && every_byte label_byte s).
(** The name of a custom resource. *)
Definition name_valid (s : string) : bool :=
  (String.length s <=? 253)%nat && first_is plain_byte s && last_is plain_byte s && every_byte (fun c => name_byte c || Ascii.eqb c ".") s.
Definition labels_valid (labels : gmap string string) : bool := forallb (fun kv => label_value_valid kv.2) (map_to_list labels).
Definition meta_valid (m : ObjectMeta) : bool := name_valid (m_Name m) && labels_valid (m_Labels m).

(** ** [metav1.Condition], and a list of them keyed by type *)

Definition condition_statuses : list string := [ConditionTrue; ConditionFalse; ConditionUnknown].
Definition reason_byte (c : ascii) : bool := alnum_byte c || Ascii.eqb c "_" || Ascii.eqb c "," || Ascii.eqb c ":".
(** [^[A-Za-z]([A-Za-z0-9_,:]*[A-Za-z0-9_])?$], at most 1024 bytes. *)
Definition reason_valid (s : string) : bool :=
  (String.length s <=? 1024)%nat && first_is (fun c => is_lower c || is_upper c) s && last_is (fun c => alnum_byte c || Ascii.eqb c "_") s
  && every_byte reason_byte s.
Definition condition_valid (c : Condition) : bool :=
  negb (c_Type c =? "") && one_of condition_statuses (c_Status c) && reason_valid (c_Reason c) && time_set (c_LastTransitionTime c).
Definition conditions_valid (cs : list Condition) : bool := forallb condition_valid cs && bool_decide (NoDup (map c_Type cs)).

(** ** References (incidentmemory_types.go) *)

Definition persona_kinds : list string := ["ApplicationPersona"; "ClusterPersona"].
Definition persona_ref_valid (r : PersonaReference) : bool := one_of persona_kinds (pr_Kind r).

(** ** IncidentMemory (incidentmemory_types.go) *)

Definition incident_phases : list string := ["Detected"; "Investigating"; "Resolved"; "Recurring"].
Definition outcomes : list string := ["resolved"; "partial"; "failed"; "rollback"; "acknowledged"].
Definition detection_valid (d : DetectionInfo) : bool := time_set (di_FirstSeen d) && time_set (di_LastSeen d).
Definition root_cause_valid (rc : RootCauseInfo) : bool := confidence_pattern (rc_Confidence rc).
Definition resolution_valid (r : ResolutionInfo) : bool := one_of_or_unset outcomes (rs_Outcome r).
Definition incident_spec_valid (s : IncidentMemorySpec) : bool :=
  persona_ref_valid (im_PersonaRef s) && one_of_or_unset [AttributionPersona; AttributionUnattributed] (im_Attribution s)
  && one_of categories (im_Category s) && one_of severities (im_Severity s) && detection_valid (im_Detection s)
  && opt_all root_cause_valid (im_RootCause s) && opt_all resolution_valid (im_Resolution s).
Definition incident_status_valid (s : IncidentMemoryStatus) : bool :=
  one_of_or_unset incident_phases (ims_Phase s) && conditions_valid (ims_Conditions s).
Definition incident_valid (im : IncidentMemory) : bool :=
  meta_valid (im_Meta im) && incident_spec_valid (im_Spec im) && incident_status_valid (im_Status im).

(** ** DorguEvent (dorguevent_types.go) *)

Definition event_spec_valid (s : DorguEventSpec) : bool :=
  one_of severities (des_Severity s) && one_of categories (des_Category s) && opt_all persona_ref_valid (des_PersonaRef s)
  && time_set (des_EventTime s).
Definition event_valid (de : DorguEvent) : bool := meta_valid (de_Meta de) && event_spec_valid (de_Spec de).

(** ** ApplicationPersona's status (applicationpersona_types.go) *)

Definition persona_phases : list string := ["Pending"; "Active"; "Degraded"; "Failed"].
Definition health_statuses : list string := ["Healthy"; "Degraded"; "Unhealthy"; "Unknown"].
Definition issue_severities : list string := ["error"; "warning"; "info"].
Definition sync_statuses : list string := ["Synced"; "OutOfSync"; "Unknown"].
Definition argocd_health : list string := ["Healthy"; "Degraded"; "Progressing"; "Suspended"; "Missing"; "Unknown"].
Definition argocd_valid (a : ArgoCDStatus) : bool :=
  one_of_or_unset sync_statuses (acd_SyncStatus a) && one_of_or_unset argocd_health (acd_HealthStatus a).
Definition validation_valid (v : ValidationStatus) : bool := forallb (fun i => one_of issue_severities (vi_Severity i)) (vs_Issues v).
Definition persona_status_valid (s : ApplicationPersonaStatus) : bool :=
  one_of_or_unset persona_phases (apst_Phase s) && opt_all (fun h => one_of_or_unset health_statuses (hst_Status h)) (apst_Health s)
  && opt_all validation_valid (apst_Validation s) && opt_all argocd_valid (apst_ArgoCD s) && conditions_valid (apst_Conditions s).

(** ** ClusterPersona (clusterpersona_types.go) *)

Definition cluster_phases : list string := ["Discovering"; "Ready"; "Degraded"; "Unknown"].
Definition addon_types : list string :=
  ["gitops"; "monitoring"; "logging"; "ingress"; "service-mesh"; "secrets"; "cert-management"; "database"; "other"].
Definition environments : list string := ["development"; "staging"; "production"; "sandbox"].
Definition modes : list string := [SelfHealingModeObserve; SelfHealingModePropose; SelfHealingModeAutoApprove].
Definition cluster_status_valid (s : ClusterPersonaStatus) : bool :=
  one_of_or_unset cluster_phases (cps_Phase s) && forallb (fun a => one_of_or_unset addon_types (ad_AddonType a)) (cps_Addons s)
  && conditions_valid (cps_Conditions s).
Definition self_healing_valid (p : SelfHealingPolicy) : bool :=
  one_of modes (shp_Mode p) && ((0 <=? shp_TrustLevel p) && (shp_TrustLevel p <=? 5))%Z
  && opt_all (fun rb => (0 <=? rbp_MaxRetries rb)%Z) (shp_Rollback p).
Definition cluster_spec_valid (cp : ClusterPersona) : bool :=
  one_of_or_unset environments (cp_Environment cp) && opt_all self_healing_valid (cp_SelfHealing cp).

(** ** RemediationAction's status, and the workload on record (remediationaction_types.go) *)

Definition remediation_phases : list string :=
  ["Pending"; "Approved"; "Applying"; "Verifying"; "Completed"; "Acknowledged"; "RolledBack"; "Failed"; "Rejected"; "Expired"].
Definition verification_results : list string := ["Healthy"; "Degraded"; "Unknown"].
Definition step_phases : list string := ["Pending"; "Applied"; "Verified"; "Failed"; "Skipped"].
Definition step_status_valid (s : StepStatus) : bool := (1 <=? sst_Order s)%Z && one_of_or_unset step_phases (sst_Phase s).
Definition action_status_valid (s : RemediationActionStatus) : bool :=
  one_of_or_unset remediation_phases (ras_Phase s) && one_of_or_unset verification_results (ras_VerificationResult s)
  && conditions_valid (ras_Conditions s) && forallb step_status_valid (ras_StepStatuses s).
Definition managers : list string :=
  [ManagedByHelm; ManagedByArgoCD; ManagedByFlux; ManagedByKustomize; ManagedByUnmanaged; ManagedByUnknown].
Definition workload_ref_valid (w : WorkloadRef) : bool :=
  one_of ["Deployment"] (wr_Kind w) && one_of managers (wr_ManagedBy w) && (String.length (wr_ManagedByDetail w) <=? 253)%nat.

(** ** Lemmas *)

Lemma labels_valid_iff labels : labels_valid labels = true <-> forall k v, labels !! k = Some v -> label_value_valid v = true.
Proof.
  unfold labels_valid. rewrite forallb_forall. split.
  - intros Hall k v Hk. apply (Hall (k, v)), list_elem_of_In, elem_of_map_to_list, Hk.
  - intros Hall [k v] Hin. by apply (Hall k), elem_of_map_to_list, list_elem_of_In.
Qed.
Lemma labels_valid_insert labels k v : labels_valid labels = true -> label_value_valid v = true -> labels_valid (<[k := v]> labels) = true.
Proof. rewrite !labels_valid_iff. intros Hl Hv k' v' [[_ <-]|[_ Hk]]%lookup_insert_Some; [done|by eapply Hl]. Qed.

Lemma conditions_valid_iff cs :
  conditions_valid cs = true <-> Forall (fun c => condition_valid c = true) cs /\ NoDup (map c_Type cs).
Proof. unfold conditions_valid. rewrite andb_true_iff, forallb_forall, bool_decide_eq_true, Forall_forall. by setoid_rewrite list_elem_of_In. Qed.

Lemma setCondition_types now ty st re msg cs :
  map c_Type (setCondition now ty st re msg cs) = (if hasCondition cs ty then map c_Type cs else map c_Type cs ++ [ty])%list.
Proof.
  induction cs as [|c cs IH]; [done|]. cbn [setCondition hasCondition existsb map]. destruct (String.eqb_spec (c_Type c) ty) as [Hc|Hc]; cbn [orb].
  - cbn [map]. by destruct (negb _ || negb _); cbn [c_Type]; rewrite ?Hc.
  - cbn [map]. rewrite IH. unfold hasCondition. by destruct (existsb _ cs).
Qed.
(** [setCondition] keeps a list valid when what it sets is. *)
Lemma setCondition_valid now ty st re msg cs :
  conditions_valid cs = true -> condition_valid (mkCondition ty st re msg now) = true -> conditions_valid (setCondition now ty st re msg cs) = true.
Proof.
  rewrite !conditions_valid_iff, setCondition_types. intros [Hall Hnd] Hnew. split.
  - induction Hall as [|c cs Hc Hcs IH]; cbn [setCondition]; [by repeat constructor|]. apply NoDup_cons in Hnd as [_ Hnd].
    destruct (c_Type c =? ty); constructor; [by destruct (_ || _)|done|done|by apply IH].
  - destruct (hasCondition cs ty) eqn:Hh; [done|]. apply NoDup_app. split; [done|]. split; [|apply NoDup_singleton].
    intros t Ht ->%list_elem_of_singleton. apply list_elem_of_fmap in Ht as (c & -> & Hc).
    unfold hasCondition in Hh. rewrite <- not_true_iff_false, existsb_exists in Hh. apply Hh. exists c. by rewrite String.eqb_refl, <- list_elem_of_In.
Qed.

(** A constant reason and a time that is set are all a new condition needs. *)
Lemma condition_valid_intro now ty st re msg :
  negb (ty =? "") && one_of condition_statuses st && reason_valid re = true -> now <> 0%Z -> condition_valid (mkCondition ty st re msg now) = true.
Proof.
  intros Hc Hn. unfold condition_valid. cbn [c_Type c_Status c_Reason c_LastTransitionTime]. rewrite Hc. unfold time_set, t_is_zero.
  by rewrite (proj2 (Z.eqb_neq now 0) Hn).
Qed.
