(* ===== verification/Triples.v ===== *)
(** * What a computation returns under an invariant.

    [gives I P m]: started in a world where [I] holds, [m] ends in one where it
    holds, with a value in [P].  It is [preserves] (Writes.v) with a
    postcondition, for invariants that say something of what is read: the rules
    follow the structure of a computation, and [gives] closes a goal whose calls
    are known. *)

From S2P Require Import Prelude GoString GoNum Json ApiTypes KubeTypes Client Retry Writes.
From stdpp Require Import strings.

Definition gives {W A} (I : W -> Prop) (P : A -> Prop) (m : io W A) : Prop := forall w, I w -> P (m w).1 /\ I (m w).2.
(** A result that is good when there is one. *)
Definition when_ok {E A} (P : A -> Prop) (r : result E A) : Prop := match r with Ok a => P a | Err _ => True end.
Definition always {A} (_ : A) : Prop := True.

Section rules.
Context {W : Type} (I : W -> Prop).

Lemma gives_ret {A} (P : A -> Prop) (a : A) : P a -> gives I P (mret a).
Proof. by intros Ha w Hw. Qed.
Lemma gives_iok {E A} (P : A -> Prop) (a : A) : P a -> gives I (when_ok P) (iok (E := E) a).
Proof. by intros Ha w Hw. Qed.
Lemma gives_ierr {E A} (P : A -> Prop) (e : E) : gives I (when_ok P) (ierr (A := A) e).
Proof. by intros w Hw. Qed.
Lemma gives_weaken {A} (P Q : A -> Prop) (m : io W A) : gives I Q m -> (forall a, Q a -> P a) -> gives I P m.
Proof. intros Hm Hq w Hw. destruct (Hm w Hw). auto. Qed.
Lemma gives_preserves {A} (m : io W A) : preserves I m -> gives I always m.
Proof. intros Hm w Hw. split; [done|by apply Hm]. Qed.
Lemma preserves_gives {A} (P : A -> Prop) (m : io W A) : gives I P m -> preserves I m.
Proof. intros Hm w Hw. by apply Hm. Qed.
Lemma gives_bind {A B} (Q : A -> Prop) (P : B -> Prop) (m : io W A) (f : A -> io W B) :
  gives I Q m -> (forall a, Q a -> gives I P (f a)) -> gives I P (let! x := m in f x).
Proof. intros Hm Hf w Hw. unfold mbind, io_bind. destruct (Hm w Hw) as [Ha Hi]. destruct (m w) as [a w']. by apply Hf. Qed.
Lemma gives_iobind {E A B} (Q : A -> Prop) (P : B -> Prop) (m : io W (result E A)) (f : A -> io W (result E B)) :
  gives I (when_ok Q) m -> (forall a, Q a -> gives I (when_ok P) (f a)) -> gives I (when_ok P) (iobind m f).
Proof. intros Hm Hf w Hw. unfold iobind. destruct (Hm w Hw) as [Ha Hi]. destruct (m w) as [[a|e] w']; [by apply Hf|done]. Qed.
Lemma gives_wrap {A} (P : A -> Prop) s (m : io W (result error A)) : gives I (when_ok P) m -> gives I (when_ok P) (wrap_io s m).
Proof. intros Hm w Hw. unfold wrap_io. destruct (Hm w Hw) as [Ha Hi]. by destruct (m w) as [[]]. Qed.

(** A retried call gives what each of its attempts does. *)
Lemma gives_retry `{RetryLaws W} {A} (P : result error A -> Prop) steps retriable (f : nat -> io W (result error A)) :
  (forall n, gives I P (f n)) -> gives I P (OnError steps retriable f).
Proof.
  intros Hf w Hw. pose proof (OnError_retried steps retriable f w) as Hr.
  apply (retried_invariant I (fun out => P out.1 /\ I out.2) retriable f 0 w (OnError steps retriable f w)); try done; intros n w' Hw'; by apply (Hf n).
Qed.
Lemma gives_conflict `{RetryLaws W} {A} (P : result error A -> Prop) (f : io W (result error A)) : gives I P f -> gives I P (RetryOnConflict f).
Proof. intros Hf. apply gives_retry. by intros _. Qed.
Lemma gives_incident_retry `{RetryLaws W} {A} (P : result error A -> Prop) (f : nat -> io W (result error A)) :
  (forall n, gives I P (f n)) -> gives I P (retryIncidentWrite f).
Proof. apply gives_retry. Qed.
End rules.

(** A read gives whatever the invariant says of the world it reads. *)
Lemma gives_read {W A} (I : W -> Prop) (P : A -> Prop) (m : io W A) : (forall w, (m w).2 = w) -> (forall w, I w -> P (m w).1) -> gives I P m.
Proof. intros Hm HP w Hw. rewrite Hm. auto. Qed.

Create HintDb gives discriminated.
#[export] Hint Constants Opaque : gives.

(** Follow the computation; the postcondition of a call is the hint's. *)
Ltac gives_step :=
  match goal with
  | |- forall _, _ => intros
  | |- gives _ (when_ok _) (iok _) => apply gives_iok
  | |- gives _ (when_ok _) (ierr _) => apply gives_ierr
  | |- gives _ _ (mret _) => apply gives_ret
  | |- gives _ _ (iobind _ _) => eapply gives_iobind
  | |- gives _ _ (mbind _ _) => eapply gives_bind
  | |- gives _ _ (wrap_io _ _) => apply gives_wrap
  | |- gives _ _ (let '(_, _) := ?x in _) => destruct x
  | |- gives _ _ (match ?x with _ => _ end) => destruct x
  | |- gives _ _ _ => solve [eauto with gives]
  | |- always _ => exact Logic.I
  end.
Ltac gives := repeat (cbv beta zeta; gives_step).
