(* ===== verification/IncidentSchema.v ===== *)
(** * The incidents the loop writes meet their schema, write by write.

    [recorded] is what the API server's rules (CrdSchema.v) and the label
    writer of the incident controller ask of a stored IncidentMemory; each edit
    the operator makes keeps it, and a new incident has it when its subject can
    be a label's value. *)

From S2P Require Import Prelude GoString GoNum Sha256 Json ApiTypes KubeTypes Client Signals Diagnosis RemediationController IncidentController.
From S2P Require Import Recovery HealthCheck EventStore Schema Confidence CrdSchema.
From Stdlib Require Import String Ascii.
From stdpp Require Import strings.
Open Scope string_scope.

Definition is_label (s : string) : Prop := label_value_valid s = true.

(** The rules, and what [ensureLabels] copies into labels. *)
Record recorded (im : IncidentMemory) : Prop := {
  rec_valid : incident_valid im = true;
  rec_name : is_label (pr_Name (im_PersonaRef (im_Spec im)));
  rec_namespace : is_label (pr_Namespace (im_PersonaRef (im_Spec im)));
  rec_signal : is_label (di_Signal (im_Detection (im_Spec im)));
}.

(** Who an incident is about, and what it records, as far as the rules go. *)
Record subject_valid (s : incidentSubject) : Prop := {
  sv_kind : persona_ref_valid (su_personaRef s) = true;
  sv_name : is_label (pr_Name (su_personaRef s));
  sv_persona_ns : is_label (pr_Namespace (su_personaRef s));
  sv_namespace : is_label (su_namespace s);
}.
Record diagnosis_valid (d : Diagnosis) : Prop := {
  dv_recordable : recordable d;
  dv_signal : is_label (primarySignalType d);
}.

(** ** Enumerated values are label values *)

Lemma among_labels l s : forallb label_value_valid l = true -> s ∈ l -> is_label s.
Proof. rewrite forallb_forall. intros Hl Hs. by apply Hl, list_elem_of_In. Qed.
Lemma category_label s : s ∈ categories -> is_label s.
Proof. apply among_labels. reflexivity. Qed.
Lemma severity_label s : s ∈ severities -> is_label s.
Proof. apply among_labels. reflexivity. Qed.
Lemma kind_label s : one_of persona_kinds s = true -> is_label s.
Proof. rewrite one_of_iff. apply among_labels. reflexivity. Qed.
Lemma phase_label s : one_of_or_unset incident_phases s = true -> is_label s.
Proof. rewrite one_of_or_unset_iff. intros [->|Hs]; [done|]. revert Hs. apply among_labels. reflexivity. Qed.
Lemma attribution_label s : is_label (attribution s).
Proof. unfold attribution. by destruct (su_unattributed s). Qed.
Lemma attribution_one_of s : one_of_or_unset [AttributionPersona; AttributionUnattributed] (attribution s) = true.
Proof. unfold attribution. by destruct (su_unattributed s). Qed.
#[export] Hint Resolve category_label severity_label kind_label phase_label attribution_label attribution_one_of : go.

(** ** Names *)

Lemma last_is_app p s t : t <> "" -> last_is p (s ++ t) = last_is p t.
Proof.
  intros Ht. induction s as [|c s IH]; [done|]. cbn [String.append last_is]. destruct (s ++ t) eqn:He; [|by rewrite <- IH].
  destruct s, t; done.
Qed.
Lemma last_is_all p s : s <> "" -> str_exists (fun c => negb (p c)) s = false -> last_is p s = true.
Proof.
  intros Hs. induction s as [|c s IH]; [done|]. cbn [str_exists last_is]. intros [Hc Hall]%orb_false_iff.
  destruct s; [by apply negb_false_iff in Hc|by apply IH].
Qed.
Lemma str_exists_weaken (p q : ascii -> bool) s :
  (forall c, q c = true -> p c = true) -> str_exists (fun c => negb (q c)) s = false -> str_exists (fun c => negb (p c)) s = false.
Proof.
  intros Hpq. induction s as [|c s IH]; [done|]. cbn [str_exists]. intros [Hc Hs]%orb_false_iff. rewrite (IH Hs), orb_false_r.
  apply negb_false_iff, Hpq. by apply negb_false_iff in Hc.
Qed.

Lemma incident_name_valid namespace persona signal : name_valid (generateIncidentName namespace persona signal) = true.
Proof.
  destruct (generateIncidentName_valid namespace persona signal) as (Hlen & Hbytes & middle & Hname & Hhash).
  unfold name_valid. apply andb_true_iff. split; [apply andb_true_iff; split; [apply andb_true_iff; split|]|].
  - by apply Nat.leb_le.
  - by rewrite Hname.
  - rewrite Hname, !last_is_app by (intros He; apply (f_equal String.length) in He; rewrite ?str_length_app, Hhash in He; cbn in He; lia).
    apply last_is_all; [by intros He; rewrite He in Hhash|]. unfold name_hash. apply fmt_x_plain, Forall_take, Sum256_shape.
  - unfold every_byte. apply negb_true_iff. revert Hbytes. apply str_exists_weaken. intros c Hc. cbv beta. by rewrite Hc.
Qed.

(** ** The edits *)

Lemma root_cause_ok subject diag : recordable diag -> opt_all root_cause_valid (annotateUnattributed (buildRootCause diag) subject) = true.
Proof.
  intros [Hc _ _]. unfold buildRootCause. destruct (_ && _); [done|]. cbn [annotateUnattributed]. assert (Hp : confidence_pattern (fmt_f 2 (d_Confidence diag)) = true)
    by by apply unit_texts_pattern, plain_unit_text. by destruct (negb _).
Qed.
Lemma refreshed_ok old subject diag : recordable diag -> opt_all root_cause_valid old = true -> opt_all root_cause_valid (refreshed_root_cause old subject diag) = true.
Proof. intros Hd Ho. unfold refreshed_root_cause. destruct (_ && _); [by apply root_cause_ok|done]. Qed.

Lemma new_incident_recorded subject diag now : subject_valid subject -> diagnosis_valid diag -> now <> 0%Z -> recorded (new_incident subject diag now).
Proof.
  intros [Hk Hn Hpn Hns] [Hr Hsig] Hnow. pose proof Hr as [_ Hcat Hsev].
  assert (Hns' : is_label (if su_namespace subject =? "" then "default" else su_namespace subject)) by by destruct (su_namespace subject =? "").
  assert (Ht : time_set now = true) by (unfold time_set, t_is_zero; by rewrite (proj2 (Z.eqb_neq now 0) Hnow)).
  split.
  - unfold incident_valid, meta_valid, incident_spec_valid, detection_valid. cbn [new_incident im_Meta im_Spec im_Status m_Name m_Labels im_PersonaRef
      im_Attribution im_Category im_Severity im_Detection im_RootCause im_Resolution di_FirstSeen di_LastSeen opt_all].
    rewrite incident_name_valid, Hk, attribution_one_of, (proj2 (one_of_iff _ _) Hcat), (proj2 (one_of_iff _ _) Hsev), Ht, (root_cause_ok subject diag Hr).
    cbn [andb]. change (incident_status_valid _) with true. rewrite !andb_true_r, labels_valid_iff. intros k v. change (label_value_valid v = true) with (is_label v).
    repeat (rewrite lookup_insert_Some; intros [[_ <-]|[_ Hin]]; [|revert Hin]). all: first [solve [auto with go]|intros [_ <-]%lookup_singleton_Some; auto with go].
  - exact Hn.
  - exact Hpn.
  - exact Hsig.
Qed.

(** What the rules say, taken apart. *)
Lemma valid_iff im : incident_valid im = true <->
  meta_valid (im_Meta im) = true /\ incident_spec_valid (im_Spec im) = true /\ incident_status_valid (im_Status im) = true.
Proof. unfold incident_valid. rewrite !andb_true_iff. tauto. Qed.
Lemma meta_iff m : meta_valid m = true <-> name_valid (m_Name m) = true /\ labels_valid (m_Labels m) = true.
Proof. apply andb_true_iff. Qed.

Lemma expected_are_labels im : recorded im -> forall kv, kv ∈ expected_labels im -> is_label kv.2.
Proof.
  intros [Hv Hn Hns Hs] kv Hin. apply valid_iff in Hv as (_ & Hspec & Hstatus).
  unfold incident_spec_valid in Hspec. rewrite !andb_true_iff, !one_of_iff in Hspec. destruct Hspec as [[[[[[Hk Ha] Hc] Hsev] _] _] _].
  apply andb_true_iff in Hstatus as [Hph _]. unfold expected_labels in Hin.
  assert (Hattr : is_label (im_Attribution (im_Spec im))) by (apply one_of_or_unset_iff in Ha as [->|Ha]; [done|]; revert Ha; apply among_labels; reflexivity).
  rewrite !elem_of_app in Hin. destruct Hin as [Hin|[Hin|Hin]].
  - rewrite !elem_of_cons in Hin. destruct_or?; subst; cbn [snd]; [auto with go..|by apply not_elem_of_nil in Hin].
  - destruct (_ =? ""); [by apply not_elem_of_nil in Hin|apply list_elem_of_singleton in Hin as ->; exact Hattr].
  - destruct (_ =? ""); [by apply not_elem_of_nil in Hin|apply list_elem_of_singleton in Hin as ->; cbn [snd]; auto with go].
Qed.

(** An edit of the labels, of the spec where no label is copied from, and of the status. *)
Lemma labelled im k v : recorded im -> is_label v -> recorded (im_set_label k v im).
Proof.
  intros [Hv Hn Hns Hs] Hl. split; [|done..]. apply valid_iff in Hv as (Hm & Hsp & Hst). apply valid_iff. split; [|done].
  apply meta_iff in Hm as [Hname Hlab]. apply meta_iff. split; [done|]. by apply labels_valid_insert.
Qed.
Lemma with_status im st : recorded im -> incident_status_valid st = true -> recorded (mkIM (im_Meta im) (im_Spec im) st).
Proof. intros [Hv Hn Hns Hs] Hst. split; [|done..]. apply valid_iff in Hv as (Hm & Hsp & _). by apply valid_iff. Qed.
Lemma status_of im : recorded im -> incident_status_valid (im_Status im) = true.
Proof. intros [Hv _ _ _]. by apply valid_iff in Hv as (_ & _ & ?). Qed.

Lemma resolution_recorded im r : recorded im -> resolution_valid r = true -> recorded (im_set_resolution (Some r) im).
Proof.
  intros [Hv Hn Hns Hs] Hr. split; [|done..]. apply valid_iff in Hv as (Hm & Hsp & Hst). apply valid_iff. split; [done|]. split; [|done].
  revert Hsp. unfold incident_spec_valid. cbn. rewrite !andb_true_iff. tauto.
Qed.
Lemma resolved_spec_recorded im evidence : recorded im -> recorded (resolved_spec evidence im).
Proof. intros Hr. unfold resolved_spec. apply resolution_recorded; [|reflexivity]. by apply labelled. Qed.
Lemma phase_recorded im p : recorded im -> one_of incident_phases p = true -> recorded (im_set_phase p im).
Proof.
  intros Hr Hp. apply with_status; [done|]. pose proof (status_of im Hr) as Hs. revert Hs. unfold incident_status_valid. cbn.
  rewrite !andb_true_iff. intros [_ Hc]. split; [|done]. unfold one_of_or_unset. by rewrite Hp, orb_true_r.
Qed.
Lemma conditions_recorded im cs : recorded im -> conditions_valid cs = true -> recorded (im_set_conditions cs im).
Proof.
  intros Hr Hc. apply with_status; [done|]. pose proof (status_of im Hr) as Hs. revert Hs. unfold incident_status_valid. cbn.
  rewrite !andb_true_iff. tauto.
Qed.
Lemma initial_recorded im now : recorded im -> recorded (initial_status now im).
Proof.
  intros Hr. apply with_status; [done|]. pose proof (status_of im Hr) as Hs. revert Hs. unfold incident_status_valid. rewrite !andb_true_iff.
  intros [_ Hc]. by split.
Qed.
Lemma one_more_recorded im now : recorded im -> recorded (one_more now im).
Proof. intros Hr. apply with_status; [done|]. exact (status_of im Hr). Qed.

(** The one rule left out: the count leaves its range by overflowing. *)
Lemma one_more_wraps im now : (0 <= ims_OccurrenceCount (im_Status im) < 2 ^ 31)%Z ->
  (0 <= ims_OccurrenceCount (im_Status (one_more now im)))%Z <-> ims_OccurrenceCount (im_Status im) <> (2 ^ 31 - 1)%Z.
Proof.
  intros Hc. cbn [one_more im_Status ims_OccurrenceCount]. destruct (Z.eq_dec (ims_OccurrenceCount (im_Status im)) (2 ^ 31 - 1)%Z) as [->|Hne].
  - split; [intros Hw; by vm_compute in Hw|done].
  - unfold wrap32. rewrite wrap_small by lia. lia.
Qed.

Lemma diagnosis_recorded im subject diag now : recorded im -> recordable diag -> now <> 0%Z -> recorded (applyDiagnosisToSpec im subject diag now).
Proof.
  intros [Hv Hn Hns Hs] Hd Hnow. split; [|done..]. apply valid_iff in Hv as (Hm & Hsp & Hst). apply valid_iff.
  unfold incident_spec_valid in Hsp. rewrite !andb_true_iff in Hsp. destruct Hsp as [[[[[[Hk Ha] Hc] Hsev] Hdet] Hrc] Hres].
  set (attr := if im_Attribution (im_Spec im) =? "" then attribution subject else im_Attribution (im_Spec im)).
  assert (Hattr : one_of_or_unset [AttributionPersona; AttributionUnattributed] attr = true) by (unfold attr; destruct (_ =? ""); auto with go).
  apply andb_true_iff in Hdet as [Hfirst _]. assert (Ht : time_set now = true) by (unfold time_set, t_is_zero; by rewrite (proj2 (Z.eqb_neq now 0) Hnow)).
  split; [|split; [|exact Hst]].
  - apply meta_iff in Hm as [Hname Hlab]. apply meta_iff. split; [exact Hname|]. cbn. destruct (mget (im_Labels im) LabelAttribution =? ""); [|exact Hlab].
    apply labels_valid_insert; [exact Hlab|].
    apply one_of_or_unset_iff in Hattr as [Hattr|Hattr]; [fold attr; by rewrite Hattr|]. revert Hattr. apply among_labels. reflexivity.
  - unfold incident_spec_valid, detection_valid, applyDiagnosisToSpec. cbv zeta.
    cbn [im_set_spec im_Spec im_PersonaRef im_Attribution im_Category im_Severity im_Detection im_RootCause im_Resolution di_FirstSeen di_LastSeen].
    fold attr. rewrite Hk, Hattr, Hc, Hsev, Hfirst, Ht, Hres. by rewrite refreshed_ok.
Qed.

Lemma ensureLabels_recorded im : recorded im -> recorded (ensureLabels im).1.
Proof.
  intros Hr. pose proof (expected_are_labels im Hr) as Hall. unfold ensureLabels. destruct Hr as [Hv Hn Hns Hs].
  apply valid_iff in Hv as (Hm & Hsp & Hst). apply meta_iff in Hm as [Hname Hlab].
  assert (Hfold : forall kvs st, labels_valid st.1 = true -> (forall kv, kv ∈ kvs -> is_label kv.2) -> labels_valid (foldl ensure_label st kvs).1 = true).
  { clear. induction kvs as [|kv kvs IH]; intros st Hst Hall; [done|]. cbn [foldl]. apply IH; [|intros; apply Hall; by right].
    unfold ensure_label. destruct (_ =? _); [done|]. apply labels_valid_insert; [done|apply Hall; by left]. }
  specialize (Hfold (expected_labels im) (im_Labels im, false) Hlab Hall). destruct (foldl _ _ _) as [labels changed]. cbn [fst] in *.
  split; [|done..]. apply valid_iff. split; [|done]. by apply meta_iff.
Qed.
