(* ===== verification/StatusSchema.v ===== *)
(** * What the other controllers write meets its schema too.

    The statuses of ApplicationPersona (its own controller, the incident
    counters, the ArgoCD watcher) and of ClusterPersona (discovery, defaults,
    bootstrap), the records of events, and the workload on record.  A server
    that accepts the statuses [CrdSchema] admits is given by what its calls keep
    and give back ([persona_server], [cluster_api]). *)

From S2P Require Import Prelude GoString GoNum Sha256 Json ApiTypes KubeTypes Client Retry Writes Triples Signals Diagnosis Workload.
From S2P Require Import RemediationController IncidentController HealthCheck Events EventStore PersonaController ClusterDiscovery ClusterController ArgoCD.
From S2P Require Import Schema Confidence CrdSchema IncidentSchema.
From Stdlib Require Import String Ascii.
From stdpp Require Import strings.
Open Scope string_scope.

Lemma condition_stamped now ty st re msg cs : negb (ty =? "") && one_of condition_statuses st && reason_valid re = true -> now <> 0%Z ->
  conditions_valid cs = true -> conditions_valid (setCondition now ty st re msg cs) = true.
Proof. intros Hc Hn Hcs. apply setCondition_valid; [done|]. by apply condition_valid_intro. Qed.

(** ** ApplicationPersona *)

Definition persona_ok (p : ApplicationPersona) : Prop := persona_status_valid (ap_Status p) = true.

Lemma persona_parts s : persona_status_valid s = true <->
  one_of_or_unset persona_phases (apst_Phase s) = true /\ opt_all (fun h => one_of_or_unset health_statuses (hst_Status h)) (apst_Health s) = true /\
  opt_all validation_valid (apst_Validation s) = true /\ opt_all argocd_valid (apst_ArgoCD s) = true /\ conditions_valid (apst_Conditions s) = true.
Proof. unfold persona_status_valid. rewrite !andb_true_iff. tauto. Qed.

Section issues.
Context `{QuantityOps}.

Definition graded (i : ValidationIssue) : Prop := one_of issue_severities (vi_Severity i) = true.
Lemma graded_app l1 l2 : Forall graded l1 -> Forall graded l2 -> Forall graded (l1 ++ l2).
Proof. intros. by apply Forall_app. Qed.
Lemma graded_concat l : Forall (Forall graded) l -> Forall graded (concat l).
Proof. induction 1; [constructor|by apply graded_app]. Qed.
Lemma graded_if (b : bool) i : graded i -> Forall graded (if b then [i] else []).
Proof. destruct b; by repeat constructor. Qed.
Lemma limit_graded declared key label c l : limit_issue declared key label c = Some l -> Forall graded l.
Proof.
  unfold limit_issue. destruct (_ =? ""); [by intros [= <-]|]. destruct (ParseQuantity declared) as [q|]; [|done]. cbn.
  intros [= <-]. destruct (ct_Limits c !! key) as [lim|]; [|constructor]. by apply graded_if.
Qed.
Lemma container_graded r c l : container_issues r c = Some l -> Forall graded l.
Proof.
  unfold container_issues. intros (limits & Hl & [= <-])%bind_Some. apply graded_app; [|by apply graded_if].
  destruct (rsc_Limits r) as [v|]; [|injection Hl as <-; constructor].
  apply bind_Some in Hl as (cpu & Hc & (mem & Hm & [= <-])%bind_Some). apply graded_app; by eapply limit_graded.
Qed.

(** Every issue has a severity the schema knows. *)
Lemma validate_graded persona d issues : validate persona d = Some issues -> Forall graded issues.
Proof.
  unfold validate. intros (res & Hr & [= <-])%bind_Some. repeat apply graded_app.
  - unfold validateResources in Hr. destruct (aps_Resources _) as [r|]; [|injection Hr as <-; constructor].
    apply fmap_Some in Hr as (ls & Hls & ->). apply graded_concat, Forall_forall. intros l Hl.
    destruct (mapM_elem _ _ _ _ Hls Hl) as (c & _ & Hc). by eapply container_graded.
  - unfold validateReplicas. destruct (aps_Scaling _) as [sc|]; [|constructor]. cbv zeta.
    apply graded_app; [destruct (sc_MinReplicas sc)|destruct (sc_MaxReplicas sc)]; try constructor; by apply graded_if.
  - unfold validateHealthProbes. destruct (aps_Health _) as [h|]; [|constructor]. apply graded_concat, Forall_forall.
    intros l (c & -> & _)%list_elem_of_fmap. apply graded_app.
    + unfold liveness_issue. destruct (_ =? ""); [constructor|]. destruct (_ ≫= _); [|by repeat constructor]. destruct (_ =? _); by repeat constructor.
    + unfold readiness_issue. destruct (ct_ReadinessProbe c); [constructor|]. destruct (_ =? ""); by repeat constructor.
  - unfold validateSecurityContext. destruct (_ ≫= _) as [sec|]; [|constructor]. apply graded_app; [by apply graded_if|].
    apply graded_concat, Forall_forall. intros l (c & -> & _)%list_elem_of_fmap. apply graded_app; by apply graded_if.
Qed.
End issues.

Lemma phase_among health errs : one_of_or_unset persona_phases (persona_phase health errs) = true.
Proof. unfold persona_phase. destruct (_ && _), errs; try done; by destruct (health =? healthStatusUnhealthy). Qed.
Lemma resolved_ok `{QuantityOps} now t1 t2 d issues health learned s :
  t1 <> 0%Z -> t2 <> 0%Z -> Forall graded issues -> one_of health_statuses (hst_Status health) = true ->
  persona_status_valid s = true -> persona_status_valid (resolved_status now t1 t2 d issues health learned s) = true.
Proof.
  intros Ht1 Ht2 Hi Hh. rewrite !persona_parts. intros (_ & _ & _ & Ha & Hc).
  cbn [resolved_status apst_Phase apst_Health apst_Validation apst_ArgoCD apst_Conditions opt_all]. split_and!.
  - apply phase_among.
  - unfold one_of_or_unset. by rewrite Hh, orb_true_r.
  - unfold validation_valid. cbn [vs_Issues]. apply forallb_forall. intros i Hin%list_elem_of_In. rewrite Forall_forall in Hi. by apply Hi.
  - exact Ha.
  - unfold validated_condition, ready_condition. destruct (has_errors issues), (_ =? phaseActive); by repeat apply condition_stamped.
Qed.
Lemma unresolved_ok now t1 t2 reason message s :
  t1 <> 0%Z -> t2 <> 0%Z -> reason_valid reason = true -> persona_status_valid s = true ->
  persona_status_valid (unresolved_status now t1 t2 reason message s) = true.
Proof.
  intros Ht1 Ht2 Hr. rewrite !persona_parts. intros (_ & _ & _ & Ha & Hc).
  cbn [unresolved_status apst_Phase apst_Health apst_Validation apst_ArgoCD apst_Conditions opt_all]. split_and!; try done.
  apply condition_stamped; [done|done|]. apply condition_stamped; [|done|done]. by rewrite Hr.
Qed.

Section personas.
Context `{ClientReads W} (I : W -> Prop).

Record persona_server : Prop := {
  ps_get k : gives I (when_ok persona_ok) (getPersona k);
  ps_list o : gives I (when_ok (Forall persona_ok)) (listPersonas o);
  ps_update p : persona_ok p -> gives I (when_ok persona_ok) (updatePersona p);
  ps_status p : persona_ok p -> gives I (when_ok persona_ok) (updateStatusPersona p);
  ps_clock : gives I (fun now => now <> 0%Z) clock;
}.
Context (PS : persona_server).

Section reconcile.
Context `{LabelSelectors} `{MapRange} `{!Prometheus W} (baselines : forall url ns name, preserves I (GetResourceBaseline url ns name)).

Lemma preserves_write p : persona_ok p -> preserves I (write_status p).
Proof.
  intros Hp. unfold write_status. apply preserves_bind; [by eapply preserves_gives, (ps_status PS)|]. intros. apply preserves_ret.
Qed.
Lemma preserves_unresolved p now reason message : persona_ok p -> reason_valid reason = true ->
  preserves I (let! p := markUnresolved p now reason message in write_status p).
Proof.
  intros Hp Hr. apply (preserves_gives I always). eapply (gives_bind I persona_ok); [|intros; by apply gives_preserves, preserves_write].
  unfold markUnresolved. eapply gives_bind; [apply ps_clock, PS|]. intros t1 Ht1. eapply gives_bind; [apply ps_clock, PS|]. intros t2 Ht2.
  apply gives_ret. by apply unresolved_ok.
Qed.
Lemma gives_health deploy now : gives I (fun h => one_of health_statuses (hst_Status h) = true) (observed_health deploy now).
Proof.
  assert (Hd : one_of health_statuses (hst_Status (deriveHealthFromDeployment deploy now)) = true).
  { unfold deriveHealthFromDeployment. cbv zeta. destruct (_ && _); [done|]. destruct (_ && _); [done|]. by destruct (condition_holds _ _). }
  unfold observed_health. cbv zeta. destruct (_ =? _); [by apply gives_ret|]. eapply (gives_bind I always).
  - apply gives_preserves. unfold getPodFailures. preserve.
  - intros [failures|e] _; apply gives_ret; [|exact Hd]. by destruct failures.
Qed.
Lemma preserves_persona_reconcile url req : preserves I (ApplicationPersona_Reconcile url req).
Proof.
  unfold ApplicationPersona_Reconcile. apply (preserves_gives I always). eapply gives_bind; [apply ps_get, PS|]. intros [p|e] Hp; [|by apply gives_ret].
  apply gives_preserves. apply preserves_bind; [preserve|]. intros [ds|e]; [|apply preserves_ret]. cbv zeta.
  apply preserves_bind; [preserve|]. intros now. destruct (Resolve ds _) as [[[d rung]|]|e]; [|by apply preserves_unresolved..].
  unfold reconcile_resolved. destruct (validate p d) as [issues|] eqn:Hv; [|apply preserves_ret].
  apply (preserves_gives I always). eapply gives_bind; [apply gives_health|]. intros health Hh. eapply (gives_bind I always).
  { apply gives_preserves. unfold learned_baseline. destruct (_ =? ""); [apply preserves_ret|]. apply preserves_bind; [apply baselines|]. intros; apply preserves_ret. }
  intros learned _. eapply gives_bind; [apply ps_clock, PS|]. intros t1 Ht1. eapply gives_bind; [apply ps_clock, PS|]. intros t2 Ht2.
  apply gives_preserves, preserves_write. apply resolved_ok; try done. by eapply validate_graded.
Qed.
End reconcile.

(** The incident counters touch nothing a rule is about. *)
Lemma preserves_counters `{RetryLaws W} im : preserves I (syncPersonaStatus im).
Proof.
  unfold syncPersonaStatus. apply preserves_iobind; [preserve|]. intros incidents. cbv zeta. refine (preserves_conflict I _ _).
  apply (preserves_gives I (when_ok always)). eapply gives_iobind; [apply ps_get, PS|]. intros p Hp. destruct (_ && _); [by apply gives_iok|].
  eapply gives_iobind; [by apply (ps_status PS)|]. intros. by apply gives_iok.
Qed.

(** ArgoCD's own words are copied as they are: the status is admitted exactly
    when the schema knows them. *)
Lemma with_argocd_ok `{!Unstructured} app p : persona_ok p ->
  persona_ok (with_argocd (argocd_status app) p) <-> argocd_valid (extractArgoCDStatus app) = true.
Proof.
  unfold persona_ok. rewrite !persona_parts. intros (Hp & Hh & Hv & _ & Hc).
  cbn [with_argocd ap_Status set_argocd apst_Phase apst_Health apst_Validation apst_ArgoCD apst_Conditions opt_all].
  change (argocd_valid (argocd_status app)) with (argocd_valid (extractArgoCDStatus app)). tauto.
Qed.
Lemma preserves_argocd `{!Unstructured} `{!ArgoCDAPI W} enabled req :
  (forall k, gives I (when_ok (fun app => argocd_valid (extractArgoCDStatus app) = true)) (getApplication k)) ->
  preserves I (ArgoCD_Reconcile enabled req).
Proof.
  intros Happ. unfold ArgoCD_Reconcile. destruct (negb enabled); [apply preserves_iok|]. apply (preserves_gives I always).
  eapply gives_bind; [apply Happ|]. intros [app|e] Ha; [|by destruct (is_not_found e); apply gives_ret]. cbv zeta.
  destruct (_ =? ""); [by apply gives_ret|].
  assert (Hm : forall r appName, when_ok (Forall persona_ok) r -> forall p, matching r appName = Some p -> persona_ok p).
  { intros [ps|e] name; [|done]. cbn. intros Hps p (before & after & -> & _)%find_first_split. apply Forall_app in Hps as [_ Hps]. by apply Forall_cons in Hps as [? _]. }
  eapply (gives_bind I (fun o => forall p, o = Some p -> persona_ok p)).
  - assert (Hs : forall name, gives I (fun o => forall p, o = Some p -> persona_ok p) (search_everywhere name)).
    { intros name. unfold search_everywhere. eapply gives_bind; [apply ps_list, PS|]. intros r Hr. apply gives_ret. by apply Hm. }
    unfold findMatchingPersona. destruct (negb _); [|apply Hs]. eapply gives_bind; [apply ps_list, PS|]. intros r Hr.
    destruct (matching r _) as [p|] eqn:Hp; [|apply Hs]. apply gives_ret. intros q [= <-]. by eapply Hm.
  - intros [p|] Hp; [|by apply gives_ret]. apply gives_preserves, preserves_iobind; [|intros; apply preserves_iok].
    eapply preserves_gives, (ps_status PS). apply with_argocd_ok; [by apply Hp|exact Ha].
Qed.
End personas.

(** ** ClusterPersona *)

Definition cluster_ok (p : ClusterPersona) : Prop := cluster_status_valid (cp_Status p) = true.
Lemma cluster_parts s : cluster_status_valid s = true <->
  one_of_or_unset cluster_phases (cps_Phase s) = true /\ forallb (fun a => one_of_or_unset addon_types (ad_AddonType a)) (cps_Addons s) = true /\
  conditions_valid (cps_Conditions s) = true.
Proof. unfold cluster_status_valid. rewrite !andb_true_iff. tauto. Qed.

(** The defaults put a policy inside the rules: only what is missing is written. *)
Lemma defaults_valid p : (forall sh, cp_SelfHealing p = Some sh -> one_of_or_unset modes (shp_Mode sh) = true /\ (0 <= shp_TrustLevel sh <= 5)%Z /\
    opt_all (fun rb => (0 <=? rbp_MaxRetries rb)%Z) (shp_Rollback sh) = true) ->
  opt_all self_healing_valid (cp_SelfHealing (applySelfHealingDefaults p).1) = true.
Proof.
  intros Hp. unfold applySelfHealingDefaults. destruct (cp_SelfHealing p) as [sh|] eqn:Hs; [|done]. destruct (Hp sh eq_refl) as (Hm & Ht & Hr).
  cbn [fst cp_SelfHealing]. unfold cp_SelfHealing. cbn [cp_Policies mjoin option_join opt_all]. unfold self_healing_valid.
  cbn [shp_Mode shp_TrustLevel shp_Rollback]. rewrite !andb_true_iff. split_and!; [| | |exact Hr].
  - destruct (String.eqb_spec (shp_Mode sh) ""); [done|]. apply one_of_or_unset_iff in Hm as [?|?]; [done|by apply one_of_iff].
  - destruct (Z.eqb_spec (shp_TrustLevel sh) 0); [done|lia].
  - destruct (Z.eqb_spec (shp_TrustLevel sh) 0); [done|lia].
Qed.

(** The persona the bootstrap creates. *)
Lemma bootstrap_valid uid : meta_valid (cp_Meta (buildPersona uid)) = true /\ cluster_spec_valid (buildPersona uid) = true /\ cluster_ok (buildPersona uid).
Proof. by split_and!. Qed.

Section cluster.
Context `{ClientReads W} `{!QuantitySum} `{!ClusterClient W} `{MapRange} (I : W -> Prop).

Record cluster_api : Prop := {
  cls_get name : gives I (when_ok cluster_ok) (getClusterPersona name);
  cls_update p : cluster_ok p -> gives I (when_ok cluster_ok) (updateClusterPersona p);
  cls_status p : cluster_ok p -> gives I (when_ok cluster_ok) (updateStatusClusterPersona p);
  cls_clock : gives I (fun now => now <> 0%Z) clock;
  cls_nodes : preserves I listNodes;
  cls_namespace name : preserves I (getNamespace name);
  cls_namespaces : preserves I listNamespaces;
  cls_version : preserves I ServerVersion;
}.
Context (CS : cluster_api).

Definition typed (a : AddonInfo) : Prop := one_of_or_unset addon_types (ad_AddonType a) = true.
Lemma gives_addon name ns ty : one_of_or_unset addon_types ty = true -> gives I typed (checkAddon name ns ty).
Proof.
  intros Ht. unfold checkAddon. eapply (gives_bind I always); [apply gives_preserves, CS|]. intros [n|e] _; [|by apply gives_ret].
  eapply (gives_bind I always); [apply gives_preserves; preserve|]. intros [pods|e] _; apply gives_ret; [|done].
  unfold addon_of_pods. by destruct (find_first _ pods).
Qed.
Lemma gives_addons : gives I (Forall typed) discoverAddons.
Proof.
  unfold discoverAddons. eapply gives_bind; [by apply gives_addon|]. intros a1 A1. eapply gives_bind; [by apply gives_addon|]. intros a2 A2.
  eapply (gives_bind I typed); [destruct (ad_Installed a2); [by apply gives_ret|by apply gives_addon]|]. intros a3 A3.
  do 7 (eapply gives_bind; [by apply gives_addon|]; intros ? ?). apply gives_ret. by repeat constructor.
Qed.
Lemma phase_known nodes : one_of_or_unset cluster_phases (determinePhase nodes) = true.
Proof. unfold determinePhase. destruct nodes; [done|]. by destruct (_ =? _)%nat. Qed.
Lemma discovered_ok t1 t2 phase nodes cs : t1 <> 0%Z -> t2 <> 0%Z -> conditions_valid cs = true ->
  conditions_valid (discovered_conditions t1 t2 phase nodes cs) = true.
Proof. intros Ht1 Ht2 Hc. unfold discovered_conditions. destruct (phase =? clusterPhaseReady); by repeat apply condition_stamped. Qed.

Lemma gives_status now s : cluster_status_valid s = true -> gives I (fun s => cluster_status_valid s = true) (discovered_status now s).
Proof.
  intros Hs%cluster_parts. destruct Hs as (_ & _ & Hc). unfold discovered_status. eapply (gives_bind I always).
  { unfold discoverNodes. apply gives_preserves, preserves_iobind; [apply CS|]. intros. apply preserves_iok. }
  intros discovered _. eapply (gives_bind I (fun nc => conditions_valid nc.2 = true)).
  { destruct discovered as [nodes|e]; [by apply gives_ret|]. eapply gives_bind; [apply cls_clock, CS|]. intros t Ht.
    apply gives_ret. by apply condition_stamped. }
  intros [nodes conditions] Hcs. cbn [snd] in Hcs. eapply (gives_bind I always).
  { apply gives_preserves. unfold calculateResourceSummary. preserve. }
  intros summary _. eapply gives_bind; [apply gives_addons|]. intros addons Ha. eapply (gives_bind I always).
  { apply gives_preserves. unfold discoverNamespaces. apply preserves_iobind; [apply CS|]. intros. apply preserves_bind; [preserve|]. intros. apply preserves_iok. }
  intros namespaces _. eapply (gives_bind I always); [apply gives_preserves, CS|]. intros version _. eapply (gives_bind I always).
  { apply gives_preserves. unfold detectPlatform. destruct nodes; [apply preserves_ret|]. destruct (labels_platform _); [apply preserves_ret|].
    apply preserves_bind; [apply CS|]. intros. apply preserves_ret. }
  intros platform _. eapply (gives_bind I always).
  { apply gives_preserves. unfold countApplicationPersonas. preserve. }
  intros count _. cbv zeta. eapply gives_bind; [apply cls_clock, CS|]. intros t1 Ht1. eapply gives_bind; [apply cls_clock, CS|]. intros t2 Ht2.
  apply gives_ret, cluster_parts. cbn [cps_Phase cps_Addons cps_Conditions]. split_and!; [apply phase_known| |by apply discovered_ok].
  apply forallb_forall. intros a Hin%list_elem_of_In. rewrite Forall_forall in Ha. by apply Ha.
Qed.
Lemma preserves_cluster_reconcile name : preserves I (ClusterPersona_Reconcile name).
Proof.
  unfold ClusterPersona_Reconcile. apply (preserves_gives I always). eapply gives_bind; [apply cls_get, CS|].
  intros [p|e] Hp; [|by destruct (is_not_found e); apply gives_ret].
  assert (Hd : cluster_ok (applySelfHealingDefaults p).1).
  { unfold applySelfHealingDefaults. by destruct (cp_SelfHealing p). }
  destruct (applySelfHealingDefaults p) as [q updated]. cbn [fst] in Hd. eapply (gives_weaken I _ (when_ok always)); [|done].
  eapply (gives_iobind I cluster_ok); [destruct updated; [by apply (cls_update CS)|by apply gives_iok]|]. intros p2 Hp2.
  eapply gives_bind; [apply cls_clock, CS|]. intros now _. eapply gives_bind; [by apply gives_status|]. intros st Hst.
  eapply gives_iobind; [by apply (cls_status CS)|]. intros. by apply gives_iok.
Qed.
End cluster.

(** ** Event records *)

Lemma every_byte_app p s t : every_byte p (s ++ t) = every_byte p s && every_byte p t.
Proof. unfold every_byte. induction s as [|c s IH]; [done|]. cbn. by destruct (p c). Qed.
Lemma every_byte_weaken (p q : ascii -> bool) s : (forall c, q c = true -> p c = true) -> every_byte q s = true -> every_byte p s = true.
Proof. unfold every_byte. intros Hpq Hq%negb_true_iff. apply negb_true_iff. by eapply str_exists_weaken. Qed.
Lemma sanitized_bytes s : every_byte name_byte (sanitizeK8sName s) = true.
Proof. unfold every_byte. apply negb_true_iff. apply sanitizeName_bytes. Qed.

(** The record of an event meets its schema when its name is not cut. *)
Lemma dorgu_event_valid store event :
  (String.length (crd_subject event) + 12 <= MaxK8sNameLength)%nat -> every_byte name_byte (rr_Namespace (ev_InvolvedObject event)) = true ->
  ev_Severity event ∈ severities -> ev_Category event ∈ categories -> opt_all persona_ref_valid (ev_PersonaRef event) = true ->
  ev_EventTime event <> 0%Z -> event_valid (dorgu_event store event) = true.
Proof.
  intros Hroom Hns Hsev Hcat Hp Ht. pose proof (crd_hash_length event) as Hlen.
  assert (Hne : crd_hash event <> "") by (intros He; by rewrite He in Hlen).
  assert (Hplain : str_exists (fun c => negb (plain_byte c)) (crd_hash event) = false) by apply fmt_x_plain, Forall_take, Sum256_shape.
  assert (Hname : generateCRDName event = crd_subject event ++ crd_hash event).
  { unfold generateCRDName. rewrite (proj2 (Nat.ltb_ge _ _)); [apply crd_name_subject|]. rewrite crd_name_subject, str_length_app. lia. }
  assert (Hall : every_byte name_byte (crd_subject event ++ crd_hash event) = true).
  { rewrite every_byte_app. apply andb_true_iff. split; [unfold crd_subject; by rewrite !every_byte_app, Hns, !sanitized_bytes|].
    unfold every_byte. apply negb_true_iff. revert Hplain. apply str_exists_weaken. intros c Hc. unfold plain_byte in Hc. unfold name_byte. by rewrite Hc. }
  unfold event_valid, meta_valid, event_spec_valid. cbn [dorgu_event de_Meta de_Spec m_Name m_Labels des_Severity des_Category des_PersonaRef des_EventTime].
  rewrite Hp, (proj2 (one_of_iff _ _) Hsev), (proj2 (one_of_iff _ _) Hcat). unfold time_set, t_is_zero. rewrite (proj2 (Z.eqb_neq _ 0) Ht).
  change (labels_valid ∅) with true. rewrite !andb_true_r, Hname. unfold name_valid. rewrite !andb_true_iff. split_and!.
  - apply Nat.leb_le. rewrite str_length_app. unfold MaxK8sNameLength in Hroom. lia.
  - reflexivity.
  - rewrite last_is_app by done. by apply last_is_all.
  - revert Hall. apply every_byte_weaken. intros c Hc. cbv beta. by rewrite Hc.
Qed.

(** A name that is cut need not be one: here the cut falls on a hyphen. *)
Definition long_object : string := String.concat "" (List.repeat "a" 240).
Definition cut_event : InternalEvent :=
  mkEvent "" SeverityWarning CategoryHealth "kubernetes" "Unhealthy" "" (mkResourceRef "Pod" long_object "shop" "") None second "uid".
Example cut_name_is_refused :
  String.length (generateCRDName cut_event) = 253%nat /\ event_valid (dorgu_event (NewEventStore []) cut_event) = false.
Proof. split; vm_compute; reflexivity. Qed.

(** ** The workload on record *)

Section workload.
Context `{QuantityOps}.

Lemma first_some_all {A} (P : A -> Prop) l a : Forall (fun o => forall x, o = Some x -> P x) l -> P a -> P (first_some l a).
Proof. induction 1 as [|[x|] l Hx Hl IH]; intros Ha; cbn [first_some]; auto. Qed.

(** Every verdict of [DetectOwner] is one the schema knows. *)
Lemma detected_manager d : one_of managers (own_ManagedBy (DetectOwner d)) = true.
Proof.
  destruct d as [d|]; [|done]. unfold DetectOwner. cbv zeta. apply (first_some_all (fun o => one_of managers (own_ManagedBy o) = true)); [|done].
  repeat constructor; intros o.
  - unfold detectArgoCD. repeat case_match; by intros [= <-].
  - unfold detectFlux. repeat case_match; by intros [= <-].
  - unfold detectHelm. repeat case_match; by intros [= <-].
  - unfold detectKustomize. case_match; by intros [= <-].
  - unfold foreignFieldOwner. intros Ho. assert (Hin : o ∈ omap foreign_entry (dp_ManagedFields d)) by (destruct (omap _ _); [done|injection Ho as ->; left]).
    apply list_elem_of_omap in Hin as (e & _ & He). unfold foreign_entry in He. repeat case_match; by simplify_eq.
Qed.

(** An observed workload is recordable exactly when its owner fits the field:
    the text is not cut to it. *)
Lemma observed_ref_valid d c rung now :
  workload_ref_valid (Ref (Some (mkObservation d c rung (DetectOwner (Some d)))) now) = true <->
  (String.length (own_Detail (DetectOwner (Some d))) <= 253)%nat.
Proof.
  unfold workload_ref_valid. destruct c as [c|]; cbn [Ref ob_Deployment ob_Container ob_Ownership wr_Kind wr_ManagedBy wr_ManagedByDetail];
    rewrite detected_manager; cbn [andb]; apply Nat.leb_le.
Qed.
End workload.

(** An ArgoCD application's name may have 253 bytes; 232 are what the field has room for. *)
#[local] Existing Instance int_quantity.
Definition tracked (app : string) : Deployment :=
  mkDeployment (mkMeta "api" "shop" ∅ 0%Z None 0) {[annotationArgoCDTracking := app ++ ":apps/Deployment:shop/api"]} [] None None [] 1%Z 1%Z [] [] None.
Example long_owner_is_refused :
  workload_ref_valid (Ref (Some (mkObservation (tracked long_object) None "" (DetectOwner (Some (tracked long_object))))) second) = false /\
  workload_ref_valid (Ref (Some (mkObservation (tracked "shop") None "" (DetectOwner (Some (tracked "shop"))))) second) = true.
Proof. split; vm_compute; reflexivity. Qed.
