(* ===== verification/Admission.v ===== *)
(** * Nothing the operator writes on an incident, or on the status of an action
    or of an application's persona, is refused by the schema.

    The writers, composed: the health-check loop of HealthCheck.v and the
    incident, remediation and persona controllers.  [admitting] and
    [persona_server] are the API server as they rely on it, for an invariant
    under which what is stored keeps to the rules and what keeps to them is
    accepted; the section [strict] is such a server, which checks the rules and
    keeps what it refused. *)

From S2P Require Import Prelude GoString GoNum Sha256 Json ApiTypes KubeTypes Client Retry Writes Triples Signals Correlator Diagnosis DiagnosisEngine.
From S2P Require Import Safety Executor Divergence RemediationController IncidentController Recovery HealthCheck Planner Plan EventStore Schema Proposer Sanction PersonaController.
From S2P Require Import Confidence CrdSchema IncidentSchema StatusSchema.
From Stdlib Require Import String Ascii.
From stdpp Require Import strings.
Open Scope string_scope.

(** What the loop is told: signals about subjects that can be labels, and of a
    known severity. *)
Record signal_valid (s : Signal) : Prop := {
  sg_severity : sig_Severity s ∈ severities;
  sg_type : is_label (sig_Type s);
  sg_subject : forall subject, incidentSubjectFor (groupFor s) = Some subject -> subject_valid subject;
}.

(** What the rules ask of a RemediationAction's status. *)
Definition action_ok (a : RemediationAction) : Prop := action_status_valid (ra_Status a) = true.

Section incidents.
Context `{ClientReads W} `{RetryLaws W} `{SortSlice, !SortSliceSpec} `{EventSink W} (I : W -> Prop).

Record admitting : Prop := {
  am_create im : recorded im -> gives I (when_ok recorded) (createIncident im);
  am_update im : recorded im -> gives I (when_ok recorded) (updateIncident im);
  am_status im : recorded im -> gives I (when_ok recorded) (updateStatusIncident im);
  am_get k : gives I (when_ok recorded) (getIncident k);
  am_list o : gives I (when_ok (Forall recorded)) (listIncidents o);
  am_clock : gives I (fun now => now <> 0%Z) clock;
  am_action k : gives I (when_ok action_ok) (getRA k);
  am_action_status a : action_ok a -> gives I (when_ok action_ok) (updateStatusRA a);
  am_store e : preserves I (StoreEvent e);
  am_emit e : preserves I (EmitEvent e);
}.
Context (AM : admitting).

Hint Resolve am_create am_update am_status am_get am_list am_clock : gives.

Lemma gives_or_discard {A} (P : A -> Prop) im diag stage (write : io W (result error A)) :
  gives I (when_ok P) write -> gives I (when_ok P) (or_discard im diag stage write).
Proof.
  intros Hw. unfold or_discard, reportDiscardedDiagnosis. eapply gives_bind; [exact Hw|]. intros [a|e] Ha; [by apply gives_iok|].
  eapply gives_bind; [apply am_clock, AM|]. intros t1 _. eapply gives_bind; [apply am_clock, AM|]. intros t2 _.
  eapply gives_bind; [apply gives_preserves, AM|]. intros _ _. eapply gives_bind; [apply gives_preserves, AM|]. intros _ _. apply gives_ierr.
Qed.

Lemma gives_retried {A} (P : A -> Prop) (f : nat -> io W (result error A)) :
  (forall n, gives I (when_ok P) (f n)) -> gives I (when_ok P) (retryIncidentWrite f).
Proof. intros Hf. apply (gives_incident_retry I _ f Hf). Qed.
Lemma gives_conflicted {A} (P : A -> Prop) (f : io W (result error A)) : gives I (when_ok P) f -> gives I (when_ok P) (RetryOnConflict f).
Proof. intros Hf. apply (gives_conflict I _ f Hf). Qed.

(** A write of an edit of the incident as it is now. *)
Lemma gives_edit key (edit : IncidentMemory -> IncidentMemory) (write : IncidentMemory -> io W (result error IncidentMemory)) :
  (forall im, recorded im -> recorded (edit im)) -> (forall im, recorded im -> gives I (when_ok recorded) (write im)) ->
  gives I (when_ok recorded) (let* fresh := getIncident key in write (edit fresh)).
Proof. intros He Hw. eapply gives_iobind; [apply am_get, AM|]. intros im Hi. by apply Hw, He. Qed.

Section one_diagnosis.
Context (subject : incidentSubject) (diag : Diagnosis) (HS : subject_valid subject) (HD : diagnosis_valid diag).

Lemma gives_updateExisting im now : now <> 0%Z -> gives I (when_ok recorded) (updateExistingIncident im subject diag now).
Proof.
  intros Hn. unfold updateExistingIncident. eapply gives_iobind.
  - apply gives_or_discard, gives_retried. intros _. apply gives_edit; [intros im0 Hi; apply diagnosis_recorded; [done|apply HD|done]|by apply (am_update AM)].
  - intros im' _. apply gives_or_discard, gives_retried. intros _. apply gives_edit; [intros im0 Hi; by apply one_more_recorded|by apply (am_status AM)].
Qed.
Lemma preserves_events f l : (forall e, preserves I (f e)) -> gives I always (each_event f l).
Proof. intros Hf. apply gives_preserves. induction l as [|e l IH]; cbn [each_event]; preserve. Qed.
Lemma gives_fileIncident now : now <> 0%Z -> gives I always (fileIncident subject diag now).
Proof.
  intros Hn. unfold fileIncident. cbv zeta. pose proof (new_incident_recorded subject diag now HS HD Hn) as Hnew.
  eapply gives_bind; [by apply am_create|]. intros [created|e] Hc.
  - eapply (gives_weaken I _ (when_ok always)); [|done]. eapply gives_iobind.
    { apply gives_or_discard, gives_retried. intros attempt. eapply (gives_iobind _ recorded).
      - destruct (0 <? attempt)%nat; [apply am_get, AM|by apply gives_iok].
      - intros current Hcur. by apply am_status, initial_recorded. }
    intros _ _. eapply gives_bind; [apply preserves_events, AM|]. intros _ _. destruct (_ || _); [|by apply gives_iok].
    eapply gives_bind; [apply preserves_events, AM|]. intros _ _. by apply gives_iok.
  - eapply (gives_weaken I _ (when_ok always)); [|done]. destruct (is_already_exists e); [|apply gives_ierr].
    eapply gives_iobind; [apply gives_or_discard, gives_retried; intros; apply am_get, AM|]. intros existing _.
    eapply gives_iobind; [by apply gives_updateExisting|]. intros _ _. by apply gives_iok.
Qed.
Lemma gives_find : gives I (when_ok (fun o => forall im, o = Some im -> recorded im)) (findMatchingIncident subject diag).
Proof.
  unfold findMatchingIncident. eapply gives_iobind; [apply gives_wrap, am_list, AM|]. intros ims Hims. apply gives_iok.
  intros im [Hin _]%find_first_Some. rewrite Forall_forall in Hims. by apply Hims.
Qed.
Lemma gives_record now : now <> 0%Z -> gives I (when_ok always) (record_diagnosis subject diag now).
Proof.
  intros Hn. unfold record_diagnosis. eapply gives_iobind; [apply gives_wrap, gives_find|]. intros [existing|] _.
  - eapply gives_iobind; [by apply gives_updateExisting|]. intros. by apply gives_iok.
  - eapply (gives_iobind _ always); [eapply gives_weaken; [by apply gives_fileIncident|by intros [[]|]]|]. intros _ _.
    eapply gives_bind; [apply gives_find|]. intros. by apply gives_iok.
Qed.

Context (proposer : option (HealthCheck.Proposer W)) (proposals : forall p diag im, proposer = Some p -> preserves I (p diag im)).
Lemma gives_processDiagnosis active : gives I always (processDiagnosis proposer subject diag active).
Proof.
  unfold processDiagnosis. cbv zeta. eapply gives_bind; [apply am_clock, AM|]. intros now Hnow.
  eapply gives_bind; [by apply gives_record|]. intros [incident|e] _; [|by apply gives_ret].
  destruct (su_unattributed subject); [by apply gives_ret|]. destruct proposer as [p|], incident as [im|]; try by apply gives_ret.
  destruct (_ =? _); [by apply gives_ret|]. apply gives_preserves. unfold propose_remediation.
  apply preserves_bind; [|preserve]. apply preserves_bind; [apply preserves_rejections|]. intros [reason|e]; [|preserve].
  destruct (negb _); [preserve|]. apply preserves_bind; [by eapply proposals|preserve].
Qed.
End one_diagnosis.

(** ** What the providers find *)

Definition signals_valid (signals : list Signal) : Prop :=
  Forall signal_valid signals /\ (8 * Z.of_nat (length signals) < 2 ^ 53)%Z.

Lemma sound_signal signals d : Forall signal_valid signals -> sound signals d -> is_label (primarySignalType d).
Proof.
  intros Hs Hd. unfold primarySignalType. destruct (d_Contributing d) as [|c rest] eqn:Hc; [done|].
  rewrite Forall_forall in Hs. apply (sg_type (cg_Signal c)), Hs, (sound_contributing signals d Hd). rewrite Hc. left.
Qed.
Lemma stamped_valid signals rule d p t :
  signals_valid signals -> rule ∈ builtin_rules -> apply_rule signals rule = Some d -> diagnosis_valid (stamp p t d).
Proof.
  intros [Hs Hlen] Hr Hd.
  assert (Hrec : recordable d).
  { eapply apply_rule_recordable; try done. eapply Forall_impl; [exact Hs|]. by intros s [? _ _]. }
  split; [by destruct Hrec|]. apply (sound_signal signals); [done|]. apply stamp_sound. by eapply apply_rule_sound.
Qed.
Lemma rules_give signals seen rules :
  signals_valid signals -> (forall r, r ∈ rules -> r ∈ builtin_rules) -> gives I (Forall diagnosis_valid) (run_rules signals seen rules).
Proof.
  intros Hs. revert seen. induction rules as [|rule rules IH]; intros seen Hr; cbn [run_rules]; [apply gives_ret; constructor|].
  assert (IH' : forall seen, gives I (Forall diagnosis_valid) (run_rules signals seen rules)) by (intros; apply IH; intros r Hin; apply Hr; by right).
  destruct (apply_rule signals rule) as [d|] eqn:Hd; [|done]. cbv zeta. case_decide; [done|].
  eapply gives_bind; [apply am_clock, AM|]. intros t _. eapply gives_bind; [apply IH'|]. intros ds Hds. apply gives_ret.
  constructor; [|done]. eapply stamped_valid; try done. apply Hr. left.
Qed.

(** A provider that gives recordable diagnoses. *)
Definition diagnoses_well (p : DiagnosisProvider W) : Prop :=
  forall signals, signals_valid signals -> gives I (when_ok (Forall diagnosis_valid)) (prov_Diagnose p signals).

Lemma rule_based_well : diagnoses_well (mkProvider providerNameRuleBased RuleBased_Diagnose).
Proof.
  intros [|s rest] Hs; [by apply gives_iok|]. cbn [prov_Diagnose]. unfold RuleBased_Diagnose.
  eapply gives_bind; [by apply rules_give|]. intros ds Hds. apply gives_iok. by rewrite (sort_slice_perm confidence_less ds).
Qed.

Lemma enhances_valid base d : diagnosis_valid base -> enhances base d -> diagnosis_valid d.
Proof.
  intros [[Hc Hcat Hsev] Hsig] (Ec & Ecat & Esev & _ & _ & Econ & _). split; [split; congruence|].
  unfold primarySignalType. by rewrite Econ.
Qed.
Lemma enhance_gives gate base acc `{!LLM W} :
  (forall d, preserves I (ProtectedNamespace gate d)) -> (forall d, preserves I (EnhanceDiagnosis (buildLLMRequest d))) ->
  Forall diagnosis_valid base -> Forall diagnosis_valid acc -> gives I (Forall diagnosis_valid) (enhance_all gate base acc).
Proof.
  intros Hg Hl Hb Ha w Hw. split.
  - apply Forall_forall. intros d [Hd|(b & Hin & He)]%enhance_all_spec; [by rewrite Forall_forall in Ha; apply Ha|].
    rewrite Forall_forall in Hb. by eapply enhances_valid; [apply Hb|].
  - apply enhance_all_invariant; [..|done]; intros; [by apply (preserves_gives I _ _ (am_clock AM))|by apply Hg|by apply Hl].
Qed.
Lemma ai_well gate name `{!LLM W} :
  (forall d, preserves I (ProtectedNamespace gate d)) -> (forall d, preserves I (EnhanceDiagnosis (buildLLMRequest d))) ->
  diagnoses_well (mkProvider name (AI_Diagnose gate)).
Proof.
  intros Hg Hl signals Hs. cbn [prov_Diagnose]. unfold AI_Diagnose.
  eapply gives_iobind; [by apply gives_wrap, rule_based_well|]. intros base Hb. destruct base as [|b rest]; [by apply gives_iok|].
  eapply gives_bind; [by apply enhance_gives|]. intros ds Hds. by apply gives_iok.
Qed.

Lemma dedup_from produced d : d ∈ deduplicateDiagnoses produced -> exists r, r ∈ produced /\ rk_diagnosis r = d.
Proof.
  assert (Hb : forall k r, (foldl dedup_step (∅, []) produced).1 !! k = Some r -> r ∈ produced).
  { induction produced as [|c l IH] using rev_ind; [done|]. intros k r. rewrite foldl_snoc.
    destruct (foldl dedup_step (∅, []) l) as [best order]. cbn [fst] in *. rewrite elem_of_app, list_elem_of_singleton. unfold dedup_step.
    destruct (best !! _) as [cur|]; [destruct (supersedes c cur)|]; cbn [fst]; try (rewrite lookup_insert_Some; intros [[_ ->]|[_ Hr]]; [by right|]);
      [left; by eapply IH..| |left; by eapply IH]. intros Hr. left. by eapply IH. }
  unfold deduplicateDiagnoses. destruct (foldl dedup_step (∅, []) produced) as [best order].
  intros (k & _ & Hd)%list_elem_of_omap. destruct (best !! k) as [r|] eqn:Hr; [|done]. simplify_eq/=. eauto.
Qed.

Section one_cycle.
Context (proposer : option (HealthCheck.Proposer W)) (proposals : forall p diag im, proposer = Some p -> preserves I (p diag im)).
Context (providers : list (DiagnosisProvider W)) (diagnosing : forall p, p ∈ providers -> diagnoses_well p).

Lemma providers_give ps stage signals : signals_valid signals -> (forall p, p ∈ ps -> p ∈ providers) ->
  gives I (when_ok (Forall (fun r => diagnosis_valid (rk_diagnosis r)))) (run_providers stage ps signals).
Proof.
  intros Hs. revert stage. induction ps as [|p ps IH]; intros stage Hps; cbn [run_providers]; [by apply gives_iok|].
  eapply gives_iobind; [apply gives_wrap, diagnosing; [apply Hps; left|done]|]. intros ds Hds.
  eapply gives_iobind; [apply IH; intros q Hq; apply Hps; by right|]. intros more Hmore. apply gives_iok.
  apply Forall_app. split; [|done]. apply Forall_forall. intros r (d & -> & Hd)%list_elem_of_fmap. rewrite Forall_forall in Hds. by apply Hds.
Qed.
Lemma Analyze_gives signals : signals_valid signals -> gives I (when_ok (Forall diagnosis_valid)) (Analyze providers signals).
Proof.
  intros Hs. unfold Analyze. destruct signals as [|s rest] eqn:E; [by apply gives_iok|]. rewrite <- E in *.
  eapply gives_iobind; [by apply providers_give|]. intros produced Hp. apply gives_iok. rewrite (sort_slice_perm confidence_less _).
  apply Forall_forall. intros d (r & Hr & <-)%dedup_from. rewrite Forall_forall in Hp. by apply Hp.
Qed.

Lemma gives_diagnoses subject ds a d active : subject_valid subject -> Forall diagnosis_valid ds ->
  gives I always (process_diagnoses proposer subject ds a d active).
Proof.
  intros Hs Hds. revert a d active. induction Hds as [|diag ds Hd Hds IH]; intros a d active; cbn [process_diagnoses]; [by apply gives_ret|].
  eapply gives_bind; [by apply gives_processDiagnosis|]. intros [r active'] _. apply IH.
Qed.

(** A group's signals are valid ones, and its subject is one of theirs. *)
Lemma grouped_valid signals group : signals_valid signals -> group ∈ GroupSignals signals ->
  signals_valid (sg_Signals group) /\ forall subject, incidentSubjectFor group = Some subject -> subject_valid subject.
Proof.
  intros [Hs Hlen] [_ He]%GroupSignals_elem. unfold expected_group in He. destruct (with_key (sg_Key group) signals) as [|s rest] eqn:Hw; [done|].
  assert (Hin : s ∈ with_key (sg_Key group) signals) by (rewrite Hw; left). apply with_key_elem in Hin as [Hin Hk].
  injection He as He. rewrite <- He. cbn [sg_Signals]. rewrite <- Hw. split; [split|].
  - apply Forall_forall. intros t [Ht _]%with_key_elem. rewrite Forall_forall in Hs. by apply Hs.
  - pose proof (filter_length_le (fun s => key_of s =? sg_Key group) signals). unfold with_key. lia.
  - rewrite Forall_forall in Hs. intros subject Hsub. apply (sg_subject s (Hs s Hin)). exact Hsub.
Qed.
Lemma gives_groups signals groups a d active : signals_valid signals -> (forall g, g ∈ groups -> g ∈ GroupSignals signals) ->
  gives I always (process_groups providers proposer groups a d active).
Proof.
  intros Hs. revert a d active. induction groups as [|g groups IH]; intros a d active Hg; cbn [process_groups]; [by apply gives_ret|].
  destruct (grouped_valid signals g Hs) as [Hgs Hsub]; [apply Hg; left|]. apply (gives_bind I always).
  - unfold processGroup. eapply gives_bind; [by apply Analyze_gives|]. intros [ds|e] Hds; [|by apply gives_ret].
    destruct (incidentSubjectFor g) as [subject|] eqn:He; [|by apply gives_ret]. apply gives_diagnoses; auto.
  - intros [[a' d'] active'] _. apply IH. intros h Hh. apply Hg. by right.
Qed.

(** ** Closing incidents *)

Lemma gives_markResolved im evidence : gives I always (markResolved im evidence).
Proof.
  unfold markResolved. eapply (gives_weaken I _ (when_ok always)); [|by intros [[]|]]. eapply gives_iobind.
  - apply gives_wrap, gives_retried. intros _. apply gives_edit; [intros; by apply resolved_spec_recorded|by apply (am_update AM)].
  - intros fresh _. eapply gives_iobind; [|intros; by apply gives_iok]. apply gives_wrap, gives_retried. intros _.
    apply gives_edit; [intros; by apply phase_recorded|by apply (am_status AM)].
Qed.
Lemma gives_resolveCleared active : gives I always (resolveCleared active).
Proof.
  apply gives_preserves. unfold resolveCleared. apply preserves_iobind; [preserve|]. intros detected.
  apply preserves_iobind; [preserve|]. intros investigating. apply preserves_bind; [preserve|]. intros now.
  apply preserves_bind; [|intros; preserve]. induction (detected ++ investigating)%list as [|im ims IH]; cbn [resolve_all]; [preserve|].
  apply preserves_bind; [|done]. unfold resolve_one. destruct (bool_decide _); [preserve|]. destruct (_ <? _)%Z; [preserve|].
  apply preserves_bind.
  { unfold resolutionEvidence, supersededByPersona, verifyRecovery, verifyAbsentWorkload, workloadPods. preserve. }
  intros evidence. destruct (negb _); [preserve|]. apply preserves_bind; [|intros; preserve].
  eapply preserves_gives, gives_markResolved.
Qed.

(** A cycle told valid signals. *)
Lemma gives_cycle detection : gives I (when_ok signals_valid) detection -> gives I always (health_reconcile detection providers proposer).
Proof.
  intros Hd. unfold health_reconcile. eapply gives_bind; [exact Hd|]. intros [signals|e] Hs; [|by apply gives_ret].
  eapply gives_bind; [by eapply gives_groups|]. intros [[a d] active] _. eapply gives_bind; [apply gives_resolveCleared|].
  intros _ _. by apply gives_ret.
Qed.
End one_cycle.

(** ** The two controllers *)

Lemma triple_valid now ty c cs : negb (ty =? "") && one_of condition_statuses c.1.1 && reason_valid c.1.2 = true -> now <> 0%Z ->
  conditions_valid cs = true -> conditions_valid (set_triple now ty c cs) = true.
Proof. destruct c as [[st re] msg]. intros Hc Hn Hcs. apply setCondition_valid; [done|]. by apply condition_valid_intro. Qed.
Lemma conditions_at_valid t1 t2 t3 im : t1 <> 0%Z -> t2 <> 0%Z -> t3 <> 0%Z -> conditions_valid (im_Conditions im) = true ->
  conditions_valid (conditions_at t1 t2 t3 im) = true.
Proof.
  intros Ht1 Ht2 Ht3 Hcs. unfold conditions_at. repeat apply triple_valid; try done.
  - unfold recurring_condition. by destruct (_ <? _)%Z.
  - unfold resolved_condition. by destruct (im_Phase im =? PhaseResolved).
  - unfold detected_condition. by destruct (active_phase _).
Qed.
Lemma gives_conditions im : recorded im -> gives I recorded (updateConditions im).
Proof.
  intros Hr. unfold updateConditions. eapply gives_bind; [apply am_clock, AM|]. intros t1 Ht1. eapply gives_bind; [apply am_clock, AM|].
  intros t2 Ht2. eapply gives_bind; [apply am_clock, AM|]. intros t3 Ht3. apply gives_ret. apply conditions_recorded; [done|].
  apply conditions_at_valid; try done. pose proof (status_of im Hr) as Hs. by apply andb_true_iff in Hs as [_ Hs].
Qed.

Context (PS : persona_server I).

Lemma gives_incident_reconcile key : gives I always (Incident_Reconcile key).
Proof.
  unfold Incident_Reconcile. eapply gives_bind; [apply am_get, AM|]. intros [im|e] Hi; [|by destruct (is_not_found e); apply gives_ret].
  pose proof (ensureLabels_recorded im Hi) as Hl. destruct (ensureLabels im) as [labelled changed]. cbn [fst] in Hl.
  eapply (gives_weaken I _ (when_ok always)); [|by intros [|]]. eapply (gives_iobind I recorded).
  { destruct changed; [apply gives_wrap; by apply (am_update AM)|by apply gives_iok]. }
  clear dependent im labelled. intros im Hi. eapply gives_bind; [by apply gives_conditions|]. intros updated Hu.
  eapply (gives_iobind I recorded).
  { case_bool_decide; [by apply gives_iok|]. unfold write_conditions. apply gives_wrap, gives_conflicted.
    eapply gives_iobind; [apply am_get, AM|]. intros fresh Hf. eapply gives_bind; [by apply gives_conditions|]. intros u Hu'. by apply (am_status AM). }
  intros im' _. destruct (_ && _); [|by apply gives_iok]. eapply gives_bind; [|intros ? _; by apply gives_iok]. apply gives_preserves.
  by apply preserves_counters.
Qed.

Lemma preserves_resolution action outcome : outcome ∈ outcomes -> preserves I (updateIncidentResolution action outcome).
Proof.
  intros Ho. assert (Hres : forall dur, resolution_valid (resolution_of action outcome dur) = true)
    by (intros dur; unfold resolution_valid; apply one_of_or_unset_iff; by right).
  apply (preserves_gives I (when_ok always)). unfold updateIncidentResolution. cbv zeta. eapply gives_iobind; [apply gives_wrap, am_get, AM|].
  intros im Hi. eapply gives_bind; [apply am_clock, AM|]. intros now Hn. eapply gives_iobind.
  - apply gives_wrap, (am_update AM). destruct (outcome =? "resolved"); [apply labelled; [|done]|]; by apply resolution_recorded.
  - intros _ _. destruct (outcome =? "resolved"); [|by apply gives_iok]. apply gives_wrap, gives_conflicted.
    eapply gives_iobind; [apply am_get, AM|]. intros fresh Hf. eapply gives_iobind; [by apply (am_status AM), phase_recorded|]. intros; by apply gives_iok.
Qed.
Lemma preserves_settle what outcome action : outcome ∈ outcomes -> action_ok action -> preserves I (settle what outcome action).
Proof.
  intros Ho Ha. unfold settle. apply preserves_iobind.
  - apply preserves_wrap. by eapply preserves_gives, (am_action_status AM).
  - intros a. apply preserves_bind; [by apply preserves_resolution|preserve].
Qed.
Lemma status_parts st : action_status_valid st = true <-> one_of_or_unset remediation_phases (ras_Phase st) = true /\
  one_of_or_unset verification_results (ras_VerificationResult st) = true /\ conditions_valid (ras_Conditions st) = true /\
  forallb step_status_valid (ras_StepStatuses st) = true.
Proof. unfold action_status_valid. rewrite !andb_true_iff. tauto. Qed.
Lemma phase_ok p a : one_of remediation_phases p = true -> action_ok a -> action_ok (set_phase p a).
Proof.
  unfold action_ok. rewrite !status_parts. intros Hp (_ & Hv & Hc & Hs).
  change (ras_Phase (ra_Status (set_phase p a))) with p. unfold one_of_or_unset at 1. by rewrite Hp, orb_true_r.
Qed.
Lemma applied_ok t a : action_ok a -> action_ok (set_applied_at t a).
Proof. done. Qed.
Lemma verdict_ok v a : action_ok a -> action_ok (set_verification (verification_string v) a).
Proof. unfold action_ok. rewrite !status_parts. cbn. intros (Hp & _ & Hc & Hs). by destruct v. Qed.
Lemma gives_condition ty st re msg a : negb (ty =? "") && one_of condition_statuses st && reason_valid re = true -> action_ok a ->
  gives I action_ok (with_condition ty st re msg a).
Proof.
  intros Hr Ha. unfold with_condition. eapply gives_bind; [apply am_clock, AM|]. intros now Hn. apply gives_ret. unfold action_ok in *.
  rewrite status_parts in Ha |- *. cbn. destruct Ha as (Hp & Hv & Hc & Hs). split_and!; try done. apply setCondition_valid; [done|by apply condition_valid_intro].
Qed.
Lemma preserves_failed action reason text : reason_valid reason = true -> action_ok action -> preserves I (transitionToFailedWithReason action reason text).
Proof.
  intros Hr Ha. unfold transitionToFailedWithReason. apply (preserves_gives I always). eapply gives_bind; [apply gives_condition; [exact Hr|by apply phase_ok]|].
  intros a Ha'. apply gives_preserves, preserves_settle; [repeat constructor|done].
Qed.
Lemma preserves_patch `{SpecCodec} persona patch : persona_ok persona -> preserves I (applyPatch persona patch).
Proof.
  intros Hp. unfold applyPatch. destruct (patched_spec _ _); [|preserve]. apply preserves_iobind; [|preserve].
  apply preserves_wrap. by eapply preserves_gives, (ps_update I PS).
Qed.
Lemma gives_target action hint : gives I (when_ok persona_ok) (getTargetPersona action hint).
Proof. unfold getTargetPersona. destruct (negb _); [apply gives_ierr|]. apply gives_wrap, PS. Qed.
Lemma preserves_apply `{SpecCodec} action : preserves I (Executor_Apply action).
Proof.
  unfold Executor_Apply. destruct (validatePreconditions _); [preserve|]. apply (preserves_gives I (when_ok always)).
  eapply gives_iobind; [apply gives_wrap, gives_target|]. intros p Hp. destruct (m_DeletionTimestamp _); [apply gives_ierr|].
  apply gives_wrap. eapply gives_weaken; [apply gives_preserves; by apply preserves_patch|by intros []].
Qed.
Lemma preserves_rollback `{SpecCodec} action : preserves I (Rollback_Execute action).
Proof.
  unfold Rollback_Execute. destruct (ra_Rollback _) as [rb|]; [|preserve]. destruct (negb _); [preserve|].
  assert (Hpre : forall pre, preserves I (let* persona := wrap_io "getting target persona for rollback" (getTargetPersona action "") in
    wrap_io "applying rollback patch" (applyPatch persona pre))).
  { intros pre. apply (preserves_gives I (when_ok always)). eapply gives_iobind; [apply gives_wrap, gives_target|]. intros p Hp.
    apply gives_wrap. eapply gives_weaken; [apply gives_preserves; by apply preserves_patch|by intros []]. }
  destruct (ad_PrePatchState _) as [[]|]; first [by apply Hpre|preserve].
Qed.

Lemma preserves_inspect action : preserves I (InspectRollback action).
Proof. unfold InspectRollback. preserve. Qed.
Lemma preserves_verify collectAll action : preserves I collectAll -> preserves I (Verify collectAll action).
Proof. intros Hc. unfold Verify, Verifier_getIncident. preserve. Qed.

(** A condition stamped, a status written, an outcome recorded. *)
Lemma preserves_settled ty st re msg what outcome a :
  negb (ty =? "") && one_of condition_statuses st && reason_valid re = true -> outcome ∈ outcomes -> action_ok a ->
  preserves I (let! a := with_condition ty st re msg a in settle what outcome a).
Proof.
  intros Hr Ho Ha. apply (preserves_gives I always). eapply gives_bind; [by apply gives_condition|]. intros a' Ha'.
  by apply gives_preserves, preserves_settle.
Qed.
Lemma gives_written what a : action_ok a -> gives I (when_ok action_ok) (wrap_io what (updateStatusRA a)).
Proof. intros Ha. by apply gives_wrap, (am_action_status AM). Qed.

Section dispatch.
Context `{SpecCodec} (collectAll : io W (result error (list Signal))) (Hcollect : preserves I collectAll).

Lemma preserves_approved a : action_ok a -> preserves I (handleApproved a).
Proof.
  intros Ha. unfold handleApproved, transitionToAcknowledged, transitionToFailed. destruct (negb _).
  { apply preserves_settled; [reflexivity|repeat constructor|by apply phase_ok]. }
  apply preserves_bind; [apply preserves_apply|]. intros [u|e]; [|by destruct (as_precondition e); apply preserves_failed].
  apply preserves_bind; [preserve|]. intros now. apply (preserves_gives I always).
  eapply gives_bind; [apply gives_condition; [reflexivity|by apply applied_ok, phase_ok]|]. intros a' Ha'.
  eapply (gives_weaken I _ (when_ok always)); [|done]. eapply gives_iobind; [by apply gives_written|]. intros. by apply gives_iok.
Qed.
Lemma preserves_applying a : action_ok a -> preserves I (handleApplying a).
Proof.
  intros Ha. unfold handleApplying, transitionToFailed. destruct (ra_AppliedAt a); [|by apply preserves_failed].
  apply preserves_bind; [preserve|]. intros now. destruct (_ <? _)%Z; [preserve|]. apply preserves_iobind; [|preserve].
  by eapply preserves_gives, gives_written, phase_ok.
Qed.
Lemma outcome_reason_valid o : reason_valid (outcome_Reason o) = true.
Proof. unfold outcome_Reason. destruct (negb _); [reflexivity|]. by destruct (Diverged o). Qed.
Lemma scope_status_valid o : one_of condition_statuses (scope_status o) = true.
Proof. unfold scope_status. destruct (outcome_Reason o =? ReasonWorkloadDiverged); [done|]. by destruct (outcome_Reason o =? ReasonWorkloadUnreadable). Qed.
Lemma preserves_verifying a : action_ok a -> preserves I (handleVerifying collectAll a).
Proof.
  intros Ha. unfold handleVerifying. apply preserves_bind; [by apply preserves_verify|]. intros verdict. cbv zeta.
  set (v := match verdict.2 with Some _ => _ | None => _ end). pose proof (verdict_ok v a Ha) as Hv. destruct v.
  - unfold handleVerificationHealthy. apply preserves_settled; [reflexivity|repeat constructor|by apply phase_ok].
  - unfold handleVerificationDegraded, recordRollbackScope, transitionToFailed. apply preserves_bind; [apply preserves_rollback|].
    intros [u|e]; [|by apply preserves_failed]. apply (preserves_gives I always). eapply gives_bind; [apply gives_condition; [reflexivity|by apply phase_ok]|].
    intros a1 Ha1. eapply gives_bind; [|intros a2 Ha2; apply gives_preserves, preserves_settle; [repeat constructor|exact Ha2]].
    eapply gives_bind; [apply gives_preserves, preserves_inspect|]. intros o _. apply gives_condition; [|done].
    by rewrite scope_status_valid, outcome_reason_valid.
  - unfold handleVerificationUnknown, transitionToFailed. cbv zeta. destruct (_ <=? _)%Z; [by apply preserves_failed|].
    apply (preserves_gives I always). eapply gives_bind; [by apply gives_condition|]. intros a' Ha'. eapply (gives_weaken I _ (when_ok always)); [|done].
    eapply gives_iobind; [by apply gives_written|]. intros. by apply gives_iok.
Qed.
Lemma preserves_recordRejection a : preserves I (recordRejection a).
Proof.
  unfold recordRejection. destruct (hasCondition _ _); [preserve|]. apply preserves_wrap. refine (preserves_conflict I _ _).
  apply (preserves_gives I (when_ok always)). eapply gives_iobind; [apply am_action, AM|]. intros fresh Hf. destruct (_ || _); [by apply gives_iok|].
  eapply gives_bind; [by apply gives_condition|]. intros stamped Hs. eapply gives_iobind; [by apply (am_action_status AM)|]. intros. by apply gives_iok.
Qed.
Lemma preserves_remediation key : preserves I (Remediation_Reconcile collectAll key).
Proof.
  unfold Remediation_Reconcile. apply (preserves_gives I always). eapply gives_bind; [apply am_action, AM|].
  intros [a|e] Ha; [|destruct (is_not_found e); apply gives_preserves; preserve]. apply gives_preserves, preserves_iobind; [|preserve].
  unfold dispatch. cbv zeta. destruct (_ =? _); [preserve|]. destruct (_ =? _); [by apply preserves_approved|].
  destruct (_ =? _); [by apply preserves_applying|]. destruct (_ =? _); [by apply preserves_verifying|].
  destruct (_ =? _); [|preserve]. apply preserves_iobind; [apply preserves_recordRejection|preserve].
Qed.
End dispatch.
End incidents.

(** ** A server that checks *)

Section strict.
Context `{QuantityOps}.

(** A cluster in memory whose API server applies the rules, and what it refused. *)
Inductive refused_write := RefusedIncident (im : IncidentMemory) | RefusedAction (a : RemediationAction) | RefusedPersona (p : ApplicationPersona).
Record StrictMem := mkStrict { st_mem : Mem; st_refused : list refused_write }.
Definition with_mem (m : Mem) (w : StrictMem) : StrictMem := mkStrict m (st_refused w).
#[local] Instance plain_client : Client StrictMem := lift_client st_mem with_mem.

Definition spec_rules (im : IncidentMemory) : bool := meta_valid (im_Meta im) && incident_spec_valid (im_Spec im).
Definition status_rules (im : IncidentMemory) : bool := incident_status_valid (im_Status im).
Definition checking {A} (rules : A -> bool) (refused : A -> refused_write) (write : A -> io StrictMem (result error A)) (a : A)
  : io StrictMem (result error A) :=
  if rules a then write a
  else fun w => (Err (ErrAPI OtherAPIError "is invalid"), mkStrict (st_mem w) (st_refused w ++ [refused a])).
#[export] Instance strict_client : Client StrictMem := {|
  clock := clock; getRA := getRA; listRA := listRA; createRA := createRA; 
  updateStatusRA := checking (fun a => action_status_valid (ra_Status a)) RefusedAction updateStatusRA;
  getPersona := getPersona; listPersonas := listPersonas; updatePersona := updatePersona;
  updateStatusPersona := checking (fun p => persona_status_valid (ap_Status p)) RefusedPersona updateStatusPersona;
  getIncident := getIncident; listIncidents := listIncidents;
  createIncident := checking spec_rules RefusedIncident createIncident; updateIncident := checking spec_rules RefusedIncident updateIncident;
  updateStatusIncident := checking status_rules RefusedIncident updateStatusIncident;
  listClusterPersonas := listClusterPersonas; getDeployment := getDeployment; listDeployments := listDeployments;
  listPods := listPods; listPodsOnNode := listPodsOnNode; listNodes := listNodes;
|}.
#[export] Instance strict_reads : ClientReads (W := StrictMem).
Proof. pose proof (lift_client_reads (V := Mem) st_mem with_mem) as R. constructor; intros; apply R; by intros []. Qed.

(** Nothing was refused, and what is stored keeps to the rules. *)
Definition admitted (w : StrictMem) : Prop :=
  st_refused w = [] /\ mem_now (st_mem w) <> 0%Z /\ (forall k im, mem_incidents (st_mem w) !! k = Some im -> recorded im) /\
  (forall k a, mem_ra (st_mem w) !! k = Some a -> action_ok a) /\ forall k p, mem_personas (st_mem w) !! k = Some p -> persona_ok p.

(** What the rules say of a cluster in memory. *)
Definition lawful (m : Mem) : Prop :=
  mem_now m <> 0%Z /\ (forall k im, mem_incidents m !! k = Some im -> recorded im) /\ (forall k a, mem_ra m !! k = Some a -> action_ok a) /\
  forall k p, mem_personas m !! k = Some p -> persona_ok p.
Lemma lifted_admitted {A} (P : A -> Prop) (m : io Mem A) : gives lawful P m -> gives admitted P (lifted st_mem with_mem m).
Proof. intros Hm [w r] (Hr & Hw). unfold lifted. destruct (Hm w Hw) as [Ha Hw']. cbn [st_mem] in *. destruct (m w) as [a w']. by split; [|split]. Qed.

(** A write that is not refused by a fault, of something lawful. *)
Lemma write_lawful {A} (P : A -> Prop) (f : Mem -> Mem) (a : A) :
  P a -> (forall w, lawful w -> lawful (f w)) -> gives lawful (when_ok P) (mem_write f a).
Proof.
  intros Ha Hf w Hw. unfold mem_write, pop_fault. destruct (mem_faults w) as [|[k|] fs]; (split; [done|]); cbn; [by apply Hf|done|].
  apply Hf. exact Hw.
Qed.
Lemma put_incident_lawful im w : recorded im -> lawful w -> lawful (put_incident im w).
Proof. intros Him (Hn & Hw & Ha & Hp). split_and!; [done| |done..]. intros k im'. cbn. intros [[_ <-]|[_ Hin]]%lookup_insert_Some; [done|by eapply Hw]. Qed.
Lemma put_ra_lawful a w : action_ok a -> lawful w -> lawful (put_ra a w).
Proof. intros Hok (Hn & Hw & Ha & Hp). split_and!; [done..| |done]. intros k a'. cbn. intros [[_ <-]|[_ Hin]]%lookup_insert_Some; [done|by eapply Ha]. Qed.
Lemma put_persona_lawful p w : persona_ok p -> lawful w -> lawful (put_persona p w).
Proof. intros Hok (Hn & Hw & Ha & Hp). split_and!; [done..|]. intros k p'. cbn. intros [[_ <-]|[_ Hin]]%lookup_insert_Some; [done|by eapply Hp]. Qed.
Lemma spec_rules_recorded im : recorded im -> spec_rules im = true.
Proof. intros [Hv _ _ _]. apply valid_iff in Hv as (Hm & Hs & _). by apply andb_true_iff. Qed.

Lemma strict_admits `{EventSink StrictMem} :
  (forall e, preserves admitted (StoreEvent e) /\ preserves admitted (EmitEvent e)) -> admitting admitted.
Proof.
  intros Hev. split.
  - intros im Him. cbn [createIncident strict_client]. unfold checking. rewrite spec_rules_recorded by done.
    apply (lifted_admitted (when_ok recorded) (createIncident im)). intros w Hw. cbn.
    destruct (mem_incidents w !! meta_key (im_Meta im)); [done|]. apply (write_lawful recorded); [done| |done].
    intros w' Hw'. apply put_incident_lawful; [by apply with_status|done].
  - intros im Him. cbn [updateIncident strict_client]. unfold checking. rewrite spec_rules_recorded by done.
    apply (lifted_admitted (when_ok recorded) (updateIncident im)), write_lawful; [done|]. intros w Hw. unfold spec_incident.
    destruct (mem_incidents w !! _) as [old|] eqn:E; [|done]. apply put_incident_lawful; [|done]. apply with_status; [done|].
    destruct Hw as (_ & Hi & _). by eapply status_of, Hi.
  - intros im Him. cbn [updateStatusIncident strict_client]. unfold checking, status_rules. rewrite status_of by done.
    apply (lifted_admitted (when_ok recorded) (updateStatusIncident im)), write_lawful; [done|]. intros w Hw. unfold status_incident.
    destruct (mem_incidents w !! _) as [old|] eqn:E; [|done]. apply put_incident_lawful; [|done]. apply with_status; [|by apply status_of].
    destruct Hw as (_ & Hi & _). by eapply Hi.
  - intros k. apply gives_read; [apply getIncident_reads|]. intros [w r] (_ & _ & Hi & _). cbn. destruct (mem_incidents w !! k) eqn:E; [by eapply Hi|done].
  - intros o. apply gives_read; [apply listIncidents_reads|]. intros [w r] (_ & _ & Hi & _). cbn. apply Forall_forall.
    intros im [Hin _]%list_elem_of_In%filter_In. apply list_elem_of_In, list_elem_of_fmap in Hin as ([k im'] & -> & Hin%elem_of_map_to_list).
    by eapply Hi.
  - apply gives_read; [apply clock_reads|]. by intros [w r] (_ & Hn & _).
  - intros k. apply gives_read; [apply getRA_reads|]. intros [w r] (_ & _ & _ & Ha & _). cbn. destruct (mem_ra w !! k) eqn:E; [by eapply Ha|done].
  - intros a Ha. cbn [updateStatusRA strict_client]. unfold checking. rewrite Ha.
    apply (lifted_admitted (when_ok action_ok) (updateStatusRA a)), write_lawful; [done|]. intros w Hw. unfold status_ra.
    destruct (mem_ra w !! _); [by apply put_ra_lawful|done].
  - intros e. apply Hev.
  - intros e. apply Hev.
Qed.
Lemma strict_personas : persona_server admitted.
Proof.
  split.
  - intros k. apply gives_read; [apply getPersona_reads|]. intros [w r] (_ & _ & _ & _ & Hp). cbn. destruct (mem_personas w !! k) eqn:E; [by eapply Hp|done].
  - intros o. apply gives_read; [apply listPersonas_reads|]. intros [w r] (_ & _ & _ & _ & Hp). cbn. apply Forall_forall.
    intros p [Hin _]%list_elem_of_In%filter_In. apply list_elem_of_In, list_elem_of_fmap in Hin as ([k p'] & -> & Hin%elem_of_map_to_list). by eapply Hp.
  - intros p Hp. apply (lifted_admitted (when_ok persona_ok) (updatePersona p)), write_lawful; [done|]. intros. by apply put_persona_lawful.
  - intros p Hp. cbn [updateStatusPersona strict_client]. unfold checking. rewrite Hp.
    apply (lifted_admitted (when_ok persona_ok) (updateStatusPersona p)), write_lawful; [done|]. intros. by apply put_persona_lawful.
  - apply gives_read; [apply clock_reads|]. by intros [w r] (_ & Hn & _).
Qed.
Lemma creation_admitted a : preserves admitted (createRA a).
Proof.
  apply (preserves_gives admitted always), (lifted_admitted always (createRA a)). eapply (gives_weaken lawful _ (when_ok always)); [|done].
  intros w Hw. cbn. destruct (mem_ra w !! _); [done|]. apply (write_lawful always); [done| |done]. intros w' Hw'. by apply put_ra_lawful.
Qed.

(** ** Any run of the four *)

Inductive writer_step :=
| HealthCycle (told : result error (list Signal))
| ReconcileIncident (key : ObjectKey)
| ReconcileRemediation (key : ObjectKey) (told : result error (list Signal))
| ReconcilePersona (key : ObjectKey).

Section run.
Context `{!SpecCodec} `{!Retry StrictMem} `{!RetryLaws (W := StrictMem)} `{!SortSlice} `{!SortSliceSpec} `{!EventSink StrictMem} `{!LLM StrictMem}.
Context `{LabelSelectors} `{MapRange} `{!Prometheus StrictMem} (url : string).
Context (sc : SafetyCheckerImpl) (planner : option (Planner StrictMem)).

Definition step_providers : list (DiagnosisProvider StrictMem) :=
  [mkProvider providerNameRuleBased RuleBased_Diagnose; mkProvider providerNameAI (AI_Diagnose (Some (NamespaceProtected (Some sc))))].
Definition perform (s : writer_step) (w : StrictMem) : StrictMem :=
  match s with
  | HealthCycle told => (health_reconcile (mret told) step_providers (Some (Propose sc planner)) w).2
  | ReconcileIncident key => (Incident_Reconcile key w).2
  | ReconcileRemediation key told => (Remediation_Reconcile (mret told) key w).2
  | ReconcilePersona key => (ApplicationPersona_Reconcile url key w).2
  end.
Definition told_valid (s : writer_step) : Prop :=
  match s with HealthCycle (Ok signals) => signals_valid signals | _ => True end.

(** What else runs: the event sink, the model, the planner and Prometheus touch nothing stored. *)
Record leave_objects : Prop := {
  li_sink e : preserves admitted (StoreEvent e) /\ preserves admitted (EmitEvent e);
  li_model r : preserves admitted (EnhanceDiagnosis r);
  li_planner p rc : planner = Some p -> preserves admitted (@PlanRemediation _ StrictMem p rc);
  li_baseline u ns name : preserves admitted (GetResourceBaseline u ns name);
}.

Lemma perform_admitted s w : leave_objects -> told_valid s -> admitted w -> admitted (perform s w).
Proof.
  intros [Hsink Hmodel Hplanner Hbaseline] Hs Hw. pose proof (strict_admits Hsink) as AM. destruct s as [told|key|key told|key]; cbn [perform].
  - revert w Hw. apply (preserves_gives admitted always). apply (gives_cycle admitted AM).
    + intros p diag im [= <-]. apply preserves_Propose; [intros; apply creation_admitted| |exact Hplanner].
      intros a. by eapply preserves_gives, (am_action_status admitted AM).
    + intros p [->|[->|[]%not_elem_of_nil]%elem_of_cons]%elem_of_cons; [by apply rule_based_well|]. apply (ai_well admitted AM); [|intros; apply Hmodel].
      intros d w Hw. cbn [ProtectedNamespace].
      assert (Hr : forall nss checked, preserves admitted (check_namespaces (NamespaceProtected (Some sc)) checked nss)); [|by apply Hr].
      induction nss as [|ns nss IH]; intros checked; cbn [check_namespaces]; [apply preserves_ret|]. destruct (existsb _ _); [apply IH|].
      destruct (ns =? ""); [apply preserves_ret|]. apply preserves_bind; [|by intros []; [apply preserves_ret|apply IH]].
      unfold NamespaceProtected. apply preserves_bind; [apply preserves_NamespaceDenied|]. intros; apply preserves_ret.
    + apply gives_ret. exact Hs.
  - revert w Hw. eapply preserves_gives, gives_incident_reconcile, strict_personas. exact AM.
  - revert w Hw. apply (preserves_remediation admitted AM strict_personas). apply preserves_ret.
  - revert w Hw. by apply (preserves_persona_reconcile admitted strict_personas).
Qed.

(** C12. The API server never has cause to refuse what the operator writes on an
    incident, or on the status of an action or of an application's persona.
    Whatever the health-check loop and the incident, remediation and persona
    controllers do, in whatever order and however often, on a server that checks
    every create, update and status write against the rules of the CRDs and of
    object metadata: as long as what the loop is told names personas and
    workloads that fit in a label, nothing is refused, every stored incident
    keeps to the rules and so does the status of every stored action and persona,
    whatever the model, the planner and Prometheus answer. *)
Theorem writes_admitted (steps : list writer_step) (w : StrictMem) :
  leave_objects -> Forall told_valid steps -> admitted w ->
  let w' := foldl (fun w s => perform s w) w steps in
  st_refused w' = [] /\
  (forall k im, mem_incidents (st_mem w') !! k = Some im -> incident_valid im = true) /\
  (forall k a, mem_ra (st_mem w') !! k = Some a -> action_status_valid (ra_Status a) = true) /\
  forall k p, mem_personas (st_mem w') !! k = Some p -> persona_status_valid (ap_Status p) = true.
Proof.
  intros Hl Hs Hw. cbv zeta. assert (Hall : admitted (foldl (fun w s => perform s w) w steps)).
  { revert w Hw. induction Hs as [|s steps Hs Hrest IH]; intros w Hw; [done|]. cbn [foldl]. by apply IH, perform_admitted. }
  destruct Hall as (Hr & _ & Hi & Ha & Hp). split_and!; [done| |exact Ha|exact Hp]. intros k im Hin. by destruct (Hi k im Hin).
Qed.
End run.
End strict.

(** ** Witnesses *)

#[local] Existing Instance int_quantity.
#[local] Instance silent_events : EventSink StrictMem := {| StoreEvent _ := iok tt; EmitEvent _ := iok tt |}.
#[local] Instance silent_model : LLM StrictMem := fun _ => iok (mkResponse "" "").

Definition oom_of (persona : string) : Signal :=
  set_persona (Some (mkPersonaRef "ApplicationPersona" persona "shop")) (ex_signal SignalOOMKilled "api-1" "shop" persona (60 * minute)%Z).
(** A shop with one persona and its Deployment. *)
Definition strict_start : StrictMem :=
  mkStrict (mkMem _ (60 * minute)%Z ∅ (mem_personas (ex_personas "100")) ∅ [] (mem_deployments (ex_personas "100")) [] [] [] None) [].
Definition strict_run (steps : list writer_step) : StrictMem := foldl (fun w s => perform "" (mkChecker []) None s w) strict_start steps.
Definition api_run : list writer_step :=
  [HealthCycle (Ok [oom_of "api"]); ReconcileIncident (mkKey "im-shop-api-oomkilled-a476546e10c8" "shop");
   HealthCycle (Ok [oom_of "api"]); ReconcileRemediation (mkKey "ra-1" "shop") (Err (ErrText "down"));
   ReconcilePersona (mkKey "api" "shop")].

Lemma writes_admitted_witness :
  st_refused (strict_run api_run) = [] /\
  map (fun kv => (kv.1, ims_OccurrenceCount (im_Status kv.2), incident_valid kv.2)) (map_to_list (mem_incidents (st_mem (strict_run api_run))))
  = [(mkKey "im-shop-api-oomkilled-a476546e10c8" "shop", 2%Z, true)] /\
  map (fun kp => (apst_Phase (ap_Status kp.2), apst_ActiveIncidents (ap_Status kp.2))) (map_to_list (mem_personas (st_mem (strict_run api_run))))
  = [("Failed", 1%Z)].
Proof.
  split; [|split; vm_compute; reflexivity]. refine (proj1 (writes_admitted "" (mkChecker []) None api_run strict_start _ _ _)).
  - split; [by split; intros w Hw|by intros r w Hw|done|by intros u ns name w Hw].
  - assert (Hv : signals_valid [oom_of "api"]); [|by unfold api_run; rewrite !Forall_cons].
    split; [|done]. apply Forall_singleton. split; [repeat constructor|reflexivity|].
    intros subject [= <-]. by split.
  - split_and!; [done..|]. intros k p. cbn. by intros [_ <-]%lookup_singleton_Some.
Defined.

(** A finding: a Deployment or a persona may have a name of up to 253 bytes, a
    label's value 63.  The incident of such an application is refused at every
    attempt, so its outages are never recorded. *)
Definition long_name : string := String.concat "" (List.repeat "a" 64).
Example long_names_are_refused :
  let w := strict_run [HealthCycle (Ok [oom_of long_name]); HealthCycle (Ok [oom_of long_name])] in
  mem_incidents (st_mem w) = ∅ /\ length (st_refused w) = 2%nat.
Proof. split; vm_compute; reflexivity. Qed.
